(** * ChessBot: board state, move generation, make/unmake and end-of-game
      detection of [game.cpp], embedded shallowly.

    The C++ program keeps one [Chess] object that every operation mutates
    in place.  Here the object is a record and every member function is a
    function from records to records.

    Two things of the C++ text are kept visible in the types:
    - [board[y][x]] is a raw array access.  A read whose row or column is
      outside [0..7] has no value given by the program; the reads below
      return [option], and a function whose result would depend on such a
      read returns [None].
    - [std::string] values are lists of character codes ([char] as [Z]). *)

From Stdlib Require Import ZArith List Bool Lia Ascii.
Import ListNotations.
Local Open Scope Z_scope.

(** ** Constants and enumerations *)

Definition BOARD_SIZE : Z := 8.

Definition MOVES_PER_LINE : Z := 5.

Definition B_KING : Z := -6.

Definition B_QUEEN : Z := -5.

Definition B_BISHOP : Z := -4.

Definition B_KNIGHT : Z := -3.

Definition B_ROOK : Z := -2.

Definition B_PAWN : Z := -1.

Definition EMPTY : Z := 0.

Definition W_KING : Z := 1.

Definition W_QUEEN : Z := 2.

Definition W_BISHOP : Z := 3.

Definition W_KNIGHT : Z := 4.

Definition W_ROOK : Z := 5.

Definition W_PAWN : Z := 6.

Inductive Moves : Type := NORMAL | CASTLING | PROMOTION | EN_PASSANT.

Inductive Endgame : Type := CHECKMATE | FIFTY_MOVES | THREEFOLD_REP | QUIT.

Definition Moves_eqb (a b : Moves) : bool :=
  match a, b with
  | NORMAL, NORMAL | CASTLING, CASTLING
  | PROMOTION, PROMOTION | EN_PASSANT, EN_PASSANT => true
  | _, _ => false
  end.

(** A C++ [bool] used as an integer ([7*turn], [5*whites_turn]). *)
Definition b2z (b : bool) : Z := if b then 1 else 0.

(** ** The board: [char board[8][8]], row-major, [board[y][x]] *)

Definition Board : Type := list Z.

Definition STARTING_BOARD : Board :=
  [B_ROOK; B_KNIGHT; B_BISHOP; B_QUEEN; B_KING; B_BISHOP; B_KNIGHT; B_ROOK] ++
  [B_PAWN; B_PAWN; B_PAWN; B_PAWN; B_PAWN; B_PAWN; B_PAWN; B_PAWN] ++
  [EMPTY; EMPTY; EMPTY; EMPTY; EMPTY; EMPTY; EMPTY; EMPTY] ++
  [EMPTY; EMPTY; EMPTY; EMPTY; EMPTY; EMPTY; EMPTY; EMPTY] ++
  [EMPTY; EMPTY; EMPTY; EMPTY; EMPTY; EMPTY; EMPTY; EMPTY] ++
  [EMPTY; EMPTY; EMPTY; EMPTY; EMPTY; EMPTY; EMPTY; EMPTY] ++
  [W_PAWN; W_PAWN; W_PAWN; W_PAWN; W_PAWN; W_PAWN; W_PAWN; W_PAWN] ++
  [W_ROOK; W_KNIGHT; W_BISHOP; W_QUEEN; W_KING; W_BISHOP; W_KNIGHT; W_ROOK].

Definition WithinBounds (coord : Z) : bool :=
  (0 <=? coord) && (coord <? BOARD_SIZE).

Definition cell (y x : Z) : nat := Z.to_nat (BOARD_SIZE * y + x).

(** [board[y][x]] as a read: [None] when the row or the column is not a
    board index. *)
Definition rd (b : Board) (y x : Z) : option Z :=
  if WithinBounds y && WithinBounds x then nth_error b (cell y x) else None.

Fixpoint upd (l : list Z) (n : nat) (v : Z) : list Z :=
  match l, n with
  | [], _ => []
  | _ :: t, O => v :: t
  | h :: t, S n' => h :: upd t n' v
  end.

(** [board[y][x] = v]: [None] when the row or the column is not a board
    index (the store would land outside the square it names). *)
Definition wr (b : Board) (y x v : Z) : option Board :=
  if WithinBounds y && WithinBounds x then Some (upd b (cell y x) v) else None.

Definition Board_eqb (b1 b2 : Board) : bool :=
  (length b1 =? length b2)%nat &&
  forallb (fun p => fst p =? snd p) (combine b1 b2).

(** [std::equal] over the 64 cells of two boards. *)
Definition AreBoardsEqual (board1 board2 : Board) : bool :=
  Board_eqb (firstn 64 board1) (firstn 64 board2).

(** ** Option as the monad of "defined by the program text" *)

Notation "x <- a ;; k" :=
  (match a with Some x => k | None => None end)
  (at level 61, a at next level, right associativity).

Notation "' p <- a ;; k" :=
  (match a with Some p => k | None => None end)
  (at level 61, p pattern, a at next level, right associativity).

(** The [return true] chain of [IsCheck]: the first test that fires (or
    that is undefined) ends the function. *)
Notation "a 'orelse' k" :=
  (match a with Some false => k | other => other end)
  (at level 62, right associativity).

(** ** Check detection: [Chess::IsCheck(const bool &turn)] *)

(** [test(board[j][i]) && guard], where [guard] is made of bound tests
    only.  C++ evaluates the read first.  When the read is outside the
    board and the guard is false, the value read is dropped by [&&]; with
    [strict] the read itself is already an error, which is the embedding
    in which every index is checked. *)
Definition probe (strict : bool) (b : Board) (test : Z -> bool)
    (j i : Z) (guard : bool) : option bool :=
  match rd b j i with
  | Some v => Some (test v && guard)
  | None => if strict || guard then None else Some false
  end.

Fixpoint probes (strict : bool) (b : Board) (target : Z)
    (l : list (Z * Z * bool)) : option bool :=
  match l with
  | [] => Some false
  | (j, i, g) :: t =>
      probe strict b (Z.eqb target) j i g orelse probes strict b target t
  end.

(** Inner loop of the king search: [for(j=0;j<BOARD_SIZE;++j)] on column
    [i]; [Some (Some j)] is the [break]. *)
Fixpoint column_scan (b : Board) (k i j : Z) (n : nat) : option (option Z) :=
  match n with
  | O => Some None
  | S n' =>
      v <- rd b j i ;;
      if v =? k then Some (Some j) else column_scan b k i (j + 1) n'
  end.

(** Outer loop [for(i=0;x==-1;++i)]: it has no bound of its own, so after
    column 7 it reads outside the board. *)
Fixpoint king_scan (b : Board) (k i : Z) (n : nat) : option (Z * Z) :=
  match n with
  | O => None
  | S n' =>
      r <- column_scan b k i 0 8%nat ;;
      match r with
      | Some j => Some (i, j)
      | None => king_scan b k (i + 1) n'
      end
  end.

(** One of the eight ray loops.  [a1] and [a2] are the two attackers of
    the ray; the loop stops at the edge or behind the first piece.  The
    C++ loops test only the coordinate that varies; the other one is the
    king's and is a board index. *)
Fixpoint ray (b : Board) (a1 a2 : Z) (i j di dj : Z) (n : nat) : option bool :=
  match n with
  | O => Some false
  | S n' =>
      if WithinBounds i && WithinBounds j then
        v <- rd b j i ;;
        if v =? a1 then Some true
        else if v =? a2 then Some true
        else if negb (v =? EMPTY) then Some false
        else ray b a1 a2 (i + di) (j + dj) di dj n'
      else Some false
  end.

Definition king_ring (x y : Z) : list (Z * Z * bool) :=
  flat_map (fun i =>
    map (fun j => (j, i, WithinBounds i && WithinBounds j))
        [y - 1; y; y + 1])
    [x - 1; x; x + 1].

Definition knight_ring (x y : Z) : list (Z * Z * bool) :=
  [ (y - 1, x - 2, (y >? 0) && (x >? 1));
    (y - 1, x + 2, (y >? 0) && (x <? BOARD_SIZE - 2));
    (y + 1, x - 2, (y <? BOARD_SIZE - 1) && (x >? 1));
    (y + 1, x + 2, (y <? BOARD_SIZE - 1) && (x <? BOARD_SIZE - 2));
    (y - 2, x - 1, (y >? 1) && (x >? 0));
    (y - 2, x + 1, (y >? 1) && (x <? BOARD_SIZE - 1));
    (y + 2, x - 1, (y <? BOARD_SIZE - 2) && (x >? 0));
    (y + 2, x + 1, (y <? BOARD_SIZE - 2) && (x <? BOARD_SIZE - 1)) ].

Definition pawn_ring (turn : bool) (x y : Z) : list (Z * Z * bool) :=
  [ (y + (if turn then -1 else 1), x + 1, x <? BOARD_SIZE - 1);
    (y + (if turn then -1 else 1), x - 1, x >? 0) ].

Definition IsCheck_gen (strict : bool) (b : Board) (turn : bool) : option bool :=
  '(x, y) <- king_scan b (B_KING + 7 * b2z turn) 0 8%nat ;;
  let rook := W_ROOK - 7 * b2z turn in
  let queen := W_QUEEN - 7 * b2z turn in
  let bishop := W_BISHOP - 7 * b2z turn in
  ray b rook queen (x + 1) y 1 0 8%nat orelse
  ray b rook queen (x - 1) y (-1) 0 8%nat orelse
  ray b rook queen x (y + 1) 0 1 8%nat orelse
  ray b rook queen x (y - 1) 0 (-1) 8%nat orelse
  ray b bishop queen (x - 1) (y - 1) (-1) (-1) 8%nat orelse
  ray b bishop queen (x - 1) (y + 1) (-1) 1 8%nat orelse
  ray b bishop queen (x + 1) (y - 1) 1 (-1) 8%nat orelse
  ray b bishop queen (x + 1) (y + 1) 1 1 8%nat orelse
  probes strict b (W_KING - 7 * b2z turn) (king_ring x y) orelse
  probes strict b (W_KNIGHT - 7 * b2z turn) (knight_ring x y) orelse
  probes strict b (W_PAWN - 7 * b2z turn) (pawn_ring turn x y).

(** The function as the program runs it: a read outside the board whose
    value [&&] then drops does not affect the answer. *)
Definition IsCheck (b : Board) (turn : bool) : option bool :=
  IsCheck_gen false b turn.

(** The same text with every index checked: any read outside the board
    is the out-of-bounds outcome [None]. *)
Definition IsCheck_checked (b : Board) (turn : bool) : option bool :=
  IsCheck_gen true b turn.

(** ** Strings: [std::string] as the list of its [char] codes *)

Definition str : Type := list Z.

(** [static_cast<char>]: wrap to a signed byte. *)
Definition to_char (z : Z) : Z := (z + 128) mod 256 - 128.

(** [s[k]]; [None] past the end of the string. *)
Definition sget (s : str) (k : nat) : option Z := nth_error s k.

Definition ToString (x1 y1 x2 y2 : Z) : str :=
  [to_char (x1 + 97); to_char (56 - y1); to_char (x2 + 97); to_char (56 - y2)].

(** [ChangeToRealCoordinates(s[0], s[1], s[2], s[3])]: the four numerical
    coordinates [(x1, y1, x2, y2)] the first four characters become. *)
Definition ChangeToRealCoordinates (s : str) : option (Z * Z * Z * Z) :=
  c0 <- sget s 0 ;; c1 <- sget s 1 ;; c2 <- sget s 2 ;; c3 <- sget s 3 ;;
  Some (to_char (c0 - 97), to_char (56 - c1), to_char (c2 - 97), to_char (56 - c3)).

Fixpoint str_ltb (a b : str) : bool :=
  match a, b with
  | _, [] => false
  | [], _ :: _ => true
  | x :: a', y :: b' => (x <? y) || ((x =? y) && str_ltb a' b')
  end.

Fixpoint str_eqb (a b : str) : bool :=
  match a, b with
  | [], [] => true
  | x :: a', y :: b' => (x =? y) && str_eqb a' b'
  | _, _ => false
  end.

(** [std::forward_list::merge]: the head of the argument goes first only
    when it is strictly smaller than the head of the receiver. *)
Fixpoint merge (l1 : list str) : list str -> list str :=
  fix merge_into (l2 : list str) : list str :=
    match l1, l2 with
    | [], _ => l2
    | _, [] => l1
    | a :: t1, c :: t2 =>
        if str_ltb c a then c :: merge_into t2 else a :: merge t1 l2
    end.

(** ** The game object *)

(** [Bot] (a [Player] with a search depth); the name only feeds the
    display and is left out. *)
Record Bot : Type := mkBot {
  castling : bool;
  score : Z;
  difficulty : Z
}.

Definition LogEntry : Type := (Moves * str)%type.

Record Chess : Type := mkChess {
  board : Board;
  white : Bot;
  black : Bot;
  all_game_moves : list LogEntry;
  whites_turn : bool;
  moves_after_last_pawn_move_or_capture : Z;
  white_bot_random : bool;
  black_bot_random : bool
}.

(** The object built by [main]: both random flags are false there. *)
Definition new_game (difficulty1 difficulty2 : Z) : Chess :=
  mkChess STARTING_BOARD (mkBot true 0 difficulty1) (mkBot true 0 difficulty2)
          [] true 0 false false.

Definition set_board (c : Chess) (b : Board) : Chess :=
  mkChess b (white c) (black c) (all_game_moves c) (whites_turn c)
          (moves_after_last_pawn_move_or_capture c)
          (white_bot_random c) (black_bot_random c).

Definition set_log (c : Chess) (l : list LogEntry) : Chess :=
  mkChess (board c) (white c) (black c) l (whites_turn c)
          (moves_after_last_pawn_move_or_capture c)
          (white_bot_random c) (black_bot_random c).

Definition set_counter (c : Chess) (n : Z) : Chess :=
  mkChess (board c) (white c) (black c) (all_game_moves c) (whites_turn c)
          n (white_bot_random c) (black_bot_random c).

Definition GetTurn (c : Chess) : bool := whites_turn c.

Definition GetCurrentPlayerConst (c : Chess) : Bot :=
  if whites_turn c then white c else black c.

Definition GetOtherPlayerConst (c : Chess) : Bot :=
  if whites_turn c then black c else white c.

(** Assignment through [GetCurrentPlayer()] / [GetOtherPlayer()]. *)
Definition set_current_player (c : Chess) (p : Bot) : Chess :=
  if whites_turn c
  then mkChess (board c) p (black c) (all_game_moves c) (whites_turn c)
               (moves_after_last_pawn_move_or_capture c)
               (white_bot_random c) (black_bot_random c)
  else mkChess (board c) (white c) p (all_game_moves c) (whites_turn c)
               (moves_after_last_pawn_move_or_capture c)
               (white_bot_random c) (black_bot_random c).

Definition set_other_player (c : Chess) (p : Bot) : Chess :=
  if whites_turn c
  then mkChess (board c) (white c) p (all_game_moves c) (whites_turn c)
               (moves_after_last_pawn_move_or_capture c)
               (white_bot_random c) (black_bot_random c)
  else mkChess (board c) p (black c) (all_game_moves c) (whites_turn c)
               (moves_after_last_pawn_move_or_capture c)
               (white_bot_random c) (black_bot_random c).

Definition SetCastling (p : Bot) (v : bool) : Bot :=
  mkBot v (score p) (difficulty p).

(** [score] is an [unsigned short]. *)
Definition IncreaseScore (p : Bot) (inc : Z) : Bot :=
  mkBot (castling p) ((score p + inc) mod 65536) (difficulty p).

Definition ChangeTurn (c : Chess) : Chess :=
  mkChess (board c) (white c) (black c) (all_game_moves c)
          (negb (whites_turn c))
          (moves_after_last_pawn_move_or_capture c)
          (white_bot_random c) (black_bot_random c).

Definition EvaluatePiece (piece : Z) : Z :=
  if (piece =? W_PAWN) || (piece =? B_PAWN) then 10
  else if (piece =? W_ROOK) || (piece =? B_ROOK) then 50
  else if (piece =? W_KNIGHT) || (piece =? B_KNIGHT)
          || (piece =? W_BISHOP) || (piece =? B_BISHOP) then 30
  else if (piece =? W_QUEEN) || (piece =? B_QUEEN) then 90
  else if (piece =? W_KING) || (piece =? B_KING) then 900
  else 0.

(** [char GetPiece(x, y)]: the raw read [board[y][x]]. *)
Definition GetPiece (c : Chess) (x y : Z) : option Z := rd (board c) y x.

(** ** The move log: [std::vector], oldest entry first *)

(** [all_game_moves.back()] *)
Definition back (l : list LogEntry) : option LogEntry :=
  match l with
  | [] => None
  | _ => nth_error l (length l - 1)
  end.

(** [*prev(all_game_moves.cend(), k)]; there is no such element when the
    log holds fewer than [k] entries. *)
Definition prev_cend (l : list LogEntry) (k : nat) : option LogEntry :=
  if (k <=? length l)%nat then nth_error l (length l - k) else None.

(** An update of [all_game_moves.back()] in place. *)
Definition modify_back (f : LogEntry -> LogEntry) (l : list LogEntry)
    : option (list LogEntry) :=
  e <- back l ;; Some (removelast l ++ [f e]).

Definition set_kind (k : Moves) (e : LogEntry) : LogEntry := (k, snd e).

Definition push_char (ch : Z) (e : LogEntry) : LogEntry := (fst e, snd e ++ [ch]).

Definition AppendToAllGameMoves (c : Chess) (x1 y1 x2 y2 : Z) : option Chess :=
  src <- rd (board c) y1 x1 ;;
  if castling (GetCurrentPlayerConst c)
     && (src =? B_KING + 7 * b2z (whites_turn c))
     && ((x2 =? 2) || (x2 =? 6))
  then Some (set_log c (all_game_moves c ++ [(CASTLING, [to_char x2])]))
  else
    dst <- rd (board c) y2 x2 ;;
    Some (set_log c (all_game_moves c ++
                     [(NORMAL, ToString x1 y1 x2 y2 ++ [src; dst])])).

(** ** Applying a move: [Chess::MovePiece] *)

(** The key [ManuallyPromotePawn] accepts from the keyboard. *)
Inductive PromotionKey : Type := key_r | key_k | key_b | key_q.

Definition promoted_piece (turn : bool) (k : PromotionKey) : Z :=
  match k with
  | key_r => if turn then W_ROOK else B_ROOK
  | key_k => if turn then W_KNIGHT else B_KNIGHT
  | key_b => if turn then W_BISHOP else B_BISHOP
  | key_q => if turn then W_QUEEN else B_QUEEN
  end.

Definition ManuallyPromotePawn (c : Chess) (x y : Z) (k : PromotionKey)
    : option Chess :=
  b <- wr (board c) y x (promoted_piece (whites_turn c) k) ;;
  Some (set_board c b).

Definition is_pawn (p : Z) : bool := (p =? W_PAWN) || (p =? B_PAWN).

Definition is_king (p : Z) : bool := (p =? W_KING) || (p =? B_KING).

Definition is_rook (p : Z) : bool := (p =? W_ROOK) || (p =? B_ROOK).

Definition is_queen (p : Z) : bool := (p =? W_QUEEN) || (p =? B_QUEEN).

(** [board[ya][xa] = board[yb][xb], board[yb][xb] = v] *)
Definition shift_cell (b : Board) (ya xa yb xb v : Z) : option Board :=
  p <- rd b yb xb ;;
  b1 <- wr b ya xa p ;;
  wr b1 yb xb v.

(** The [W_PAWN]/[B_PAWN] case of the switch in [MovePiece].  The random
    promotion of a random bot draws from [rand()], which is not part of
    the game object: that branch has no value here. *)
Definition MovePiece_pawn (c : Chess) (x1 y1 x2 y2 : Z)
    (manual_promotion : bool) (key : PromotionKey) (update_board : bool)
    : option Chess :=
  if y2 =? (BOARD_SIZE - 1) * b2z (negb (whites_turn c)) then
    c1 <- (if manual_promotion then ManuallyPromotePawn c x1 y1 key
           else if (if whites_turn c then white_bot_random c
                    else black_bot_random c)
           then None
           else b <- wr (board c) y1 x1
                        (if whites_turn c then W_QUEEN else B_QUEEN) ;;
                Some (set_board c b)) ;;
    p <- rd (board c1) y1 x1 ;;
    l <- modify_back (fun e => push_char p (set_kind PROMOTION e))
                     (all_game_moves c1) ;;
    Some (set_log c1 l)
  else if negb (x1 =? x2) then
    dst <- rd (board c) y2 x2 ;;
    if dst =? EMPTY then
      b <- wr (board c) y1 x2 EMPTY ;;
      let c1 := set_board c b in
      let c2 := if update_board
                then set_current_player c1
                       (IncreaseScore (GetCurrentPlayerConst c1)
                                      (EvaluatePiece W_PAWN))
                else c1 in
      l <- modify_back (set_kind EN_PASSANT) (all_game_moves c2) ;;
      Some (set_log c2 l)
    else Some c
  else Some c.

(** The [W_KING]/[B_KING] case up to its fall-through into the rook case. *)
Definition MovePiece_king (c : Chess) (x2 : Z) : option Chess :=
  if castling (GetCurrentPlayerConst c) then
    let line := (BOARD_SIZE - 1) * b2z (whites_turn c) in
    if x2 =? 2 then
      b <- shift_cell (board c) line 3 line 0 EMPTY ;; Some (set_board c b)
    else if x2 =? 6 then
      b <- shift_cell (board c) line 5 line 7 EMPTY ;; Some (set_board c b)
    else Some c
  else Some c.

Definition clear_castling (c : Chess) : Chess :=
  set_current_player c (SetCastling (GetCurrentPlayerConst c) false).

Definition MovePiece (c : Chess) (x1 y1 x2 y2 : Z)
    (manual_promotion : bool) (key : PromotionKey) (update_board : bool)
    : option Chess :=
  c <- AppendToAllGameMoves c x1 y1 x2 y2 ;;
  src <- rd (board c) y1 x1 ;;
  c <- (if is_pawn src
        then MovePiece_pawn c x1 y1 x2 y2 manual_promotion key update_board
        else if is_king src
        then c1 <- MovePiece_king c x2 ;; Some (clear_castling c1)
        else if is_rook src then Some (clear_castling c)
        else Some c) ;;
  e <- back (all_game_moves c) ;;
  c <- (if negb (Moves_eqb (fst e) CASTLING)
        then l <- modify_back
                    (push_char (b2z (castling (GetCurrentPlayerConst c))))
                    (all_game_moves c) ;;
             Some (set_log c l)
        else Some c) ;;
  b <- shift_cell (board c) y2 x2 y1 x1 EMPTY ;;
  let c := set_board c b in
  e <- back (all_game_moves c) ;;
  c <- (if update_board && negb (Moves_eqb (fst e) CASTLING)
        then captured <- sget (snd e) 5 ;;
             if negb (captured =? EMPTY)
             then Some (set_counter
                          (set_current_player c
                             (IncreaseScore (GetCurrentPlayerConst c)
                                            (EvaluatePiece captured)))
                          0)
             else Some c
        else Some c) ;;
  Some (ChangeTurn c).

(** ** Undoing a move: [Chess::MovePieceBack] *)

(** The flag lookup shared by the rook case and the non-castling king
    case: the entry three places from the end of the log. *)
Definition restore_castling (c : Chess) : option Chess :=
  e3 <- prev_cend (all_game_moves c) 3 ;;
  if negb (Moves_eqb (fst e3) CASTLING) then
    flag <- sget (snd e3) (6 + (if Moves_eqb (fst e3) PROMOTION then 1 else 0))%nat ;;
    if negb (flag =? 0)
    then Some (set_current_player c (SetCastling (GetCurrentPlayerConst c) true))
    else Some c
  else Some c.

Definition MovePieceBack (c : Chess) (x1 y1 x2 y2 : Z) : option Chess :=
  let c := ChangeTurn c in
  e <- back (all_game_moves c) ;;
  captured <- (if Moves_eqb (fst e) CASTLING then Some EMPTY
               else sget (snd e) 5) ;;
  b <- shift_cell (board c) y1 x1 y2 x2 captured ;;
  let c := set_board c b in
  src <- rd (board c) y1 x1 ;;
  c <- (if is_pawn src then
          if negb (x1 =? x2) then
            dst <- rd (board c) y2 x2 ;;
            if dst =? EMPTY then
              b <- wr (board c) y1 x2
                      (if whites_turn c then B_PAWN else W_PAWN) ;;
              Some (set_board c b)
            else Some c
          else Some c
        else if is_rook src then restore_castling c
        else if is_queen src then
          if Moves_eqb (fst e) PROMOTION then
            b <- wr (board c) y1 x1
                    (if whites_turn c then W_PAWN else B_PAWN) ;;
            Some (set_board c b)
          else Some c
        else if is_king src then
          if Moves_eqb (fst e) CASTLING then
            let c := set_current_player c
                       (SetCastling (GetCurrentPlayerConst c) true) in
            let line := (BOARD_SIZE - 1) * b2z (whites_turn c) in
            if x2 =? 2 then
              b <- shift_cell (board c) line 0 line 3 EMPTY ;;
              Some (set_board c b)
            else if x2 =? 6 then
              b <- shift_cell (board c) line 5 line 7 EMPTY ;;
              Some (set_board c b)
            else Some c
          else restore_castling c
        else Some c) ;;
  Some (set_log c (removelast (all_game_moves c))).

(** ** Move generation *)

(** The [IsValid] lambdas: an enemy piece ([capture]) or an enemy piece
    or an empty square ([landing]). *)
Definition capture (turn : bool) (ch : Z) : bool :=
  if turn then ch <? 0 else ch >? 0.

Definition landing (turn : bool) (ch : Z) : bool :=
  if turn then ch <=? 0 else ch >=? 0.

(** [short GetEnPassant(x, y)]: the file of the pawn that can be taken en
    passant by the pawn on [(x, y)], or [-1]. *)
Definition GetEnPassant (c : Chess) (x y : Z) : option Z :=
  match back (all_game_moves c) with
  | None => Some (-1)
  | Some e =>
      if negb (Moves_eqb (fst e) NORMAL) then Some (-1)
      else
        '(lx1, ly1, lx2, ly2) <- ChangeToRealCoordinates (snd e) ;;
        piece <- sget (snd e) 4 ;;
        if (piece =? W_PAWN - 7 * b2z (whites_turn c))
           && (Z.abs (lx1 - x) =? 1)
           && (ly2 - ly1 =? 2 * (if whites_turn c then 1 else -1))
           && (y =? 4 - b2z (whites_turn c))
        then Some lx1 else Some (-1)
  end.

(** [if(cond) all_moves.emplace_front(m)] *)
Definition emplace_if (cond : bool) (m : str) (l : list str) : list str :=
  if cond then m :: l else l.

Definition PawnMoves (c : Chess) (x y : Z) : option (list str) :=
  let b := board c in
  let turn := whites_turn c in
  let inc := if turn then -1 else 1 in
  ahead <- rd b (y + inc) x ;;
  l <- (if ahead =? EMPTY then
          let l := [ToString x y x (y + inc)] in
          if y =? 1 + 5 * b2z turn then
            ahead2 <- rd b (y + 2 * inc) x ;;
            Some (emplace_if (ahead2 =? EMPTY) (ToString x y x (y + 2 * inc)) l)
          else Some l
        else Some []) ;;
  ep <- GetEnPassant c x y ;;
  let l := emplace_if (negb (ep =? -1)) (ToString x y ep (y + inc)) l in
  right <- probe false b (capture turn) (y + inc) (x + 1) (x <? BOARD_SIZE - 1) ;;
  let l := emplace_if right (ToString x y (x + 1) (y + inc)) l in
  left <- probe false b (capture turn) (y + inc) (x - 1) (x >? 0) ;;
  Some (emplace_if left (ToString x y (x - 1) (y + inc)) l).

(** One sliding loop of [RookMoves] / [BishopMoves], adding to the front
    of [acc].  As for [ray], the loop condition is written for both
    coordinates. *)
Fixpoint slide (b : Board) (turn : bool) (x y i j di dj : Z)
    (acc : list str) (n : nat) : option (list str) :=
  match n with
  | O => Some acc
  | S n' =>
      if WithinBounds i && WithinBounds j then
        v <- rd b j i ;;
        if v =? EMPTY
        then slide b turn x y (i + di) (j + dj) di dj (ToString x y i j :: acc) n'
        else Some (emplace_if (capture turn v) (ToString x y i j) acc)
      else Some acc
  end.

Definition RookMoves (c : Chess) (x y : Z) : option (list str) :=
  let b := board c in
  let t := whites_turn c in
  l <- slide b t x y (x + 1) y 1 0 [] 8%nat ;;
  l <- slide b t x y (x - 1) y (-1) 0 l 8%nat ;;
  l <- slide b t x y x (y + 1) 0 1 l 8%nat ;;
  slide b t x y x (y - 1) 0 (-1) l 8%nat.

Definition BishopMoves (c : Chess) (x y : Z) : option (list str) :=
  let b := board c in
  let t := whites_turn c in
  l <- slide b t x y (x - 1) (y - 1) (-1) (-1) [] 8%nat ;;
  l <- slide b t x y (x - 1) (y + 1) (-1) 1 l 8%nat ;;
  l <- slide b t x y (x + 1) (y - 1) 1 (-1) l 8%nat ;;
  slide b t x y (x + 1) (y + 1) 1 1 l 8%nat.

Definition QueenMoves (c : Chess) (x y : Z) : option (list str) :=
  r <- RookMoves c x y ;;
  d <- BishopMoves c x y ;;
  Some (merge r d).

(** A run of [if(IsValid(board[j][i]) && guard) emplace_front(...)]. *)
Fixpoint jumps (b : Board) (turn : bool) (x y : Z)
    (l : list (Z * Z * bool)) (acc : list str) : option (list str) :=
  match l with
  | [] => Some acc
  | (j, i, g) :: t =>
      ok <- probe false b (landing turn) j i g ;;
      jumps b turn x y t (emplace_if ok (ToString x y i j) acc)
  end.

Definition KnightMoves (c : Chess) (x y : Z) : option (list str) :=
  jumps (board c) (whites_turn c) x y (knight_ring x y) [].

Definition KingMoves (c : Chess) (x y : Z) : option (list str) :=
  let b := board c in
  let turn := whites_turn c in
  l <- jumps b turn x y (king_ring x y) [] ;;
  if castling (GetCurrentPlayerConst c) then
    chk <- IsCheck b turn ;;
    if negb chk then
      let line := (BOARD_SIZE - 1) * b2z turn in
      r0 <- rd b line 0 ;;
      q <- (if r0 =? B_ROOK + 7 * b2z turn then
              s1 <- rd b line 1 ;;
              if s1 =? EMPTY then
                s2 <- rd b line 2 ;;
                if s2 =? EMPTY then
                  s3 <- rd b line 3 ;; Some (s3 =? EMPTY)
                else Some false
              else Some false
            else Some false) ;;
      if q then Some (ToString 4 line 2 line :: l)
      else
        r7 <- rd b line 7 ;;
        k <- (if r7 =? B_ROOK + 7 * b2z turn then
                s5 <- rd b line 5 ;;
                if s5 =? EMPTY then
                  s6 <- rd b line 6 ;; Some (s6 =? EMPTY)
                else Some false
              else Some false) ;;
        Some (emplace_if k (ToString 4 line 6 line) l)
    else Some l
  else Some l.

Definition coords : list Z := [0; 1; 2; 3; 4; 5; 6; 7].

(** The squares in the order of the two loops of [AllMoves]: rows outside,
    columns inside; each pair is [(x, y)]. *)
Definition squares : list (Z * Z) :=
  flat_map (fun y => map (fun x => (x, y)) coords) coords.

(** The body of the double loop for one square: the list that is merged
    into [all_moves] ([continue] and the pieceless default merge nothing). *)
Definition piece_moves (c : Chess) (x y : Z) : option (list str) :=
  p <- rd (board c) y x ;;
  if Bool.eqb (p <? 0) (whites_turn c) then Some []
  else if is_pawn p then PawnMoves c x y
  else if is_rook p then RookMoves c x y
  else if (p =? W_KNIGHT) || (p =? B_KNIGHT) then KnightMoves c x y
  else if (p =? W_BISHOP) || (p =? B_BISHOP) then BishopMoves c x y
  else if is_queen p then QueenMoves c x y
  else if is_king p then KingMoves c x y
  else Some [].

Fixpoint gather (c : Chess) (sq : list (Z * Z)) (all_moves : list str)
    : option (list str) :=
  match sq with
  | [] => Some all_moves
  | (x, y) :: t =>
      l <- piece_moves c x y ;;
      gather c t (merge all_moves l)
  end.

(** The pseudo-legal list [AllMoves] holds before its filtering loop. *)
Definition pseudo_legal (c : Chess) : option (list str) := gather c squares [].

(** [bool IsCheck(std::string &move)]: apply, look, undo.  The game object
    after the undo is returned with the answer. *)
Definition IsCheck_move (c : Chess) (move : str) : option (bool * Chess) :=
  '(x1, y1, x2, y2) <- ChangeToRealCoordinates move ;;
  c1 <- MovePiece c x1 y1 x2 y2 false key_q false ;;
  is_check <- IsCheck (board c1) (negb (whites_turn c1)) ;;
  c2 <- MovePieceBack c1 x1 y1 x2 y2 ;;
  Some (is_check, c2).

(** The erasing loop at the end of [AllMoves]. *)
Fixpoint filter_moves (c : Chess) (l : list str) : option (list str * Chess) :=
  match l with
  | [] => Some ([], c)
  | m :: t =>
      '(is_check, c1) <- IsCheck_move c m ;;
      '(t', c2) <- filter_moves c1 t ;;
      Some (if is_check then t' else m :: t', c2)
  end.

Definition AllMoves (c : Chess) : option (list str * Chess) :=
  l <- pseudo_legal c ;;
  filter_moves c l.

(** ** End of game: [ThreefoldRepetition] and [CheckEndgame] *)

(** [GetEnPassant(board, it)]: the en-passant file read off a board and a
    log entry of the past. *)
Definition GetEnPassant_at (c : Chess) (bd : Board) (e : LogEntry) : option Z :=
  if negb (Moves_eqb (fst e) NORMAL) then Some (-1)
  else
    '(lx1, ly1, lx2, ly2) <- ChangeToRealCoordinates (snd e) ;;
    let turn := whites_turn c in
    (fix columns (xs : list Z) : option Z :=
       match xs with
       | [] => Some (-1)
       | x :: xs' =>
           p <- rd bd (3 + b2z turn) x ;;
           if p =? W_PAWN - 7 * b2z turn then
             piece <- sget (snd e) 4 ;;
             if (piece =? B_PAWN + 7 * b2z turn)
                && (Z.abs (lx1 - x) =? 1)
                && (ly2 - ly1 =? 2 * (if turn then -1 else 1))
             then Some lx1 else columns xs'
           else columns xs'
       end) coords.

(** What one pass of the inner [for] of [ThreefoldRepetition] leaves. *)
Inductive Rewind : Type :=
| Returned (r : bool)
| Rewound (prev_board : Board) (it : list LogEntry).

(** One pass of [for(i=0;i<2;++i)].  The reverse iterator [it] is the
    list of the entries from the one it points at back to the first. *)
Definition rewind_one (c : Chess) (prev_board : Board) (it : list LogEntry)
    (i : Z) : option Rewind :=
  match it with
  | [] => None
  | e :: older =>
      if Moves_eqb (fst e) CASTLING then Some (Returned false)
      else
        piece <- sget (snd e) 4 ;;
        if (piece =? W_PAWN) || (piece =? B_PAWN) then Some (Returned false)
        else
          captured <- sget (snd e) 5 ;;
          if negb (captured =? EMPTY) then Some (Returned false)
          else
            '(x1, y1, x2, y2) <- ChangeToRealCoordinates (snd e) ;;
            pb <- wr prev_board y1 x1 piece ;;
            pb <- wr pb y2 x2 EMPTY ;;
            pb <- (if Moves_eqb (fst e) EN_PASSANT
                   then wr pb y1 x2 (if i =? b2z (whites_turn c)
                                     then B_PAWN else W_PAWN)
                   else Some pb) ;;
            match older with
            | [] => Some (Returned false)
            | _ => Some (Rewound pb older)
            end
  end.

(** The [while(true)] loop; [n] bounds the number of passes by the length
    of the log. *)
Fixpoint repetition_loop (c : Chess) (prev_board : Board)
    (it : list LogEntry) (position_count : Z) (n : nat) : option bool :=
  match n with
  | O => None
  | S n' =>
      r0 <- rewind_one c prev_board it 0 ;;
      match r0 with
      | Returned r => Some r
      | Rewound pb0 it0 =>
          r1 <- rewind_one c pb0 it0 1 ;;
          match r1 with
          | Returned r => Some r
          | Rewound pb it1 =>
              match it1 with
              | [] => None
              | e :: older =>
                  same <-
                    (if AreBoardsEqual pb (board c) then
                       flag <- (if Moves_eqb (fst e) CASTLING then Some 0
                                else sget (snd e)
                                       (6 + (if Moves_eqb (fst e) PROMOTION
                                             then 1 else 0))%nat) ;;
                       if b2z (castling (GetOtherPlayerConst c)) =? flag then
                         now_ep <-
                           (if (1 <? length (all_game_moves c))%nat
                            then e2 <- prev_cend (all_game_moves c) 2 ;;
                                 GetEnPassant_at c (board c) e2
                            else Some (-1)) ;;
                         then_ep <-
                           (match older with
                            | [] => Some (-1)
                            | e' :: _ => GetEnPassant_at c pb e'
                            end) ;;
                         Some (now_ep =? then_ep)
                       else Some false
                     else Some false) ;;
                  if same then
                    if position_count + 1 =? 3 then Some true
                    else repetition_loop c pb it1 (position_count + 1) n'
                  else repetition_loop c pb it1 position_count n'
              end
          end
      end
  end.

Definition ThreefoldRepetition (c : Chess) : option bool :=
  repetition_loop c (board c) (rev (all_game_moves c)) 1
                  (S (length (all_game_moves c))).

(** [bool CheckEndgame()]: [Some e] is the [return EndGameText(n, e)] that
    ends the game, [None] the final [return false]. *)
Definition CheckEndgame (c : Chess) : option (option Endgame * Chess) :=
  '(l, c) <- AllMoves c ;;
  match l with
  | [] =>
      Some (Some CHECKMATE,
            set_other_player c
              (IncreaseScore (GetOtherPlayerConst c) (EvaluatePiece W_KING)))
  | _ :: _ =>
      e <- back (all_game_moves c) ;;
      let bump := (moves_after_last_pawn_move_or_capture c + 1) mod 65536 in
      '(fifty, c) <-
        (if negb (Moves_eqb (fst e) CASTLING) then
           piece <- sget (snd e) 4 ;;
           if piece =? W_PAWN - 7 * b2z (whites_turn c)
           then Some (false, set_counter c 0)
           else
             captured <- sget (snd e) 5 ;;
             if negb (captured =? EMPTY) then Some (false, set_counter c 0)
             else Some (bump =? 50, set_counter c bump)
         else Some (bump =? 50, set_counter c bump)) ;;
      if fifty then Some (Some FIFTY_MOVES, c)
      else
        rep <- ThreefoldRepetition c ;;
        if rep then Some (Some THREEFOLD_REP, c) else Some (None, c)
  end.

(** ** A turn of play *)

Definition CanMovePiece (x1 y1 x2 y2 : Z) (all_moves : list str) : bool :=
  existsb (str_eqb (ToString x1 y1 x2 y2)) all_moves.

(** What one reading of the keyboard in [PlayersTurn] leads to: the input
    is refused and asked again, or the move is committed and
    [CheckEndgame] has run. *)
Inductive Turn : Type :=
| Refused (c : Chess)
| Played (over : option Endgame) (c : Chess).

(** [PlayersTurn] for one typed pair of squares, already converted to
    numerical coordinates, and the key pressed if a promotion asks. *)
Definition PlayersTurn (c : Chess) (x1 y1 x2 y2 : Z) (key : PromotionKey)
    : option Turn :=
  '(all_moves, c) <- AllMoves c ;;
  _ <- IsCheck (board c) (whites_turn c) ;;
  if (negb (x1 =? x2) || negb (y1 =? y2))
     && WithinBounds x1 && WithinBounds y1 && WithinBounds x2 && WithinBounds y2
     && CanMovePiece x1 y1 x2 y2 all_moves
  then
    c <- MovePiece c x1 y1 x2 y2 true key true ;;
    '(over, c) <- CheckEndgame c ;;
    Some (Played over c)
  else Some (Refused c).

(** A game played from the keyboard: each input is [(x1, y1, x2, y2)];
    the game stops at the first refused input or end of game. *)
Fixpoint play (c : Chess) (inputs : list (Z * Z * Z * Z)) : option Turn :=
  match inputs with
  | [] => Some (Played None c)
  | (x1, y1, x2, y2) :: rest =>
      t <- PlayersTurn c x1 y1 x2 y2 key_q ;;
      match t with
      | Played None c' => play c' rest
      | other => Some other
      end
  end.

(** ** Static evaluation

    Every number the evaluation adds is a multiple of 0.5 and the sums
    stay far below 2^23, so the [float] arithmetic of the program is
    exact.  Scores are kept here in half points: a score [s] of the
    program is the integer [2 * s]. *)

(** [PIECE_POS_POINTS], doubled; one table per piece from king to pawn,
    rows as in the source. *)
Definition PIECE_POS_POINTS : list (list Z) :=
  [ [(-6); (-8); (-8); (-10); (-10); (-8); (-8); (-6);
      (-6); (-8); (-8); (-10); (-10); (-8); (-8); (-6);
      (-6); (-8); (-8); (-10); (-10); (-8); (-8); (-6);
      (-6); (-8); (-8); (-10); (-10); (-8); (-8); (-6);
      (-4); (-6); (-6); (-8); (-8); (-6); (-6); (-4);
      (-2); (-4); (-4); (-4); (-4); (-4); (-4); (-2);
      4; 4; 0; 0; 0; 0; 4; 4;
      4; 6; 2; 0; 0; 2; 6; 4];
    [(-4); (-2); (-2); (-1); (-1); (-2); (-2); (-4);
      (-2); 0; 0; 0; 0; 0; 0; (-2);
      (-2); 0; 1; 1; 1; 1; 0; (-2);
      (-1); 0; 1; 1; 1; 1; 0; (-1);
      0; 0; 1; 1; 1; 1; 0; (-1);
      (-2); 1; 1; 1; 1; 1; 0; (-2);
      (-2); 0; 1; 0; 0; 0; 0; (-2);
      (-4); (-2); (-2); (-1); (-1); (-2); (-2); (-4)];
    [(-4); (-2); (-2); (-2); (-2); (-2); (-2); (-4);
      (-2); 0; 0; 0; 0; 0; 0; (-2);
      (-2); 0; 1; 2; 2; 1; 0; (-2);
      (-2); 1; 1; 2; 2; 1; 1; (-2);
      (-2); 0; 2; 2; 2; 2; 0; (-2);
      (-2); 2; 2; 2; 2; 2; 2; (-2);
      (-2); 1; 0; 0; 0; 0; 1; (-2);
      (-4); (-2); (-2); (-2); (-2); (-2); (-2); (-4)];
    [(-10); (-8); (-6); (-6); (-6); (-6); (-8); (-10);
      (-8); (-4); 0; 0; 0; 0; (-4); (-8);
      (-6); 0; 2; 3; 3; 2; 0; (-6);
      (-6); 1; 3; 4; 4; 3; 1; (-6);
      (-6); 0; 3; 4; 4; 3; 0; (-6);
      (-6); 1; 2; 3; 3; 2; 1; (-6);
      (-8); (-4); 0; 1; 1; 0; (-4); (-8);
      (-10); (-8); (-6); (-6); (-6); (-6); (-8); (-10)];
    [0; 0; 0; 0; 0; 0; 0; 0;
      1; 2; 2; 2; 2; 2; 2; 1;
      (-1); 0; 0; 0; 0; 0; 0; (-1);
      (-1); 0; 0; 0; 0; 0; 0; (-1);
      (-1); 0; 0; 0; 0; 0; 0; (-1);
      (-1); 0; 0; 0; 0; 0; 0; (-1);
      (-1); 0; 0; 0; 0; 0; 0; (-1);
      0; 0; 0; 1; 1; 0; 0; 0];
    [0; 0; 0; 0; 0; 0; 0; 0;
      10; 10; 10; 10; 10; 10; 10; 10;
      2; 2; 4; 6; 6; 4; 2; 2;
      1; 1; 2; 5; 5; 2; 1; 1;
      0; 0; 0; 4; 4; 0; 0; 0;
      1; (-1); (-2); 0; 0; (-2); (-1); 1;
      1; 2; 2; (-4); (-4); 2; 2; 1;
      0; 0; 0; 0; 0; 0; 0; 0] ].

(** [EvaluatePosition(x, y)], in half points. *)
Definition EvaluatePosition (c : Chess) (x y : Z) : option Z :=
  p <- rd (board c) y x ;;
  if p =? EMPTY then Some 0
  else
    let neg := p <? 0 in
    table <- nth_error PIECE_POS_POINTS (Z.to_nat (p + 7 * b2z neg - 1)) ;;
    bonus <- nth_error table (cell (if neg then BOARD_SIZE - y - 1 else y) x) ;;
    if (p + 7 * b2z neg - 1 <? 0) then None
    else Some ((if neg then -1 else 1) * (2 * EvaluatePiece p + bonus)).

(** [EvaluateBoard(turn)], in half points. *)
Definition EvaluateBoard (c : Chess) (turn : bool) : option Z :=
  total <- fold_left
             (fun acc sq => a <- acc ;; v <- EvaluatePosition c (fst sq) (snd sq) ;;
                            Some (a + v))
             squares (Some 0) ;;
  Some ((if turn then 1 else -1) * total).

(** ** The search: [PathNode] *)

Definition Key : Type := (Z * Z * Z * Z)%type.

Definition key_ltb (a b : Key) : bool :=
  let '(a0, a1, a2, a3) := a in
  let '(b0, b1, b2, b3) := b in
  str_ltb [a0; a1; a2; a3] [b0; b1; b2; b3].

(** [child_node_list.emplace(move, PathNode())]: the keys of a [std::map]
    are kept in increasing order and a key already present is left alone.
    The mapped nodes start empty and are emptied again after use, so the
    keys are all there is. *)
Fixpoint emplace (k : Key) (m : list Key) : list Key :=
  match m with
  | [] => [k]
  | h :: t =>
      if key_ltb k h then k :: m
      else if key_ltb h k then h :: emplace k t
      else m
  end.

(** [CreateSubtree]: the legal moves as keys of the map, and the game
    object [AllMoves] leaves. *)
Definition CreateSubtree (c : Chess) : option (list Key * Chess) :=
  '(all_moves, c) <- AllMoves c ;;
  keys <- fold_left
            (fun acc move => m <- acc ;; k <- ChangeToRealCoordinates move ;;
                             Some (emplace k m))
            all_moves (Some []) ;;
  Some (keys, c).

Definition INF : Z := 2 * 9999.

(** The [for] loop of [AlphaBeta] over the children of a node; [below]
    is the recursive call [node.second.AlphaBeta(c, --depth, ...)] on the
    child. *)
Fixpoint children (below : Chess -> Z -> Z -> option (Z * Chess))
    (maximizing_player : bool) (nodes : list Key) (c : Chess)
    (points alpha beta : Z) {struct nodes} : option (Z * Chess) :=
  match nodes with
  | [] => Some (points, c)
  | (x1, y1, x2, y2) :: rest =>
      target <- GetPiece c x2 y2 ;;
      if target =? W_KING - 7 * b2z (GetTurn c)
      then Some (if maximizing_player then INF else - INF, c)
      else
        c <- MovePiece c x1 y1 x2 y2 false key_q false ;;
        '(v, c) <- below c alpha beta ;;
        let points := if maximizing_player then Z.max points v
                      else Z.min points v in
        let alpha := if maximizing_player then Z.max alpha points else alpha in
        let beta := if maximizing_player then beta else Z.min beta points in
        c <- MovePieceBack c x1 y1 x2 y2 ;;
        if alpha >=? beta then Some (points, c)
        else children below maximizing_player rest c points alpha beta
  end.

(** [AlphaBeta]; [depth] is the value of the [unsigned short] the calls
    share, which every call finds as it left it. *)
Fixpoint AlphaBeta (depth : nat) (c : Chess) (alpha beta : Z)
    (maximizing_player initial_turn : bool) {struct depth} : option (Z * Chess) :=
  match depth with
  | O => v <- EvaluateBoard c initial_turn ;; Some (v, c)
  | S depth' =>
      '(keys, c) <- CreateSubtree c ;;
      children (fun c alpha beta =>
                  AlphaBeta depth' c alpha beta (negb maximizing_player)
                            initial_turn)
               maximizing_player keys c
               (if maximizing_player then - INF else INF) alpha beta
  end.

(** The loop of [AlphaBetaRoot], carrying [ideal_moves] and
    [max_move_score]; [inl] is the early [return node.first]. *)
Fixpoint root_children (difficulty : nat) (nodes : list Key) (c : Chess)
    (ideal_moves : list Key) (max_move_score : Z)
    : option ((Key + list Key) * Chess) :=
  match nodes with
  | [] => Some (inr ideal_moves, c)
  | (x1, y1, x2, y2) :: rest =>
      target <- GetPiece c x2 y2 ;;
      if target =? W_KING - 7 * b2z (GetTurn c)
      then Some (inl (x1, y1, x2, y2), c)
      else
        c <- MovePiece c x1 y1 x2 y2 false key_q false ;;
        '(move_score, c) <- AlphaBeta difficulty c (2 * -10000) (2 * 10000)
                              false (negb (GetTurn c)) ;;
        let ideal_moves :=
          if move_score >? max_move_score then [(x1, y1, x2, y2)]
          else if move_score =? max_move_score
               then ideal_moves ++ [(x1, y1, x2, y2)]
               else ideal_moves in
        let max_move_score := Z.max max_move_score move_score in
        c <- MovePieceBack c x1 y1 x2 y2 ;;
        root_children difficulty rest c ideal_moves max_move_score
  end.

(** [AlphaBetaRoot]; [draw] is the index [GetRandomNumber] returns for
    the final choice among the best moves. *)
Definition AlphaBetaRoot (c : Chess) (difficulty : nat) (draw : nat)
    : option (Key * Chess) :=
  '(keys, c) <- CreateSubtree c ;;
  '(r, c) <- root_children difficulty keys c [] (- INF) ;;
  match r with
  | inl k => Some (k, c)
  | inr ideal_moves => k <- nth_error ideal_moves draw ;; Some (k, c)
  end.

(** [BotsTurn] of a searching bot: choose, apply with the display on, and
    check the end of the game.  A random bot takes its move from [rand()]
    and has no value here. *)
Definition BotsTurn (c : Chess) (draw : nat) : option Turn :=
  _ <- (if (if whites_turn c then white_bot_random c else black_bot_random c)
        then None else Some tt) ;;
  '((x1, y1, x2, y2), c) <-
     AlphaBetaRoot c (Z.to_nat (difficulty (GetCurrentPlayerConst c))) draw ;;
  c <- MovePiece c x1 y1 x2 y2 false key_q true ;;
  '(over, c) <- CheckEndgame c ;;
  Some (Played over c).

(** ** Coordinates back to characters, and the text of a square *)

(** [ChangeToString(x1, y1, x2, y2)]: the four characters the numerical
    coordinates become, each stored back into its [char]. *)
Definition ChangeToString (x1 y1 x2 y2 : Z) : Z * Z * Z * Z :=
  (to_char (x1 + 97), to_char (56 - y1), to_char (x2 + 97), to_char (56 - y2)).

(** [PieceNameToString]: the name the display writes for a piece. *)
Definition PieceNameToString (piece : Z) : list ascii :=
  if piece =? W_PAWN then ["W"; "_"; "P"; "A"; "W"; "N"]%char
  else if piece =? B_PAWN then ["B"; "_"; "P"; "A"; "W"; "N"]%char
  else if piece =? W_ROOK then ["W"; "_"; "R"; "O"; "O"; "K"]%char
  else if piece =? B_ROOK then ["B"; "_"; "R"; "O"; "O"; "K"]%char
  else if piece =? W_KNIGHT then ["W"; "_"; "K"; "N"; "I"; "G"; "H"; "T"]%char
  else if piece =? B_KNIGHT then ["B"; "_"; "K"; "N"; "I"; "G"; "H"; "T"]%char
  else if piece =? W_BISHOP then ["W"; "_"; "B"; "I"; "S"; "H"; "O"; "P"]%char
  else if piece =? B_BISHOP then ["B"; "_"; "B"; "I"; "S"; "H"; "O"; "P"]%char
  else if piece =? W_QUEEN then ["W"; "_"; "Q"; "U"; "E"; "E"; "N"]%char
  else if piece =? B_QUEEN then ["B"; "_"; "Q"; "U"; "E"; "E"; "N"]%char
  else if piece =? W_KING then ["W"; "_"; "K"; "I"; "N"; "G"]%char
  else if piece =? B_KING then ["B"; "_"; "K"; "I"; "N"; "G"]%char
  else [].

Definition BOX_WIDTH : Z := 10.

(** [std::string(n, ' ')] *)
Definition spaces (n : Z) : list ascii := repeat " "%char (Z.to_nat n).

(** What [UpdateBoard] and [PrintBoard] write into the box of a square:
    the name of the piece between two runs of [diff/2] blanks, and one
    more blank when [diff] is odd; [diff] is an [unsigned short]. *)
Definition box_text (piece : Z) : list ascii :=
  let name := PieceNameToString piece in
  let diff := (BOX_WIDTH - Z.of_nat (length name)) mod 65536 in
  spaces (diff / 2) ++ name ++ spaces (diff / 2) ++
  (if negb (diff mod 2 =? 0) then [" "%char] else []).

(** * Vocabulary of the properties *)

Definition wf_board (b : Board) : Prop := length b = 64%nat.

(** The two castling moves [KingMoves] can add for the side to move. *)
Definition home_line (c : Chess) : Z := (BOARD_SIZE - 1) * b2z (whites_turn c).
Definition home_rook (c : Chess) : Z := B_ROOK + 7 * b2z (whites_turn c).
Definition castle_queenside (c : Chess) : str :=
  ToString 4 (home_line c) 2 (home_line c).
Definition castle_kingside (c : Chess) : str :=
  ToString 4 (home_line c) 6 (home_line c).

(** The conditions [KingMoves] tests before either castling move. *)
Definition may_castle (c : Chess) : Prop :=
  castling (GetCurrentPlayerConst c) = true /\
  IsCheck (board c) (whites_turn c) = Some false.

(** Rook on the a-file home square, b, c and d files empty. *)
Definition queenside_ready (c : Chess) : Prop :=
  rd (board c) (home_line c) 0 = Some (home_rook c) /\
  rd (board c) (home_line c) 1 = Some EMPTY /\
  rd (board c) (home_line c) 2 = Some EMPTY /\
  rd (board c) (home_line c) 3 = Some EMPTY.

(** Rook on the h-file home square, f and g files empty. *)
Definition kingside_ready (c : Chess) : Prop :=
  rd (board c) (home_line c) 7 = Some (home_rook c) /\
  rd (board c) (home_line c) 5 = Some EMPTY /\
  rd (board c) (home_line c) 6 = Some EMPTY.

(** A position with both wings open for White: kings on e1 and e8, white
    rooks on a1 and h1, nothing else. *)
Definition open_wings_board : Board :=
  [EMPTY; EMPTY; EMPTY; EMPTY; B_KING; EMPTY; EMPTY; EMPTY] ++
  repeat EMPTY 48 ++
  [W_ROOK; EMPTY; EMPTY; EMPTY; W_KING; EMPTY; EMPTY; W_ROOK].

Definition open_wings : Chess :=
  mkChess open_wings_board (mkBot true 0 1) (mkBot true 0 1) [] true 0 false false.

(** How a call can end: with a value, with [exit(status)] after the
    diagnostic was written, or with no value the program text gives (an
    access outside the board or the log, a draw from [rand()]). *)
Inductive Outcome (A : Type) : Type :=
| Completes (a : A)
| Exits (status : Z) (coord : Z) (func_name : str) (log : list LogEntry)
| Undefined.
Arguments Completes {A} a.
Arguments Exits {A} status coord func_name log.
Arguments Undefined {A}.

(** [CheckCoordinates]: the diagnostic names the first offending
    coordinate and the function, then the moves made so far are printed
    and the process exits with status 1. *)
Definition CheckCoordinates (c : Chess) (x y : Z) (func_name : str)
    : Outcome unit :=
  if negb (WithinBounds x) then Exits 1 x func_name (all_game_moves c)
  else if negb (WithinBounds y) then Exits 1 y func_name (all_game_moves c)
  else Completes tt.

(** A call that contains no [exit]. *)
Definition no_exit {A : Type} (r : option A) : Outcome A :=
  match r with
  | Some a => Completes a
  | None => Undefined
  end.

Definition GetPiece_call (c : Chess) (x y : Z) : Outcome Z :=
  no_exit (GetPiece c x y).

Definition MovePiece_call (c : Chess) (x1 y1 x2 y2 : Z)
    (manual_promotion : bool) (key : PromotionKey) (update_board : bool)
    : Outcome Chess :=
  no_exit (MovePiece c x1 y1 x2 y2 manual_promotion key update_board).

(** The last entry of the log is an ordinary move of an opposing pawn over
    two ranks towards the side to move, recorded on file [file]. *)
Definition two_square_advance (c : Chess) (file : Z) : Prop :=
  exists e lx1 ly1 lx2 ly2,
    back (all_game_moves c) = Some e /\
    fst e = NORMAL /\
    ChangeToRealCoordinates (snd e) = Some (lx1, ly1, lx2, ly2) /\
    sget (snd e) 4 = Some (W_PAWN - 7 * b2z (whites_turn c)) /\
    ly2 - ly1 = 2 * (if whites_turn c then 1 else -1) /\
    lx1 = file.

(** The pawn on [(x, y)] stands next to that file, on the rank such an
    advance lands on (row 3 for a white pawn, row 4 for a black one). *)
Definition en_passant_right (c : Chess) (x y file : Z) : Prop :=
  two_square_advance c file /\ Z.abs (file - x) = 1 /\
  y = 4 - b2z (whites_turn c).

(** Forward direction of a pawn of the side to move. *)
Definition pawn_inc (c : Chess) : Z := if whites_turn c then -1 else 1.

(** The entry [MovePiece] appends, by kind. *)
Definition move_entry (c : Chess) (x1 y1 x2 y2 : Z) (e : LogEntry) : Prop :=
  exists src, rd (board c) y1 x1 = Some src /\
  ( (e = (CASTLING, [to_char x2]) /\ is_king src = true)
    \/ exists dst flag, rd (board c) y2 x2 = Some dst /\
       ( e = (NORMAL, ToString x1 y1 x2 y2 ++ [src; dst; flag])
         \/ (exists promoted,
               e = (PROMOTION, ToString x1 y1 x2 y2 ++ [src; dst; promoted; flag])
               /\ is_pawn src = true)
         \/ (e = (EN_PASSANT, ToString x1 y1 x2 y2 ++ [src; dst; flag])
             /\ is_pawn src = true /\ dst = EMPTY /\ x1 <> x2) ) ).

(** The game after a sequence of accepted keyboard moves from the start
    (the start itself if the sequence does not play through). *)
Definition position_after (inputs : list (Z * Z * Z * Z)) : Chess :=
  match play (new_game 1 1) inputs with
  | Some (Played _ c) => c
  | _ => new_game 1 1
  end.

(** 1. e4 a6 2. e5 d5: the black d-pawn has just passed the white pawn
    on e5. *)
Definition after_d7d5 : Chess := Eval vm_compute in
  (position_after [(4, 6, 4, 4); (0, 1, 0, 2); (4, 4, 4, 3); (3, 1, 3, 3)]).

(** The move that was just committed in [c] (the side to move has already
    changed) is a pawn move or a capture, read off its log entry. *)
Definition pawn_move_or_capture (c : Chess) (e : LogEntry) : Prop :=
  fst e <> CASTLING /\
  (sget (snd e) 4 = Some (if whites_turn c then B_PAWN else W_PAWN)
   \/ exists captured, sget (snd e) 5 = Some captured /\ captured <> EMPTY).

(** The game right after 1. Nf3 was applied, before [CheckEndgame]. *)
Definition after_Nf3 : Chess := Eval vm_compute in
  (match MovePiece (new_game 1 1) 6 7 5 5 true key_q true with
    | Some c => c
    | None => new_game 1 1
    end).

(** 1. f3 e5 2. g4, the three plies before the fool's mate. *)
Definition before_Qh4 : Chess := Eval vm_compute in
  (position_after [(5, 6, 5, 5); (4, 1, 4, 3); (6, 6, 6, 4)]).

Definition knights_out_and_back : list (Z * Z * Z * Z) :=
  [(6, 7, 5, 5); (6, 0, 5, 2); (5, 5, 6, 7); (5, 2, 6, 0)].

Definition rooks_out_and_back : list (Z * Z * Z * Z) :=
  [(7, 7, 6, 7); (5, 2, 6, 0); (6, 7, 7, 7); (6, 0, 5, 2)].

(** The parts of a position the repetition rule compares. *)
Definition same_position (c1 c2 : Chess) : Prop :=
  board c1 = board c2 /\ whites_turn c1 = whites_turn c2 /\
  castling (white c1) = castling (white c2) /\
  castling (black c1) = castling (black c2).

(** 1. e4 e5 2. Nf3 Nc6 3. Bc4, then 3... Bc5 typed at the keyboard: the
    game object as [MovePiece] leaves it, before [CheckEndgame] runs. *)
Definition after_Bc5 : Chess := Eval vm_compute in
  (match AllMoves (position_after
                      [(4, 6, 4, 4); (4, 1, 4, 3); (6, 7, 5, 5);
                       (1, 0, 2, 2); (5, 7, 2, 4)]) with
    | Some (_, c) =>
        match MovePiece c 5 0 2 3 true key_q true with
        | Some c' => c'
        | None => new_game 1 1
        end
    | None => new_game 1 1
    end).

Definition human_move (c : Chess) (m : Z * Z * Z * Z) : Chess :=
  let '(x1, y1, x2, y2) := m in
  match PlayersTurn c x1 y1 x2 y2 key_q with
  | Some (Played None c') => c'
  | _ => c
  end.

Definition bot_move (c : Chess) (draw : nat) : Chess :=
  match BotsTurn c draw with
  | Some (Played None c') => c'
  | _ => c
  end.

(** A game of a player with White against the bot at difficulty 1:
    1. Nf3, 2. g3, 3. Bg2, the bot answering each time with the first of
    its best moves (1... Nc6, 2... Nf6).  It is the bot's turn. *)
Definition bot_to_move : Chess := Eval vm_compute in
  (human_move
      (bot_move
         (human_move
            (bot_move (human_move (new_game 1 1) (6, 7, 5, 5)) 0)
            (6, 6, 6, 5))
         0)
      (5, 7, 6, 6)).

(** [p] is a piece of side [t] ([true] is White). *)
Definition own (t : bool) (p : Z) : bool := if t then 0 <? p else p <? 0.

(** The king, the rook and the pawn of side [t], its first rank, and its
    castling flag. *)
Definition king_of (t : bool) : Z := B_KING + 7 * b2z t.
Definition rook_of (t : bool) : Z := B_ROOK + 7 * b2z t.
Definition pawn_of (t : bool) : Z := B_PAWN + 7 * b2z t.
Definition line_of (t : bool) : Z := (BOARD_SIZE - 1) * b2z t.
Definition flag_of (c : Chess) (t : bool) : bool :=
  castling (if t then white c else black c).

(** The castling flag a log entry records for the side that made the
    move, as [MovePieceBack] reads it. *)
Definition recorded (e : LogEntry) : option bool :=
  if Moves_eqb (fst e) CASTLING then Some false
  else
    f <- sget (snd e) (6 + (if Moves_eqb (fst e) PROMOTION then 1 else 0))%nat ;;
    Some (negb (f =? 0)).

(** What every game object of a run has: a board of 64 squares; no
    random bot; the king of a side that may still castle nowhere but on
    its first square; castling flags that agree with what the last two
    log entries record; and, when the last entry is a pawn's advance
    over two ranks, that pawn where it landed and the square it passed
    empty. *)
Record Inv (c : Chess) : Prop := {
  inv_wf : wf_board (board c);
  inv_settings : white_bot_random c = false /\ black_bot_random c = false;
  inv_kings : forall t x y,
    flag_of c t = true -> rd (board c) y x = Some (king_of t) ->
    x = 4 /\ y = line_of t;
  inv_flag_mover : forall e,
    prev_cend (all_game_moves c) 2 = Some e ->
    recorded e = Some (flag_of c (whites_turn c));
  inv_flag_other : forall e,
    back (all_game_moves c) = Some e ->
    recorded e = Some (flag_of c (negb (whites_turn c)));
  inv_ep : forall e lx1 ly1 lx2 ly2,
    back (all_game_moves c) = Some e -> fst e = NORMAL ->
    ChangeToRealCoordinates (snd e) = Some (lx1, ly1, lx2, ly2) ->
    sget (snd e) 4 = Some (pawn_of (negb (whites_turn c))) ->
    ly2 - ly1 = 2 * (if whites_turn c then 1 else -1) ->
    rd (board c) (4 - b2z (whites_turn c)) lx1
      = Some (pawn_of (negb (whites_turn c))) /\
    rd (board c) (4 - b2z (whites_turn c) + (if whites_turn c then -1 else 1)) lx1
      = Some EMPTY
}.

(** A pawn's move: one step; two steps from its first rank over an empty
    square; or one step to the side and forward, onto the last rank, onto
    a piece, or en passant.  [dst] is what the target square holds. *)
Definition pawn_shape (c : Chess) (x1 y1 x2 y2 dst : Z) : Prop :=
  let t := whites_turn c in
  let inc := if t then -1 else 1 in
  (x2 = x1 /\ y2 = y1 + inc) \/
  (x2 = x1 /\ y1 = 1 + 5 * b2z t /\ y2 = y1 + 2 * inc /\
   rd (board c) (y1 + inc) x1 = Some EMPTY) \/
  (Z.abs (x2 - x1) = 1 /\ y2 = y1 + inc /\
   (y2 = (BOARD_SIZE - 1) * b2z (negb t) \/ dst <> EMPTY \/
    GetEnPassant c x1 y1 = Some x2)).

(** A rook's move: along a file, or along a rank over empty squares. *)
Definition rook_shape (c : Chess) (x1 y1 x2 y2 : Z) : Prop :=
  x2 = x1 \/
  (y2 = y1 /\
   forall x, (x1 < x < x2 \/ x2 < x < x1) -> rd (board c) y1 x = Some EMPTY).

(** The king going from its first square to the c- or the g-file: the
    squares between are empty and the rook is in its corner (on the
    king's wing the corner may also be empty, the rook lost). *)
Definition castle_shape (c : Chess) (x1 y1 x2 y2 : Z) : Prop :=
  let t := whites_turn c in
  let l := line_of t in
  x1 = 4 /\ y1 = l /\ y2 = l /\
  (x2 = 2 -> rd (board c) l 0 = Some (rook_of t) /\
             rd (board c) l 1 = Some EMPTY /\
             rd (board c) l 2 = Some EMPTY /\
             rd (board c) l 3 = Some EMPTY) /\
  (x2 = 6 -> (rd (board c) l 7 = Some (rook_of t) \/
              rd (board c) l 7 = Some EMPTY) /\
             rd (board c) l 5 = Some EMPTY /\
             rd (board c) l 6 = Some EMPTY).

(** What apply and undo need of a move of the side to move: two squares
    of the board, on the first nothing or a piece of the mover, on the
    second no piece of the mover, and the shape of the move when the
    piece is a pawn, a rook or a castling king.  Every move the
    generators produce is such a move, and such a move stays one when
    loose rooks are lost. *)
Definition plausible (c : Chess) (k : Key) : Prop :=
  let '(x1, y1, x2, y2) := k in
  let t := whites_turn c in
  (x1 <> x2 \/ y1 <> y2) /\
  exists src dst,
    rd (board c) y1 x1 = Some src /\ rd (board c) y2 x2 = Some dst /\
    (src = EMPTY \/ own t src = true) /\ own t dst = false /\
    (is_pawn src = true -> pawn_shape c x1 y1 x2 y2 dst) /\
    (is_rook src = true -> rook_shape c x1 y1 x2 y2) /\
    (is_king src = true -> flag_of c t = true -> x2 = 2 \/ x2 = 6 ->
     castle_shape c x1 y1 x2 y2).

(** The game object with another board. *)
Definition with_board (c : Chess) (b : Board) : Chess := set_board c b.

(** The two players after the side to move lost its castling flag. *)
Definition white_cleared (c : Chess) : Bot :=
  if whites_turn c then SetCastling (white c) false else white c.
Definition black_cleared (c : Chess) : Bot :=
  if whites_turn c then black c else SetCastling (black c) false.

(** The rank on which a pawn of the side to move is promoted. *)
Definition last_rank (c : Chess) : Z :=
  (BOARD_SIZE - 1) * b2z (negb (whites_turn c)).

(** The queen of side [t]. *)
Definition queen_of (t : bool) : Z := if t then W_QUEEN else B_QUEEN.

(** The piece a pawn becomes: the one asked for at the keyboard, or a
    queen. *)
Definition promoted (t : bool) (mp : bool) (key : PromotionKey) : Z :=
  if mp then promoted_piece t key else queen_of t.

(** The piece [MovePieceBack] puts back on the target square, read off
    the last entry of the log. *)
Definition captured_of (e : LogEntry) : option Z :=
  if Moves_eqb (fst e) CASTLING then Some EMPTY else sget (snd e) 5.

(** The h-file rook of side [t] stands on its home square and [t] may
    still castle: the rook an undone kingside castling removes. *)
Definition loose (c : Chess) (t : bool) : Prop :=
  flag_of c t = true /\ rd (board c) (line_of t) 7 = Some (rook_of t).

(** [c'] is [c] with some loose rooks gone. *)
Record worn (P : bool -> Prop) (c c' : Chess) : Prop := {
  worn_white : white c' = white c;
  worn_black : black c' = black c;
  worn_log : all_game_moves c' = all_game_moves c;
  worn_turn : whites_turn c' = whites_turn c;
  worn_counter : moves_after_last_pawn_move_or_capture c'
                 = moves_after_last_pawn_move_or_capture c;
  worn_random : white_bot_random c' = white_bot_random c /\
                black_bot_random c' = black_bot_random c;
  worn_wf : wf_board (board c');
  worn_board : forall y x, 0 <= y < 8 -> 0 <= x < 8 ->
    rd (board c') y x = rd (board c) y x \/
    (rd (board c') y x = Some EMPTY /\ x = 7 /\
     exists t, P t /\ y = line_of t /\ loose c t)
}.

(** The square [(y, x)] is the square [(y0, x0)]. *)
Definition at_cell (y x y0 x0 : Z) : bool := (y =? y0) && (x =? x0).

(** Castling on the king's wing is a candidate only when the king is not
    in check. *)
Definition castles_safely (c : Chess) (k : Key) : Prop :=
  let '(x1, y1, x2, y2) := k in
  rd (board c) y1 x1 = Some (king_of (whites_turn c)) ->
  flag_of c (whites_turn c) = true -> x2 = 6 ->
  IsCheck (board c) (whites_turn c) = Some false.

(** A move of a piece that is neither pawn nor king: the facts
    [plausible] asks for, with the rook's shape when it moves like one. *)
Definition line_move (c : Chess) (rook_like : bool) (x y x2 y2 : Z) : Prop :=
  (x <> x2 \/ y <> y2) /\
  (exists dst, rd (board c) y2 x2 = Some dst /\ own (whites_turn c) dst = false) /\
  (rook_like = true -> rook_shape c x y x2 y2).

(** What [plausible] asks of a king's move. *)
Definition king_move (c : Chess) (x y x2 y2 : Z) : Prop :=
  (x <> x2 \/ y <> y2) /\
  (exists dst, rd (board c) y2 x2 = Some dst /\ own (whites_turn c) dst = false) /\
  (flag_of c (whites_turn c) = true -> x2 = 2 \/ x2 = 6 ->
   castle_shape c x y x2 y2) /\
  (flag_of c (whites_turn c) = true -> x2 = 6 ->
   IsCheck (board c) (whites_turn c) = Some false).

(** A value that is neither a piece of the other side nor the king of
    side [t]: an empty square or one of [t]'s other pieces. *)
Definition quiet (t : bool) (v : Z) : Prop :=
  v = EMPTY \/ (own t v = true /\ v <> king_of t).

(** The pieces of the other side. *)
Definition hostile (t : bool) (v : Z) : Prop := own (negb t) v = true.

(** The attacker along a line other than the queen. *)
Definition slider (t : bool) (di dj : Z) : Z :=
  (if (di =? 0) || (dj =? 0) then W_ROOK else W_BISHOP) - 7 * b2z t.

(** Two game objects that differ in scores and in the fifty-move counter
    only. *)
Definition same_game (c0 c1 : Chess) : Prop :=
  board c1 = board c0 /\
  castling (white c1) = castling (white c0) /\
  castling (black c1) = castling (black c0) /\
  all_game_moves c1 = all_game_moves c0 /\
  whites_turn c1 = whites_turn c0 /\
  white_bot_random c1 = white_bot_random c0 /\
  black_bot_random c1 = black_bot_random c0.

(** [MovePiece] from the end of its [switch] on. *)
Definition MovePiece_tail (c : Chess) (x1 y1 x2 y2 : Z) (update_board : bool)
    : option Chess :=
  e <- back (all_game_moves c) ;;
  c <- (if negb (Moves_eqb (fst e) CASTLING)
        then l <- modify_back
                    (push_char (b2z (castling (GetCurrentPlayerConst c))))
                    (all_game_moves c) ;;
             Some (set_log c l)
        else Some c) ;;
  b <- shift_cell (board c) y2 x2 y1 x1 EMPTY ;;
  let c := set_board c b in
  e <- back (all_game_moves c) ;;
  c <- (if update_board && negb (Moves_eqb (fst e) CASTLING)
        then captured <- sget (snd e) 5 ;;
             if negb (captured =? EMPTY)
             then Some (set_counter
                          (set_current_player c
                             (IncreaseScore (GetCurrentPlayerConst c)
                                            (EvaluatePiece captured)))
                          0)
             else Some c
        else Some c) ;;
  Some (ChangeTurn c).

(** [c] with the corner of the h-file on the mover's first rank emptied. *)
Definition erased (c : Chess) : Chess :=
  set_board c (upd (board c) (cell (line_of (whites_turn c)) 7) EMPTY).

(** What is known of a candidate move. *)
Definition candidate (c : Chess) (m : str) : Prop :=
  exists x1 y1 x2 y2,
    m = ToString x1 y1 x2 y2 /\ plausible c (x1, y1, x2, y2) /\
    castles_safely c (x1, y1, x2, y2).

(** Either side: the search loses rooks of both. *)
Definition any_side (t : bool) : Prop := True.

(** The move [PlayersTurn] applies: one of the list, on the board. *)
Definition accepted (x1 y1 x2 y2 : Z) (all_moves : list str) : bool :=
  (negb (x1 =? x2) || negb (y1 =? y2))
  && WithinBounds x1 && WithinBounds y1 && WithinBounds x2 && WithinBounds y2
  && CanMovePiece x1 y1 x2 y2 all_moves.

(** The game objects of a run: the one [main] builds, and the one each
    step of a turn leaves.  The steps of [PlayersTurn] are [AllMoves],
    [MovePiece] on an accepted input, and [CheckEndgame]; those of
    [BotsTurn] are the search, [MovePiece] on the move it returns, and
    [CheckEndgame]. *)
Inductive reach : Chess -> Prop :=
| reach_start (difficulty1 difficulty2 : Z) :
    reach (new_game difficulty1 difficulty2)
| reach_AllMoves (c c' : Chess) (l : list str) :
    reach c -> AllMoves c = Some (l, c') -> reach c'
| reach_typed (c c0 c1 : Chess) (l : list str) (x1 y1 x2 y2 : Z)
    (key : PromotionKey) :
    reach c -> AllMoves c = Some (l, c0) -> accepted x1 y1 x2 y2 l = true ->
    MovePiece c0 x1 y1 x2 y2 true key true = Some c1 -> reach c1
| reach_search (c c0 : Chess) (difficulty draw : nat) (k : Key) :
    reach c -> AlphaBetaRoot c difficulty draw = Some (k, c0) -> reach c0
| reach_chosen (c c0 c1 : Chess) (difficulty draw : nat) (x1 y1 x2 y2 : Z) :
    reach c -> AlphaBetaRoot c difficulty draw = Some ((x1, y1, x2, y2), c0) ->
    MovePiece c0 x1 y1 x2 y2 false key_q true = Some c1 -> reach c1
| reach_CheckEndgame (c c' : Chess) (over : option Endgame) :
    reach c -> CheckEndgame c = Some (over, c') -> reach c'.




(** A turn commits the move [(x1, y1) -> (x2, y2)]: on the game object
    [c0], the one [AllMoves] left in [PlayersTurn] (the typed move is one
    of its list) or the one the search left in [BotsTurn] (the move is
    the one it returned), [MovePiece] is called with the display on and
    leaves [c1].  [c] is the game object at the start of the turn. *)
Inductive committed (c c0 : Chess) (x1 y1 x2 y2 : Z) (c1 : Chess) : Prop :=
| committed_typed (l : list str) (key : PromotionKey) :
    AllMoves c = Some (l, c0) -> accepted x1 y1 x2 y2 l = true ->
    MovePiece c0 x1 y1 x2 y2 true key true = Some c1 ->
    committed c c0 x1 y1 x2 y2 c1
| committed_chosen (difficulty draw : nat) :
    AlphaBetaRoot c difficulty draw = Some ((x1, y1, x2, y2), c0) ->
    MovePiece c0 x1 y1 x2 y2 false key_q true = Some c1 ->
    committed c c0 x1 y1 x2 y2 c1.

(** * Vocabulary of the further properties *)

(** Castling on the king's wing: the king of the side to move, still
    allowed to castle, goes to the g-file. *)
Definition castles_kingside (c : Chess) (k : Key) : Prop :=
  let '(x1, y1, x2, y2) := k in
  rd (board c) y1 x1 = Some (king_of (whites_turn c)) /\
  flag_of c (whites_turn c) = true /\ x2 = 6.

(** A piece [a1] or [a2] is in sight of [(x, y)] in the direction
    [(di, dj)]: it stands [k] steps away and the squares before it are
    empty. *)
Definition in_sight (b : Board) (a1 a2 : Z) (x y di dj : Z) : Prop :=
  exists k : nat,
    (1 <= k)%nat /\
    (forall m : nat, (1 <= m < k)%nat ->
       rd b (y + Z.of_nat m * dj) (x + Z.of_nat m * di) = Some EMPTY) /\
    (rd b (y + Z.of_nat k * dj) (x + Z.of_nat k * di) = Some a1 \/
     rd b (y + Z.of_nat k * dj) (x + Z.of_nat k * di) = Some a2).

(** The square [(x, y)] is attacked by a piece of the side opposite to
    [t]: a rook or the queen along a rank or file, a bishop or the queen
    along a diagonal, the king from a neighbouring square, a knight a
    jump away, or a pawn from the next rank towards the other side's
    end. *)
Definition attacked (b : Board) (t : bool) (x y : Z) : Prop :=
  (exists di dj, -1 <= di <= 1 /\ -1 <= dj <= 1 /\ (di <> 0 \/ dj <> 0) /\
     in_sight b (slider t di dj) (W_QUEEN - 7 * b2z t) x y di dj) \/
  (exists i j, Z.abs (i - x) <= 1 /\ Z.abs (j - y) <= 1 /\
     rd b j i = Some (W_KING - 7 * b2z t)) \/
  (exists i j, ((Z.abs (i - x) = 2 /\ Z.abs (j - y) = 1) \/
                (Z.abs (i - x) = 1 /\ Z.abs (j - y) = 2)) /\
     rd b j i = Some (W_KNIGHT - 7 * b2z t)) \/
  (exists i, Z.abs (i - x) = 1 /\
     rd b (y + (if t then -1 else 1)) i = Some (W_PAWN - 7 * b2z t)).

(** From [(x, y)] a piece of side [t] that moves along lines reaches
    [(x2, y2)] in the direction [(di, dj)]: the squares between are empty
    and the target holds no piece of [t]. *)
Definition line_reach (b : Board) (t : bool) (x y di dj x2 y2 : Z) : Prop :=
  exists k : nat,
    (1 <= k)%nat /\ x2 = x + Z.of_nat k * di /\ y2 = y + Z.of_nat k * dj /\
    (forall m : nat, (1 <= m < k)%nat ->
       rd b (y + Z.of_nat m * dj) (x + Z.of_nat m * di) = Some EMPTY) /\
    exists v, rd b y2 x2 = Some v /\ own t v = false.

(** The directions of a rook and of a bishop. *)
Definition straight (di dj : Z) : Prop :=
  (Z.abs di = 1 /\ dj = 0) \/ (di = 0 /\ Z.abs dj = 1).

Definition diagonal (di dj : Z) : Prop := Z.abs di = 1 /\ Z.abs dj = 1.

(** A knight's jump from [(x, y)] to [(x2, y2)]. *)
Definition knight_jump (x y x2 y2 : Z) : Prop :=
  (Z.abs (x2 - x) = 2 /\ Z.abs (y2 - y) = 1) \/
  (Z.abs (x2 - x) = 1 /\ Z.abs (y2 - y) = 2).

(** Where [PawnMoves] sends the pawn on [(x, y)]: one rank ahead onto an
    empty square; two ranks ahead from its first rank over two empty
    squares; one rank ahead and one file aside onto a piece of the other
    side; or onto the square [GetEnPassant] names. *)
Definition pawn_target (c : Chess) (x y x2 y2 : Z) : Prop :=
  let b := board c in
  let t := whites_turn c in
  let inc := if t then -1 else 1 in
  (x2 = x /\ y2 = y + inc /\ rd b (y + inc) x = Some EMPTY) \/
  (x2 = x /\ y2 = y + 2 * inc /\ y = 1 + 5 * b2z t /\
   rd b (y + inc) x = Some EMPTY /\ rd b (y + 2 * inc) x = Some EMPTY) \/
  (Z.abs (x2 - x) = 1 /\ y2 = y + inc /\
   exists v, rd b (y + inc) x2 = Some v /\ capture t v = true) \/
  (y2 = y + inc /\ x2 <> -1 /\ GetEnPassant c x y = Some x2).

(** What a turn does to the books of the game: the other side is to
    move, the log has one entry more, and no side has a castling right it
    did not have. *)
Definition turn_taken (c c2 : Chess) : Prop :=
  whites_turn c2 = negb (whites_turn c) /\
  (exists e, all_game_moves c2 = all_game_moves c ++ [e]) /\
  (forall t, flag_of c2 t = true -> flag_of c t = true).

(** The game after the player's 1. Nf3: the bot (Black) is to move. *)
Definition bot_to_reply : Chess := Eval vm_compute in
  (human_move (new_game 1 1) (6, 7, 5, 5)).

(** Two boards that are the same but for one h-file corner, where the
    first has the rook [r] and the second nothing. *)
Definition corner_cleared (L r : Z) (b b' : Board) : Prop :=
  wf_board b /\ wf_board b' /\
  (forall y x, y <> L \/ x <> 7 -> rd b' y x = rd b y x) /\
  (rd b' L 7 = rd b L 7 \/ (rd b L 7 = Some r /\ rd b' L 7 = Some EMPTY)).

(** What a search may leave behind in the game object [c] it was given:
    players, log, turn and counter are as they were, and so is every
    square of the board, except that an h-file corner may have been
    emptied where a side that may still castle had its rook. *)
Definition search_trace (c c' : Chess) : Prop :=
  white c' = white c /\ black c' = black c /\
  all_game_moves c' = all_game_moves c /\ whites_turn c' = whites_turn c /\
  moves_after_last_pawn_move_or_capture c'
  = moves_after_last_pawn_move_or_capture c /\
  forall y x, 0 <= y < 8 -> 0 <= x < 8 ->
    rd (board c') y x = rd (board c) y x \/
    (x = 7 /\ rd (board c') y x = Some EMPTY /\
     exists t, y = line_of t /\ loose c t).

(** The piece of the same kind and of the other colour. *)
Definition swap_colour (p : Z) : Z :=
  if p =? EMPTY then EMPTY else if p <? 0 then p + 7 else p - 7.

(** [b'] is [b] seen from the other side of the board with the colours
    exchanged: rank [y] of [b] is rank [7 - y] of [b'].  The squares of
    [b] hold pieces ([-6..6]). *)
Definition mirrored (b b' : Board) : Prop :=
  forall y x, 0 <= y < 8 -> 0 <= x < 8 ->
    exists p, rd b y x = Some p /\ -6 <= p <= 6 /\
              rd b' (7 - y) x = Some (swap_colour p).

(** The sum of [f] over a list of squares. *)
Definition total (f : Z -> Z -> Z) (l : list (Z * Z)) : Z :=
  fold_right (fun sq s => f (fst sq) (snd sq) + s) 0 l.



(** The score the loop of [AlphaBetaRoot] gives each move, in the order
    it searches them: apply the move, call [AlphaBeta] for the other
    side, undo the move.  There is no list when the loop returns early
    on a move that takes the king. *)
Fixpoint root_scores (difficulty : nat) (nodes : list Key) (c : Chess)
    : option (list (Key * Z)) :=
  match nodes with
  | [] => Some []
  | (x1, y1, x2, y2) :: rest =>
      target <- GetPiece c x2 y2 ;;
      if target =? W_KING - 7 * b2z (GetTurn c) then None
      else
        c <- MovePiece c x1 y1 x2 y2 false key_q false ;;
        '(move_score, c) <- AlphaBeta difficulty c (2 * -10000) (2 * 10000)
                              false (negb (GetTurn c)) ;;
        c <- MovePieceBack c x1 y1 x2 y2 ;;
        scores <- root_scores difficulty rest c ;;
        Some (((x1, y1, x2, y2), move_score) :: scores)
  end.

(** The moves of a list of scored moves that have the score [s]. *)
Definition scored (s : Z) (scores : list (Key * Z)) : list Key :=
  map fst (filter (fun ks => snd ks =? s) scores).

(** The moves the bot (Black) searches after the player's 1. Nf3, and
    the scores its search at difficulty 1 gives them. *)
Definition reply_keys := Eval vm_compute in
  (match CreateSubtree bot_to_reply with
   | Some (keys, _) => keys
   | None => @nil Key
   end).

Definition reply_scores := Eval vm_compute in
  (match root_scores 1 reply_keys bot_to_reply with
   | Some scores => scores
   | None => @nil (Key * Z)
   end).

(** The score of side [t]. *)
Definition score_of (c : Chess) (t : bool) : Z :=
  score (if t then white c else black c).

(** * Properties *)

(** ** Elementary facts on bounds, characters and squares *)

Lemma WithinBounds_spec (z : Z) : WithinBounds z = true <-> 0 <= z < 8.
Proof. unfold WithinBounds, BOARD_SIZE. lia. Qed.

Lemma to_char_small (z : Z) : -128 <= z < 128 -> to_char z = z.
Proof.
  intros H. unfold to_char.
  rewrite Z.mod_small; lia.
Qed.

Lemma rd_Some_bounds (b : Board) (y x v : Z) :
  rd b y x = Some v -> 0 <= y < 8 /\ 0 <= x < 8.
Proof.
  unfold rd. destruct (WithinBounds y) eqn:Hy; simpl; try discriminate.
  destruct (WithinBounds x) eqn:Hx; simpl; try discriminate.
  intros _. split; now apply WithinBounds_spec.
Qed.

Lemma rd_defined (b : Board) (y x : Z) :
  wf_board b -> 0 <= y < 8 -> 0 <= x < 8 -> exists v, rd b y x = Some v.
Proof.
  intros Hb Hy Hx. unfold rd.
  rewrite (proj2 (WithinBounds_spec y) Hy), (proj2 (WithinBounds_spec x) Hx).
  simpl. destruct (nth_error b (cell y x)) eqn:E; eauto.
  apply nth_error_None in E. unfold cell, BOARD_SIZE, wf_board in *. lia.
Qed.

Lemma probe_lenient_defined (b : Board) (test : Z -> bool) (j i : Z) (g : bool) :
  wf_board b -> (g = true -> 0 <= j < 8 /\ 0 <= i < 8) ->
  exists r, probe false b test j i g = Some r.
Proof.
  intros Hb Hg. unfold probe.
  destruct (rd b j i) eqn:E; eauto.
  destruct g; simpl; eauto.
  destruct (Hg eq_refl) as [Hj Hi].
  destruct (rd_defined b j i Hb Hj Hi) as [v Hv]. congruence.
Qed.

Lemma probe_true_bounds (s : bool) (b : Board) (test : Z -> bool) (j i : Z) (g : bool) :
  probe s b test j i g = Some true -> g = true /\ exists v, rd b j i = Some v /\ test v = true.
Proof.
  unfold probe. destruct (rd b j i) as [v|].
  - intros H. injection H as H. apply andb_true_iff in H. destruct H. eauto.
  - destruct (s || g); discriminate.
Qed.

(** ** What [jumps] adds to a list *)

Lemma jumps_In (b : Board) (turn : bool) (x y : Z) (l : list (Z * Z * bool)) :
  forall acc res m, jumps b turn x y l acc = Some res -> In m res ->
    In m acc \/ exists j i, In (j, i, true) l /\ m = ToString x y i j.
Proof.
  induction l as [|[[j i] g] t IH]; intros acc res m H Hin; simpl in H.
  - injection H as <-. now left.
  - destruct (probe false b (landing turn) j i g) as [ok|] eqn:Ep; try discriminate.
    destruct (IH _ _ _ H Hin) as [Ha|(j' & i' & Hl & ->)].
    + unfold emplace_if in Ha. destruct ok.
      * destruct Ha as [<-|Ha]; [|now left].
        right. exists j, i. split; [|reflexivity].
        apply probe_true_bounds in Ep. destruct Ep as [-> _]. now left.
      * now left.
    + right. exists j', i'. split; [now right|reflexivity].
Qed.

Lemma jumps_defined (b : Board) (turn : bool) (x y : Z) (l : list (Z * Z * bool)) :
  wf_board b ->
  (forall j i, In (j, i, true) l -> 0 <= j < 8 /\ 0 <= i < 8) ->
  forall acc, exists res, jumps b turn x y l acc = Some res.
Proof.
  intros Hb. induction l as [|[[j i] g] t IH]; intros Hl acc; simpl.
  - eauto.
  - destruct (probe_lenient_defined b (landing turn) j i g Hb) as [r ->].
    + intros ->. apply Hl. now left.
    + apply IH. intros j' i' Hin. apply Hl. now right.
Qed.

Lemma king_ring_true (x y j i : Z) :
  In (j, i, true) (king_ring x y) ->
  0 <= j < 8 /\ 0 <= i < 8 /\ x - 1 <= i <= x + 1 /\ y - 1 <= j <= y + 1.
Proof.
  unfold king_ring. simpl. intros H.
  repeat (destruct H as [H|H];
          [ injection H as <- <- H; apply andb_true_iff in H; destruct H as [H1 H2];
            apply WithinBounds_spec in H1; apply WithinBounds_spec in H2; lia | ]).
  contradiction.
Qed.

Lemma king_step_not_castle (c : Chess) (x y j i x2 : Z) :
  In (j, i, true) (king_ring x y) -> 0 <= x < 8 -> x2 = 2 \/ x2 = 6 ->
  ToString x y i j <> ToString 4 (home_line c) x2 (home_line c).
Proof.
  intros Hin Hx Hx2 E. apply king_ring_true in Hin.
  unfold ToString in E. injection E as E1 _ E3 _.
  rewrite !to_char_small in E1, E3 by lia. lia.
Qed.

(** ** Castling in [KingMoves] *)

Lemma steps_not_castle (c : Chess) (x y x2 : Z) (l : list str) :
  jumps (board c) (whites_turn c) x y (king_ring x y) [] = Some l ->
  0 <= x < 8 -> x2 = 2 \/ x2 = 6 ->
  ~ In (ToString 4 (home_line c) x2 (home_line c)) l.
Proof.
  intros Hj Hx Hx2 Hin.
  destruct (jumps_In _ _ _ _ _ _ _ _ Hj Hin) as [[]|(j & i & Hr & E)].
  symmetry in E. revert E. now apply king_step_not_castle.
Qed.

Lemma castle_moves_differ (c : Chess) : castle_queenside c <> castle_kingside c.
Proof.
  unfold castle_queenside, castle_kingside, ToString. intros E.
  injection E as E. vm_compute in E. discriminate.
Qed.

Ltac zeqb_cases :=
  repeat match goal with
  | H : context [?a =? ?b] |- _ =>
      let E := fresh "E" in
      destruct (a =? b) eqn:E;
      [apply Z.eqb_eq in E | apply Z.eqb_neq in E]
  | |- context [?a =? ?b] =>
      let E := fresh "E" in
      destruct (a =? b) eqn:E;
      [apply Z.eqb_eq in E | apply Z.eqb_neq in E]
  end.

(** Which castling moves the list of [KingMoves] holds. *)
Lemma KingMoves_castling (c : Chess) (x y : Z) (l : list str) :
  KingMoves c x y = Some l -> 0 <= x < 8 ->
  (In (castle_queenside c) l <-> may_castle c /\ queenside_ready c) /\
  (In (castle_kingside c) l <->
     may_castle c /\ kingside_ready c /\ ~ queenside_ready c).
Proof.
  intros H Hx. unfold KingMoves in H.
  destruct (jumps (board c) (whites_turn c) x y (king_ring x y) []) as [l0|] eqn:Hj;
    try discriminate.
  pose proof (steps_not_castle c x y 2 l0 Hj Hx (or_introl eq_refl)) as Nq.
  pose proof (steps_not_castle c x y 6 l0 Hj Hx (or_intror eq_refl)) as Nk.
  pose proof (castle_moves_differ c) as Hd.
  fold (home_line c) in H. fold (home_rook c) in H.
  fold (castle_queenside c) in H, Nq. fold (castle_kingside c) in H, Nk.
  unfold may_castle, queenside_ready, kingside_ready.
  destruct (castling (GetCurrentPlayerConst c)).
  2:{ injection H as <-. split; split; intros; try tauto;
      destruct H as [[? _] _]; discriminate. }
  destruct (IsCheck (board c) (whites_turn c)) as [[|]|]; try discriminate.
  { injection H as <-. split; split; intros; try tauto;
    destruct H as [[_ ?] _]; discriminate. }
  simpl in H.
  destruct (rd (board c) (home_line c) 0) as [r0|] eqn:R0; try discriminate.
  assert (Hq : forall q,
    (if r0 =? home_rook c
     then s1 <- rd (board c) (home_line c) 1 ;;
          (if s1 =? EMPTY
           then s2 <- rd (board c) (home_line c) 2 ;;
                (if s2 =? EMPTY
                 then s3 <- rd (board c) (home_line c) 3 ;; Some (s3 =? EMPTY)
                 else Some false)
           else Some false)
     else Some false) = Some q ->
    (q = true <->
     (Some r0 = Some (home_rook c) /\
      rd (board c) (home_line c) 1 = Some EMPTY /\
      rd (board c) (home_line c) 2 = Some EMPTY /\
      rd (board c) (home_line c) 3 = Some EMPTY))).
  { intros q Eq.
    destruct (rd (board c) (home_line c) 1) as [s1|];
    destruct (rd (board c) (home_line c) 2) as [s2|];
    destruct (rd (board c) (home_line c) 3) as [s3|];
    zeqb_cases; subst; try discriminate; try injection Eq as <-;
    split; intros; try discriminate; try tauto;
    repeat match goal with H : _ /\ _ |- _ => destruct H end;
    try congruence. }
  match type of H with (q <- ?e ;; _) = _ => destruct e as [q|] eqn:Eq end;
    try discriminate.
  specialize (Hq q eq_refl). rename Hq into Eq'. clear Eq. rename Eq' into Eq.
  destruct q.
  - injection H as <-. split; split; simpl; intros; try tauto.
    all: try (destruct H as [H|H]; [congruence|contradiction]).
    all: try (destruct H as (_ & _ & Hn); exfalso; apply Hn; now apply Eq).
  - destruct (rd (board c) (home_line c) 7) as [r7|] eqn:R7; try discriminate.
    assert (Nready : ~ (Some r0 = Some (home_rook c) /\
                        rd (board c) (home_line c) 1 = Some EMPTY /\
                        rd (board c) (home_line c) 2 = Some EMPTY /\
                        rd (board c) (home_line c) 3 = Some EMPTY)).
    { intros Hr. apply Eq in Hr. discriminate. }
    match type of H with (k <- ?e ;; _) = _ => destruct e as [k|] eqn:Ek end;
      try discriminate.
    injection H as <-.
    assert (Hk : k = true <->
      (Some r7 = Some (home_rook c) /\
       rd (board c) (home_line c) 5 = Some EMPTY /\
       rd (board c) (home_line c) 6 = Some EMPTY)).
    { destruct (rd (board c) (home_line c) 5) as [s5|];
      destruct (rd (board c) (home_line c) 6) as [s6|];
      zeqb_cases; subst; try discriminate; try injection Ek as <-;
      split; intros; try discriminate; try tauto;
      repeat match goal with H : _ /\ _ |- _ => destruct H end;
      try congruence. }
    unfold emplace_if. destruct k; split; split; simpl; intros; try tauto.
    all: try (destruct H as [H|H]; [congruence|contradiction]).
    all: try (destruct H as (_ & Hr & _); apply Hk in Hr; discriminate).
Qed.

Lemma KingMoves_steps_defined (c : Chess) (x y : Z) :
  wf_board (board c) ->
  exists l0, jumps (board c) (whites_turn c) x y (king_ring x y) [] = Some l0.
Proof.
  intros Hb. apply jumps_defined; [assumption|].
  intros j i Hin. apply king_ring_true in Hin. tauto.
Qed.

(** C10.  When the side to move may castle and both wings are ready (rook
    at home, squares between king and rook empty, flag set, king not in
    check), the list of [KingMoves] holds the queenside castling move and
    does not hold the kingside one. *)
Theorem KingMoves_both_wings_only_queenside (c : Chess) (x y : Z) :
  wf_board (board c) -> 0 <= x < 8 ->
  may_castle c -> queenside_ready c -> kingside_ready c ->
  exists l, KingMoves c x y = Some l /\
            In (castle_queenside c) l /\ ~ In (castle_kingside c) l.
Proof.
  intros Hb Hx Hm Hq Hk.
  destruct (KingMoves_steps_defined c x y Hb) as [l0 Hj].
  assert (Hdef : KingMoves c x y = Some (castle_queenside c :: l0)).
  { unfold KingMoves. rewrite Hj.
    destruct Hm as [-> ->]. simpl negb. cbv iota.
    destruct Hq as (R0 & R1 & R2 & R3).
    fold (home_line c). fold (home_rook c).
    rewrite R0, R1, R2, R3. rewrite !Z.eqb_refl. reflexivity. }
  exists (castle_queenside c :: l0). split; [exact Hdef|].
  destruct (KingMoves_castling c x y _ Hdef Hx) as [Hq' Hk'].
  split.
  - apply Hq'. now split.
  - intros Hin. apply Hk' in Hin. tauto.
Qed.

Lemma KingMoves_both_wings_only_queenside_witness :
  exists l, KingMoves open_wings 4 7 = Some l /\
            In (castle_queenside open_wings) l /\
            ~ In (castle_kingside open_wings) l.
Proof.
  apply (KingMoves_both_wings_only_queenside open_wings 4 7).
  - reflexivity.
  - lia.
  - split; reflexivity.
  - repeat split; reflexivity.
  - repeat split; reflexivity.
Defined.



(** ** Out-of-range coordinates *)

Ltac bind_inv H :=
  match type of H with
  | match ?e with Some _ => _ | None => None end = Some _ =>
      let E := fresh "E" in destruct e eqn:E; [|discriminate H]
  end.

Lemma wr_Some_bounds (b b' : Board) (y x v : Z) :
  wr b y x v = Some b' -> 0 <= y < 8 /\ 0 <= x < 8.
Proof.
  unfold wr. destruct (WithinBounds y) eqn:Hy; simpl; try discriminate.
  destruct (WithinBounds x) eqn:Hx; simpl; try discriminate.
  intros _. split; now apply WithinBounds_spec.
Qed.

Lemma shift_cell_bounds (b b' : Board) (ya xa yb xb v : Z) :
  shift_cell b ya xa yb xb v = Some b' ->
  (0 <= ya < 8 /\ 0 <= xa < 8) /\ (0 <= yb < 8 /\ 0 <= xb < 8).
Proof.
  unfold shift_cell. intros H.
  bind_inv H. bind_inv H.
  split; [eapply wr_Some_bounds|eapply rd_Some_bounds]; eassumption.
Qed.

Lemma MovePiece_Some_bounds (c c' : Chess) (x1 y1 x2 y2 : Z) (mp : bool)
    (key : PromotionKey) (ub : bool) :
  MovePiece c x1 y1 x2 y2 mp key ub = Some c' ->
  (0 <= y1 < 8 /\ 0 <= x1 < 8) /\ (0 <= y2 < 8 /\ 0 <= x2 < 8).
Proof.
  unfold MovePiece. intros H.
  do 5 bind_inv H.
  match type of H with
  | match ?e with Some _ => _ | None => None end = Some _ =>
      destruct e eqn:Es; [|discriminate H]
  end.
  apply shift_cell_bounds in Es. tauto.
Qed.

(** C4 (as the code has it).  When a coordinate is outside [0..7],
    [CheckCoordinates] ends the process with status 1 after a diagnostic
    that carries the first offending coordinate ([x] when [x] is out of
    range, else [y]), the function name and the move log; [GetPiece] and
    [MovePiece] do not go through it: they index the board directly, so
    with such a coordinate they neither exit nor give a value. *)
Theorem out_of_range_coordinate (c : Chess) (x y : Z) (func_name : str) :
  WithinBounds x && WithinBounds y = false ->
  CheckCoordinates c x y func_name
    = Exits 1 (if WithinBounds x then y else x) func_name (all_game_moves c)
  /\ WithinBounds (if WithinBounds x then y else x) = false
  /\ GetPiece_call c x y = Undefined
  /\ (forall x2 y2 mp key ub, MovePiece_call c x y x2 y2 mp key ub = Undefined)
  /\ (forall x1 y1 mp key ub, MovePiece_call c x1 y1 x y mp key ub = Undefined).
Proof.
  intros Hout.
  assert (Hno : ~ ((0 <= y < 8) /\ (0 <= x < 8))).
  { intros [Hy Hx]. apply WithinBounds_spec in Hy, Hx.
    rewrite Hy, Hx in Hout. discriminate. }
  split; [|split; [|split; [|split]]].
  - unfold CheckCoordinates.
    destruct (WithinBounds x) eqn:Hx; simpl.
    + simpl in Hout. rewrite Hout. reflexivity.
    + reflexivity.
  - destruct (WithinBounds x) eqn:Hx; [|exact Hx].
    simpl in Hout. exact Hout.
  - unfold GetPiece_call, GetPiece.
    destruct (rd (board c) y x) eqn:E; [|reflexivity].
    apply rd_Some_bounds in E. contradiction.
  - intros. unfold MovePiece_call.
    destruct (MovePiece c x y x2 y2 mp key ub) eqn:E; [|reflexivity].
    apply MovePiece_Some_bounds in E. tauto.
  - intros. unfold MovePiece_call.
    destruct (MovePiece c x1 y1 x y mp key ub) eqn:E; [|reflexivity].
    apply MovePiece_Some_bounds in E. tauto.
Qed.

Lemma out_of_range_coordinate_witness :
  CheckCoordinates (new_game 1 1) 9 8 [71]
    = Exits 1 9 [71] (all_game_moves (new_game 1 1))
  /\ WithinBounds 9 = false
  /\ GetPiece_call (new_game 1 1) 9 8 = Undefined
  /\ (forall x2 y2 mp key ub,
        MovePiece_call (new_game 1 1) 9 8 x2 y2 mp key ub = Undefined)
  /\ (forall x1 y1 mp key ub,
        MovePiece_call (new_game 1 1) x1 y1 9 8 mp key ub = Undefined).
Proof.
  apply (out_of_range_coordinate (new_game 1 1) 9 8 [71]). reflexivity.
Defined.

(** C4 as the specification words it fails: a piece lookup with column 8
    does not end the process. *)
Lemma GetPiece_out_of_range_does_not_exit :
  WithinBounds 8 = false /\
  ~ (exists status coord func_name log,
       GetPiece_call (new_game 1 1) 8 0 = Exits status coord func_name log) /\
  ~ (exists status coord func_name log,
       MovePiece_call (new_game 1 1) 8 0 8 1 false key_q false
         = Exits status coord func_name log).
Proof.
  split; [reflexivity|]. split; intros (s & co & f & l & H); discriminate H.
Qed.

(** ** Index bounds in [IsCheck] *)

(** C9 fails on the starting position.  The white king stands on e1,
    column 4 of row 7; no ray finds an attacker, and the first probe of
    the ring around the king that leaves the board is [board[8][3]],
    read before [WithinBounds] is consulted. *)
Theorem IsCheck_reads_outside_the_board :
  wf_board STARTING_BOARD /\
  king_scan STARTING_BOARD (B_KING + 7 * b2z true) 0 8 = Some (4, 7) /\
  In (8, 3, false) (king_ring 4 7) /\
  rd STARTING_BOARD 8 3 = None /\
  IsCheck_checked STARTING_BOARD true = None /\
  IsCheck STARTING_BOARD true = Some false.
Proof.
  repeat split; try reflexivity.
  simpl. tauto.
Qed.

(** ** En passant in [PawnMoves] *)

Lemma Moves_eqb_eq (a b : Moves) : Moves_eqb a b = true <-> a = b.
Proof. destruct a, b; simpl; split; intros; congruence. Qed.

Lemma GetEnPassant_spec (c : Chess) (x y file : Z) :
  file <> -1 ->
  (GetEnPassant c x y = Some file <-> en_passant_right c x y file).
Proof.
  intros Hf. unfold GetEnPassant, en_passant_right, two_square_advance.
  destruct (back (all_game_moves c)) as [e|].
  2:{ split; [intros H; injection H as H; lia|].
      intros [(e & ? & ? & ? & ? & H & _) _]. discriminate. }
  destruct (Moves_eqb (fst e) NORMAL) eqn:Ek; cbn [negb].
  2:{ split; [intros H; injection H as H; lia|].
      intros [(e' & ? & ? & ? & ? & H & Hn & _) _].
      injection H as <-. apply Moves_eqb_eq in Hn. congruence. }
  apply Moves_eqb_eq in Ek.
  destruct (ChangeToRealCoordinates (snd e)) as [[[[lx1 ly1] lx2] ly2]|] eqn:Ec.
  2:{ split; [discriminate|].
      intros [(e' & ? & ? & ? & ? & H & _ & H2 & _) _].
      injection H as <-. congruence. }
  destruct (sget (snd e) 4) as [piece|] eqn:Ep; cbv beta iota.
  2:{ split; [discriminate|].
      intros [(e' & ? & ? & ? & ? & H & _ & _ & H2 & _) _].
      injection H as <-. congruence. }
  match goal with |- context [if ?t then _ else _] => destruct t eqn:Et end.
  - apply andb_true_iff in Et. destruct Et as [Et E4].
    apply andb_true_iff in Et. destruct Et as [Et E3].
    apply andb_true_iff in Et. destruct Et as [E1 E2].
    apply Z.eqb_eq in E1, E2, E3, E4.
    split.
    + intros H. injection H as <-.
      split; [|split; assumption].
      exists e, lx1, ly1, lx2, ly2. subst piece. repeat split; assumption.
    + intros [(e' & a & b & d & f & H & _ & H2 & _ & _ & <-) _].
      injection H as <-. rewrite Ec in H2. injection H2 as <- _ _ _. reflexivity.
  - split; [intros H; injection H as H; lia|].
    intros [(e' & a & b & d & f & H & _ & H2 & H3 & H4 & <-) [Ha Hy]].
    injection H as <-. rewrite Ec in H2. injection H2 as <- <- <- <-.
    rewrite Ep in H3. injection H3 as ->.
    rewrite Z.eqb_refl in Et. cbn [andb] in Et.
    rewrite (proj2 (Z.eqb_eq _ _) Ha) in Et.
    rewrite (proj2 (Z.eqb_eq _ _) H4) in Et.
    rewrite (proj2 (Z.eqb_eq _ _) Hy) in Et. discriminate.
Qed.

Lemma GetEnPassant_range (c : Chess) (x y ep : Z) :
  GetEnPassant c x y = Some ep -> -128 <= ep < 128.
Proof.
  unfold GetEnPassant.
  destruct (back (all_game_moves c)) as [e|]; [|intros H; injection H as <-; lia].
  destruct (negb (Moves_eqb (fst e) NORMAL)); [intros H; injection H as <-; lia|].
  unfold ChangeToRealCoordinates.
  destruct (sget (snd e) 0) as [c0|]; try discriminate.
  destruct (sget (snd e) 1); try discriminate.
  destruct (sget (snd e) 2); try discriminate.
  destruct (sget (snd e) 3); try discriminate.
  destruct (sget (snd e) 4); try discriminate.
  match goal with |- context [if ?t then _ else _] => destruct t end;
    intros H; injection H as <-; [|lia].
  unfold to_char.
  pose proof (Z.mod_pos_bound (c0 - 97 + 128) 256). lia.
Qed.

Lemma ToString_inj (x1 y1 x2 y2 x1' y1' x2' y2' : Z) :
  -128 <= x1 < 128 -> -128 <= x2 < 128 ->
  0 <= x1' < 8 -> 0 <= x2' < 8 ->
  ToString x1 y1 x2 y2 = ToString x1' y1' x2' y2' -> x1 = x1' /\ x2 = x2'.
Proof.
  intros H1 H2 H1' H2' E. unfold ToString in E.
  injection E as E1 _ E3 _.
  rewrite (to_char_small (x1' + 97)) in E1 by lia.
  rewrite (to_char_small (x2' + 97)) in E3 by lia.
  unfold to_char in E1, E3.
  pose proof (Z.mod_pos_bound (x1 + 97 + 128) 256).
  pose proof (Z.mod_pos_bound (x2 + 97 + 128) 256).
  pose proof (Z.div_mod (x1 + 97 + 128) 256).
  pose proof (Z.div_mod (x2 + 97 + 128) 256).
  split; lia.
Qed.

Lemma In_emplace_if (cond : bool) (m a : str) (l : list str) :
  In m (emplace_if cond a l) <-> (cond = true /\ a = m) \/ In m l.
Proof.
  unfold emplace_if. destruct cond; simpl; intuition congruence.
Qed.

Lemma capture_EMPTY (turn : bool) : capture turn EMPTY = false.
Proof. now destruct turn. Qed.

(** A diagonal pawn move onto an empty square is in the list of
    [PawnMoves] exactly when [GetEnPassant] names its file. *)
Lemma PawnMoves_diagonal_to_empty (c : Chess) (x y x' : Z) (l : list str) :
  PawnMoves c x y = Some l -> 0 <= x < 8 -> 0 <= x' < 8 -> x' <> x ->
  rd (board c) (y + pawn_inc c) x' = Some EMPTY ->
  (In (ToString x y x' (y + pawn_inc c)) l <-> GetEnPassant c x y = Some x').
Proof.
  unfold PawnMoves. fold (pawn_inc c). intros H Hx Hx' Hne Hempty.
  bind_inv H. rename z into ahead.
  match type of H with
  | match ?e with Some _ => _ | None => None end = Some _ =>
      destruct e as [l0|] eqn:El0; [|discriminate H]
  end.
  destruct (GetEnPassant c x y) as [ep|] eqn:Eep; [|discriminate H].
  pose proof (GetEnPassant_range _ _ _ _ Eep) as Hep.
  destruct (probe false (board c) (capture (whites_turn c)) (y + pawn_inc c)
              (x + 1) (x <? BOARD_SIZE - 1)) as [right|] eqn:Er; [|discriminate H].
  destruct (probe false (board c) (capture (whites_turn c)) (y + pawn_inc c)
              (x - 1) (x >? 0)) as [left|] eqn:Eleft; [|discriminate H].
  injection H as <-.
  assert (Hl0 : ~ In (ToString x y x' (y + pawn_inc c)) l0).
  { intros Hin.
    assert (Hsame : forall m, In m l0 -> exists y', m = ToString x y x y').
    { intros m Hm. destruct (ahead =? EMPTY); [|injection El0 as <-; contradiction].
      destruct (y =? 1 + 5 * b2z (whites_turn c)).
      - bind_inv El0. injection El0 as <-.
        apply In_emplace_if in Hm. destruct Hm as [[_ <-]|[<-|[]]]; eauto.
      - injection El0 as <-. destruct Hm as [<-|[]]; eauto. }
    destruct (Hsame _ Hin) as [y' Ey'].
    apply ToString_inj in Ey'; lia. }
  rewrite !In_emplace_if. split.
  - intros [[Hl Em]|[[Hr Em]|[[Hp Em]|Hin]]].
    + subst left. apply probe_true_bounds in Eleft.
      destruct Eleft as (Hg & v & Hv & Hc).
      assert (0 < x) by (apply Z.gtb_lt in Hg; lia).
      apply ToString_inj in Em; try lia. destruct Em as [_ <-].
      rewrite Hempty in Hv. injection Hv as <-.
      rewrite capture_EMPTY in Hc. discriminate.
    + subst right. apply probe_true_bounds in Er.
      destruct Er as (Hg & v & Hv & Hc).
      assert (x < 7) by (apply Z.ltb_lt in Hg; unfold BOARD_SIZE in Hg; lia).
      apply ToString_inj in Em; try lia. destruct Em as [_ <-].
      rewrite Hempty in Hv. injection Hv as <-.
      rewrite capture_EMPTY in Hc. discriminate.
    + apply ToString_inj in Em; try lia. destruct Em as [_ ->]. reflexivity.
    + contradiction.
  - intros Em. injection Em as ->. right. right. left. split; [|reflexivity].
    apply negb_true_iff. apply Z.eqb_neq. lia.
Qed.

(** ** The log entry a move leaves *)

Lemma back_snoc (l : list LogEntry) (e : LogEntry) : back (l ++ [e]) = Some e.
Proof.
  unfold back. destruct (l ++ [e]) eqn:E.
  - destruct l; discriminate.
  - rewrite <- E. rewrite length_app. simpl.
    replace (length l + 1 - 1)%nat with (length l) by lia.
    rewrite nth_error_app2 by lia. now rewrite Nat.sub_diag.
Qed.

Lemma modify_back_snoc (f : LogEntry -> LogEntry) (l : list LogEntry) (e : LogEntry) :
  modify_back f (l ++ [e]) = Some (l ++ [f e]).
Proof.
  unfold modify_back. rewrite back_snoc. now rewrite removelast_last.
Qed.

Lemma prev_cend_snoc (l : list LogEntry) (e : LogEntry) (k : nat) :
  prev_cend (l ++ [e]) (S (S k)) = prev_cend l (S k).
Proof.
  unfold prev_cend. rewrite length_app. simpl length.
  destruct (S k <=? length l)%nat eqn:E.
  - apply Nat.leb_le in E.
    replace (S (S k) <=? length l + 1)%nat with true
      by (symmetry; apply Nat.leb_le; lia).
    rewrite nth_error_app1 by lia. f_equal. lia.
  - apply Nat.leb_gt in E.
    replace (S (S k) <=? length l + 1)%nat with false
      by (symmetry; apply Nat.leb_gt; lia).
    reflexivity.
Qed.

Lemma log_set_current_player (c : Chess) (p : Bot) :
  all_game_moves (set_current_player c p) = all_game_moves c.
Proof. unfold set_current_player. now destruct (whites_turn c). Qed.

Lemma board_set_current_player (c : Chess) (p : Bot) :
  board (set_current_player c p) = board c.
Proof. unfold set_current_player. now destruct (whites_turn c). Qed.

Lemma turn_set_current_player (c : Chess) (p : Bot) :
  whites_turn (set_current_player c p) = whites_turn c.
Proof. unfold set_current_player. now destruct (whites_turn c). Qed.

Arguments rd : simpl never.
Arguments wr : simpl never.
Arguments shift_cell : simpl never.
Arguments ToString : simpl never.
Arguments to_char : simpl never.
Arguments sget : simpl never.
Arguments back : simpl never.
Arguments modify_back : simpl never.
Arguments prev_cend : simpl never.
Arguments IsCheck : simpl never.
Arguments Z.mul : simpl never.
Arguments Z.add : simpl never.
Arguments Z.sub : simpl never.
Arguments Z.eqb : simpl never.

Lemma MovePiece_pawn_log (c c' : Chess) (x1 y1 x2 y2 : Z) (mp : bool)
    (key : PromotionKey) (ub : bool) (l : list LogEntry) (e0 : LogEntry) :
  all_game_moves c = l ++ [e0] ->
  MovePiece_pawn c x1 y1 x2 y2 mp key ub = Some c' ->
  whites_turn c' = whites_turn c /\
  exists e1, all_game_moves c' = l ++ [e1] /\
    (e1 = e0
     \/ (exists p, e1 = (PROMOTION, snd e0 ++ [p]))
     \/ (e1 = (EN_PASSANT, snd e0) /\ x1 <> x2 /\
         rd (board c) y2 x2 = Some EMPTY)).
Proof.
  intros Hl H. unfold MovePiece_pawn in H.
  destruct (y2 =? (BOARD_SIZE - 1) * b2z (negb (whites_turn c))).
  - bind_inv H. bind_inv H. bind_inv H. injection H as <-.
    assert (Hc0 : all_game_moves c0 = l ++ [e0] /\ whites_turn c0 = whites_turn c).
    { destruct mp.
      - unfold ManuallyPromotePawn in E. bind_inv E. injection E as <-. now simpl.
      - destruct (if whites_turn c then white_bot_random c else black_bot_random c);
          [discriminate|].
        bind_inv E. injection E as <-. now simpl. }
    destruct Hc0 as [Hc0 Ht]. rewrite Hc0, modify_back_snoc in E1.
    injection E1 as <-. simpl. split; [assumption|].
    eexists. split; [reflexivity|]. right. left. eexists. reflexivity.
  - destruct (negb (x1 =? x2)) eqn:Ex.
    + bind_inv H. destruct (z =? EMPTY) eqn:Ez.
      * apply Z.eqb_eq in Ez. subst z.
        bind_inv H. bind_inv H. injection H as <-.
        assert (Hlog : all_game_moves
                  (if ub then set_current_player (set_board c b)
                       (IncreaseScore (GetCurrentPlayerConst (set_board c b))
                          (EvaluatePiece W_PAWN))
                   else set_board c b) = l ++ [e0]).
        { destruct ub; rewrite ?log_set_current_player; simpl; assumption. }
        rewrite Hlog, modify_back_snoc in E1. injection E1 as <-.
        simpl. split.
        { destruct ub; rewrite ?turn_set_current_player; reflexivity. }
        eexists. split; [reflexivity|]. right. right.
        split; [reflexivity|]. split; [|first [assumption|reflexivity]].
        apply negb_true_iff in Ex. now apply Z.eqb_neq in Ex.
      * injection H as <-. split; [reflexivity|]. eauto.
    + injection H as <-. split; [reflexivity|]. eauto.
Qed.

Lemma MovePiece_king_frame (c c' : Chess) (x2 : Z) :
  MovePiece_king c x2 = Some c' ->
  all_game_moves c' = all_game_moves c /\ whites_turn c' = whites_turn c /\
  white c' = white c /\ black c' = black c.
Proof.
  unfold MovePiece_king. intros H.
  destruct (castling (GetCurrentPlayerConst c)).
  - destruct (x2 =? 2); [bind_inv H; injection H as <-; now simpl|].
    destruct (x2 =? 6); [bind_inv H; injection H as <-; now simpl|].
    injection H as <-. tauto.
  - injection H as <-. tauto.
Qed.

Lemma log_clear_castling (c : Chess) :
  all_game_moves (clear_castling c) = all_game_moves c.
Proof. apply log_set_current_player. Qed.

Lemma king_not_pawn (p : Z) : is_king p = true -> is_pawn p = false.
Proof.
  unfold is_king, is_pawn, W_KING, B_KING, W_PAWN, B_PAWN. intros H.
  apply orb_true_iff in H. apply orb_false_iff.
  destruct H as [H|H]; apply Z.eqb_eq in H; subst p; split; reflexivity.
Qed.

Lemma MovePiece_log (c c' : Chess) (x1 y1 x2 y2 : Z) (mp : bool)
    (key : PromotionKey) (ub : bool) :
  MovePiece c x1 y1 x2 y2 mp key ub = Some c' ->
  exists e, all_game_moves c' = all_game_moves c ++ [e] /\
            move_entry c x1 y1 x2 y2 e.
Proof.
  unfold MovePiece. intros H.
  destruct (AppendToAllGameMoves c x1 y1 x2 y2) as [c0|] eqn:Ea; [|discriminate].
  unfold AppendToAllGameMoves in Ea.
  destruct (rd (board c) y1 x1) as [src|] eqn:Esrc; [|discriminate].
  assert (Hc0 : board c0 = board c /\ whites_turn c0 = whites_turn c /\
    exists e0, all_game_moves c0 = all_game_moves c ++ [e0] /\
      ((e0 = (CASTLING, [to_char x2]) /\ is_king src = true) \/
       exists dst, rd (board c) y2 x2 = Some dst /\
                   e0 = (NORMAL, ToString x1 y1 x2 y2 ++ [src; dst]))).
  { match type of Ea with (if ?t then _ else _) = _ => destruct t eqn:Et end.
    - injection Ea as <-. simpl. repeat split. eexists. split; [reflexivity|].
      left. split; [reflexivity|].
      apply andb_true_iff in Et. destruct Et as [Et _].
      apply andb_true_iff in Et. destruct Et as [_ Et].
      apply Z.eqb_eq in Et. subst src. unfold is_king.
      destruct (whites_turn c); reflexivity.
    - destruct (rd (board c) y2 x2) as [dst|] eqn:Edst; [|discriminate].
      injection Ea as <-. simpl. repeat split. eexists. split; [reflexivity|].
      right. eauto. }
  destruct Hc0 as (Hb0 & Ht0 & e0 & Hl0 & He0).
  rewrite Hb0, Esrc in H.
  match type of H with
  | match ?e with Some _ => _ | None => None end = Some _ =>
      destruct e as [c1|] eqn:E1; [|discriminate H]
  end.
  assert (Hc1 : exists e1, all_game_moves c1 = all_game_moves c ++ [e1] /\
    (e1 = e0
     \/ (is_pawn src = true /\ exists p, e1 = (PROMOTION, snd e0 ++ [p]))
     \/ (is_pawn src = true /\ e1 = (EN_PASSANT, snd e0) /\ x1 <> x2 /\
         rd (board c) y2 x2 = Some EMPTY))).
  { destruct (is_pawn src) eqn:Ep.
    - destruct (MovePiece_pawn_log _ _ _ _ _ _ _ _ _ _ _ Hl0 E1)
        as (_ & e1 & Hl1 & He1).
      exists e1. split; [assumption|]. rewrite Hb0 in He1. tauto.
    - destruct (is_king src).
      + bind_inv E1. injection E1 as <-.
        apply MovePiece_king_frame in E. destruct E as (El & _).
        rewrite log_clear_castling, El. eauto.
      + destruct (is_rook src); injection E1 as <-;
          rewrite ?log_clear_castling; eauto. }
  destruct Hc1 as (e1 & Hl1 & He1).
  rewrite Hl1, back_snoc in H.
  match type of H with
  | match ?e with Some _ => _ | None => None end = Some _ =>
      destruct e as [c2|] eqn:E2; [|discriminate H]
  end.
  bind_inv H. rename E into Eshift.
  simpl all_game_moves in H.
  assert (Hc2 : all_game_moves c2 =
    all_game_moves c ++
      [if negb (Moves_eqb (fst e1) CASTLING)
       then push_char (b2z (castling (GetCurrentPlayerConst c1))) e1 else e1]).
  { destruct (negb (Moves_eqb (fst e1) CASTLING)).
    - rewrite ?Hl1, modify_back_snoc in E2. now injection E2 as <-.
    - now injection E2 as <-. }
  rewrite Hc2, back_snoc in H.
  match type of H with
  | match ?e with Some _ => _ | None => None end = Some _ =>
      destruct e as [c3|] eqn:E3; [|discriminate H]
  end.
  injection H as <-.
  assert (Hc3 : all_game_moves c3 = all_game_moves c2).
  { match type of E3 with (if ?t then _ else _) = _ => destruct t end.
    - bind_inv E3. destruct (negb (z =? EMPTY)); injection E3 as <-;
        simpl; rewrite ?log_set_current_player; reflexivity.
    - now injection E3 as <-. }
  simpl. rewrite Hc3, Hc2. eexists. split; [reflexivity|].
  exists src. split; [assumption|].
  destruct He0 as [[-> Hk]|(dst & Hdst & ->)].
  - left. assert (is_pawn src = false) by now apply king_not_pawn.
    destruct He1 as [->|[[Hp _]|[Hp _]]]; try congruence.
    simpl. tauto.
  - right. exists dst, (b2z (castling (GetCurrentPlayerConst c1))).
    split; [assumption|].
    destruct He1 as [->|[[Hp [p ->]]|(Hp & -> & Hne & Hd)]]; simpl.
    + left. reflexivity.
    + right. left. exists p. split; [reflexivity|assumption].
    + right. right. rewrite Hdst in Hd. injection Hd as ->.
      split; [reflexivity|tauto].
Qed.

Lemma ChangeToRealCoordinates_ToString (x1 y1 x2 y2 : Z) (rest : str) :
  0 <= x1 < 8 -> 0 <= y1 < 8 -> 0 <= x2 < 8 -> 0 <= y2 < 8 ->
  ChangeToRealCoordinates (ToString x1 y1 x2 y2 ++ rest) = Some (x1, y1, x2, y2).
Proof.
  intros H1 H2 H3 H4. unfold ChangeToRealCoordinates, ToString, sget. simpl.
  rewrite (to_char_small (x1 + 97)), (to_char_small (56 - y1)),
          (to_char_small (x2 + 97)), (to_char_small (56 - y2)) by lia.
  rewrite !to_char_small by lia.
  repeat f_equal; lia.
Qed.

(** C8.  In the list [PawnMoves] gives for the pawn on [(x, y)], a
    diagonal move onto an empty square (an en-passant capture) is present
    exactly when the last move of the log is a two-rank advance of an
    opposing pawn on the file moved to, that file is next to [x], and the
    pawn stands on the rank such an advance lands on.  In particular,
    once the last move made is anything but a two-rank pawn move, no
    en-passant capture is in the list. *)
Theorem PawnMoves_en_passant (c : Chess) (x y : Z) (l : list str) :
  PawnMoves c x y = Some l -> 0 <= x < 8 ->
  (forall x', 0 <= x' < 8 -> x' <> x ->
     rd (board c) (y + pawn_inc c) x' = Some EMPTY ->
     (In (ToString x y x' (y + pawn_inc c)) l <-> en_passant_right c x y x'))
  /\
  (forall c0 x1 y1 x2 y2 mp key ub,
     MovePiece c0 x1 y1 x2 y2 mp key ub = Some c ->
     (forall src, rd (board c0) y1 x1 = Some src -> is_pawn src = true ->
                  Z.abs (y2 - y1) <> 2) ->
     forall x', 0 <= x' < 8 -> x' <> x ->
       rd (board c) (y + pawn_inc c) x' = Some EMPTY ->
       ~ In (ToString x y x' (y + pawn_inc c)) l).
Proof.
  intros H Hx.
  assert (P1 : forall x', 0 <= x' < 8 -> x' <> x ->
     rd (board c) (y + pawn_inc c) x' = Some EMPTY ->
     (In (ToString x y x' (y + pawn_inc c)) l <-> en_passant_right c x y x')).
  { intros x' Hx' Hne He.
    rewrite (PawnMoves_diagonal_to_empty c x y x' l H Hx Hx' Hne He).
    apply GetEnPassant_spec. lia. }
  split; [exact P1|].
  intros c0 x1 y1 x2 y2 mp key ub Hm Hnot x' Hx' Hne He Hin.
  apply (P1 x' Hx' Hne He) in Hin.
  destruct Hin as [(e & lx1 & ly1 & lx2 & ly2 & Hb & Hk & Hc & Hp & Hd & _) _].
  destruct (MovePiece_log _ _ _ _ _ _ _ _ _ Hm) as (e' & Hl & src & Hsrc & He').
  destruct (MovePiece_Some_bounds _ _ _ _ _ _ _ _ _ Hm) as [[? ?] [? ?]].
  rewrite Hl, back_snoc in Hb. injection Hb as ->.
  destruct He' as [[-> _]|(dst & flag & _ & [->|[(p & -> & _)|(-> & _)]])];
    try discriminate Hk.
  cbn [snd] in Hc, Hp.
  rewrite ChangeToRealCoordinates_ToString in Hc by assumption.
  injection Hc as <- <- <- <-.
  unfold sget, ToString in Hp. simpl in Hp. injection Hp as Hp.
  apply (Hnot src Hsrc).
  - unfold is_pawn. rewrite Hp. destruct (whites_turn c); reflexivity.
  - destruct (whites_turn c); lia.
Qed.

Lemma PawnMoves_en_passant_witness :
  exists l, PawnMoves after_d7d5 4 3 = Some l /\
    (In (ToString 4 3 3 (3 + pawn_inc after_d7d5)) l
     <-> en_passant_right after_d7d5 4 3 3).
Proof.
  eexists. split; [vm_compute; reflexivity|].
  refine (proj1 (PawnMoves_en_passant after_d7d5 4 3 _ _ _) 3 _ _ _).
  - vm_compute. reflexivity.
  - lia.
  - lia.
  - lia.
  - vm_compute. reflexivity.
Defined.

(** ** Fields a move does not touch *)

Lemma counter_set_current_player (c : Chess) (p : Bot) :
  moves_after_last_pawn_move_or_capture (set_current_player c p)
  = moves_after_last_pawn_move_or_capture c.
Proof. unfold set_current_player. now destruct (whites_turn c). Qed.

Lemma MovePiece_pawn_counter (c c' : Chess) (x1 y1 x2 y2 : Z) (mp : bool)
    (key : PromotionKey) (ub : bool) :
  MovePiece_pawn c x1 y1 x2 y2 mp key ub = Some c' ->
  moves_after_last_pawn_move_or_capture c'
  = moves_after_last_pawn_move_or_capture c.
Proof.
  unfold MovePiece_pawn. intros H.
  destruct (y2 =? (BOARD_SIZE - 1) * b2z (negb (whites_turn c))).
  - do 3 bind_inv H. injection H as <-. simpl.
    destruct mp.
    + unfold ManuallyPromotePawn in E. bind_inv E. now injection E as <-.
    + destruct (if whites_turn c then white_bot_random c else black_bot_random c);
        [discriminate|].
      bind_inv E. now injection E as <-.
  - destruct (negb (x1 =? x2)); [|now injection H as <-].
    bind_inv H. destruct (z =? EMPTY); [|now injection H as <-].
    do 2 bind_inv H. injection H as <-. simpl.
    destruct ub; rewrite ?counter_set_current_player; reflexivity.
Qed.

Lemma MovePiece_king_counter (c c' : Chess) (x2 : Z) :
  MovePiece_king c x2 = Some c' ->
  moves_after_last_pawn_move_or_capture c'
  = moves_after_last_pawn_move_or_capture c.
Proof.
  unfold MovePiece_king. intros H.
  destruct (castling (GetCurrentPlayerConst c)); [|now injection H as <-].
  destruct (x2 =? 2); [bind_inv H; now injection H as <-|].
  destruct (x2 =? 6); [bind_inv H; now injection H as <-|].
  now injection H as <-.
Qed.

Lemma MovePiece_counter (c c' : Chess) (x1 y1 x2 y2 : Z) (mp : bool)
    (key : PromotionKey) :
  MovePiece c x1 y1 x2 y2 mp key false = Some c' ->
  moves_after_last_pawn_move_or_capture c'
  = moves_after_last_pawn_move_or_capture c.
Proof.
  unfold MovePiece. intros H.
  bind_inv H. rename c0 into ca, E into Ea.
  assert (Ha : moves_after_last_pawn_move_or_capture ca
               = moves_after_last_pawn_move_or_capture c).
  { unfold AppendToAllGameMoves in Ea. bind_inv Ea.
    match type of Ea with (if ?t then _ else _) = _ => destruct t end.
    - now injection Ea as <-.
    - bind_inv Ea. now injection Ea as <-. }
  bind_inv H. bind_inv H. rename c0 into cb, E0 into Eb.
  assert (Hb : moves_after_last_pawn_move_or_capture cb
               = moves_after_last_pawn_move_or_capture ca).
  { destruct (is_pawn z); [now apply MovePiece_pawn_counter in Eb|].
    destruct (is_king z).
    - bind_inv Eb. injection Eb as <-. apply MovePiece_king_counter in E0.
      unfold clear_castling. now rewrite counter_set_current_player.
    - destruct (is_rook z); injection Eb as <-; [|reflexivity].
      unfold clear_castling. now rewrite counter_set_current_player. }
  bind_inv H. bind_inv H. rename c0 into cc, E1 into Ec.
  assert (Hc : moves_after_last_pawn_move_or_capture cc
               = moves_after_last_pawn_move_or_capture cb).
  { destruct (negb (Moves_eqb (fst l) CASTLING)); [|now injection Ec as <-].
    bind_inv Ec. now injection Ec as <-. }
  bind_inv H. bind_inv H. simpl in H. injection H as <-. simpl. congruence.
Qed.

Lemma MovePieceBack_counter (c c' : Chess) (x1 y1 x2 y2 : Z) :
  MovePieceBack c x1 y1 x2 y2 = Some c' ->
  moves_after_last_pawn_move_or_capture c'
  = moves_after_last_pawn_move_or_capture c.
Proof.
  unfold MovePieceBack. intros H.
  do 4 bind_inv H.
  match type of H with
  | match ?e with Some _ => _ | None => None end = Some _ =>
      destruct e as [c1|] eqn:E3; [|discriminate H]
  end.
  injection H as <-. simpl.
  assert (Hr : forall d d', restore_castling d = Some d' ->
            moves_after_last_pawn_move_or_capture d'
            = moves_after_last_pawn_move_or_capture d).
  { intros d d' Hd. unfold restore_castling in Hd. bind_inv Hd.
    destruct (negb (Moves_eqb (fst l0) CASTLING)); [|now injection Hd as <-].
    bind_inv Hd. destruct (negb (z1 =? 0)); injection Hd as <-;
      rewrite ?counter_set_current_player; reflexivity. }
  repeat match type of E3 with
  | (if ?t then _ else _) = _ => destruct t
  | match ?e with Some _ => _ | None => None end = Some _ => bind_inv E3
  | Some _ = Some _ => injection E3 as <-
  end; simpl; rewrite ?counter_set_current_player; try reflexivity;
  try (apply Hr in E3; simpl in E3; exact E3).
Qed.

Lemma filter_moves_counter (l : list str) :
  forall c l' c', filter_moves c l = Some (l', c') ->
    moves_after_last_pawn_move_or_capture c'
    = moves_after_last_pawn_move_or_capture c.
Proof.
  induction l as [|m t IH]; intros c l' c' H; simpl in H.
  - now injection H as _ <-.
  - destruct (IsCheck_move c m) as [[chk c1]|] eqn:E1; [|discriminate].
    destruct (filter_moves c1 t) as [[t' c2]|] eqn:E2; [|discriminate].
    injection H as _ <-. rewrite (IH _ _ _ E2).
    unfold IsCheck_move in E1.
    destruct (ChangeToRealCoordinates m) as [[[[x1 y1] x2] y2]|]; [|discriminate].
    destruct (MovePiece c x1 y1 x2 y2 false key_q false) as [ca|] eqn:Ea;
      [|discriminate].
    destruct (IsCheck (board ca) (negb (whites_turn ca))); [|discriminate].
    destruct (MovePieceBack ca x1 y1 x2 y2) as [cb|] eqn:Eb; [|discriminate].
    injection E1 as _ <-.
    rewrite (MovePieceBack_counter _ _ _ _ _ _ Eb).
    apply (MovePiece_counter _ _ _ _ _ _ _ _ Ea).
Qed.

Lemma AllMoves_counter (c c' : Chess) (l : list str) :
  AllMoves c = Some (l, c') ->
  moves_after_last_pawn_move_or_capture c'
  = moves_after_last_pawn_move_or_capture c.
Proof.
  unfold AllMoves. intros H. bind_inv H.
  now apply filter_moves_counter in H.
Qed.

(** ** The fifty-move counter in [CheckEndgame] *)

(** What [CheckEndgame] does to the counter when the side to move has a
    legal move: 0 if the last entry of the log is a pawn move or a
    capture, one more otherwise, and the fifty-move draw exactly when
    the counter it leaves is 50. *)
Lemma CheckEndgame_counter (c c1 c' : Chess) (l : list str)
    (over : option Endgame) (e : LogEntry) :
  AllMoves c = Some (l, c1) -> l <> [] ->
  back (all_game_moves c1) = Some e ->
  CheckEndgame c = Some (over, c') ->
  (pawn_move_or_capture c1 e ->
     moves_after_last_pawn_move_or_capture c' = 0) /\
  (~ pawn_move_or_capture c1 e ->
     moves_after_last_pawn_move_or_capture c'
     = (moves_after_last_pawn_move_or_capture c + 1) mod 65536) /\
  (over = Some FIFTY_MOVES <-> moves_after_last_pawn_move_or_capture c' = 50).
Proof.
  intros Ha Hl Hb H. unfold CheckEndgame in H. rewrite Ha in H.
  pose proof (AllMoves_counter _ _ _ Ha) as Hcnt.
  destruct l as [|m t]; [contradiction|].
  rewrite Hb in H. rewrite Hcnt in H.
  set (bump := (moves_after_last_pawn_move_or_capture c + 1) mod 65536) in *.
  unfold pawn_move_or_capture.
  assert (Hw : W_PAWN - 7 * b2z (whites_turn c1)
               = if whites_turn c1 then B_PAWN else W_PAWN)
    by (destruct (whites_turn c1); reflexivity).
  rewrite Hw in H.
  assert (Fin : forall (fifty : bool) (d : Chess),
    (if fifty then Some (Some FIFTY_MOVES, d)
     else rep <- ThreefoldRepetition d ;;
          (if rep then Some (Some THREEFOLD_REP, d) else Some (None, d)))
    = Some (over, c') ->
    c' = d /\ (over = Some FIFTY_MOVES <-> fifty = true)).
  { intros fifty d Hd. destruct fifty.
    - injection Hd as <- <-. tauto.
    - bind_inv Hd. destruct b; injection Hd as <- <-;
        (split; [reflexivity|split; discriminate]). }
  destruct (Moves_eqb (fst e) CASTLING) eqn:Ek; cbn [negb] in H.
  - apply Moves_eqb_eq in Ek.
    apply (Fin (bump =? 50) (set_counter c1 bump)) in H. destruct H as [-> Hf]. cbn.
    split; [intros [Hn _]; contradiction|]. split; [reflexivity|].
    rewrite Hf. apply Z.eqb_eq.
  - assert (Hk : fst e <> CASTLING).
    { intros Hk. apply Moves_eqb_eq in Hk. congruence. }
    destruct (sget (snd e) 4) as [piece|] eqn:E4; [|discriminate].
    destruct (piece =? (if whites_turn c1 then B_PAWN else W_PAWN)) eqn:Ep.
    + apply Z.eqb_eq in Ep. subst piece.
      apply (Fin false (set_counter c1 0)) in H. destruct H as [-> Hf]. cbn.
      split; [reflexivity|]. split; [intros Hn; exfalso; apply Hn; tauto|].
      rewrite Hf. split; discriminate.
    + apply Z.eqb_neq in Ep.
      destruct (sget (snd e) 5) as [captured|] eqn:E5; [|discriminate].
      destruct (captured =? EMPTY) eqn:Ec; cbn [negb] in H.
      * apply Z.eqb_eq in Ec. subst captured.
        apply (Fin (bump =? 50) (set_counter c1 bump)) in H. destruct H as [-> Hf]. cbn.
        split.
        { intros [_ [Hp|(cap & Hc & Hne)]]; [congruence|].
          injection Hc as <-. contradiction. }
        split; [reflexivity|]. rewrite Hf. apply Z.eqb_eq.
      * apply Z.eqb_neq in Ec.
        apply (Fin false (set_counter c1 0)) in H. destruct H as [-> Hf]. cbn.
        split; [reflexivity|].
        split; [intros Hn; exfalso; apply Hn; split; [assumption|]; right; eauto|].
        rewrite Hf. split; discriminate.
Qed.

(** C5 as the specification words it fails on the mating move 2... Qh4:
    it is committed, it is a queen move that takes nothing, and the
    counter is still 0 afterwards, not 1. *)
Lemma checkmate_leaves_counter_unchanged :
  exists c,
    PlayersTurn before_Qh4 3 0 7 4 key_q = Some (Played (Some CHECKMATE) c) /\
    back (all_game_moves c)
      = Some (NORMAL, ToString 3 0 7 4 ++ [B_QUEEN; EMPTY; 1]) /\
    moves_after_last_pawn_move_or_capture before_Qh4 = 0 /\
    moves_after_last_pawn_move_or_capture c = 0.
Proof.
  eexists. split; [vm_compute; reflexivity|].
  repeat split; vm_compute; reflexivity.
Qed.

(** ** Threefold repetition *)

(** C6 fails both ways.
    - 1. Nf3 Nf6 2. Ng1 Ng8 3. Nf3 Nf6 4. Ng1 Ng8: after the eighth ply the
      starting position stands for the third time (start, ply 4, ply 8),
      and [CheckEndgame] reports nothing: the walk back through the log
      returns when it reaches the first entry, before it compares the
      position in front of it.
    - 1. Nf3 Nf6 2. Rg1 Ng8 3. Rh1 Nf6 4. Rg1 Ng8 5. Rh1 Nf6: after the
      tenth ply the position of ply 6 stands for the second time; the
      position of ply 2 has the same board but White could still castle
      then.  [CheckEndgame] reports the draw: only the castling flag of
      the side that just moved is compared. *)
Theorem ThreefoldRepetition_miscounts :
  (exists c8,
     play (new_game 1 1) (knights_out_and_back ++ knights_out_and_back)
       = Some (Played None c8) /\
     same_position c8 (new_game 1 1) /\
     same_position (position_after knights_out_and_back) (new_game 1 1)) /\
  (exists c10,
     play (new_game 1 1)
          ([(6, 7, 5, 5); (6, 0, 5, 2)] ++ rooks_out_and_back ++ rooks_out_and_back)
       = Some (Played (Some THREEFOLD_REP) c10) /\
     same_position c10
       (position_after ([(6, 7, 5, 5); (6, 0, 5, 2)] ++ rooks_out_and_back)) /\
     board c10 = board (position_after [(6, 7, 5, 5); (6, 0, 5, 2)]) /\
     castling (white (position_after [(6, 7, 5, 5); (6, 0, 5, 2)])) = true /\
     castling (white c10) = false).
Proof.
  split; eexists; (split; [vm_compute; reflexivity|]);
    repeat split; vm_compute; reflexivity.
Qed.

(** * Apply and undo *)

(** C1 fails on kingside castling.  After 3... Bc5 White may castle
    short; [AllMoves] lists e1g1.  Applying it and undoing it leaves h1
    and f1 empty: the undo copies h1 (empty after castling) onto f1 and
    clears h1, where the queenside case copies d1 back onto a1.  The
    rook is gone; turn, flags and log are as before. *)
Theorem MovePieceBack_loses_kingside_rook :
  (exists l c1, AllMoves after_Bc5 = Some (l, c1) /\
                In (ToString 4 7 6 7) l /\
                rd (board c1) 7 7 = Some EMPTY) /\
  exists ca cb,
    MovePiece after_Bc5 4 7 6 7 false key_q false = Some ca /\
    MovePieceBack ca 4 7 6 7 = Some cb /\
    rd (board after_Bc5) 7 7 = Some W_ROOK /\
    rd (board cb) 7 7 = Some EMPTY /\
    rd (board cb) 7 5 = Some EMPTY /\
    board cb <> board after_Bc5 /\
    whites_turn cb = whites_turn after_Bc5 /\
    white cb = white after_Bc5 /\ black cb = black after_Bc5 /\
    all_game_moves cb = all_game_moves after_Bc5.
Proof.
  split.
  - do 2 eexists. split; [vm_compute; reflexivity|].
    split; [vm_compute; tauto|vm_compute; reflexivity].
  - do 2 eexists. split; [vm_compute; reflexivity|].
    split; [vm_compute; reflexivity|].
    repeat split; try (vm_compute; reflexivity).
    vm_compute. discriminate.
Qed.

(** * The search leaves the board changed *)

(** C3 fails in that game.  The search of the bot's third move returns
    its move (d7d5) with the white rook gone from h1: one ply down,
    [AllMoves] for White tries e1g1 and undoes it. *)
Theorem AlphaBetaRoot_changes_the_board :
  length (all_game_moves bot_to_move) = 5%nat /\
  whites_turn bot_to_move = false /\
  exists c',
    AlphaBetaRoot bot_to_move 1 0 = Some ((3, 1, 3, 3), c') /\
    rd (board bot_to_move) 7 7 = Some W_ROOK /\
    rd (board c') 7 7 = Some EMPTY /\
    board c' <> board bot_to_move.
Proof.
  split; [vm_compute; reflexivity|]. split; [vm_compute; reflexivity|].
  eexists. split; [vm_compute; reflexivity|].
  repeat split; try (vm_compute; reflexivity).
  vm_compute. discriminate.
Qed.

(** * Legality of the moves [AllMoves] returns *)

(** ** Reads after writes *)

Lemma length_upd (l : list Z) (n : nat) (v : Z) : length (upd l n v) = length l.
Proof.
  revert n. induction l as [|h t IH]; intros [|n]; simpl; auto.
Qed.

Lemma nth_error_upd_same (l : list Z) (n : nat) (v : Z) :
  (n < length l)%nat -> nth_error (upd l n v) n = Some v.
Proof.
  revert n. induction l as [|h t IH]; intros [|n] H; simpl in *; try lia; auto.
  apply IH. lia.
Qed.

Lemma nth_error_upd_other (l : list Z) (n m : nat) (v : Z) :
  n <> m -> nth_error (upd l n v) m = nth_error l m.
Proof.
  revert n m. induction l as [|h t IH]; intros [|n] [|m] H; simpl; auto;
    try contradiction; try (apply IH; lia).
Qed.

Lemma cell_inj (y x y' x' : Z) :
  0 <= y < 8 -> 0 <= x < 8 -> 0 <= y' < 8 -> 0 <= x' < 8 ->
  cell y x = cell y' x' -> y = y' /\ x = x'.
Proof.
  unfold cell, BOARD_SIZE. intros. lia.
Qed.

Lemma wr_defined (b : Board) (y x v : Z) :
  0 <= y < 8 -> 0 <= x < 8 -> wr b y x v = Some (upd b (cell y x) v).
Proof.
  intros Hy Hx. unfold wr.
  now rewrite (proj2 (WithinBounds_spec y) Hy), (proj2 (WithinBounds_spec x) Hx).
Qed.

Lemma rd_upd (b : Board) (y x v y' x' : Z) :
  wf_board b -> 0 <= y < 8 -> 0 <= x < 8 ->
  rd (upd b (cell y x) v) y' x'
  = if (y' =? y) && (x' =? x) then Some v else rd b y' x'.
Proof.
  intros Hb Hy Hx. unfold rd.
  destruct (WithinBounds y' && WithinBounds x') eqn:Hin.
  - apply andb_true_iff in Hin. destruct Hin as [Hy' Hx'].
    apply WithinBounds_spec in Hy', Hx'.
    destruct ((y' =? y) && (x' =? x)) eqn:E.
    + apply andb_true_iff in E. destruct E as [E1 E2].
      apply Z.eqb_eq in E1, E2. subst. apply nth_error_upd_same.
      unfold wf_board in Hb. unfold cell, BOARD_SIZE. lia.
    + apply nth_error_upd_other. intros Hc. symmetry in Hc.
      apply cell_inj in Hc; try assumption.
      destruct Hc as [-> ->]. rewrite !Z.eqb_refl in E. discriminate.
  - destruct ((y' =? y) && (x' =? x)) eqn:E; [|reflexivity].
    apply andb_true_iff in E. destruct E as [E1 E2].
    apply Z.eqb_eq in E1, E2. subst.
    rewrite (proj2 (WithinBounds_spec y) Hy), (proj2 (WithinBounds_spec x) Hx) in Hin.
    discriminate.
Qed.

Lemma nth_error_ext (l l' : list Z) :
  (forall n, nth_error l n = nth_error l' n) -> l = l'.
Proof.
  revert l'. induction l as [|h t IH]; intros [|h' t'] H.
  - reflexivity.
  - specialize (H O). discriminate.
  - specialize (H O). discriminate.
  - pose proof (H O) as H0. simpl in H0. injection H0 as ->.
    f_equal. apply IH. intros n. apply (H (S n)).
Qed.

Lemma board_ext (b b' : Board) :
  wf_board b -> wf_board b' ->
  (forall y x, 0 <= y < 8 -> 0 <= x < 8 -> rd b y x = rd b' y x) -> b = b'.
Proof.
  intros Hb Hb' H. apply nth_error_ext. intros n.
  destruct (Nat.lt_ge_cases n 64) as [Hn|Hn].
  - specialize (H (Z.of_nat n / 8) (Z.of_nat n mod 8)).
    assert (Hy : 0 <= Z.of_nat n / 8 < 8).
    { split; [apply Z.div_pos; lia|apply Z.div_lt_upper_bound; lia]. }
    assert (Hx : 0 <= Z.of_nat n mod 8 < 8) by (apply Z.mod_pos_bound; lia).
    specialize (H Hy Hx). unfold rd in H.
    rewrite (proj2 (WithinBounds_spec _) Hy), (proj2 (WithinBounds_spec _) Hx) in H.
    simpl in H.
    replace (cell (Z.of_nat n / 8) (Z.of_nat n mod 8)) with n in H; [assumption|].
    unfold cell, BOARD_SIZE. rewrite <- Z.div_mod by lia. lia.
  - unfold wf_board in *.
    rewrite (proj2 (nth_error_None b n)), (proj2 (nth_error_None b' n)) by lia.
    reflexivity.
Qed.

(** ** Symbolic execution of [MovePiece] *)

Lemma shift_cell_defined (b : Board) (ya xa yb xb v p : Z) :
  0 <= ya < 8 -> 0 <= xa < 8 -> rd b yb xb = Some p ->
  shift_cell b ya xa yb xb v
  = Some (upd (upd b (cell ya xa) p) (cell yb xb) v).
Proof.
  intros Hya Hxa Hp. unfold shift_cell. rewrite Hp.
  destruct (rd_Some_bounds _ _ _ _ Hp) as [Hyb Hxb].
  rewrite (wr_defined b ya xa p Hya Hxa).
  now rewrite (wr_defined _ yb xb v Hyb Hxb).
Qed.

Lemma not_king_of (t : bool) (src : Z) :
  is_king src = false -> (src =? B_KING + 7 * b2z t) = false.
Proof.
  unfold is_king. intros H. apply orb_false_iff in H. destruct H as [H1 H2].
  destruct t; assumption.
Qed.

Ltac proj_simpl :=
  cbn [board white black all_game_moves whites_turn
       moves_after_last_pawn_move_or_capture white_bot_random black_bot_random
       set_log set_board set_counter ChangeTurn with_board
       fst snd Moves_eqb negb andb orb].

Tactic Notation "proj_simpl" "in" hyp(H) :=
  cbn [board white black all_game_moves whites_turn
       moves_after_last_pawn_move_or_capture white_bot_random black_bot_random
       set_log set_board set_counter ChangeTurn with_board
       fst snd Moves_eqb negb andb orb] in H.

(** A piece that is neither pawn, king nor rook (or no piece at all). *)
Lemma MovePiece_plain (c : Chess) (x1 y1 x2 y2 src dst : Z) (mp : bool)
    (key : PromotionKey) :
  rd (board c) y1 x1 = Some src -> rd (board c) y2 x2 = Some dst ->
  is_pawn src = false -> is_king src = false -> is_rook src = false ->
  MovePiece c x1 y1 x2 y2 mp key false
  = Some (mkChess
            (upd (upd (board c) (cell y2 x2) src) (cell y1 x1) EMPTY)
            (white c) (black c)
            (all_game_moves c ++
               [(NORMAL, ToString x1 y1 x2 y2 ++
                         [src; dst; b2z (castling (GetCurrentPlayerConst c))])])
            (negb (whites_turn c))
            (moves_after_last_pawn_move_or_capture c)
            (white_bot_random c) (black_bot_random c)).
Proof.
  intros Hs Hd Hp Hk Hr.
  unfold MovePiece, AppendToAllGameMoves. rewrite Hs.
  rewrite (not_king_of _ _ Hk), andb_false_r. cbn [andb]. rewrite Hd.
  proj_simpl. rewrite Hs, Hp, Hk, Hr.
  proj_simpl. rewrite back_snoc. proj_simpl.
  rewrite modify_back_snoc. proj_simpl.
  destruct (rd_Some_bounds _ _ _ _ Hd) as [? ?].
  rewrite (shift_cell_defined _ _ _ _ _ _ src) by assumption.
  proj_simpl. rewrite back_snoc. proj_simpl.
  unfold push_char. proj_simpl. rewrite <- app_assoc. reflexivity.
Qed.

Lemma clear_castling_eq (c : Chess) :
  clear_castling c
  = mkChess (board c) (white_cleared c) (black_cleared c) (all_game_moves c)
            (whites_turn c) (moves_after_last_pawn_move_or_capture c)
            (white_bot_random c) (black_bot_random c).
Proof.
  unfold clear_castling, set_current_player, GetCurrentPlayerConst,
    white_cleared, black_cleared.
  destruct (whites_turn c); reflexivity.
Qed.

Lemma white_cleared_set_log (c : Chess) (l : list LogEntry) :
  white_cleared (set_log c l) = white_cleared c.
Proof. reflexivity. Qed.

Lemma black_cleared_set_log (c : Chess) (l : list LogEntry) :
  black_cleared (set_log c l) = black_cleared c.
Proof. reflexivity. Qed.

Lemma current_cleared (c : Chess) (b : Board) (l : list LogEntry) (n : Z) :
  castling (GetCurrentPlayerConst
              (mkChess b (white_cleared c) (black_cleared c) l (whites_turn c)
                       n (white_bot_random c) (black_bot_random c))) = false.
Proof.
  unfold GetCurrentPlayerConst, white_cleared, black_cleared. simpl.
  destruct (whites_turn c); reflexivity.
Qed.

Lemma rook_not_pawn_king (p : Z) :
  is_rook p = true -> is_pawn p = false /\ is_king p = false.
Proof.
  unfold is_rook, is_pawn, is_king, W_ROOK, B_ROOK, W_PAWN, B_PAWN, W_KING, B_KING.
  intros H. apply orb_true_iff in H.
  destruct H as [H|H]; apply Z.eqb_eq in H; subst p; split; reflexivity.
Qed.

Lemma MovePiece_rook (c : Chess) (x1 y1 x2 y2 src dst : Z) (mp : bool)
    (key : PromotionKey) :
  rd (board c) y1 x1 = Some src -> rd (board c) y2 x2 = Some dst ->
  is_rook src = true ->
  MovePiece c x1 y1 x2 y2 mp key false
  = Some (mkChess
            (upd (upd (board c) (cell y2 x2) src) (cell y1 x1) EMPTY)
            (white_cleared c) (black_cleared c)
            (all_game_moves c ++
               [(NORMAL, ToString x1 y1 x2 y2 ++ [src; dst; 0])])
            (negb (whites_turn c))
            (moves_after_last_pawn_move_or_capture c)
            (white_bot_random c) (black_bot_random c)).
Proof.
  intros Hs Hd Hr. destruct (rook_not_pawn_king _ Hr) as [Hp Hk].
  unfold MovePiece, AppendToAllGameMoves. rewrite Hs.
  rewrite (not_king_of _ _ Hk), andb_false_r. cbn [andb]. rewrite Hd.
  proj_simpl. rewrite Hs, Hp, Hk, Hr.
  rewrite clear_castling_eq, white_cleared_set_log, black_cleared_set_log.
  proj_simpl. rewrite back_snoc. proj_simpl.
  rewrite modify_back_snoc. proj_simpl.
  destruct (rd_Some_bounds _ _ _ _ Hd) as [? ?].
  rewrite (shift_cell_defined _ _ _ _ _ _ src) by assumption.
  proj_simpl. rewrite back_snoc. proj_simpl.
  rewrite current_cleared.
  unfold push_char. proj_simpl. rewrite <- app_assoc. reflexivity.
Qed.

(** A king move that is not recorded as castling. *)
Lemma MovePiece_king_step (c : Chess) (x1 y1 x2 y2 src dst : Z) (mp : bool)
    (key : PromotionKey) :
  rd (board c) y1 x1 = Some src -> rd (board c) y2 x2 = Some dst ->
  is_king src = true ->
  castling (GetCurrentPlayerConst c) = false \/ (x2 <> 2 /\ x2 <> 6) ->
  MovePiece c x1 y1 x2 y2 mp key false
  = Some (mkChess
            (upd (upd (board c) (cell y2 x2) src) (cell y1 x1) EMPTY)
            (white_cleared c) (black_cleared c)
            (all_game_moves c ++
               [(NORMAL, ToString x1 y1 x2 y2 ++ [src; dst; 0])])
            (negb (whites_turn c))
            (moves_after_last_pawn_move_or_capture c)
            (white_bot_random c) (black_bot_random c)).
Proof.
  intros Hs Hd Hk Hno. pose proof (king_not_pawn _ Hk) as Hp.
  unfold MovePiece, AppendToAllGameMoves. rewrite Hs.
  assert (Hc : castling (GetCurrentPlayerConst c)
               && (src =? B_KING + 7 * b2z (whites_turn c))
               && ((x2 =? 2) || (x2 =? 6)) = false).
  { destruct Hno as [->|[H2 H6]]; [reflexivity|].
    apply Z.eqb_neq in H2, H6. rewrite H2, H6. apply andb_false_r. }
  rewrite Hc, Hd. proj_simpl. rewrite Hs, Hp, Hk.
  assert (Hks : MovePiece_king
            (set_log c (all_game_moves c ++
                        [(NORMAL, ToString x1 y1 x2 y2 ++ [src; dst])])) x2
          = Some (set_log c (all_game_moves c ++
                        [(NORMAL, ToString x1 y1 x2 y2 ++ [src; dst])]))).
  { unfold MovePiece_king.
    change (GetCurrentPlayerConst (set_log c _)) with (GetCurrentPlayerConst c).
    destruct Hno as [->|[H2 H6]]; [reflexivity|].
    apply Z.eqb_neq in H2, H6. rewrite H2, H6.
    destruct (castling (GetCurrentPlayerConst c)); reflexivity. }
  rewrite Hks. rewrite clear_castling_eq, white_cleared_set_log, black_cleared_set_log.
  proj_simpl. rewrite back_snoc. proj_simpl.
  rewrite modify_back_snoc. proj_simpl.
  destruct (rd_Some_bounds _ _ _ _ Hd) as [? ?].
  rewrite (shift_cell_defined _ _ _ _ _ _ src) by assumption.
  proj_simpl. rewrite back_snoc. proj_simpl.
  rewrite current_cleared.
  unfold push_char. proj_simpl. rewrite <- app_assoc. reflexivity.
Qed.

Lemma line_of_bounds (t : bool) : 0 <= line_of t < 8.
Proof. unfold line_of, BOARD_SIZE. destruct t; simpl; lia. Qed.

Lemma king_of_is_king (t : bool) : is_king (king_of t) = true.
Proof. now destruct t. Qed.

(** Castling, either wing: [xr] is the rook's file, [xt] the file it
    lands on. *)
Lemma MovePiece_castle (c : Chess) (x2 xr xt r : Z) (mp : bool)
    (key : PromotionKey) :
  let l := line_of (whites_turn c) in
  castling (GetCurrentPlayerConst c) = true ->
  rd (board c) l 4 = Some (king_of (whites_turn c)) ->
  (x2 = 2 /\ xr = 0 /\ xt = 3) \/ (x2 = 6 /\ xr = 7 /\ xt = 5) ->
  rd (board c) l xr = Some r ->
  wf_board (board c) ->
  MovePiece c 4 l x2 l mp key false
  = Some (mkChess
            (upd (upd (upd (upd (board c) (cell l xt) r) (cell l xr) EMPTY)
                      (cell l x2) (king_of (whites_turn c)))
                 (cell l 4) EMPTY)
            (white_cleared c) (black_cleared c)
            (all_game_moves c ++ [(CASTLING, [to_char x2])])
            (negb (whites_turn c))
            (moves_after_last_pawn_move_or_capture c)
            (white_bot_random c) (black_bot_random c)).
Proof.
  intros l Hf Hk Hx Hr Hwf.
  pose proof (line_of_bounds (whites_turn c)) as Hl. fold l in Hl.
  unfold MovePiece, AppendToAllGameMoves. rewrite Hk, Hf.
  unfold king_of at 1. rewrite Z.eqb_refl.
  assert (Hx2 : (x2 =? 2) || (x2 =? 6) = true)
    by (destruct Hx as [(-> & _)|(-> & _)]; reflexivity).
  rewrite Hx2. proj_simpl. rewrite Hk.
  rewrite (king_not_pawn _ (king_of_is_king _)), king_of_is_king.
  assert (Hks : MovePiece_king
            (set_log c (all_game_moves c ++ [(CASTLING, [to_char x2])])) x2
          = Some (set_board
                    (set_log c (all_game_moves c ++ [(CASTLING, [to_char x2])]))
                    (upd (upd (board c) (cell l xt) r) (cell l xr) EMPTY))).
  { unfold MovePiece_king.
    change (GetCurrentPlayerConst (set_log c _)) with (GetCurrentPlayerConst c).
    rewrite Hf. proj_simpl. fold (line_of (whites_turn c)). fold l.
    destruct Hx as [(-> & -> & ->)|(-> & -> & ->)];
      [change (2 =? 2) with true
      |change (6 =? 2) with false; change (6 =? 6) with true];
      cbv iota;
      rewrite (shift_cell_defined _ _ _ _ _ _ r) by (assumption || lia);
      reflexivity. }
  rewrite Hks. rewrite clear_castling_eq. proj_simpl.
  rewrite back_snoc. proj_simpl.
  assert (Hk' : rd (upd (upd (board c) (cell l xt) r) (cell l xr) EMPTY) l 4
                = Some (king_of (whites_turn c))).
  { assert (Hxr : 0 <= xr < 8) by (destruct Hx as [(_ & -> & _)|(_ & -> & _)]; lia).
    assert (Hxt : 0 <= xt < 8) by (destruct Hx as [(_ & _ & ->)|(_ & _ & ->)]; lia).
    rewrite (rd_upd _ l xr EMPTY l 4) by
      (assumption || (unfold wf_board; rewrite length_upd; exact Hwf)).
    rewrite (rd_upd _ l xt r l 4) by assumption.
    rewrite Z.eqb_refl.
    destruct Hx as [(_ & -> & ->)|(_ & -> & ->)]; cbn; assumption. }
  assert (Hx2b : 0 <= x2 < 8) by (destruct Hx as [(-> & _)|(-> & _)]; lia).
  rewrite (shift_cell_defined _ _ _ _ _ _ _ Hl Hx2b Hk').
  proj_simpl. rewrite back_snoc. proj_simpl. reflexivity.
Qed.

Lemma pawn_not_king_rook (p : Z) :
  is_pawn p = true -> is_king p = false /\ is_rook p = false.
Proof.
  unfold is_rook, is_pawn, is_king, W_ROOK, B_ROOK, W_PAWN, B_PAWN, W_KING, B_KING.
  intros H. apply orb_true_iff in H.
  destruct H as [H|H]; apply Z.eqb_eq in H; subst p; split; reflexivity.
Qed.

(** A pawn move that neither promotes nor takes en passant. *)
Lemma MovePiece_pawn_step (c : Chess) (x1 y1 x2 y2 src dst : Z) (mp : bool)
    (key : PromotionKey) :
  rd (board c) y1 x1 = Some src -> rd (board c) y2 x2 = Some dst ->
  is_pawn src = true -> y2 <> last_rank c -> x1 = x2 \/ dst <> EMPTY ->
  MovePiece c x1 y1 x2 y2 mp key false
  = Some (mkChess
            (upd (upd (board c) (cell y2 x2) src) (cell y1 x1) EMPTY)
            (white c) (black c)
            (all_game_moves c ++
               [(NORMAL, ToString x1 y1 x2 y2 ++
                         [src; dst; b2z (castling (GetCurrentPlayerConst c))])])
            (negb (whites_turn c))
            (moves_after_last_pawn_move_or_capture c)
            (white_bot_random c) (black_bot_random c)).
Proof.
  intros Hs Hd Hp Hy Hx. destruct (pawn_not_king_rook _ Hp) as [Hk Hr].
  unfold MovePiece, AppendToAllGameMoves. rewrite Hs.
  rewrite (not_king_of _ _ Hk), andb_false_r. cbn [andb]. rewrite Hd.
  proj_simpl. rewrite Hs, Hp.
  assert (Hpw : MovePiece_pawn
             (set_log c (all_game_moves c ++
                         [(NORMAL, ToString x1 y1 x2 y2 ++ [src; dst])]))
             x1 y1 x2 y2 mp key false
           = Some (set_log c (all_game_moves c ++
                         [(NORMAL, ToString x1 y1 x2 y2 ++ [src; dst])]))).
  { unfold MovePiece_pawn. proj_simpl. fold (last_rank c).
    rewrite (proj2 (Z.eqb_neq _ _) Hy).
    destruct (x1 =? x2) eqn:E; proj_simpl; [reflexivity|].
    apply Z.eqb_neq in E. destruct Hx as [Hx|Hx]; [contradiction|].
    rewrite Hd. now rewrite (proj2 (Z.eqb_neq _ _) Hx). }
  rewrite Hpw. proj_simpl. rewrite back_snoc. proj_simpl.
  rewrite modify_back_snoc. proj_simpl.
  destruct (rd_Some_bounds _ _ _ _ Hd) as [? ?].
  rewrite (shift_cell_defined _ _ _ _ _ _ src) by assumption.
  proj_simpl. rewrite back_snoc. proj_simpl.
  unfold push_char. proj_simpl. rewrite <- app_assoc. reflexivity.
Qed.

(** A pawn reaching the last rank. *)
Lemma MovePiece_promotion (c : Chess) (x1 y1 x2 y2 src dst : Z) (mp : bool)
    (key : PromotionKey) :
  rd (board c) y1 x1 = Some src -> rd (board c) y2 x2 = Some dst ->
  is_pawn src = true -> y2 = last_rank c -> wf_board (board c) ->
  (if whites_turn c then white_bot_random c else black_bot_random c) = false ->
  MovePiece c x1 y1 x2 y2 mp key false
  = Some (mkChess
            (upd (upd (upd (board c) (cell y1 x1) (promoted (whites_turn c) mp key))
                      (cell y2 x2) (promoted (whites_turn c) mp key))
                 (cell y1 x1) EMPTY)
            (white c) (black c)
            (all_game_moves c ++
               [(PROMOTION, ToString x1 y1 x2 y2 ++
                         [src; dst; promoted (whites_turn c) mp key;
                          b2z (castling (GetCurrentPlayerConst c))])])
            (negb (whites_turn c))
            (moves_after_last_pawn_move_or_capture c)
            (white_bot_random c) (black_bot_random c)).
Proof.
  intros Hs Hd Hp Hy Hwf Hrnd. destruct (pawn_not_king_rook _ Hp) as [Hk Hr].
  destruct (rd_Some_bounds _ _ _ _ Hs) as [Hy1 Hx1].
  destruct (rd_Some_bounds _ _ _ _ Hd) as [Hy2 Hx2].
  unfold MovePiece, AppendToAllGameMoves. rewrite Hs.
  rewrite (not_king_of _ _ Hk), andb_false_r. cbn [andb]. rewrite Hd.
  proj_simpl. rewrite Hs, Hp.
  set (pp := promoted (whites_turn c) mp key).
  assert (Hq : rd (upd (board c) (cell y1 x1) pp) y1 x1 = Some pp).
  { rewrite rd_upd by assumption. now rewrite !Z.eqb_refl. }
  assert (Hpw : MovePiece_pawn
             (set_log c (all_game_moves c ++
                         [(NORMAL, ToString x1 y1 x2 y2 ++ [src; dst])]))
             x1 y1 x2 y2 mp key false
           = Some (mkChess
                     (upd (board c) (cell y1 x1) pp)
                     (white c) (black c)
                     (all_game_moves c ++
                        [(PROMOTION, ToString x1 y1 x2 y2 ++ [src; dst; pp])])
                     (whites_turn c) (moves_after_last_pawn_move_or_capture c)
                     (white_bot_random c) (black_bot_random c))).
  { unfold MovePiece_pawn. proj_simpl. fold (last_rank c).
    rewrite (proj2 (Z.eqb_eq _ _) Hy).
    assert (Hset :
      (if mp
       then ManuallyPromotePawn
              (set_log c (all_game_moves c ++
                          [(NORMAL, ToString x1 y1 x2 y2 ++ [src; dst])]))
              x1 y1 key
       else if (if whites_turn c then white_bot_random c else black_bot_random c)
            then None
            else b <- wr (board c) y1 x1
                         (if whites_turn c then W_QUEEN else B_QUEEN) ;;
                 Some (set_board
                         (set_log c (all_game_moves c ++
                                     [(NORMAL, ToString x1 y1 x2 y2 ++ [src; dst])]))
                         b))
      = Some (set_board
                (set_log c (all_game_moves c ++
                            [(NORMAL, ToString x1 y1 x2 y2 ++ [src; dst])]))
                (upd (board c) (cell y1 x1) pp))).
    { unfold pp, promoted. destruct mp.
      - unfold ManuallyPromotePawn. proj_simpl.
        now rewrite (wr_defined _ _ _ _ Hy1 Hx1).
      - rewrite Hrnd. rewrite (wr_defined _ _ _ _ Hy1 Hx1). reflexivity. }
    rewrite Hset.
    proj_simpl. rewrite Hq. rewrite modify_back_snoc.
    unfold push_char, set_kind. proj_simpl. rewrite <- app_assoc. reflexivity. }
  rewrite Hpw. proj_simpl. rewrite back_snoc. proj_simpl.
  rewrite modify_back_snoc. proj_simpl.
  rewrite (shift_cell_defined _ _ _ _ _ _ _ Hy2 Hx2 Hq).
  proj_simpl. rewrite back_snoc. proj_simpl.
  unfold push_char. proj_simpl. rewrite <- app_assoc. reflexivity.
Qed.

(** A capture en passant. *)
Lemma MovePiece_en_passant (c : Chess) (x1 y1 x2 y2 src : Z) (mp : bool)
    (key : PromotionKey) :
  rd (board c) y1 x1 = Some src -> rd (board c) y2 x2 = Some EMPTY ->
  is_pawn src = true -> y2 <> last_rank c -> x1 <> x2 ->
  wf_board (board c) ->
  MovePiece c x1 y1 x2 y2 mp key false
  = Some (mkChess
            (upd (upd (upd (board c) (cell y1 x2) EMPTY) (cell y2 x2) src)
                 (cell y1 x1) EMPTY)
            (white c) (black c)
            (all_game_moves c ++
               [(EN_PASSANT, ToString x1 y1 x2 y2 ++
                         [src; EMPTY; b2z (castling (GetCurrentPlayerConst c))])])
            (negb (whites_turn c))
            (moves_after_last_pawn_move_or_capture c)
            (white_bot_random c) (black_bot_random c)).
Proof.
  intros Hs Hd Hp Hy Hx Hwf. destruct (pawn_not_king_rook _ Hp) as [Hk Hr].
  destruct (rd_Some_bounds _ _ _ _ Hs) as [Hy1 Hx1].
  destruct (rd_Some_bounds _ _ _ _ Hd) as [Hy2 Hx2].
  unfold MovePiece, AppendToAllGameMoves. rewrite Hs.
  rewrite (not_king_of _ _ Hk), andb_false_r. cbn [andb]. rewrite Hd.
  proj_simpl. rewrite Hs, Hp.
  assert (Hpw : MovePiece_pawn
             (set_log c (all_game_moves c ++
                         [(NORMAL, ToString x1 y1 x2 y2 ++ [src; EMPTY])]))
             x1 y1 x2 y2 mp key false
           = Some (mkChess
                     (upd (board c) (cell y1 x2) EMPTY)
                     (white c) (black c)
                     (all_game_moves c ++
                        [(EN_PASSANT, ToString x1 y1 x2 y2 ++ [src; EMPTY])])
                     (whites_turn c) (moves_after_last_pawn_move_or_capture c)
                     (white_bot_random c) (black_bot_random c))).
  { unfold MovePiece_pawn. proj_simpl. fold (last_rank c).
    rewrite (proj2 (Z.eqb_neq _ _) Hy).
    rewrite (proj2 (Z.eqb_neq _ _) Hx). proj_simpl. rewrite Hd.
    rewrite Z.eqb_refl. rewrite (wr_defined _ _ _ _ Hy1 Hx2).
    proj_simpl. rewrite modify_back_snoc. reflexivity. }
  rewrite Hpw. proj_simpl. rewrite back_snoc. proj_simpl.
  rewrite modify_back_snoc. proj_simpl.
  assert (Hsrc : rd (upd (board c) (cell y1 x2) EMPTY) y1 x1 = Some src).
  { rewrite rd_upd by assumption. rewrite Z.eqb_refl.
    rewrite (proj2 (Z.eqb_neq _ _) Hx). exact Hs. }
  rewrite (shift_cell_defined _ _ _ _ _ _ _ Hy2 Hx2 Hsrc).
  proj_simpl. rewrite back_snoc. proj_simpl.
  unfold push_char. proj_simpl. rewrite <- app_assoc. reflexivity.
Qed.

(** ** Symbolic execution of [MovePieceBack] *)

Lemma rd_two (b : Board) (y1 x1 y2 x2 p cap y x : Z) :
  wf_board b -> 0 <= y1 < 8 -> 0 <= x1 < 8 -> 0 <= y2 < 8 -> 0 <= x2 < 8 ->
  rd (upd (upd b (cell y1 x1) p) (cell y2 x2) cap) y x
  = if (y =? y2) && (x =? x2) then Some cap
    else if (y =? y1) && (x =? x1) then Some p else rd b y x.
Proof.
  intros Hwf Hy1 Hx1 Hy2 Hx2.
  rewrite rd_upd by (assumption || (unfold wf_board; rewrite length_upd; exact Hwf)).
  now rewrite rd_upd by assumption.
Qed.

Lemma squares_differ (y1 x1 y2 x2 : Z) :
  x1 <> x2 \/ y1 <> y2 -> (y1 =? y2) && (x1 =? x2) = false.
Proof.
  intros [H|H]; apply Z.eqb_neq in H; rewrite H; [apply andb_false_r|reflexivity].
Qed.

(** The part of [MovePieceBack] before the switch. *)
Lemma MovePieceBack_head (c1 : Chess) (x1 y1 x2 y2 p cap : Z)
    (L : list LogEntry) (e : LogEntry) :
  all_game_moves c1 = L ++ [e] -> captured_of e = Some cap ->
  rd (board c1) y2 x2 = Some p -> 0 <= y1 < 8 -> 0 <= x1 < 8 ->
  x1 <> x2 \/ y1 <> y2 -> wf_board (board c1) ->
  let c := set_board (ChangeTurn c1)
             (upd (upd (board c1) (cell y1 x1) p) (cell y2 x2) cap) in
  MovePieceBack c1 x1 y1 x2 y2
  = (c' <- (if is_pawn p then
              if negb (x1 =? x2) then
                if cap =? EMPTY then
                  b <- wr (board c) y1 x2
                          (if whites_turn c then B_PAWN else W_PAWN) ;;
                  Some (set_board c b)
                else Some c
              else Some c
            else if is_rook p then restore_castling c
            else if is_queen p then
              if Moves_eqb (fst e) PROMOTION then
                b <- wr (board c) y1 x1
                        (if whites_turn c then W_PAWN else B_PAWN) ;;
                Some (set_board c b)
              else Some c
            else if is_king p then
              if Moves_eqb (fst e) CASTLING then
                let c := set_current_player c
                           (SetCastling (GetCurrentPlayerConst c) true) in
                let line := (BOARD_SIZE - 1) * b2z (whites_turn c) in
                if x2 =? 2 then
                  b <- shift_cell (board c) line 0 line 3 EMPTY ;;
                  Some (set_board c b)
                else if x2 =? 6 then
                  b <- shift_cell (board c) line 5 line 7 EMPTY ;;
                  Some (set_board c b)
                else Some c
              else restore_castling c
            else Some c) ;;
     Some (set_log c' (removelast (all_game_moves c')))).
Proof.
  intros HL Hcap Hp Hy1 Hx1 Hne Hwf c.
  destruct (rd_Some_bounds _ _ _ _ Hp) as [Hy2 Hx2].
  unfold MovePieceBack. proj_simpl. rewrite HL, back_snoc.
  unfold captured_of in Hcap. rewrite Hcap.
  rewrite (shift_cell_defined _ _ _ _ _ _ p) by assumption.
  proj_simpl.
  assert (Hsrc : rd (upd (upd (board c1) (cell y1 x1) p) (cell y2 x2) cap) y1 x1
                 = Some p).
  { rewrite rd_two by assumption.
    rewrite (squares_differ _ _ _ _ Hne). now rewrite !Z.eqb_refl. }
  assert (Hdst : rd (upd (upd (board c1) (cell y1 x1) p) (cell y2 x2) cap) y2 x2
                 = Some cap).
  { rewrite rd_two by assumption. now rewrite !Z.eqb_refl. }
  rewrite Hsrc. subst c. proj_simpl. rewrite Hdst.
  destruct (is_pawn p); [|reflexivity].
  destruct (negb (x1 =? x2)); reflexivity.
Qed.

(** ** Rooks lost to the kingside castling undo *)

Ltac solve_wf :=
  unfold wf_board in *; rewrite ?length_upd; first [assumption | lia].

Ltac rdu := rewrite ?rd_upd by first [assumption | lia | solve_wf].

Tactic Notation "rdu" "in" hyp(H) :=
  rewrite ?rd_upd in H by first [assumption | lia | solve_wf].

Section Wear.

(** The sides whose h-file rook may have been lost. *)
Variable P : bool -> Prop.

Lemma worn_refl (c : Chess) : wf_board (board c) -> worn P c c.
Proof. intros H. split; auto. Qed.

Lemma flag_of_worn (c c' : Chess) (t : bool) :
  worn P c c' -> flag_of c' t = flag_of c t.
Proof.
  intros H. unfold flag_of. destruct t; [rewrite (worn_white _ _ _ H)|rewrite (worn_black _ _ _ H)]; reflexivity.
Qed.

Lemma rook_of_not_EMPTY (t : bool) : rook_of t <> EMPTY.
Proof. destruct t; discriminate. Qed.

Lemma worn_trans (c1 c2 c3 : Chess) : worn P c1 c2 -> worn P c2 c3 -> worn P c1 c3.
Proof.
  intros H12 H23. split.
  - rewrite (worn_white _ _ _ H23). apply (worn_white _ _ _ H12).
  - rewrite (worn_black _ _ _ H23). apply (worn_black _ _ _ H12).
  - rewrite (worn_log _ _ _ H23). apply (worn_log _ _ _ H12).
  - rewrite (worn_turn _ _ _ H23). apply (worn_turn _ _ _ H12).
  - rewrite (worn_counter _ _ _ H23). apply (worn_counter _ _ _ H12).
  - destruct (worn_random _ _ _ H23) as [-> ->]. apply (worn_random _ _ _ H12).
  - apply (worn_wf _ _ _ H23).
  - intros y x Hy Hx.
    destruct (worn_board _ _ _ H23 y x Hy Hx) as [E|(E & -> & t & HP & -> & Hf & Hr)].
    + rewrite E. apply (worn_board _ _ _ H12 _ _ Hy Hx).
    + right. split; [assumption|]. split; [reflexivity|].
      exists t. split; [exact HP|]. split; [reflexivity|].
      rewrite (flag_of_worn _ _ _ H12) in Hf. split; [assumption|].
      destruct (worn_board _ _ _ H12 (line_of t) 7 Hy Hx) as [E'|(E' & _)].
      * now rewrite <- E'.
      * rewrite E' in Hr. injection Hr as Hr. symmetry in Hr.
        now apply rook_of_not_EMPTY in Hr.
Qed.

(** The frame of an apply/undo pair: outside the touched squares the
    first board passes to the second and the third to the fourth; on the
    touched squares the fourth board is the first again, or has lost a
    loose rook. *)
Lemma worn_by_frame (c c1 c1' c2 : Chess) (touched : Z -> Z -> bool) :
  white c2 = white c -> black c2 = black c ->
  all_game_moves c2 = all_game_moves c -> whites_turn c2 = whites_turn c ->
  moves_after_last_pawn_move_or_capture c2
    = moves_after_last_pawn_move_or_capture c ->
  (white_bot_random c2 = white_bot_random c /\
   black_bot_random c2 = black_bot_random c) ->
  wf_board (board c2) ->
  (forall t, flag_of c1 t = true -> flag_of c t = true) ->
  worn P c1 c1' ->
  (forall y x, 0 <= y < 8 -> 0 <= x < 8 -> touched y x = false ->
     rd (board c1) y x = rd (board c) y x /\
     rd (board c2) y x = rd (board c1') y x) ->
  (forall y x, 0 <= y < 8 -> 0 <= x < 8 -> touched y x = true ->
     rd (board c2) y x = rd (board c) y x \/
     (rd (board c2) y x = Some EMPTY /\ x = 7 /\
      exists t, P t /\ y = line_of t /\ loose c t)) ->
  worn P c c2.
Proof.
  intros Hw Hb Hl Ht Hc Hr Hwf Hflag Hworn Hout Hin.
  split; try assumption.
  intros y x Hy Hx. destruct (touched y x) eqn:E.
  - now apply Hin.
  - destruct (Hout y x Hy Hx E) as [E1 E2]. rewrite E2.
    destruct (worn_board _ _ _ Hworn y x Hy Hx) as [E3|(E3 & -> & t & HP & -> & Hf & Hrk)].
    + left. congruence.
    + right. split; [assumption|]. split; [reflexivity|].
      exists t. split; [exact HP|]. split; [reflexivity|]. split; [now apply Hflag|].
      now rewrite <- E1.
Qed.

(** A square of [c1'] that does not hold a loose rook of [c1] is as in
    [c1]. *)
Lemma worn_same_cell (c1 c1' : Chess) (y x : Z) :
  worn P c1 c1' -> 0 <= y < 8 -> 0 <= x < 8 ->
  (forall t, x = 7 -> y = line_of t -> flag_of c1 t = true ->
             rd (board c1) y x <> Some (rook_of t)) ->
  rd (board c1') y x = rd (board c1) y x.
Proof.
  intros Hworn Hy Hx Hno.
  destruct (worn_board _ _ _ Hworn y x Hy Hx) as [E|(_ & -> & t & _ & -> & Hf & Hr)].
  - exact E.
  - exfalso. now apply (Hno t).
Qed.

(** Apply/undo of a move that touches its two squares only. *)
Lemma undo_two_cells (c c1 c1' c' : Chess) (x1 y1 x2 y2 src dst : Z)
    (e : LogEntry) :
  wf_board (board c) ->
  rd (board c) y1 x1 = Some src -> rd (board c) y2 x2 = Some dst ->
  x1 <> x2 \/ y1 <> y2 ->
  board c1 = upd (upd (board c) (cell y2 x2) src) (cell y1 x1) EMPTY ->
  (forall t, flag_of c1 t = true -> flag_of c t = true) ->
  worn P c1 c1' ->
  board c' = upd (upd (board c1') (cell y1 x1) src) (cell y2 x2) dst ->
  white c' = white c -> black c' = black c ->
  all_game_moves c' = all_game_moves c ++ [e] ->
  whites_turn c' = whites_turn c ->
  moves_after_last_pawn_move_or_capture c'
    = moves_after_last_pawn_move_or_capture c ->
  (white_bot_random c' = white_bot_random c /\
   black_bot_random c' = black_bot_random c) ->
  worn P c (set_log c' (removelast (all_game_moves c'))).
Proof.
  intros Hwf Hs Hd Hne Hb1 Hflag Hworn Hb' Hw Hbl Hl Ht Hc Hr.
  destruct (rd_Some_bounds _ _ _ _ Hs) as [Hy1 Hx1].
  destruct (rd_Some_bounds _ _ _ _ Hd) as [Hy2 Hx2].
  apply (worn_by_frame c c1 c1' _
           (fun y x => at_cell y x y1 x1 || at_cell y x y2 x2));
    proj_simpl; try assumption.
  - rewrite Hl. apply removelast_last.
  - rewrite Hb'. unfold wf_board. rewrite !length_upd. apply (worn_wf _ _ _ Hworn).
  - intros y x Hy Hx Ht'. apply orb_false_iff in Ht'. destruct Ht' as [T1 T2].
    unfold at_cell in T1, T2. split.
    + rewrite Hb1, rd_two by assumption. now rewrite T1, T2.
    + rewrite Hb', rd_two by (assumption || apply (worn_wf _ _ _ Hworn)).
      now rewrite T1, T2.
  - intros y x Hy Hx Ht'. left.
    rewrite Hb', rd_two by (assumption || apply (worn_wf _ _ _ Hworn)).
    unfold at_cell in Ht'.
    destruct ((y =? y2) && (x =? x2)) eqn:T2.
    + apply andb_true_iff in T2. destruct T2 as [E1 E2].
      apply Z.eqb_eq in E1, E2. subst. now rewrite Hd.
    + rewrite orb_false_r in Ht'. rewrite Ht'.
      apply andb_true_iff in Ht'. destruct Ht' as [E1 E2].
      apply Z.eqb_eq in E1, E2. subst. now rewrite Hs.
Qed.

Lemma rook_of_is_rook (t : bool) : is_rook (rook_of t) = true.
Proof. now destruct t. Qed.

Lemma landed_kept (c1 c1' : Chess) (y2 x2 p : Z) :
  worn P c1 c1' -> rd (board c1) y2 x2 = Some p ->
  (forall t, p = rook_of t -> flag_of c1 t = false) ->
  rd (board c1') y2 x2 = Some p.
Proof.
  intros Hworn Hp Hno. destruct (rd_Some_bounds _ _ _ _ Hp) as [Hy Hx].
  rewrite (worn_same_cell c1 c1' y2 x2 Hworn Hy Hx); [assumption|].
  intros t _ _ Hf Hr. rewrite Hp in Hr. injection Hr as Hr.
  rewrite (Hno t Hr) in Hf. discriminate.
Qed.

Lemma sget_entry_5 (x1 y1 x2 y2 src dst : Z) (rest : str) :
  sget (ToString x1 y1 x2 y2 ++ src :: dst :: rest) 5 = Some dst.
Proof. reflexivity. Qed.

Lemma rd_landed (b : Board) (y1 x1 y2 x2 src : Z) :
  wf_board b -> 0 <= y1 < 8 -> 0 <= x1 < 8 -> 0 <= y2 < 8 -> 0 <= x2 < 8 ->
  x1 <> x2 \/ y1 <> y2 ->
  rd (upd (upd b (cell y2 x2) src) (cell y1 x1) EMPTY) y2 x2 = Some src.
Proof.
  intros Hwf Hy1 Hx1 Hy2 Hx2 Hne. rewrite rd_two by assumption.
  assert (H : (y2 =? y1) && (x2 =? x1) = false).
  { apply squares_differ. destruct Hne as [H|H]; [left|right]; congruence. }
  rewrite H. now rewrite !Z.eqb_refl.
Qed.

Lemma undo_plain (c c1 c1' c2 : Chess) (x1 y1 x2 y2 src dst : Z)
    (key : PromotionKey) :
  wf_board (board c) ->
  rd (board c) y1 x1 = Some src -> rd (board c) y2 x2 = Some dst ->
  x1 <> x2 \/ y1 <> y2 ->
  is_pawn src = false -> is_king src = false -> is_rook src = false ->
  MovePiece c x1 y1 x2 y2 false key false = Some c1 -> worn P c1 c1' ->
  MovePieceBack c1' x1 y1 x2 y2 = Some c2 -> worn P c c2.
Proof.
  intros Hwf Hs Hd Hne Hp Hk Hr Hm Hworn Hu.
  destruct (rd_Some_bounds _ _ _ _ Hs) as [Hy1 Hx1].
  destruct (rd_Some_bounds _ _ _ _ Hd) as [Hy2 Hx2].
  rewrite (MovePiece_plain c x1 y1 x2 y2 src dst false key Hs Hd Hp Hk Hr) in Hm.
  injection Hm as Hm. subst c1.
  assert (Hland : rd (board c1') y2 x2 = Some src).
  { apply (landed_kept _ _ _ _ _ Hworn).
    - proj_simpl. now apply rd_landed.
    - intros t ->. rewrite rook_of_is_rook in Hr. discriminate. }
  pose proof (worn_log _ _ _ Hworn) as HL. proj_simpl in HL.
  rewrite (MovePieceBack_head c1' x1 y1 x2 y2 src dst _ _ HL
             (sget_entry_5 _ _ _ _ _ _ _) Hland Hy1 Hx1 Hne (worn_wf _ _ _ Hworn))
    in Hu.
  rewrite Hp, Hr, Hk in Hu. proj_simpl in Hu.
  assert (Hsw : forall d : Chess,
            (if is_queen src then Some d else Some d) = Some d)
    by (intros; destruct (is_queen src); reflexivity).
  rewrite Hsw in Hu. injection Hu as <-.
  eapply (undo_two_cells c _ c1'
            (set_board (ChangeTurn c1')
               (upd (upd (board c1') (cell y1 x1) src) (cell y2 x2) dst))
            x1 y1 x2 y2 src dst); try eassumption;
    proj_simpl; try reflexivity.
  - intros t Hf. exact Hf.
  - apply (worn_white _ _ _ Hworn).
  - apply (worn_black _ _ _ Hworn).
  - rewrite (worn_turn _ _ _ Hworn). proj_simpl. apply negb_involutive.
  - apply (worn_counter _ _ _ Hworn).
  - apply (worn_random _ _ _ Hworn).
Qed.

Lemma restore_castling_spec (d d' : Chess) (L : list LogEntry) (e : LogEntry) :
  all_game_moves d = L ++ [e] -> restore_castling d = Some d' ->
  exists e3 f, prev_cend L 2 = Some e3 /\ recorded e3 = Some f /\
    d' = if f then set_current_player d (SetCastling (GetCurrentPlayerConst d) true)
         else d.
Proof.
  intros HL H. unfold restore_castling in H. rewrite HL, prev_cend_snoc in H.
  destruct (prev_cend L 2) as [e3|]; [|discriminate].
  exists e3. unfold recorded.
  destruct (Moves_eqb (fst e3) CASTLING); cbn [negb] in H.
  - injection H as <-. exists false. auto.
  - destruct (sget (snd e3) (6 + (if Moves_eqb (fst e3) PROMOTION then 1 else 0)))
      as [f|]; [|discriminate].
    exists (negb (f =? 0)). split; [reflexivity|]. split; [reflexivity|].
    destruct (negb (f =? 0)); now injection H as <-.
Qed.

Lemma SetCastling_restore (p : Bot) (f : bool) :
  castling p = f ->
  (if f then SetCastling (SetCastling p false) true else SetCastling p false) = p.
Proof. destruct p as [cf s d]. simpl. intros <-. now destruct cf. Qed.

Lemma own_rook (t : bool) (p : Z) : is_rook p = true -> own t p = true -> p = rook_of t.
Proof.
  unfold is_rook, W_ROOK, B_ROOK. intros H Ho. apply orb_true_iff in H.
  destruct H as [H|H]; apply Z.eqb_eq in H; subst p; destruct t;
    try reflexivity; discriminate.
Qed.

Lemma own_king (t : bool) (p : Z) : is_king p = true -> own t p = true -> p = king_of t.
Proof.
  unfold is_king, W_KING, B_KING. intros H Ho. apply orb_true_iff in H.
  destruct H as [H|H]; apply Z.eqb_eq in H; subst p; destruct t;
    try reflexivity; discriminate.
Qed.

Lemma own_not_EMPTY (t : bool) : own t EMPTY = false.
Proof. now destruct t. Qed.

Lemma rook_of_inj (t t' : bool) : rook_of t = rook_of t' -> t = t'.
Proof. destruct t, t'; intros H; try reflexivity; discriminate. Qed.

Lemma king_not_rook (p : Z) : is_king p = true -> is_rook p = false.
Proof.
  unfold is_rook, is_king, W_ROOK, B_ROOK, W_KING, B_KING. intros H.
  apply orb_true_iff in H.
  destruct H as [H|H]; apply Z.eqb_eq in H; subst p; reflexivity.
Qed.

Lemma restored_players (c d : Chess) (f : bool) :
  whites_turn d = whites_turn c ->
  white d = white_cleared c -> black d = black_cleared c ->
  flag_of c (whites_turn c) = f ->
  let d' := if f then set_current_player d
                        (SetCastling (GetCurrentPlayerConst d) true) else d in
  white d' = white c /\ black d' = black c.
Proof.
  intros Ht Hw Hb Hf d'. subst d'.
  unfold set_current_player, GetCurrentPlayerConst, white_cleared,
    black_cleared, flag_of in *.
  rewrite Ht. destruct (whites_turn c).
  - destruct f; cbn; rewrite ?Hw, ?Hb; split; try reflexivity;
      exact (SetCastling_restore _ _ Hf).
  - destruct f; cbn; rewrite ?Hw, ?Hb; split; try reflexivity;
      exact (SetCastling_restore _ _ Hf).
Qed.

(** Undo of a rook move or of a king move that was not castling: the
    castling flag comes back from the log. *)
Lemma undo_cleared (c c1' c2 : Chess) (x1 y1 x2 y2 src dst : Z) :
  Inv c ->
  rd (board c) y1 x1 = Some src -> rd (board c) y2 x2 = Some dst ->
  x1 <> x2 \/ y1 <> y2 -> own (whites_turn c) src = true ->
  is_rook src = true \/ is_king src = true ->
  worn P (mkChess
          (upd (upd (board c) (cell y2 x2) src) (cell y1 x1) EMPTY)
          (white_cleared c) (black_cleared c)
          (all_game_moves c ++
             [(NORMAL, ToString x1 y1 x2 y2 ++ [src; dst; 0])])
          (negb (whites_turn c))
          (moves_after_last_pawn_move_or_capture c)
          (white_bot_random c) (black_bot_random c)) c1' ->
  MovePieceBack c1' x1 y1 x2 y2 = Some c2 -> worn P c c2.
Proof.
  intros HI Hs Hd Hne Hown Hkind Hworn Hu.
  pose proof (inv_wf _ HI) as Hwf.
  destruct (rd_Some_bounds _ _ _ _ Hs) as [Hy1 Hx1].
  destruct (rd_Some_bounds _ _ _ _ Hd) as [Hy2 Hx2].
  assert (Hland : rd (board c1') y2 x2 = Some src).
  { apply (landed_kept _ _ _ _ _ Hworn).
    - proj_simpl. now apply rd_landed.
    - intros t ->. destruct Hkind as [Hr|Hk];
        [|destruct t; discriminate Hk].
      apply own_rook in Hown; [|assumption]. apply rook_of_inj in Hown. subst t.
      unfold flag_of, white_cleared, black_cleared. proj_simpl.
      destruct (whites_turn c); reflexivity. }
  pose proof (worn_log _ _ _ Hworn) as HL. proj_simpl in HL.
  rewrite (MovePieceBack_head c1' x1 y1 x2 y2 src dst _ _ HL
             (sget_entry_5 _ _ _ _ _ _ _) Hland Hy1 Hx1 Hne (worn_wf _ _ _ Hworn))
    in Hu.
  set (d := set_board (ChangeTurn c1')
              (upd (upd (board c1') (cell y1 x1) src) (cell y2 x2) dst)) in *.
  assert (Hsw : exists d', restore_castling d = Some d' /\
                           c2 = set_log d' (removelast (all_game_moves d'))).
  { destruct Hkind as [Hr|Hk].
    - destruct (rook_not_pawn_king _ Hr) as [Hp Hk]. rewrite Hp, Hr in Hu.
      destruct (restore_castling d) as [d'|]; [|discriminate].
      injection Hu as <-. eauto.
    - rewrite (king_not_pawn _ Hk), (king_not_rook _ Hk), Hk in Hu.
      proj_simpl in Hu.
      assert (Hq : is_queen src = false).
      { apply own_king in Hown; [|assumption]. subst src.
        destruct (whites_turn c); reflexivity. }
      rewrite Hq in Hu.
      destruct (restore_castling d) as [d'|]; [|discriminate].
      injection Hu as <-. eauto. }
  destruct Hsw as (d' & Hrest & ->).
  assert (HLd : all_game_moves d = all_game_moves c ++
                  [(NORMAL, ToString x1 y1 x2 y2 ++ [src; dst; 0])])
    by (subst d; proj_simpl; exact HL).
  destruct (restore_castling_spec _ _ _ _ HLd Hrest) as (e3 & f & He3 & Hrec & ->).
  rewrite (inv_flag_mover _ HI e3 He3) in Hrec. injection Hrec as Hf.
  assert (Ht : whites_turn d = whites_turn c).
  { subst d. proj_simpl. rewrite (worn_turn _ _ _ Hworn). proj_simpl.
    apply negb_involutive. }
  eapply (undo_two_cells c _ c1'
            (if f then set_current_player d
                         (SetCastling (GetCurrentPlayerConst d) true) else d)
            x1 y1 x2 y2 src dst); try eassumption.
  - reflexivity.
  - intros t. unfold flag_of, white_cleared, black_cleared. proj_simpl.
    destruct t, (whites_turn c); cbn; congruence.
  - destruct f; rewrite ?board_set_current_player; reflexivity.
  - apply (restored_players c d f Ht); try exact Hf; try (symmetry; exact Hf);
      subst d; proj_simpl;
      [apply (worn_white _ _ _ Hworn)|apply (worn_black _ _ _ Hworn)].
  - apply (restored_players c d f Ht); try exact Hf; try (symmetry; exact Hf);
      subst d; proj_simpl;
      [apply (worn_white _ _ _ Hworn)|apply (worn_black _ _ _ Hworn)].
  - destruct f; rewrite ?log_set_current_player; exact HLd.
  - destruct f; rewrite ?turn_set_current_player; exact Ht.
  - destruct f; rewrite ?counter_set_current_player; subst d; proj_simpl;
      apply (worn_counter _ _ _ Hworn).
  - assert (Hr : white_bot_random d = white_bot_random c /\
                 black_bot_random d = black_bot_random c)
      by (subst d; proj_simpl; apply (worn_random _ _ _ Hworn)).
    destruct f; [|exact Hr].
    unfold set_current_player. destruct (whites_turn d); exact Hr.
Qed.

Lemma undo_pawn_step (c c1 c1' c2 : Chess) (x1 y1 x2 y2 src dst : Z)
    (key : PromotionKey) :
  wf_board (board c) ->
  rd (board c) y1 x1 = Some src -> rd (board c) y2 x2 = Some dst ->
  x1 <> x2 \/ y1 <> y2 ->
  is_pawn src = true -> y2 <> last_rank c -> x1 = x2 \/ dst <> EMPTY ->
  MovePiece c x1 y1 x2 y2 false key false = Some c1 -> worn P c1 c1' ->
  MovePieceBack c1' x1 y1 x2 y2 = Some c2 -> worn P c c2.
Proof.
  intros Hwf Hs Hd Hne Hp Hy Hx Hm Hworn Hu.
  destruct (rd_Some_bounds _ _ _ _ Hs) as [Hy1 Hx1].
  destruct (rd_Some_bounds _ _ _ _ Hd) as [Hy2 Hx2].
  destruct (pawn_not_king_rook _ Hp) as [Hk Hr].
  rewrite (MovePiece_pawn_step c x1 y1 x2 y2 src dst false key Hs Hd Hp Hy Hx) in Hm.
  injection Hm as Hm. subst c1.
  assert (Hland : rd (board c1') y2 x2 = Some src).
  { apply (landed_kept _ _ _ _ _ Hworn).
    - proj_simpl. now apply rd_landed.
    - intros t ->. rewrite rook_of_is_rook in Hr. discriminate. }
  pose proof (worn_log _ _ _ Hworn) as HL. proj_simpl in HL.
  rewrite (MovePieceBack_head c1' x1 y1 x2 y2 src dst _ _ HL
             (sget_entry_5 _ _ _ _ _ _ _) Hland Hy1 Hx1 Hne (worn_wf _ _ _ Hworn))
    in Hu.
  rewrite Hp in Hu.
  set (d := set_board (ChangeTurn c1')
              (upd (upd (board c1') (cell y1 x1) src) (cell y2 x2) dst)) in *.
  assert (Hsw : c2 = set_log d (removelast (all_game_moves d))).
  { destruct Hx as [Hx|Hx].
    - rewrite (proj2 (Z.eqb_eq _ _) Hx) in Hu. cbn [negb] in Hu.
      now injection Hu as <-.
    - rewrite (proj2 (Z.eqb_neq _ _) Hx) in Hu.
      destruct (negb (x1 =? x2)); now injection Hu as <-. }
  subst c2.
  eapply (undo_two_cells c _ c1' d x1 y1 x2 y2 src dst); try eassumption;
    subst d; proj_simpl; try reflexivity.
  - intros t Hf. exact Hf.
  - apply (worn_white _ _ _ Hworn).
  - apply (worn_black _ _ _ Hworn).
  - rewrite (worn_turn _ _ _ Hworn). proj_simpl. apply negb_involutive.
  - apply (worn_counter _ _ _ Hworn).
  - apply (worn_random _ _ _ Hworn).
Qed.

Lemma own_pawn (t : bool) (p : Z) : is_pawn p = true -> own t p = true -> p = pawn_of t.
Proof.
  unfold is_pawn, W_PAWN, B_PAWN. intros H Ho. apply orb_true_iff in H.
  destruct H as [H|H]; apply Z.eqb_eq in H; subst p; destruct t;
    try reflexivity; discriminate.
Qed.

Lemma undo_promotion (c c1 c1' c2 : Chess) (x1 y1 x2 y2 src dst : Z)
    (key : PromotionKey) :
  Inv c ->
  rd (board c) y1 x1 = Some src -> rd (board c) y2 x2 = Some dst ->
  x1 <> x2 \/ y1 <> y2 -> own (whites_turn c) src = true ->
  is_pawn src = true -> y2 = last_rank c ->
  MovePiece c x1 y1 x2 y2 false key false = Some c1 -> worn P c1 c1' ->
  MovePieceBack c1' x1 y1 x2 y2 = Some c2 -> worn P c c2.
Proof.
  intros HI Hs Hd Hne Hown Hp Hy Hm Hworn Hu.
  pose proof (inv_wf _ HI) as Hwf.
  destruct (rd_Some_bounds _ _ _ _ Hs) as [Hy1 Hx1].
  destruct (rd_Some_bounds _ _ _ _ Hd) as [Hy2 Hx2].
  assert (Hrnd : (if whites_turn c then white_bot_random c
                  else black_bot_random c) = false).
  { destruct (inv_settings _ HI) as [-> ->]. now destruct (whites_turn c). }
  rewrite (MovePiece_promotion c x1 y1 x2 y2 src dst false key Hs Hd Hp Hy Hwf Hrnd) in Hm.
  unfold promoted in Hm.
  injection Hm as Hm. subst c1.
  set (Q := queen_of (whites_turn c)) in *.
  assert (HQ : is_pawn Q = false /\ is_rook Q = false /\ is_queen Q = true)
    by (subst Q; destruct (whites_turn c); repeat split; reflexivity).
  destruct HQ as (HQp & HQr & HQq).
  assert (Hne' : (y2 =? y1) && (x2 =? x1) = false).
  { apply squares_differ. destruct Hne as [H|H]; [left|right]; congruence. }
  assert (Hland : rd (board c1') y2 x2 = Some Q).
  { apply (landed_kept _ _ _ _ _ Hworn).
    - proj_simpl. rdu. rewrite Hne'. now rewrite !Z.eqb_refl.
    - intros t E. rewrite E, rook_of_is_rook in HQr. discriminate. }
  pose proof (worn_log _ _ _ Hworn) as HL. proj_simpl in HL.
  pose proof (worn_wf _ _ _ Hworn) as Hwf'.
  rewrite (MovePieceBack_head c1' x1 y1 x2 y2 Q dst _ _ HL
             (sget_entry_5 _ _ _ _ _ _ _) Hland Hy1 Hx1 Hne Hwf') in Hu.
  rewrite HQp, HQr, HQq in Hu. proj_simpl in Hu.
  rewrite (wr_defined _ _ _ _ Hy1 Hx1) in Hu. injection Hu as <-.
  assert (Hsrc : src = if negb (whites_turn c1') then W_PAWN else B_PAWN).
  { rewrite (worn_turn _ _ _ Hworn). proj_simpl. rewrite negb_involutive.
    rewrite (own_pawn _ _ Hp Hown). now destruct (whites_turn c). }
  match type of Hworn with worn P ?c1 _ =>
    apply (worn_by_frame c c1 c1' _
             (fun y x => at_cell y x y1 x1 || at_cell y x y2 x2))
  end; proj_simpl; try reflexivity.
  - apply (worn_white _ _ _ Hworn).
  - apply (worn_black _ _ _ Hworn).
  - rewrite HL. apply removelast_last.
  - rewrite (worn_turn _ _ _ Hworn). proj_simpl. apply negb_involutive.
  - apply (worn_counter _ _ _ Hworn).
  - apply (worn_random _ _ _ Hworn).
  - solve_wf.
  - intros t Hf. exact Hf.
  - exact Hworn.
  - intros y x Hy' Hx' Ht. apply orb_false_iff in Ht. destruct Ht as [T1 T2].
    unfold at_cell in T1, T2. rdu. now rewrite T1, T2.
  - intros y x Hy' Hx' Ht. left. rdu. unfold at_cell in Ht.
    destruct ((y =? y1) && (x =? x1)) eqn:T1.
    + apply andb_true_iff in T1. destruct T1 as [E1 E2].
      apply Z.eqb_eq in E1, E2. subst y x. rewrite Hs. now rewrite <- Hsrc.
    + cbn [orb] in Ht. rewrite Ht.
      apply andb_true_iff in Ht. destruct Ht as [E1 E2].
      apply Z.eqb_eq in E1, E2. subst y x. now rewrite Hd.
Qed.

Lemma undo_en_passant (c c1 c1' c2 : Chess) (x1 y1 x2 y2 src : Z)
    (key : PromotionKey) :
  wf_board (board c) ->
  rd (board c) y1 x1 = Some src -> rd (board c) y2 x2 = Some EMPTY ->
  is_pawn src = true -> y2 <> last_rank c -> x1 <> x2 -> y1 <> y2 ->
  rd (board c) y1 x2 = Some (pawn_of (negb (whites_turn c))) ->
  MovePiece c x1 y1 x2 y2 false key false = Some c1 -> worn P c1 c1' ->
  MovePieceBack c1' x1 y1 x2 y2 = Some c2 -> worn P c c2.
Proof.
  intros Hwf Hs Hd Hp Hy Hx Hyy Hcap Hm Hworn Hu.
  destruct (rd_Some_bounds _ _ _ _ Hs) as [Hy1 Hx1].
  destruct (rd_Some_bounds _ _ _ _ Hd) as [Hy2 Hx2].
  destruct (pawn_not_king_rook _ Hp) as [Hk Hr].
  rewrite (MovePiece_en_passant c x1 y1 x2 y2 src false key Hs Hd Hp Hy Hx Hwf) in Hm.
  injection Hm as Hm. subst c1.
  assert (N21 : (y2 =? y1) && (x2 =? x1) = false).
  { apply squares_differ. left. congruence. }
  assert (N12 : (y1 =? y2) && (x1 =? x2) = false).
  { apply squares_differ. now left. }
  assert (Hland : rd (board c1') y2 x2 = Some src).
  { apply (landed_kept _ _ _ _ _ Hworn).
    - proj_simpl. rdu. rewrite N21. now rewrite !Z.eqb_refl.
    - intros t ->. rewrite rook_of_is_rook in Hr. discriminate. }
  pose proof (worn_log _ _ _ Hworn) as HL. proj_simpl in HL.
  pose proof (worn_wf _ _ _ Hworn) as Hwf'.
  rewrite (MovePieceBack_head c1' x1 y1 x2 y2 src EMPTY _ _ HL
             (sget_entry_5 _ _ _ _ _ _ _) Hland Hy1 Hx1 (or_introl Hx) Hwf') in Hu.
  rewrite Hp in Hu. rewrite (proj2 (Z.eqb_neq _ _) Hx) in Hu.
  cbn [negb] in Hu. rewrite Z.eqb_refl in Hu. proj_simpl in Hu.
  rewrite (wr_defined _ _ _ _ Hy1 Hx2) in Hu. injection Hu as <-.
  assert (Hpw : (if negb (whites_turn c1') then B_PAWN else W_PAWN)
                = pawn_of (negb (whites_turn c))).
  { rewrite (worn_turn _ _ _ Hworn). proj_simpl. rewrite negb_involutive.
    now destruct (whites_turn c). }
  rewrite Hpw.
  match type of Hworn with worn P ?c1 _ =>
    apply (worn_by_frame c c1 c1' _
             (fun y x => at_cell y x y1 x1 || at_cell y x y2 x2
                         || at_cell y x y1 x2))
  end; proj_simpl; try reflexivity.
  - apply (worn_white _ _ _ Hworn).
  - apply (worn_black _ _ _ Hworn).
  - rewrite HL. apply removelast_last.
  - rewrite (worn_turn _ _ _ Hworn). proj_simpl. apply negb_involutive.
  - apply (worn_counter _ _ _ Hworn).
  - apply (worn_random _ _ _ Hworn).
  - solve_wf.
  - intros t Hf. exact Hf.
  - exact Hworn.
  - intros y x Hy' Hx' Ht. apply orb_false_iff in Ht. destruct Ht as [Ht T3].
    apply orb_false_iff in Ht. destruct Ht as [T1 T2].
    unfold at_cell in T1, T2, T3. rdu. now rewrite T1, T2, T3.
  - intros y x Hy' Hx' Ht. left. rdu. unfold at_cell in Ht.
    destruct ((y =? y1) && (x =? x2)) eqn:T3.
    + apply andb_true_iff in T3. destruct T3 as [E1 E2].
      apply Z.eqb_eq in E1, E2. subst y x. now rewrite Hcap.
    + destruct ((y =? y2) && (x =? x2)) eqn:T2.
      * apply andb_true_iff in T2. destruct T2 as [E1 E2].
        apply Z.eqb_eq in E1, E2. subst y x. now rewrite Hd.
      * rewrite orb_false_r in Ht. cbn [orb] in Ht. rewrite orb_false_r in Ht.
        rewrite Ht. apply andb_true_iff in Ht. destruct Ht as [E1 E2].
        apply Z.eqb_eq in E1, E2. subst y x. now rewrite Hs.
Qed.

Lemma worn_inner (c1 c1' : Chess) (y x : Z) :
  worn P c1 c1' -> 0 <= y < 8 -> 0 <= x < 7 ->
  rd (board c1') y x = rd (board c1) y x.
Proof.
  intros Hworn Hy Hx. apply (worn_same_cell _ _ _ _ Hworn); try lia.
Qed.

Lemma worn_empty (c1 c1' : Chess) (y x : Z) :
  worn P c1 c1' -> rd (board c1) y x = Some EMPTY ->
  rd (board c1') y x = Some EMPTY.
Proof.
  intros Hworn H. destruct (rd_Some_bounds _ _ _ _ H) as [Hy Hx].
  destruct (worn_board _ _ _ Hworn y x Hy Hx) as [E|[E _]]; congruence.
Qed.

Lemma flag_of_current (c : Chess) :
  flag_of c (whites_turn c) = castling (GetCurrentPlayerConst c).
Proof. unfold flag_of, GetCurrentPlayerConst. now destruct (whites_turn c). Qed.

Lemma undo_castle (c c1 c1' c2 : Chess) (x2 xr xt r : Z) (key : PromotionKey) :
  let t := whites_turn c in
  let l := line_of t in
  wf_board (board c) -> P t ->
  castling (GetCurrentPlayerConst c) = true ->
  rd (board c) l 4 = Some (king_of t) ->
  (x2 = 2 /\ xr = 0 /\ xt = 3) \/
  (x2 = 6 /\ xr = 7 /\ xt = 5 /\ (r = rook_of t \/ r = EMPTY)) ->
  rd (board c) l xr = Some r ->
  rd (board c) l xt = Some EMPTY -> rd (board c) l x2 = Some EMPTY ->
  MovePiece c 4 l x2 l false key false = Some c1 -> worn P c1 c1' ->
  MovePieceBack c1' 4 l x2 l = Some c2 -> worn P c c2.
Proof.
  intros t l Hwf HPt Hf Hk Hx Hr Ht He Hm Hworn Hu.
  pose proof (line_of_bounds t) as Hl. fold l in Hl.
  assert (Hx' : (x2 = 2 /\ xr = 0 /\ xt = 3) \/ (x2 = 6 /\ xr = 7 /\ xt = 5))
    by (destruct Hx as [H|H]; [left|right]; tauto).
  unfold l, t in Hm.
  rewrite (MovePiece_castle c x2 xr xt r false key Hf Hk Hx' Hr Hwf) in Hm.
  injection Hm as Hm. subst c1. fold t in Hworn. fold l in Hworn.
  assert (Hb2 : 0 <= x2 < 7) by (destruct Hx' as [(-> & _)|(-> & _)]; lia).
  assert (Hbr : 0 <= xr < 8) by (destruct Hx' as [(_ & -> & _)|(_ & -> & _)]; lia).
  assert (Hbt : 0 <= xt < 7) by (destruct Hx' as [(_ & _ & ->)|(_ & _ & ->)]; lia).
  pose proof (worn_wf _ _ _ Hworn) as Hwf'.
  pose proof (worn_log _ _ _ Hworn) as HL. proj_simpl in HL.
  assert (Hland : rd (board c1') l x2 = Some (king_of t)).
  { rewrite (worn_inner _ _ _ _ Hworn Hl Hb2). proj_simpl. rdu.
    destruct Hx' as [(-> & -> & ->)|(-> & -> & ->)];
      rewrite !Z.eqb_refl; reflexivity. }
  assert (Hne : 4 <> x2 \/ l <> l)
    by (left; destruct Hx' as [(-> & _)|(-> & _)]; lia).
  assert (H4 : 0 <= 4 < 8) by lia.
  rewrite (MovePieceBack_head c1' 4 l x2 l (king_of t) EMPTY _ _ HL
             eq_refl Hland Hl H4 Hne Hwf') in Hu.
  assert (HK : is_pawn (king_of t) = false /\ is_rook (king_of t) = false /\
               is_queen (king_of t) = false /\ is_king (king_of t) = true)
    by (destruct t; repeat split; reflexivity).
  destruct HK as (K1 & K2 & K3 & K4). rewrite K1, K2, K3, K4 in Hu.
  proj_simpl in Hu.
  set (d := set_board (ChangeTurn c1')
              (upd (upd (board c1') (cell l 4) (king_of t)) (cell l x2) EMPTY)) in *.
  assert (Htd : whites_turn d = t).
  { subst d. proj_simpl. rewrite (worn_turn _ _ _ Hworn). proj_simpl.
    apply negb_involutive. }
  rewrite turn_set_current_player, Htd in Hu. fold (line_of t) in Hu. fold l in Hu.
  rewrite board_set_current_player in Hu.
  set (d1 := set_current_player d (SetCastling (GetCurrentPlayerConst d) true)) in *.
  assert (Hpl : white d1 = white c /\ black d1 = black c).
  { apply (restored_players c d true Htd); subst d; proj_simpl.
    - apply (worn_white _ _ _ Hworn).
    - apply (worn_black _ _ _ Hworn).
    - rewrite flag_of_current. exact Hf. }
  destruct Hpl as [Hw Hb].
  assert (Hmoved : exists v xa xb,
            c2 = set_log
                   (set_board d1 (upd (upd (board d) (cell l xa) v) (cell l xb) EMPTY))
                   (removelast (all_game_moves d1)) /\
            ((x2 = 2 /\ xa = 0 /\ xb = 3 /\ v = r) \/
             (x2 = 6 /\ xa = 5 /\ xb = 7 /\ v = EMPTY))).
  { destruct Hx' as [(E2 & Er & Et)|(E2 & Er & Et)]; subst x2 xr xt.
    - change (2 =? 2) with true in Hu. cbv iota in Hu.
      assert (Hv : rd (board d) l 3 = Some r).
      { subst d. proj_simpl. rdu.
        rewrite (worn_inner _ _ l 3 Hworn Hl) by lia. proj_simpl. rdu.
        rewrite !Z.eqb_refl. reflexivity. }
      rewrite (shift_cell_defined _ l 0 l 3 EMPTY r Hl) in Hu by (lia || exact Hv).
      injection Hu as <-. exists r, 0, 3. split; [reflexivity|]. left. tauto.
    - change (6 =? 2) with false in Hu. change (6 =? 6) with true in Hu.
      cbv iota in Hu.
      assert (Hv : rd (board d) l 7 = Some EMPTY).
      { subst d. proj_simpl. rdu. rewrite !Z.eqb_refl. cbn [andb].
        apply (worn_empty _ _ _ _ Hworn). proj_simpl. rdu.
        rewrite !Z.eqb_refl. reflexivity. }
      rewrite (shift_cell_defined _ l 5 l 7 EMPTY EMPTY Hl) in Hu by (lia || exact Hv).
      injection Hu as <-. exists EMPTY, 5, 7. split; [reflexivity|]. right. tauto. }
  destruct Hmoved as (v & xa & xb & -> & Hcase).
  match type of Hworn with worn P ?c1 _ =>
    apply (worn_by_frame c c1 c1' _
             (fun y x => (y =? l) && ((x =? 4) || (x =? x2) || (x =? xr) || (x =? xt))))
  end; proj_simpl; try assumption.
  - subst d1. rewrite log_set_current_player. subst d. proj_simpl.
    rewrite HL. apply removelast_last.
  - subst d1. rewrite turn_set_current_player. exact Htd.
  - subst d1. rewrite counter_set_current_player. subst d. proj_simpl.
    apply (worn_counter _ _ _ Hworn).
  - assert (Hr' : white_bot_random d = white_bot_random c /\
                  black_bot_random d = black_bot_random c)
      by (subst d; proj_simpl; apply (worn_random _ _ _ Hworn)).
    subst d1. unfold set_current_player. destruct (whites_turn d); exact Hr'.
  - subst d. proj_simpl. solve_wf.
  - intros t'. unfold flag_of, white_cleared, black_cleared. proj_simpl.
    destruct t', (whites_turn c); cbn; congruence.
  - intros y x Hy Hxx Hto. subst d. proj_simpl.
    assert (Hxs : (y =? l) = false \/
                  ((x =? 4) = false /\ (x =? x2) = false /\
                   (x =? xr) = false /\ (x =? xt) = false)).
    { destruct (y =? l); [right|left; reflexivity]. cbn [andb] in Hto.
      repeat (apply orb_false_iff in Hto; destruct Hto as [Hto ?H]). tauto. }
    assert (Hcells : forall x0, x0 = 4 \/ x0 = x2 \/ x0 = xr \/ x0 = xt ->
              (y =? l) && (x =? x0) = false).
    { intros x0 Hx0. destruct Hxs as [->|(A & B & C & D)]; [reflexivity|].
      destruct Hx0 as [-> | [-> | [-> | ->]]]; rewrite ?A, ?B, ?C, ?D;
        apply andb_false_r. }
    assert (Hab : (y =? l) && (x =? xa) = false /\ (y =? l) && (x =? xb) = false).
    { destruct Hcase as [(-> & -> & -> & _)|(-> & -> & -> & _)];
        destruct Hx' as [(E2 & -> & ->)|(E2 & -> & ->)]; try discriminate E2;
        split; apply Hcells; tauto. }
    destruct Hab as [Ha Hbb].
    assert (Hxab : 0 <= xa < 8 /\ 0 <= xb < 8)
      by (destruct Hcase as [(_ & -> & -> & _)|(_ & -> & -> & _)]; lia).
    destruct Hxab. rdu.
    rewrite Ha, Hbb, !Hcells by tauto. split; reflexivity.
  - intros y x Hy Hxx Hto. subst d. proj_simpl.
    apply andb_true_iff in Hto. destruct Hto as [Ey Hto].
    apply Z.eqb_eq in Ey. subst y.
    assert (Hxab : 0 <= xa < 8 /\ 0 <= xb < 8)
      by (destruct Hcase as [(_ & -> & -> & _)|(_ & -> & -> & _)]; lia).
    destruct Hxab. rdu. rewrite !Z.eqb_refl. cbn [andb].
    destruct Hcase as [(-> & -> & -> & ->)|(-> & -> & -> & ->)];
      destruct Hx as [(E2 & -> & ->)|(E2 & -> & -> & Hrr)]; try discriminate E2.
    + destruct (x =? 3) eqn:E3; [apply Z.eqb_eq in E3; subst x; left; congruence|].
      destruct (x =? 0) eqn:E0; [apply Z.eqb_eq in E0; subst x; left; congruence|].
      destruct (x =? 2) eqn:E2'; [apply Z.eqb_eq in E2'; subst x; left; congruence|].
      destruct (x =? 4) eqn:E4; [apply Z.eqb_eq in E4; subst x; left; congruence|].
      discriminate Hto.
    + destruct (x =? 7) eqn:E7.
      { apply Z.eqb_eq in E7. subst x. destruct Hrr as [->| ->].
        - right. split; [reflexivity|]. split; [reflexivity|].
          exists t. split; [exact HPt|]. split; [reflexivity|]. split; [|exact Hr].
          fold t. rewrite <- Hf. apply flag_of_current.
        - left. congruence. }
      destruct (x =? 5) eqn:E5; [apply Z.eqb_eq in E5; subst x; left; congruence|].
      destruct (x =? 6) eqn:E6; [apply Z.eqb_eq in E6; subst x; left; congruence|].
      destruct (x =? 4) eqn:E4; [apply Z.eqb_eq in E4; subst x; left; congruence|].
      discriminate Hto.
Qed.

Lemma pawn_of_opposite (t : bool) : W_PAWN - 7 * b2z t = pawn_of (negb t).
Proof. now destruct t. Qed.

(** The square an en-passant capture empties holds the pawn that has
    just advanced. *)
Lemma en_passant_victim (c : Chess) (x1 y1 x2 : Z) :
  Inv c -> GetEnPassant c x1 y1 = Some x2 -> x2 <> -1 ->
  rd (board c) y1 x2 = Some (pawn_of (negb (whites_turn c))).
Proof.
  intros HI He Hx. apply GetEnPassant_spec in He; [|assumption].
  destruct He as [(e & lx1 & ly1 & lx2 & ly2 & Hb & Hk & Hc & Hp & Hd & <-) [_ ->]].
  rewrite pawn_of_opposite in Hp.
  apply (inv_ep _ HI e lx1 ly1 lx2 ly2); assumption.
Qed.

Lemma en_passant_target (c : Chess) (x1 y1 x2 : Z) :
  Inv c -> GetEnPassant c x1 y1 = Some x2 -> x2 <> -1 ->
  rd (board c) (y1 + (if whites_turn c then -1 else 1)) x2 = Some EMPTY /\
  Z.abs (x2 - x1) = 1.
Proof.
  intros HI He Hx. apply GetEnPassant_spec in He; [|assumption].
  destruct He as [(e & lx1 & ly1 & lx2 & ly2 & Hb & Hk & Hc & Hp & Hd & <-) [Ha ->]].
  rewrite pawn_of_opposite in Hp. split; [|lia].
  apply (inv_ep _ HI e lx1 ly1 lx2 ly2); assumption.
Qed.

(** Apply, let rooks get lost further down, undo: what is left is the
    game before the move, short of lost rooks. *)
Lemma undo_after (c c1 c1' c2 : Chess) (x1 y1 x2 y2 : Z) (key : PromotionKey) :
  Inv c -> plausible c (x1, y1, x2, y2) -> P (whites_turn c) ->
  MovePiece c x1 y1 x2 y2 false key false = Some c1 -> worn P c1 c1' ->
  MovePieceBack c1' x1 y1 x2 y2 = Some c2 -> worn P c c2.
Proof.
  intros HI (Hne & src & dst & Hs & Hd & Hsrc & Hdst & Hpawn & Hrook & Hking)
         HPt Hm Hworn Hu.
  pose proof (inv_wf _ HI) as Hwf.
  destruct (rd_Some_bounds _ _ _ _ Hd) as [Hy2 Hx2].
  destruct (is_pawn src) eqn:Ep.
  { assert (Hown : own (whites_turn c) src = true).
    { destruct Hsrc as [->|H]; [discriminate Ep|exact H]. }
    destruct (Z.eq_dec y2 (last_rank c)) as [Hl|Hl].
    - apply (undo_promotion c c1 c1' c2 x1 y1 x2 y2 src dst key); assumption.
    - specialize (Hpawn eq_refl).
      assert (Hcases : (x1 = x2 \/ dst <> EMPTY) \/
                       (x1 <> x2 /\ dst = EMPTY /\ y1 <> y2 /\
                        GetEnPassant c x1 y1 = Some x2)).
      { destruct Hpawn as [[-> _]|[[-> _]|(Ha & Hy & H3)]]; [tauto|tauto|].
        destruct (Z.eq_dec dst EMPTY) as [->|Hdd]; [|tauto].
        right. split; [lia|]. split; [reflexivity|].
        split; [destruct (whites_turn c); lia|].
        destruct H3 as [H3|[H3|H3]]; [contradiction|contradiction|exact H3]. }
      destruct Hcases as [Hc|(Hx & -> & Hyy & Hep)].
      + apply (undo_pawn_step c c1 c1' c2 x1 y1 x2 y2 src dst key); assumption.
      + apply (undo_en_passant c c1 c1' c2 x1 y1 x2 y2 src key); try assumption.
        apply (en_passant_victim c x1 y1 x2); [assumption|assumption|lia]. }
  destruct (is_king src) eqn:Ek.
  { assert (Hown : own (whites_turn c) src = true).
    { destruct Hsrc as [->|H]; [discriminate Ek|exact H]. }
    pose proof (own_king _ _ Ek Hown) as Esrc.
    destruct (castling (GetCurrentPlayerConst c)) eqn:Ef.
    - destruct (Z.eq_dec x2 2) as [E2|N2].
      + rewrite <- flag_of_current in Ef.
        destruct (Hking eq_refl Ef (or_introl E2)) as (-> & -> & -> & Hq & _).
        destruct (Hq E2) as (R0 & R1 & R2 & R3). subst x2 src.
        rewrite flag_of_current in Ef.
        apply (undo_castle c c1 c1' c2 2 0 3 (rook_of (whites_turn c)) key);
          try assumption. left. tauto.
      + destruct (Z.eq_dec x2 6) as [E6|N6].
        * rewrite <- flag_of_current in Ef.
          destruct (Hking eq_refl Ef (or_intror E6)) as (-> & -> & -> & _ & Hkk).
          destruct (Hkk E6) as (R7 & R5 & R6). subst x2 src.
          rewrite flag_of_current in Ef.
          destruct R7 as [R7|R7].
          -- apply (undo_castle c c1 c1' c2 6 7 5 (rook_of (whites_turn c)) key);
               try assumption. right. tauto.
          -- apply (undo_castle c c1 c1' c2 6 7 5 EMPTY key);
               try assumption. right. tauto.
        * rewrite (MovePiece_king_step c x1 y1 x2 y2 src dst false key Hs Hd Ek)
            in Hm by tauto.
          injection Hm as <-.
          apply (undo_cleared c c1' c2 x1 y1 x2 y2 src dst); try assumption. tauto.
    - rewrite (MovePiece_king_step c x1 y1 x2 y2 src dst false key Hs Hd Ek)
        in Hm by tauto.
      injection Hm as <-.
      apply (undo_cleared c c1' c2 x1 y1 x2 y2 src dst); try assumption. tauto. }
  destruct (is_rook src) eqn:Er.
  { assert (Hown : own (whites_turn c) src = true).
    { destruct Hsrc as [->|H]; [discriminate Er|exact H]. }
    rewrite (MovePiece_rook c x1 y1 x2 y2 src dst false key Hs Hd Er) in Hm.
    injection Hm as <-.
    apply (undo_cleared c c1' c2 x1 y1 x2 y2 src dst); try assumption. tauto. }
  apply (undo_plain c c1 c1' c2 x1 y1 x2 y2 src dst key); assumption.
Qed.

(** ** Lost rooks leave the invariant and the shape of moves alone *)

Lemma worn_cell (c c' : Chess) (y x v : Z) :
  worn P c c' -> rd (board c) y x = Some v ->
  rd (board c') y x = Some v \/
  (rd (board c') y x = Some EMPTY /\ x = 7 /\
   exists t, y = line_of t /\ v = rook_of t /\ flag_of c t = true).
Proof.
  intros Hworn Hv. destruct (rd_Some_bounds _ _ _ _ Hv) as [Hy Hx].
  destruct (worn_board _ _ _ Hworn y x Hy Hx) as [E|(E & -> & t & _ & -> & Hf & Hr)].
  - left. congruence.
  - right. split; [assumption|]. split; [reflexivity|].
    exists t. split; [reflexivity|]. split; [congruence|assumption].
Qed.

Lemma worn_cell_back (c c' : Chess) (y x v : Z) :
  worn P c c' -> rd (board c') y x = Some v -> v <> EMPTY ->
  rd (board c) y x = Some v.
Proof.
  intros Hworn Hv Hne. destruct (rd_Some_bounds _ _ _ _ Hv) as [Hy Hx].
  destruct (worn_board _ _ _ Hworn y x Hy Hx) as [E|(E & _)]; congruence.
Qed.

Lemma Inv_worn (c c' : Chess) : worn P c c' -> Inv c -> Inv c'.
Proof.
  intros Hworn HI. split.
  - apply (worn_wf _ _ _ Hworn).
  - destruct (worn_random _ _ _ Hworn) as [-> ->]. apply (inv_settings _ HI).
  - intros t x y Hf Hk. rewrite (flag_of_worn _ _ _ Hworn) in Hf.
    apply (inv_kings _ HI t x y Hf).
    apply (worn_cell_back _ _ _ _ _ Hworn Hk). destruct t; discriminate.
  - intros e He. rewrite (worn_log _ _ _ Hworn) in He.
    rewrite (worn_turn _ _ _ Hworn), (flag_of_worn _ _ _ Hworn).
    now apply (inv_flag_mover _ HI).
  - intros e He. rewrite (worn_log _ _ _ Hworn) in He.
    rewrite (worn_turn _ _ _ Hworn), (flag_of_worn _ _ _ Hworn).
    now apply (inv_flag_other _ HI).
  - intros e lx1 ly1 lx2 ly2 He Hk Hc Hp Hd.
    rewrite (worn_log _ _ _ Hworn) in He. rewrite (worn_turn _ _ _ Hworn) in *.
    destruct (inv_ep _ HI e lx1 ly1 lx2 ly2 He Hk Hc Hp Hd) as [Hv Hv2].
    split; [|now apply (worn_empty _ _ _ _ Hworn)].
    destruct (worn_cell _ _ _ _ _ Hworn Hv) as [E|(_ & _ & t & Ey & _)];
      [exact E|].
    exfalso. unfold line_of, BOARD_SIZE in Ey.
    destruct (whites_turn c), t; simpl in Ey; lia.
Qed.

Lemma GetEnPassant_worn (c c' : Chess) (x y : Z) :
  worn P c c' -> GetEnPassant c' x y = GetEnPassant c x y.
Proof.
  intros Hworn. unfold GetEnPassant.
  now rewrite (worn_log _ _ _ Hworn), (worn_turn _ _ _ Hworn).
Qed.

Lemma plausible_worn (c c' : Chess) (k : Key) :
  worn P c c' -> plausible c k -> plausible c' k.
Proof.
  intros Hworn. destruct k as [[[x1 y1] x2] y2].
  intros (Hne & src & dst & Hs & Hd & Hsrc & Hdst & Hpawn & Hrook & Hking).
  split; [assumption|].
  rewrite (worn_turn _ _ _ Hworn).
  destruct (rd_Some_bounds _ _ _ _ Hs) as [Hy1 Hx1].
  assert (Hd' : exists dst', rd (board c') y2 x2 = Some dst' /\
            own (whites_turn c) dst' = false /\
            (dst <> EMPTY -> dst' <> EMPTY \/ y2 = last_rank c \/
                             y2 = (BOARD_SIZE - 1) * b2z (whites_turn c))).
  { destruct (worn_cell _ _ _ _ _ Hworn Hd) as [E|(E & _ & t & Ey & _)].
    - exists dst. tauto.
    - exists EMPTY. split; [assumption|]. split; [apply own_not_EMPTY|].
      intros _. right. subst y2. unfold last_rank, line_of.
      destruct t, (whites_turn c); simpl; tauto. }
  destruct Hd' as (dst' & Hd' & Hdst' & Hcap).
  assert (Hs' : rd (board c') y1 x1 = Some src \/
                rd (board c') y1 x1 = Some EMPTY).
  { destruct (worn_cell _ _ _ _ _ Hworn Hs) as [E|(E & _)]; tauto. }
  assert (Hshape : forall src', rd (board c') y1 x1 = Some src' ->
            (src' = EMPTY \/ own (whites_turn c) src' = true) /\
            (is_pawn src' = true -> pawn_shape c' x1 y1 x2 y2 dst') /\
            (is_rook src' = true -> rook_shape c' x1 y1 x2 y2) /\
            (is_king src' = true -> flag_of c' (whites_turn c) = true ->
             x2 = 2 \/ x2 = 6 -> castle_shape c' x1 y1 x2 y2)).
  { intros src' Hsrc'.
    assert (Hcase : src' = EMPTY \/ src' = src).
    { destruct Hs' as [E|E]; rewrite E in Hsrc'; injection Hsrc' as <-; tauto. }
    destruct Hcase as [->| ->].
    { split; [tauto|]. repeat split; intros; discriminate. }
    split; [assumption|]. split; [|split].
    - intros Hp. specialize (Hpawn Hp). unfold pawn_shape in *.
      rewrite (worn_turn _ _ _ Hworn), (GetEnPassant_worn _ _ _ _ Hworn).
      destruct Hpawn as [H|[(H1 & H2 & H3 & H4)|(Ha & Hy & H3)]]; [tauto| |].
      { right. left. repeat split; try assumption.
        now apply (worn_empty _ _ _ _ Hworn). }
      right. right. split; [assumption|]. split; [assumption|].
      destruct H3 as [H3|[H3|H3]]; [tauto| |tauto].
      destruct (Hcap H3) as [H4|[H4|H4]]; [tauto|unfold last_rank in H4; tauto|].
      exfalso. unfold BOARD_SIZE in H4.
      destruct (whites_turn c); simpl in H4; lia.
    - intros Hr. specialize (Hrook Hr). unfold rook_shape in *.
      destruct Hrook as [H|[H Hpath]]; [tauto|]. right. split; [assumption|].
      intros x Hx. apply (worn_empty _ _ _ _ Hworn). now apply Hpath.
    - intros Hk Hf Hx2. rewrite (flag_of_worn _ _ _ Hworn) in Hf.
      specialize (Hking Hk Hf Hx2). unfold castle_shape in *.
      rewrite (worn_turn _ _ _ Hworn).
      pose proof (line_of_bounds (whites_turn c)) as Hl.
      destruct Hking as (-> & -> & -> & Hq & Hkk).
      split; [reflexivity|]. split; [reflexivity|]. split; [reflexivity|].
      split.
      + intros E2. destruct (Hq E2) as (R0 & R1 & R2 & R3).
        rewrite (worn_inner _ _ _ 0 Hworn Hl) by lia.
        split; [assumption|].
        repeat split; now apply (worn_empty _ _ _ _ Hworn).
      + intros E6. destruct (Hkk E6) as (R7 & R5 & R6).
        split; [|split; now apply (worn_empty _ _ _ _ Hworn)].
        destruct R7 as [R7|R7].
        * destruct (worn_cell _ _ _ _ _ Hworn R7) as [E|(E & _)]; tauto.
        * right. now apply (worn_empty _ _ _ _ Hworn). }
  destruct Hs' as [E|E].
  - exists src, dst'. destruct (Hshape src E) as (A & B & C & D). tauto.
  - exists EMPTY, dst'. destruct (Hshape EMPTY E) as (A & B & C & D). tauto.
Qed.

End Wear.

(** ** What the generators produce *)

Lemma not_king_castles_safely (c : Chess) (x1 y1 x2 y2 p : Z) :
  rd (board c) y1 x1 = Some p -> is_king p = false ->
  castles_safely c (x1, y1, x2, y2).
Proof.
  intros Hp Hk Hking. rewrite Hp in Hking. injection Hking as ->.
  destruct (whites_turn c); discriminate.
Qed.

Lemma merge_In (m : str) (l1 : list str) :
  forall l2, In m (merge l1 l2) <-> In m l1 \/ In m l2.
Proof.
  induction l1 as [|a t1 IH1]; intros l2.
  - destruct l2; simpl; tauto.
  - induction l2 as [|b t2 IH2].
    + simpl. tauto.
    + simpl. destruct (str_ltb b a).
      * simpl. simpl in IH2. rewrite IH2. simpl. tauto.
      * simpl. rewrite IH1. simpl. tauto.
Qed.

Lemma capture_not_own (t : bool) (v : Z) : capture t v = true -> own t v = false.
Proof.
  unfold capture, own. destruct t; intros H.
  - apply Z.ltb_lt in H. apply Z.ltb_ge. lia.
  - apply Z.gtb_lt in H. apply Z.ltb_ge. lia.
Qed.

Lemma landing_not_own (t : bool) (v : Z) : landing t v = true -> own t v = false.
Proof.
  unfold landing, own. destruct t; intros H.
  - apply Z.leb_le in H. apply Z.ltb_ge. lia.
  - apply Z.geb_le in H. apply Z.ltb_ge. lia.
Qed.

(** A move [slide] adds: [k] steps beyond the first square of the ray,
    over empty squares, onto a square that is empty or the enemy's. *)
Lemma slide_In (b : Board) (t : bool) (x y di dj : Z) (n : nat) :
  forall i j acc res m,
    slide b t x y i j di dj acc n = Some res -> In m res ->
    In m acc \/
    exists k : nat,
      m = ToString x y (i + Z.of_nat k * di) (j + Z.of_nat k * dj) /\
      (exists v, rd b (j + Z.of_nat k * dj) (i + Z.of_nat k * di) = Some v /\
                 own t v = false) /\
      forall k' : nat, (k' < k)%nat ->
        rd b (j + Z.of_nat k' * dj) (i + Z.of_nat k' * di) = Some EMPTY.
Proof.
  induction n as [|n IH]; intros i j acc res m H Hin; simpl in H.
  - injection H as <-. now left.
  - destruct (WithinBounds i && WithinBounds j); [|injection H as <-; now left].
    destruct (rd b j i) as [v|] eqn:Ev; [|discriminate].
    destruct (v =? EMPTY) eqn:Ee.
    + apply Z.eqb_eq in Ee. subst v.
      destruct (IH _ _ _ _ _ H Hin) as [[<-|Ha]|(k & -> & Hv & Hpath)].
      * right. exists O. rewrite !Z.mul_0_l, !Z.add_0_r.
        split; [reflexivity|]. split; [|intros k' Hk; lia].
        exists EMPTY. split; [assumption|apply own_not_EMPTY].
      * now left.
      * right. exists (S k).
        replace (i + Z.of_nat (S k) * di) with (i + di + Z.of_nat k * di) by lia.
        replace (j + Z.of_nat (S k) * dj) with (j + dj + Z.of_nat k * dj) by lia.
        split; [reflexivity|]. split; [assumption|].
        intros [|k'] Hk.
        -- now rewrite !Z.mul_0_l, !Z.add_0_r.
        -- replace (i + Z.of_nat (S k') * di) with (i + di + Z.of_nat k' * di) by lia.
           replace (j + Z.of_nat (S k') * dj) with (j + dj + Z.of_nat k' * dj) by lia.
           apply Hpath. lia.
    + injection H as <-. apply In_emplace_if in Hin.
      destruct Hin as [[Hc <-]|Ha]; [|now left].
      right. exists O. rewrite !Z.mul_0_l, !Z.add_0_r.
      split; [reflexivity|]. split; [|intros k' Hk; lia].
      exists v. split; [assumption|now apply capture_not_own].
Qed.

Lemma slide_line_move (c : Chess) (x y di dj : Z) (acc res : list str) (m : str) :
  slide (board c) (whites_turn c) x y (x + di) (y + dj) di dj acc 8 = Some res ->
  In m res -> (di <> 0 \/ dj <> 0) -> -1 <= di <= 1 ->
  In m acc \/
  exists x2 y2, m = ToString x y x2 y2 /\
                line_move c ((dj =? 0) || (di =? 0)) x y x2 y2.
Proof.
  intros H Hin Hd Hunit.
  destruct (slide_In _ _ _ _ _ _ _ _ _ _ _ _ H Hin) as [Ha|(k & -> & Hv & Hpath)];
    [now left|].
  right. eexists. eexists. split; [reflexivity|].
  split; [|split].
  - destruct Hd as [Hd|Hd]; [left|right]; nia.
  - exact Hv.
  - intros Hr. unfold rook_shape.
    destruct (di =? 0) eqn:Ei.
    + apply Z.eqb_eq in Ei. subst di. left. lia.
    + rewrite orb_false_r in Hr. apply Z.eqb_eq in Hr. subst dj.
      right. split; [lia|].
      intros xx Hxx.
      assert (Hdi : di <> 0) by (now apply Z.eqb_neq).
      specialize (Hpath (Z.to_nat (Z.abs (xx - x) - 1))).
      replace (y + 0 + Z.of_nat (Z.to_nat (Z.abs (xx - x) - 1)) * 0) with y in Hpath
        by lia.
      assert (Hs : di = 1 \/ di = -1) by lia.
      replace (x + di + Z.of_nat (Z.to_nat (Z.abs (xx - x) - 1)) * di) with xx in Hpath
        by (destruct Hs; subst di; lia).
      apply Hpath. destruct Hs; subst di; lia.
Qed.

Lemma line_move_weaken (c : Chess) (r : bool) (x y x2 y2 : Z) :
  line_move c r x y x2 y2 -> line_move c false x y x2 y2.
Proof.
  intros (Hd & Hv & _). split; [assumption|]. split; [assumption|discriminate].
Qed.

Ltac slide_step H Hin r :=
  match type of H with
  | slide (board ?c) _ ?x ?y _ _ ?di ?dj ?acc _ = Some _ =>
      let Ha := fresh "Ha" in
      let x2 := fresh "x2" in
      let y2 := fresh "y2" in
      let Hl := fresh "Hl" in
      destruct (slide_line_move c x y di dj acc _ _ H Hin
                  ltac:(lia) ltac:(lia)) as [Ha|(x2 & y2 & -> & Hl)];
      [clear Hin; rename Ha into Hin
      |exists x2, y2; split; [reflexivity|];
       first [exact Hl | exact (line_move_weaken _ _ _ _ _ _ Hl)]]
  end.

Lemma RookMoves_In (c : Chess) (x y : Z) (l : list str) (m : str) :
  RookMoves c x y = Some l -> In m l ->
  exists x2 y2, m = ToString x y x2 y2 /\ line_move c true x y x2 y2.
Proof.
  unfold RookMoves. intros H Hin.
  destruct (slide _ _ x y (x + 1) y 1 0 [] 8) as [l1|] eqn:H1; [|discriminate].
  destruct (slide _ _ x y (x - 1) y (-1) 0 l1 8) as [l2|] eqn:H2; [|discriminate].
  destruct (slide _ _ x y x (y + 1) 0 1 l2 8) as [l3|] eqn:H3; [|discriminate].
  cbv beta iota in H.
  replace x with (x + 0) in H at 2 by lia.
  replace x with (x + 0) in H3 at 2 by lia.
  replace y with (y + 0) in H1 at 2 by lia.
  replace y with (y + 0) in H2 at 2 by lia.
  change (y - 1) with (y + -1) in H. change (x - 1) with (x + -1) in H2.
  slide_step H Hin true. slide_step H3 Hin true.
  slide_step H2 Hin true. slide_step H1 Hin true.
  destruct Hin.
Qed.

Lemma BishopMoves_In (c : Chess) (x y : Z) (l : list str) (m : str) :
  BishopMoves c x y = Some l -> In m l ->
  exists x2 y2, m = ToString x y x2 y2 /\ line_move c false x y x2 y2.
Proof.
  unfold BishopMoves. intros H Hin.
  destruct (slide _ _ x y (x - 1) (y - 1) (-1) (-1) [] 8) as [l1|] eqn:H1;
    [|discriminate].
  destruct (slide _ _ x y (x - 1) (y + 1) (-1) 1 l1 8) as [l2|] eqn:H2;
    [|discriminate].
  destruct (slide _ _ x y (x + 1) (y - 1) 1 (-1) l2 8) as [l3|] eqn:H3;
    [|discriminate].
  cbv beta iota in H.
  change (y - 1) with (y + -1) in *. change (x - 1) with (x + -1) in *.
  slide_step H Hin false. slide_step H3 Hin false.
  slide_step H2 Hin false. slide_step H1 Hin false.
  destruct Hin.
Qed.

Lemma QueenMoves_In (c : Chess) (x y : Z) (l : list str) (m : str) :
  QueenMoves c x y = Some l -> In m l ->
  exists x2 y2, m = ToString x y x2 y2 /\ line_move c false x y x2 y2.
Proof.
  unfold QueenMoves. intros H Hin.
  destruct (RookMoves c x y) as [r|] eqn:Hr; [|discriminate].
  destruct (BishopMoves c x y) as [d|] eqn:Hd; [|discriminate].
  injection H as <-. apply merge_In in Hin. destruct Hin as [Hin|Hin].
  - destruct (RookMoves_In _ _ _ _ _ Hr Hin) as (x2 & y2 & -> & Hl).
    exists x2, y2. split; [reflexivity|]. exact (line_move_weaken _ _ _ _ _ _ Hl).
  - exact (BishopMoves_In _ _ _ _ _ Hd Hin).
Qed.

Lemma probe_true (b : Board) (test : Z -> bool) (j i : Z) (g : bool) :
  probe false b test j i g = Some true ->
  exists v, rd b j i = Some v /\ test v = true /\ g = true.
Proof.
  unfold probe. destruct (rd b j i) as [v|].
  - intros H. injection H as H. apply andb_prop in H. exists v. tauto.
  - simpl. destruct g; discriminate.
Qed.

Lemma jumps_landing (b : Board) (t : bool) (x y : Z) (ring : list (Z * Z * bool)) :
  forall acc res m,
    jumps b t x y ring acc = Some res -> In m res ->
    In m acc \/
    exists j i g v, In (j, i, g) ring /\ m = ToString x y i j /\
                    rd b j i = Some v /\ landing t v = true.
Proof.
  induction ring as [|[[j i] g] ring IH]; intros acc res m H Hin; simpl in H.
  - injection H as <-. now left.
  - destruct (probe false b (landing t) j i g) as [ok|] eqn:Hp; [|discriminate].
    cbv beta iota in H.
    destruct (IH _ _ _ H Hin) as [Ha|(j' & i' & g' & v & Hr & Hm & Hv & Hl)].
    + apply In_emplace_if in Ha. destruct Ha as [[-> <-]|Ha]; [|now left].
      apply probe_true in Hp. destruct Hp as (v & Hv & Hl & _).
      right. exists j, i, g, v. simpl. tauto.
    + right. exists j', i', g', v. simpl. tauto.
Qed.

Lemma KnightMoves_In (c : Chess) (x y : Z) (l : list str) (m : str) :
  KnightMoves c x y = Some l -> In m l ->
  exists x2 y2, m = ToString x y x2 y2 /\ line_move c false x y x2 y2.
Proof.
  unfold KnightMoves. intros H Hin.
  destruct (jumps_landing _ _ _ _ _ _ _ _ H Hin)
    as [[]|(j & i & g & v & Hr & -> & Hv & Hl)].
  exists i, j. split; [reflexivity|]. split; [|split; [|discriminate]].
  - unfold knight_ring in Hr. simpl in Hr.
    repeat (destruct Hr as [Hr|Hr]; [injection Hr as <- <- _; lia|]).
    destruct Hr.
  - exists v. split; [assumption|now apply landing_not_own].
Qed.

Lemma king_step (c : Chess) (x y : Z) (l : list str) (m : str) :
  Inv c -> rd (board c) y x = Some (king_of (whites_turn c)) ->
  jumps (board c) (whites_turn c) x y (king_ring x y) [] = Some l -> In m l ->
  exists x2 y2, m = ToString x y x2 y2 /\ king_move c x y x2 y2.
Proof.
  intros HI Hk H Hin.
  destruct (jumps_landing _ _ _ _ _ _ _ _ H Hin)
    as [[]|(j & i & g & v & Hr & -> & Hv & Hl)].
  exists i, j. split; [reflexivity|].
  assert (Hnear : -1 <= i - x <= 1 /\ -1 <= j - y <= 1).
  { unfold king_ring in Hr. simpl in Hr.
    repeat (destruct Hr as [Hr|Hr]; [injection Hr as <- <- _; lia|]).
    destruct Hr. }
  split; [|split; [|split]].
  - destruct (Z.eq_dec x i) as [->|]; [|now left].
    destruct (Z.eq_dec y j) as [->|]; [|now right].
    rewrite Hk in Hv. injection Hv as <-.
    apply landing_not_own in Hl. destruct (whites_turn c); discriminate.
  - exists v. split; [assumption|now apply landing_not_own].
  - intros Hf Hx2.
    destruct (inv_kings _ HI _ _ _ Hf Hk) as [-> ->]. lia.
  - intros Hf Hx2.
    destruct (inv_kings _ HI _ _ _ Hf Hk) as [-> ->]. lia.
Qed.

Lemma castle_move (c : Chess) (x y x2 : Z) :
  let t := whites_turn c in
  let l := line_of t in
  Inv c -> rd (board c) y x = Some (king_of t) -> flag_of c t = true ->
  (x2 = 2 \/ x2 = 6) -> castle_shape c 4 l x2 l ->
  rd (board c) l x2 = Some EMPTY ->
  IsCheck (board c) t = Some false ->
  ToString 4 l x2 l = ToString x y x2 l /\ king_move c x y x2 l.
Proof.
  intros t l HI Hk Hf Hx2 Hshape Hdst Hsafe.
  destruct (inv_kings _ HI _ _ _ Hf Hk) as [-> ->].
  split; [reflexivity|]. split; [left; lia|]. split; [|split].
  - exists EMPTY. split; [assumption|apply own_not_EMPTY].
  - intros _ _. exact Hshape.
  - intros _ _. exact Hsafe.
Qed.

Lemma KingMoves_In (c : Chess) (x y : Z) (l : list str) (m : str) :
  Inv c -> rd (board c) y x = Some (king_of (whites_turn c)) ->
  KingMoves c x y = Some l -> In m l ->
  exists x2 y2, m = ToString x y x2 y2 /\ king_move c x y x2 y2.
Proof.
  intros HI Hk H Hin. unfold KingMoves in H.
  destruct (jumps (board c) (whites_turn c) x y (king_ring x y) []) as [l0|] eqn:Hj;
    [|discriminate].
  cbv beta iota zeta in H.
  pose proof (king_step c x y l0 m HI Hk Hj) as Hstep.
  rewrite <- flag_of_current in H.
  destruct (flag_of c (whites_turn c)) eqn:Hf;
    [|injection H as <-; auto].
  destruct (IsCheck (board c) (whites_turn c)) as [chk|] eqn:Hsafe; [|discriminate].
  cbv beta iota in H.
  destruct chk; simpl negb in H; cbv iota in H; [injection H as <-; auto|].
  fold (line_of (whites_turn c)) in H. fold (rook_of (whites_turn c)) in H.
  set (ln := line_of (whites_turn c)) in *.
  repeat (match type of H with
          | context [rd (board c) ln ?k] =>
              let E := fresh "E" in
              destruct (rd (board c) ln k) eqn:E
          | context [?a =? ?b] =>
              let E := fresh "Q" in
              destruct (a =? b) eqn:E; [apply Z.eqb_eq in E; subst a|]
          end; cbv beta iota in H; try discriminate H).
  all: unfold emplace_if in H; injection H as <-; auto.
  all: destruct Hin as [<-|Hin]; auto.
  all: eexists; eexists; apply (castle_move c x y); auto.
  all: try (split; [reflexivity|]; split; [reflexivity|]; split; [reflexivity|]).
  all: subst ln; try assumption.
  all: split; intro; try lia; repeat split; auto.
Qed.

Lemma capture_not_EMPTY (t : bool) (v : Z) : capture t v = true -> v <> EMPTY.
Proof. intros H ->. rewrite capture_EMPTY in H. discriminate. Qed.

Lemma PawnMoves_In (c : Chess) (x y : Z) (l : list str) (m : str) :
  Inv c -> PawnMoves c x y = Some l -> In m l ->
  exists x2 y2 dst,
    m = ToString x y x2 y2 /\ y <> y2 /\
    rd (board c) y2 x2 = Some dst /\ own (whites_turn c) dst = false /\
    pawn_shape c x y x2 y2 dst.
Proof.
  intros HI H Hin. unfold PawnMoves in H. cbv zeta in H.
  set (inc := if whites_turn c then -1 else 1) in *.
  assert (Hinc : inc = -1 \/ inc = 1) by (subst inc; destruct (whites_turn c); auto).
  destruct (rd (board c) (y + inc) x) as [ahead|] eqn:Ea; [|discriminate].
  cbv beta iota in H.
  match type of H with
  | match ?e with Some _ => _ | None => None end = Some _ =>
      destruct e as [l0|] eqn:El; [|discriminate H]
  end.
  destruct (GetEnPassant c x y) as [ep|] eqn:Eep; [|discriminate].
  cbv beta iota in H.
  destruct (probe false (board c) (capture (whites_turn c)) (y + inc) (x + 1) _)
    as [rt|] eqn:Er; [|discriminate].
  destruct (probe false (board c) (capture (whites_turn c)) (y + inc) (x - 1) _)
    as [lt|] eqn:Et; [|discriminate].
  injection H as <-.
  apply In_emplace_if in Hin. destruct Hin as [[-> <-]|Hin].
  { apply probe_true in Et. destruct Et as (v & Hv & Hc & _).
    exists (x - 1), (y + inc), v. split; [reflexivity|]. split; [lia|].
    split; [assumption|]. split; [now apply capture_not_own|].
    right. right. split; [lia|]. split; [reflexivity|].
    right. left. now apply (capture_not_EMPTY (whites_turn c)). }
  apply In_emplace_if in Hin. destruct Hin as [[-> <-]|Hin].
  { apply probe_true in Er. destruct Er as (v & Hv & Hc & _).
    exists (x + 1), (y + inc), v. split; [reflexivity|]. split; [lia|].
    split; [assumption|]. split; [now apply capture_not_own|].
    right. right. split; [lia|]. split; [reflexivity|].
    right. left. now apply (capture_not_EMPTY (whites_turn c)). }
  apply In_emplace_if in Hin. destruct Hin as [[Hep <-]|Hin].
  { apply negb_true_iff, Z.eqb_neq in Hep.
    destruct (en_passant_target c x y ep HI Eep Hep) as [Hdst Habs].
    exists ep, (y + inc), EMPTY. split; [reflexivity|]. split; [lia|].
    split; [exact Hdst|]. split; [apply own_not_EMPTY|].
    right. right. split; [assumption|]. split; [reflexivity|].
    right. right. assumption. }
  destruct (ahead =? EMPTY) eqn:Qa; [|injection El as <-; destruct Hin].
  apply Z.eqb_eq in Qa. subst ahead.
  assert (Hpush : exists x2 y2 dst,
             ToString x y x (y + inc) = ToString x y x2 y2 /\ y <> y2 /\
             rd (board c) y2 x2 = Some dst /\ own (whites_turn c) dst = false /\
             pawn_shape c x y x2 y2 dst).
  { exists x, (y + inc), EMPTY. split; [reflexivity|]. split; [lia|].
    split; [assumption|]. split; [apply own_not_EMPTY|]. left. now split. }
  destruct (y =? 1 + 5 * b2z (whites_turn c)) eqn:Qy.
  - destruct (rd (board c) (y + 2 * inc) x) as [ahead2|] eqn:E2; [|discriminate].
    injection El as <-.
    apply In_emplace_if in Hin. destruct Hin as [[Q2 <-]|Hin].
    + apply Z.eqb_eq in Q2, Qy. subst ahead2.
      exists x, (y + 2 * inc), EMPTY. split; [reflexivity|]. split; [lia|].
      split; [assumption|]. split; [apply own_not_EMPTY|].
      right. left. repeat split; assumption.
    + destruct Hin as [<-|[]]. exact Hpush.
  - injection El as <-. destruct Hin as [<-|[]]. exact Hpush.
Qed.

Lemma mover's_piece (t : bool) (p : Z) :
  Bool.eqb (p <? 0) t = false -> p = EMPTY \/ own t p = true.
Proof.
  unfold own, EMPTY. destruct t; simpl; destruct (p <? 0) eqn:E; try discriminate;
    intros _; auto.
  apply Z.ltb_ge in E. destruct (Z.eq_dec p 0); [now left|right].
  apply Z.ltb_lt. lia.
Qed.

Lemma line_move_plausible (c : Chess) (x y x2 y2 p : Z) :
  rd (board c) y x = Some p -> (p = EMPTY \/ own (whites_turn c) p = true) ->
  is_pawn p = false -> is_king p = false ->
  line_move c (is_rook p) x y x2 y2 -> plausible c (x, y, x2, y2).
Proof.
  intros Hp Hown Hpawn Hking (Hd & (dst & Hdst & Ho) & Hr).
  split; [assumption|]. exists p, dst.
  split; [assumption|]. split; [assumption|]. split; [assumption|].
  split; [assumption|]. split; [|split]; try assumption; congruence.
Qed.

Lemma piece_moves_plausible (c : Chess) (x y : Z) (l : list str) (m : str) :
  Inv c -> piece_moves c x y = Some l -> In m l ->
  exists x2 y2, m = ToString x y x2 y2 /\ plausible c (x, y, x2, y2) /\
                castles_safely c (x, y, x2, y2).
Proof.
  intros HI H Hin. unfold piece_moves in H.
  destruct (rd (board c) y x) as [p|] eqn:Hp; [|discriminate].
  cbv beta iota in H.
  destruct (Bool.eqb (p <? 0) (whites_turn c)) eqn:Ht;
    [injection H as <-; destruct Hin|].
  apply mover's_piece in Ht.
  destruct (is_pawn p) eqn:Qp.
  { destruct (PawnMoves_In _ _ _ _ _ HI H Hin)
      as (x2 & y2 & dst & -> & Hy & Hd & Ho & Hs).
    exists x2, y2. split; [reflexivity|].
    split; [|apply (not_king_castles_safely c x y x2 y2 p Hp);
             now destruct (pawn_not_king_rook _ Qp)].
    split; [now right|].
    exists p, dst.
    split; [assumption|]. split; [assumption|]. split; [assumption|].
    split; [assumption|]. split; [|split].
    - intros _. exact Hs.
    - intros Hr. apply orb_true_iff in Qp.
      destruct Qp as [Q|Q]; apply Z.eqb_eq in Q; subst p; discriminate.
    - intros Hr. apply orb_true_iff in Qp.
      destruct Qp as [Q|Q]; apply Z.eqb_eq in Q; subst p; discriminate. }
  destruct (is_rook p) eqn:Qr.
  { destruct (RookMoves_In _ _ _ _ _ H Hin) as (x2 & y2 & -> & Hl).
    exists x2, y2. split; [reflexivity|].
    assert (Qk : is_king p = false).
    { apply orb_true_iff in Qr.
      destruct Qr as [Q|Q]; apply Z.eqb_eq in Q; subst p; reflexivity. }
    split; [|now apply (not_king_castles_safely c x y x2 y2 p Hp)].
    apply (line_move_plausible c x y x2 y2 p); try assumption.
    now rewrite Qr. }
  destruct ((p =? W_KNIGHT) || (p =? B_KNIGHT)) eqn:Qn.
  { destruct (KnightMoves_In _ _ _ _ _ H Hin) as (x2 & y2 & -> & Hl).
    exists x2, y2. split; [reflexivity|].
    assert (Qk : is_king p = false).
    { apply orb_true_iff in Qn.
      destruct Qn as [Q|Q]; apply Z.eqb_eq in Q; subst p; reflexivity. }
    split; [|now apply (not_king_castles_safely c x y x2 y2 p Hp)].
    apply (line_move_plausible c x y x2 y2 p); try assumption.
    now rewrite Qr. }
  destruct ((p =? W_BISHOP) || (p =? B_BISHOP)) eqn:Qb.
  { destruct (BishopMoves_In _ _ _ _ _ H Hin) as (x2 & y2 & -> & Hl).
    exists x2, y2. split; [reflexivity|].
    assert (Qk : is_king p = false).
    { apply orb_true_iff in Qb.
      destruct Qb as [Q|Q]; apply Z.eqb_eq in Q; subst p; reflexivity. }
    split; [|now apply (not_king_castles_safely c x y x2 y2 p Hp)].
    apply (line_move_plausible c x y x2 y2 p); try assumption.
    now rewrite Qr. }
  destruct (is_queen p) eqn:Qq.
  { destruct (QueenMoves_In _ _ _ _ _ H Hin) as (x2 & y2 & -> & Hl).
    exists x2, y2. split; [reflexivity|].
    assert (Qk : is_king p = false).
    { apply orb_true_iff in Qq.
      destruct Qq as [Q|Q]; apply Z.eqb_eq in Q; subst p; reflexivity. }
    split; [|now apply (not_king_castles_safely c x y x2 y2 p Hp)].
    apply (line_move_plausible c x y x2 y2 p); try assumption.
    now rewrite Qr. }
  destruct (is_king p) eqn:Qk; [|injection H as <-; destruct Hin].
  assert (Hown : own (whites_turn c) p = true).
  { destruct Ht as [->|]; [discriminate|assumption]. }
  pose proof (own_king _ _ Qk Hown) as Hk. rewrite Hk in Hp.
  destruct (KingMoves_In _ _ _ _ _ HI Hp H Hin)
    as (x2 & y2 & -> & Hd & (dst & Hdst & Ho) & Hc & Hsafe).
  exists x2, y2. split; [reflexivity|]. split.
  - split; [assumption|].
    exists p, dst. rewrite <- Hk in Hp.
    split; [assumption|]. split; [assumption|]. split; [now right|].
    split; [assumption|]. split; [|split]; try assumption; try congruence.
    intros _. exact Hc.
  - intros _. exact Hsafe.
Qed.

Lemma gather_In (c : Chess) (sq : list (Z * Z)) :
  forall acc l m,
    gather c sq acc = Some l -> In m l ->
    In m acc \/
    exists x y lp, In (x, y) sq /\ piece_moves c x y = Some lp /\ In m lp.
Proof.
  induction sq as [|[x y] sq IH]; intros acc l m H Hin; simpl in H.
  - injection H as <-. now left.
  - destruct (piece_moves c x y) as [lp|] eqn:Hp; [|discriminate].
    cbv beta iota in H.
    destruct (IH _ _ _ H Hin) as [Ha|(x' & y' & lp' & Hs & Hp' & Hm)].
    + apply merge_In in Ha. destruct Ha as [Ha|Ha]; [now left|].
      right. exists x, y, lp. simpl. auto.
    + right. exists x', y', lp'. simpl. auto.
Qed.

Lemma pseudo_legal_plausible (c : Chess) (l : list str) (m : str) :
  Inv c -> pseudo_legal c = Some l -> In m l ->
  exists x1 y1 x2 y2, m = ToString x1 y1 x2 y2 /\ plausible c (x1, y1, x2, y2) /\
                      castles_safely c (x1, y1, x2, y2).
Proof.
  intros HI H Hin. unfold pseudo_legal in H.
  destruct (gather_In _ _ _ _ _ H Hin) as [[]|(x & y & lp & _ & Hp & Hm)].
  destruct (piece_moves_plausible _ _ _ _ _ HI Hp Hm) as (x2 & y2 & -> & Hpl).
  exists x, y, x2, y2. now split.
Qed.

(** ** [IsCheck] on two boards that differ in one square *)

Section OneSquare.

Variables (b b' : Board) (Tx Ty : Z).

Hypothesis agree : forall y x, y <> Ty \/ x <> Tx -> rd b' y x = rd b y x.

Lemma ray_entering (a1 a2 di dj : Z) (N : nat) :
  (forall n, (n <= N)%nat ->
     ray b a1 a2 Tx Ty di dj n = ray b' a1 a2 Tx Ty di dj n) ->
  forall n i j, (n <= N)%nat ->
    ray b a1 a2 i j di dj n = ray b' a1 a2 i j di dj n.
Proof.
  intros HT. induction n as [|n IH]; intros i j Hn; [reflexivity|].
  destruct (Z.eq_dec j Ty) as [->|Hj].
  - destruct (Z.eq_dec i Tx) as [->|Hi]; [now apply HT|].
    cbn [ray]. rewrite (agree Ty i) by now right.
    destruct (WithinBounds i && WithinBounds Ty); [|reflexivity].
    destruct (rd b Ty i) as [v|]; [|reflexivity].
    rewrite IH by lia. reflexivity.
  - cbn [ray]. rewrite (agree j i) by now left.
    destruct (WithinBounds i && WithinBounds j); [|reflexivity].
    destruct (rd b j i) as [v|]; [|reflexivity].
    rewrite IH by lia. reflexivity.
Qed.

(** A ray that never comes to the square. *)
Lemma ray_off (a1 a2 di dj : Z) :
  forall n i j,
    (forall k : nat, i + Z.of_nat k * di <> Tx \/ j + Z.of_nat k * dj <> Ty) ->
    ray b a1 a2 i j di dj n = ray b' a1 a2 i j di dj n.
Proof.
  induction n as [|n IH]; intros i j Hoff; [reflexivity|].
  cbn [ray].
  rewrite (agree j i).
  2:{ specialize (Hoff O). rewrite !Z.mul_0_l, !Z.add_0_r in Hoff. tauto. }
  destruct (WithinBounds i && WithinBounds j); [|reflexivity].
  destruct (rd b j i) as [v|]; [|reflexivity].
  rewrite IH; [reflexivity|].
  intros k. specialize (Hoff (S k)).
  replace (i + di + Z.of_nat k * di) with (i + Z.of_nat (S k) * di) by lia.
  replace (j + dj + Z.of_nat k * dj) with (j + Z.of_nat (S k) * dj) by lia.
  exact Hoff.
Qed.

Lemma column_scan_agree (k : Z) (v v' : Z) :
  rd b Ty Tx = Some v -> rd b' Ty Tx = Some v' -> v <> k -> v' <> k ->
  forall n i j, column_scan b k i j n = column_scan b' k i j n.
Proof.
  intros Hv Hv' Hk Hk'. induction n as [|n IH]; intros i j; [reflexivity|].
  cbn [column_scan].
  destruct (Z.eq_dec j Ty) as [->|Hj].
  - destruct (Z.eq_dec i Tx) as [->|Hi].
    + rewrite Hv, Hv'.
      destruct (Z.eqb_spec v k); [contradiction|].
      destruct (Z.eqb_spec v' k); [contradiction|]. apply IH.
    + rewrite (agree Ty i) by now right. now rewrite IH.
  - rewrite (agree j i) by now left. now rewrite IH.
Qed.

Lemma king_scan_agree (k : Z) (v v' : Z) :
  rd b Ty Tx = Some v -> rd b' Ty Tx = Some v' -> v <> k -> v' <> k ->
  forall n i, king_scan b k i n = king_scan b' k i n.
Proof.
  intros Hv Hv' Hk Hk'. induction n as [|n IH]; intros i; [reflexivity|].
  cbn [king_scan]. rewrite (column_scan_agree k v v' Hv Hv' Hk Hk').
  destruct (column_scan b' k i 0 8) as [[j|]|]; try reflexivity. apply IH.
Qed.

Lemma probes_agree (target : Z) (v v' : Z) :
  rd b Ty Tx = Some v -> rd b' Ty Tx = Some v' -> v <> target -> v' <> target ->
  forall l, probes false b target l = probes false b' target l.
Proof.
  intros Hv Hv' Hk Hk'. induction l as [|[[j i] g] l IH]; [reflexivity|].
  cbn [probes]. rewrite IH.
  assert (E : probe false b (Z.eqb target) j i g
              = probe false b' (Z.eqb target) j i g).
  { unfold probe. destruct (Z.eq_dec j Ty) as [->|Hj].
    - destruct (Z.eq_dec i Tx) as [->|Hi].
      + rewrite Hv, Hv'.
        destruct (Z.eqb_spec target v); [congruence|].
        destruct (Z.eqb_spec target v'); [congruence|]. reflexivity.
      + now rewrite (agree Ty i) by now right.
    - now rewrite (agree j i) by now left. }
  now rewrite E.
Qed.

End OneSquare.

Lemma column_scan_found (b : Board) (k i : Z) :
  forall n j y, column_scan b k i j n = Some (Some y) -> rd b y i = Some k.
Proof.
  induction n as [|n IH]; intros j y H; [discriminate|].
  cbn [column_scan] in H.
  destruct (rd b j i) as [v|] eqn:E; [|discriminate].
  destruct (Z.eqb_spec v k) as [->|].
  - injection H as <-. exact E.
  - now apply (IH (j + 1)).
Qed.

Lemma king_scan_found (b : Board) (k : Z) :
  forall n i x y, king_scan b k i n = Some (x, y) -> rd b y x = Some k.
Proof.
  induction n as [|n IH]; intros i x y H; [discriminate|].
  cbn [king_scan] in H.
  destruct (column_scan b k i 0 8) as [[j|]|] eqn:E; [| |discriminate].
  - injection H as <- <-. now apply (column_scan_found b k i 8%nat 0).
  - now apply (IH (i + 1)).
Qed.

Lemma quiet_not_hostile (t : bool) (v a : Z) : quiet t v -> hostile t a -> v <> a.
Proof.
  unfold quiet, hostile, own, EMPTY. intros [->|[Ho _]] Ha E; subst.
  - destruct t; simpl in Ha; apply Z.ltb_lt in Ha; lia.
  - destruct t; simpl in Ha; apply Z.ltb_lt in Ha, Ho; lia.
Qed.

Lemma quiet_not_king (t : bool) (v : Z) : quiet t v -> v <> king_of t.
Proof. intros [->|[_ H]]; [destruct t; discriminate|exact H]. Qed.

Lemma slider_hostile (t : bool) (di dj : Z) : hostile t (slider t di dj).
Proof. unfold slider. destruct ((di =? 0) || (dj =? 0)); now destruct t. Qed.

Lemma queen_hostile (t : bool) : hostile t (W_QUEEN - 7 * b2z t).
Proof. now destruct t. Qed.

Lemma IsCheck_one_square (b b' : Board) (t : bool) (Tx Ty v v' : Z) :
  (forall y x, y <> Ty \/ x <> Tx -> rd b' y x = rd b y x) ->
  rd b Ty Tx = Some v -> rd b' Ty Tx = Some v' -> quiet t v -> quiet t v' ->
  (forall x y di dj,
     rd b y x = Some (king_of t) ->
     -1 <= di <= 1 -> -1 <= dj <= 1 -> di <> 0 \/ dj <> 0 ->
     ray b (slider t di dj) (W_QUEEN - 7 * b2z t) (x + di) (y + dj) di dj 8
     = ray b' (slider t di dj) (W_QUEEN - 7 * b2z t) (x + di) (y + dj) di dj 8) ->
  IsCheck b t = IsCheck b' t.
Proof.
  intros Hag Hv Hv' Hq Hq' Hray. unfold IsCheck, IsCheck_gen.
  fold (king_of t).
  rewrite <- (king_scan_agree b b' Tx Ty Hag (king_of t) v v' Hv Hv'
                (quiet_not_king t v Hq) (quiet_not_king t v' Hq')).
  destruct (king_scan b (king_of t) 0 8) as [[x y]|] eqn:Ek; [|reflexivity].
  apply king_scan_found in Ek.
  assert (Hk : hostile t (W_KING - 7 * b2z t)) by (now destruct t).
  assert (Hn : hostile t (W_KNIGHT - 7 * b2z t)) by (now destruct t).
  assert (Hp : hostile t (W_PAWN - 7 * b2z t)) by (now destruct t).
  pose proof (Hray x y 1 0 Ek ltac:(lia) ltac:(lia) ltac:(lia)) as R1.
  pose proof (Hray x y (-1) 0 Ek ltac:(lia) ltac:(lia) ltac:(lia)) as R2.
  pose proof (Hray x y 0 1 Ek ltac:(lia) ltac:(lia) ltac:(lia)) as R3.
  pose proof (Hray x y 0 (-1) Ek ltac:(lia) ltac:(lia) ltac:(lia)) as R4.
  pose proof (Hray x y (-1) (-1) Ek ltac:(lia) ltac:(lia) ltac:(lia)) as R5.
  pose proof (Hray x y (-1) 1 Ek ltac:(lia) ltac:(lia) ltac:(lia)) as R6.
  pose proof (Hray x y 1 (-1) Ek ltac:(lia) ltac:(lia) ltac:(lia)) as R7.
  pose proof (Hray x y 1 1 Ek ltac:(lia) ltac:(lia) ltac:(lia)) as R8.
  rewrite ?Z.add_0_r in R1, R2, R3, R4.
  change (x + -1) with (x - 1) in *. change (y + -1) with (y - 1) in *.
  change (slider t 1 0) with (W_ROOK - 7 * b2z t) in R1.
  change (slider t (-1) 0) with (W_ROOK - 7 * b2z t) in R2.
  change (slider t 0 1) with (W_ROOK - 7 * b2z t) in R3.
  change (slider t 0 (-1)) with (W_ROOK - 7 * b2z t) in R4.
  change (slider t (-1) (-1)) with (W_BISHOP - 7 * b2z t) in R5.
  change (slider t (-1) 1) with (W_BISHOP - 7 * b2z t) in R6.
  change (slider t 1 (-1)) with (W_BISHOP - 7 * b2z t) in R7.
  change (slider t 1 1) with (W_BISHOP - 7 * b2z t) in R8.
  rewrite R1, R2, R3, R4, R5, R6, R7, R8.
  rewrite (probes_agree b b' Tx Ty Hag _ v v' Hv Hv'
             (quiet_not_hostile t v _ Hq Hk) (quiet_not_hostile t v' _ Hq' Hk)).
  rewrite (probes_agree b b' Tx Ty Hag _ v v' Hv Hv'
             (quiet_not_hostile t v _ Hq Hn) (quiet_not_hostile t v' _ Hq' Hn)).
  rewrite (probes_agree b b' Tx Ty Hag _ v v' Hv Hv'
             (quiet_not_hostile t v _ Hq Hp) (quiet_not_hostile t v' _ Hq' Hp)).
  reflexivity.
Qed.

Lemma rd_Some_within (b : Board) (y x v : Z) :
  rd b y x = Some v -> WithinBounds x && WithinBounds y = true.
Proof.
  intros H. destruct (rd_Some_bounds _ _ _ _ H) as [Hy Hx].
  now rewrite (proj2 (WithinBounds_spec x) Hx), (proj2 (WithinBounds_spec y) Hy).
Qed.

Lemma hostile_not_EMPTY (t : bool) (a : Z) : hostile t a -> a <> EMPTY.
Proof.
  unfold hostile. intros H ->. rewrite own_not_EMPTY in H. discriminate.
Qed.

(** A ray that comes to a piece which is not one of its attackers stops
    there. *)
Lemma ray_blocked (b : Board) (a1 a2 i j di dj v : Z) (n : nat) :
  rd b j i = Some v -> v <> a1 -> v <> a2 -> v <> EMPTY ->
  ray b a1 a2 i j di dj n = Some false.
Proof.
  intros Hv H1 H2 He. destruct n as [|n]; [reflexivity|].
  cbn [ray]. rewrite (rd_Some_within _ _ _ _ Hv), Hv.
  destruct (Z.eqb_spec v a1); [contradiction|].
  destruct (Z.eqb_spec v a2); [contradiction|].
  destruct (Z.eqb_spec v EMPTY); [contradiction|]. reflexivity.
Qed.

(** A ray passes an empty square. *)
Lemma ray_through (b : Board) (a1 a2 i j di dj : Z) (n : nat) :
  rd b j i = Some EMPTY -> a1 <> EMPTY -> a2 <> EMPTY ->
  ray b a1 a2 i j di dj (S n) = ray b a1 a2 (i + di) (j + dj) di dj n.
Proof.
  intros Hv H1 H2. cbn [ray]. rewrite (rd_Some_within _ _ _ _ Hv), Hv.
  destruct (Z.eqb_spec EMPTY a1); [congruence|].
  destruct (Z.eqb_spec EMPTY a2); [congruence|]. reflexivity.
Qed.

Lemma ray_outside (b : Board) (a1 a2 i j di dj : Z) (n : nat) :
  WithinBounds i && WithinBounds j = false ->
  ray b a1 a2 i j di dj n = Some false.
Proof. intros H. destruct n as [|n]; [reflexivity|]. cbn [ray]. now rewrite H. Qed.

(** Two pieces of side [t], neither its king, on the square: the answer
    is the same. *)
Lemma IsCheck_same_kind (b b' : Board) (t : bool) (Tx Ty v v' : Z) :
  (forall y x, y <> Ty \/ x <> Tx -> rd b' y x = rd b y x) ->
  rd b Ty Tx = Some v -> rd b' Ty Tx = Some v' ->
  quiet t v -> quiet t v' -> v <> EMPTY -> v' <> EMPTY ->
  IsCheck b t = IsCheck b' t.
Proof.
  intros Hag Hv Hv' Hq Hq' He He'.
  apply (IsCheck_one_square b b' t Tx Ty v v'); try assumption.
  intros x y di dj _ _ _ _.
  apply (ray_entering b b' Tx Ty Hag _ _ _ _ 8); [|lia]. intros n _.
  pose proof (slider_hostile t di dj) as H1.
  pose proof (queen_hostile t) as H2.
  rewrite (ray_blocked b _ _ Tx Ty di dj v n Hv) by
    (try assumption; now apply (quiet_not_hostile t)).
  rewrite (ray_blocked b' _ _ Tx Ty di dj v' n Hv') by
    (try assumption; now apply (quiet_not_hostile t)).
  reflexivity.
Qed.

(** A piece of side [t] there on one board, nothing on the other: the
    answer is the same when no ray from the king passes the square and
    finds something behind it. *)
Lemma IsCheck_vacated (b b' : Board) (t : bool) (Tx Ty v : Z) :
  (forall y x, y <> Ty \/ x <> Tx -> rd b' y x = rd b y x) ->
  rd b Ty Tx = Some v -> rd b' Ty Tx = Some EMPTY ->
  quiet t v -> v <> EMPTY ->
  (forall x y di dj,
     rd b y x = Some (king_of t) ->
     -1 <= di <= 1 -> -1 <= dj <= 1 -> di <> 0 \/ dj <> 0 ->
     (forall n, (n <= 7)%nat ->
        ray b' (slider t di dj) (W_QUEEN - 7 * b2z t)
            (Tx + di) (Ty + dj) di dj n = Some false) \/
     (forall k : nat, x + di + Z.of_nat k * di <> Tx \/
                      y + dj + Z.of_nat k * dj <> Ty)) ->
  IsCheck b t = IsCheck b' t.
Proof.
  intros Hag Hv Hv' Hq He Hdir.
  apply (IsCheck_one_square b b' t Tx Ty v EMPTY); try assumption; [now left|].
  intros x y di dj Hk Hdi Hdj Hd.
  pose proof (slider_hostile t di dj) as H1.
  pose proof (queen_hostile t) as H2.
  destruct (Hdir x y di dj Hk Hdi Hdj Hd) as [Hdead|Hoff].
  - apply (ray_entering b b' Tx Ty Hag _ _ _ _ 8); [|lia]. intros n Hn.
    rewrite (ray_blocked b _ _ Tx Ty di dj v n Hv) by
      (try assumption; now apply (quiet_not_hostile t)).
    destruct n as [|n]; [reflexivity|].
    rewrite (ray_through b' _ _ Tx Ty di dj n Hv')
      by (now apply (hostile_not_EMPTY t)).
    symmetry. apply Hdead. lia.
  - now apply (ray_off b b' Tx Ty Hag).
Qed.

(** The lost rook of the corner: a corner square is the last one of
    every ray that comes to it. *)
Lemma IsCheck_corner (b b' : Board) (t : bool) (L v : Z) :
  L = 0 \/ L = 7 ->
  (forall y x, y <> L \/ x <> 7 -> rd b' y x = rd b y x) ->
  rd b L 7 = Some v -> rd b' L 7 = Some EMPTY ->
  quiet t v -> v <> EMPTY ->
  IsCheck b t = IsCheck b' t.
Proof.
  intros HL Hag Hv Hv' Hq He.
  apply (IsCheck_vacated b b' t 7 L v); try assumption.
  intros x y di dj Hk Hdi Hdj Hd.
  destruct (rd_Some_bounds _ _ _ _ Hk) as [Hy Hx].
  destruct (Z.eq_dec di 1) as [->|Hn1].
  { left. intros m _. apply ray_outside. reflexivity. }
  destruct (Z.eq_dec di (-1)) as [->|Hn2].
  { right. intros k. left. lia. }
  assert (di = 0) by lia. subst di.
  destruct (Z.eq_dec x 7) as [->|Hx7]; [|right; intros k; left; lia].
  destruct HL as [-> | ->].
  - destruct (Z.eq_dec dj 1) as [->|]; [right; intros k; right; lia|].
    assert (dj = -1) by lia. subst dj.
    left. intros m _. apply ray_outside. reflexivity.
  - destruct (Z.eq_dec dj 1) as [->|].
    + left. intros m _. apply ray_outside. reflexivity.
    + assert (dj = -1) by lia. subst dj. right. intros k. right. lia.
Qed.

(** Two boards with the same squares along a ray. *)
Lemma ray_agree (b b' : Board) (a1 a2 di dj : Z) :
  forall n i j,
    (forall k : nat, rd b' (j + Z.of_nat k * dj) (i + Z.of_nat k * di)
                     = rd b (j + Z.of_nat k * dj) (i + Z.of_nat k * di)) ->
    ray b a1 a2 i j di dj n = ray b' a1 a2 i j di dj n.
Proof.
  induction n as [|n IH]; intros i j Hag; [reflexivity|].
  cbn [ray]. pose proof (Hag O) as H0. rewrite !Z.mul_0_l, !Z.add_0_r in H0.
  rewrite H0.
  destruct (WithinBounds i && WithinBounds j); [|reflexivity].
  destruct (rd b j i) as [v|]; [|reflexivity].
  rewrite IH; [reflexivity|].
  intros k. specialize (Hag (S k)).
  replace (i + di + Z.of_nat k * di) with (i + Z.of_nat (S k) * di) by lia.
  replace (j + dj + Z.of_nat k * dj) with (j + Z.of_nat (S k) * dj) by lia.
  exact Hag.
Qed.

(** A ray that finds nothing finds nothing when it is cut short. *)
Lemma ray_false_less (b : Board) (a1 a2 di dj : Z) :
  forall n m i j, (m <= n)%nat ->
    ray b a1 a2 i j di dj n = Some false -> ray b a1 a2 i j di dj m = Some false.
Proof.
  induction n as [|n IH]; intros m i j Hm H.
  - assert (m = O) by lia. now subst m.
  - destruct m as [|m]; [reflexivity|].
    cbn [ray] in *.
    destruct (WithinBounds i && WithinBounds j); [|reflexivity].
    destruct (rd b j i) as [v|]; [|discriminate].
    destruct (v =? a1); [discriminate|].
    destruct (v =? a2); [discriminate|].
    destruct (negb (v =? EMPTY)); [reflexivity|].
    apply (IH m); [lia|exact H].
Qed.

(** No check: nothing along the rank to the left of the king. *)
Lemma IsCheck_false_west (b : Board) (t : bool) :
  IsCheck b t = Some false ->
  exists x y, rd b y x = Some (king_of t) /\
    ray b (W_ROOK - 7 * b2z t) (W_QUEEN - 7 * b2z t) (x - 1) y (-1) 0 8
    = Some false.
Proof.
  unfold IsCheck, IsCheck_gen. fold (king_of t). intros H.
  destruct (king_scan b (king_of t) 0 8) as [[x y]|] eqn:Ek; [|discriminate].
  exists x, y. split; [now apply king_scan_found in Ek|].
  destruct (ray b _ _ (x + 1) y 1 0 8) as [[|]|]; try discriminate.
  destruct (ray b _ _ (x - 1) y (-1) 0 8) as [[|]|]; try discriminate.
  reflexivity.
Qed.

(** ** The display switch of [MovePiece] *)

Lemma same_game_refl (c : Chess) : same_game c c.
Proof. repeat split. Qed.

Ltac same_game_records p0 p1 H :=
  destruct p0 as [b0 [wc0 ws0 wd0] [bc0 bs0 bd0] l0 t0 n0 rw0 rb0];
  destruct p1 as [b1 [wc1 ws1 wd1] [bc1 bs1 bd1] l1 t1 n1 rw1 rb1];
  unfold same_game in H; cbn in H;
  destruct H as (? & ? & ? & ? & ? & ? & ?); subst.

Lemma MovePiece_pawn_shown (p0 p1 q0 : Chess) (x1 y1 x2 y2 : Z) (mp : bool)
    (key : PromotionKey) :
  same_game p0 p1 ->
  MovePiece_pawn p0 x1 y1 x2 y2 mp key false = Some q0 ->
  exists q1, MovePiece_pawn p1 x1 y1 x2 y2 mp key true = Some q1 /\
             same_game q0 q1.
Proof.
  intros Hs H. same_game_records p0 p1 Hs.
  unfold MovePiece_pawn, ManuallyPromotePawn in *. cbn in *.
  destruct (y2 =? (BOARD_SIZE - 1) * b2z (negb t0)).
  - destruct mp.
    + destruct (wr b0 y1 x1 (promoted_piece t0 key)) as [bb|]; [|discriminate].
      cbn in *. destruct (rd bb y1 x1) as [p|]; [|discriminate].
      cbn in *. destruct (modify_back _ l0) as [l|]; [|discriminate].
      injection H as <-. eexists. split; [reflexivity|]. repeat split.
    + destruct (if t0 then rw0 else rb0); [discriminate|].
      destruct (wr b0 y1 x1 _) as [bb|]; [|discriminate].
      cbn in *. destruct (rd bb y1 x1) as [p|]; [|discriminate].
      cbn in *. destruct (modify_back _ l0) as [l|]; [|discriminate].
      injection H as <-. eexists. split; [reflexivity|]. repeat split.
  - destruct (negb (x1 =? x2)).
    + destruct (rd b0 y2 x2) as [dst|]; [|discriminate].
      cbn in *. destruct (dst =? EMPTY).
      * destruct (wr b0 y1 x2 EMPTY) as [bb|]; [|discriminate].
        cbn in *. destruct t0; cbn in *.
        -- destruct (modify_back _ l0) as [l|]; [|discriminate].
           injection H as <-. eexists. split; [reflexivity|]. repeat split.
        -- destruct (modify_back _ l0) as [l|]; [|discriminate].
           injection H as <-. eexists. split; [reflexivity|]. repeat split.
      * injection H as <-. eexists. split; [reflexivity|]. repeat split.
    + injection H as <-. eexists. split; [reflexivity|]. repeat split.
Qed.

Lemma MovePiece_unfold (c : Chess) (x1 y1 x2 y2 : Z) (mp : bool)
    (key : PromotionKey) (ub : bool) :
  MovePiece c x1 y1 x2 y2 mp key ub
  = (c <- AppendToAllGameMoves c x1 y1 x2 y2 ;;
     src <- rd (board c) y1 x1 ;;
     c <- (if is_pawn src
           then MovePiece_pawn c x1 y1 x2 y2 mp key ub
           else if is_king src
           then c1 <- MovePiece_king c x2 ;; Some (clear_castling c1)
           else if is_rook src then Some (clear_castling c)
           else Some c) ;;
     MovePiece_tail c x1 y1 x2 y2 ub).
Proof. reflexivity. Qed.

Lemma same_game_set_log (p0 p1 : Chess) (l : list LogEntry) :
  same_game p0 p1 -> same_game (set_log p0 l) (set_log p1 l).
Proof. intros H. same_game_records p0 p1 H. repeat split. Qed.

Lemma same_game_set_board (p0 p1 : Chess) (b : Board) :
  same_game p0 p1 -> same_game (set_board p0 b) (set_board p1 b).
Proof. intros H. same_game_records p0 p1 H. repeat split. Qed.

Lemma same_game_ChangeTurn (p0 p1 : Chess) :
  same_game p0 p1 -> same_game (ChangeTurn p0) (ChangeTurn p1).
Proof. intros H. same_game_records p0 p1 H. repeat split. Qed.

Lemma same_game_scored (p0 p1 : Chess) (v n : Z) :
  same_game p0 p1 ->
  same_game p0 (set_counter
                  (set_current_player p1
                     (IncreaseScore (GetCurrentPlayerConst p1) v)) n).
Proof. intros H. same_game_records p0 p1 H. destruct t0; repeat split. Qed.

Lemma same_game_current (p0 p1 : Chess) :
  same_game p0 p1 ->
  castling (GetCurrentPlayerConst p1) = castling (GetCurrentPlayerConst p0).
Proof. intros H. same_game_records p0 p1 H. now destruct t0. Qed.

Lemma MovePiece_tail_shown (p0 p1 q0 : Chess) (x1 y1 x2 y2 : Z) :
  same_game p0 p1 ->
  MovePiece_tail p0 x1 y1 x2 y2 false = Some q0 ->
  (forall e, back (all_game_moves q0) = Some e ->
             Moves_eqb (fst e) CASTLING = false ->
             exists captured, sget (snd e) 5 = Some captured) ->
  exists q1, MovePiece_tail p1 x1 y1 x2 y2 true = Some q1 /\ same_game q0 q1.
Proof.
  intros Hs H Hlog. unfold MovePiece_tail in *.
  rewrite (same_game_current _ _ Hs).
  replace (all_game_moves p1) with (all_game_moves p0)
    by (symmetry; apply Hs).
  destruct (back (all_game_moves p0)) as [e|]; [|discriminate].
  assert (Hmid : exists m0 m1,
    same_game m0 m1 /\
    (if negb (Moves_eqb (fst e) CASTLING)
     then l <- modify_back
                 (push_char (b2z (castling (GetCurrentPlayerConst p0))))
                 (all_game_moves p0) ;; Some (set_log p0 l)
     else Some p0) = Some m0 /\
    (if negb (Moves_eqb (fst e) CASTLING)
     then l <- modify_back
                 (push_char (b2z (castling (GetCurrentPlayerConst p0))))
                 (all_game_moves p0) ;; Some (set_log p1 l)
     else Some p1) = Some m1).
  { destruct (negb (Moves_eqb (fst e) CASTLING)).
    - destruct (modify_back _ (all_game_moves p0)) as [l|]; [|discriminate].
      exists (set_log p0 l), (set_log p1 l).
      split; [now apply same_game_set_log|]. now split.
    - exists p0, p1. now split. }
  destruct Hmid as (m0 & m1 & Hm & E0 & E1).
  rewrite E0 in H. rewrite E1. clear E0 E1. cbv beta iota in *.
  replace (board m1) with (board m0) by (symmetry; apply Hm).
  destruct (shift_cell (board m0) y2 x2 y1 x1 EMPTY) as [bb|]; [|discriminate].
  cbv beta iota zeta in *.
  pose proof (same_game_set_board m0 m1 bb Hm) as Hsb.
  set (d0 := set_board m0 bb) in *. set (d1 := set_board m1 bb) in *.
  replace (all_game_moves d1) with (all_game_moves d0)
    by (symmetry; apply Hsb).
  destruct (back (all_game_moves d0)) as [e'|] eqn:El; [|discriminate].
  cbn [andb] in *. injection H as <-.
  change (all_game_moves (ChangeTurn d0)) with (all_game_moves d0) in Hlog.
  destruct (Moves_eqb (fst e') CASTLING) eqn:Ek; cbn [negb].
  - exists (ChangeTurn d1). split; [reflexivity|].
    now apply same_game_ChangeTurn.
  - destruct (Hlog e' El Ek) as [cap ->].
    destruct (negb (cap =? EMPTY)).
    + eexists. split; [reflexivity|].
      apply (same_game_ChangeTurn d0). now apply same_game_scored.
    + exists (ChangeTurn d1). split; [reflexivity|].
      now apply same_game_ChangeTurn.
Qed.

(** With the display on, [MovePiece] does to the board, the log, the turn
    and the castling flags what it does with the display off. *)
Lemma MovePiece_shown (c c0 : Chess) (x1 y1 x2 y2 : Z) (mp : bool)
    (key : PromotionKey) :
  MovePiece c x1 y1 x2 y2 mp key false = Some c0 ->
  exists c1, MovePiece c x1 y1 x2 y2 mp key true = Some c1 /\ same_game c0 c1.
Proof.
  intros H.
  assert (Hlog : forall e, back (all_game_moves c0) = Some e ->
                   Moves_eqb (fst e) CASTLING = false ->
                   exists captured, sget (snd e) 5 = Some captured).
  { destruct (MovePiece_log _ _ _ _ _ _ _ _ _ H) as (e & -> & src & _ & He).
    intros e' Hb Hk. rewrite back_snoc in Hb. injection Hb as <-.
    destruct He as [[-> _]|(dst & flag & _ & [->|[(pr & -> & _)|(-> & _)]])].
    - discriminate Hk.
    - exists dst. apply sget_entry_5.
    - exists dst. apply sget_entry_5.
    - exists dst. apply sget_entry_5. }
  rewrite MovePiece_unfold in *.
  destruct (AppendToAllGameMoves c x1 y1 x2 y2) as [ca|]; [|discriminate].
  destruct (rd (board ca) y1 x1) as [src|]; [|discriminate].
  cbv beta iota in *.
  destruct (is_pawn src).
  - destruct (MovePiece_pawn ca x1 y1 x2 y2 mp key false) as [p0|] eqn:Ep;
      [|discriminate].
    destruct (MovePiece_pawn_shown ca ca p0 x1 y1 x2 y2 mp key
                (same_game_refl ca) Ep) as (p1 & -> & Hs).
    exact (MovePiece_tail_shown p0 p1 c0 x1 y1 x2 y2 Hs H Hlog).
  - match type of H with
    | match ?e with Some _ => _ | None => None end = Some _ =>
        destruct e as [p0|]; [|discriminate]
    end.
    exact (MovePiece_tail_shown p0 p0 c0 x1 y1 x2 y2 (same_game_refl p0) H Hlog).
Qed.

Lemma same_game_Inv (c0 c1 : Chess) : same_game c0 c1 -> Inv c0 -> Inv c1.
Proof.
  intros (Hb & Hw & Hbl & Hl & Ht & Hr1 & Hr2) HI.
  assert (Hf : forall t, flag_of c1 t = flag_of c0 t)
    by (intros t; unfold flag_of; now destruct t).
  split.
  - rewrite Hb. apply (inv_wf _ HI).
  - rewrite Hr1, Hr2. apply (inv_settings _ HI).
  - intros t x y. rewrite Hf, Hb. apply (inv_kings _ HI).
  - intros e. rewrite Hl, Hf, Ht. apply (inv_flag_mover _ HI).
  - intros e. rewrite Hl, Hf, Ht. apply (inv_flag_other _ HI).
  - intros e lx1 ly1 lx2 ly2. rewrite Hl, Hb, Ht. apply (inv_ep _ HI).
Qed.

(** ** A move keeps the invariant *)

Lemma prev_cend_2_snoc (l : list LogEntry) (e : LogEntry) :
  prev_cend (l ++ [e]) 2 = back l.
Proof.
  rewrite prev_cend_snoc. unfold prev_cend, back.
  destruct l as [|a l]; [reflexivity|].
  replace (1 <=? length (a :: l))%nat with true; [reflexivity|].
  symmetry. apply Nat.leb_le. simpl. lia.
Qed.

(** The invariant after a move of side [t], from what the move did: the
    board [b1], the players [w1] and [bl1], the entry [e] added to the
    log. *)
Lemma Inv_step (c : Chess) (b1 : Board) (w1 bl1 : Bot) (e : LogEntry) (n : Z) :
  let t := whites_turn c in
  let c1 := mkChess b1 w1 bl1 (all_game_moves c ++ [e]) (negb t) n
                    (white_bot_random c) (black_bot_random c) in
  Inv c -> wf_board b1 ->
  flag_of c1 (negb t) = flag_of c (negb t) ->
  (flag_of c1 t = true -> flag_of c t = true) ->
  recorded e = Some (flag_of c1 t) ->
  (forall y x v, rd b1 y x = Some v ->
     rd (board c) y x = Some v \/
     (forall t', flag_of c1 t' = true -> v <> king_of t')) ->
  (forall lx1 ly1 lx2 ly2,
     fst e = NORMAL ->
     ChangeToRealCoordinates (snd e) = Some (lx1, ly1, lx2, ly2) ->
     sget (snd e) 4 = Some (pawn_of t) ->
     ly2 - ly1 = 2 * (if t then -1 else 1) ->
     rd b1 (3 + b2z t) lx1 = Some (pawn_of t) /\
     rd b1 (3 + b2z t + (if t then 1 else -1)) lx1 = Some EMPTY) ->
  Inv c1.
Proof.
  intros t c1 HI Hwf Hother Hmover Hrec Hkings Hep. split.
  - exact Hwf.
  - apply (inv_settings _ HI).
  - intros t' x y Hf Hk. apply (inv_kings _ HI t' x y).
    + destruct (Bool.eqb t' t) eqn:E.
      * apply Bool.eqb_prop in E. subst t'. now apply Hmover.
      * assert (t' = negb t) by (destruct t', t; try discriminate; reflexivity).
        subst t'. now rewrite <- Hother.
    + destruct (Hkings y x _ Hk) as [H|H]; [exact H|].
      now destruct (H t' Hf).
  - intros e'. unfold c1. cbn [all_game_moves whites_turn].
    rewrite prev_cend_2_snoc. intros Hb.
    fold c1. rewrite Hother. now apply (inv_flag_other _ HI).
  - intros e'. unfold c1. cbn [all_game_moves whites_turn].
    rewrite back_snoc. intros Hb. injection Hb as <-.
    fold c1. rewrite negb_involutive. exact Hrec.
  - intros e' lx1 ly1 lx2 ly2. unfold c1. cbn [all_game_moves whites_turn board].
    rewrite back_snoc. intros Hb. injection Hb as <-.
    rewrite negb_involutive. intros Hk Hc Hp Hd.
    replace (4 - b2z (negb t)) with (3 + b2z t) by (destruct t; reflexivity).
    replace (if negb t then -1 else 1) with (if t then 1 else -1)
      by (destruct t; reflexivity).
    apply (Hep lx1 ly1 lx2 ly2 Hk Hc Hp).
    rewrite Hd. destruct t; reflexivity.
Qed.

Lemma sget_entry_4 (x1 y1 x2 y2 src : Z) (rest : str) :
  sget (ToString x1 y1 x2 y2 ++ src :: rest) 4 = Some src.
Proof. reflexivity. Qed.

Lemma sget_entry_6 (x1 y1 x2 y2 src dst f : Z) (rest : str) :
  sget (ToString x1 y1 x2 y2 ++ src :: dst :: f :: rest) 6 = Some f.
Proof. reflexivity. Qed.

Lemma sget_entry_7 (x1 y1 x2 y2 src dst p f : Z) (rest : str) :
  sget (ToString x1 y1 x2 y2 ++ src :: dst :: p :: f :: rest) 7 = Some f.
Proof. reflexivity. Qed.

Lemma b2z_flag (f : bool) : negb (b2z f =? 0) = f.
Proof. now destruct f. Qed.

Lemma own_king_of (t t' : bool) : own t (king_of t') = Bool.eqb t t'.
Proof. now destruct t, t'. Qed.

(** A move that takes a piece from one square to another and is logged
    as [NORMAL]. *)
Lemma Inv_moved (c : Chess) (x1 y1 x2 y2 src dst : Z) (w1 bl1 : Bot) (n : Z) :
  let t := whites_turn c in
  Inv c ->
  rd (board c) y1 x1 = Some src -> rd (board c) y2 x2 = Some dst ->
  x1 <> x2 \/ y1 <> y2 -> src = EMPTY \/ own t src = true ->
  castling (if negb t then w1 else bl1) = flag_of c (negb t) ->
  (castling (if t then w1 else bl1) = true -> flag_of c t = true) ->
  (is_king src = true -> castling (if t then w1 else bl1) = false) ->
  (is_pawn src = true -> pawn_shape c x1 y1 x2 y2 dst) ->
  Inv (mkChess (upd (upd (board c) (cell y2 x2) src) (cell y1 x1) EMPTY)
               w1 bl1
               (all_game_moves c ++
                  [(NORMAL, ToString x1 y1 x2 y2 ++
                            [src; dst; b2z (castling (if t then w1 else bl1))])])
               (negb t) n (white_bot_random c) (black_bot_random c)).
Proof.
  intros t HI Hs Hd Hne Hsrc Hother Hmover Hking Hpawn.
  pose proof (inv_wf _ HI) as Hwf.
  destruct (rd_Some_bounds _ _ _ _ Hs) as [Hy1 Hx1].
  destruct (rd_Some_bounds _ _ _ _ Hd) as [Hy2 Hx2].
  apply (Inv_step c).
  - exact HI.
  - solve_wf.
  - exact Hother.
  - exact Hmover.
  - unfold recorded. cbn [fst snd Moves_eqb].
    rewrite sget_entry_6. now rewrite b2z_flag.
  - intros y x v Hv. rewrite rd_two in Hv by assumption.
    destruct ((y =? y1) && (x =? x1)).
    { injection Hv as <-. right. intros t' _. destruct t'; discriminate. }
    destruct ((y =? y2) && (x =? x2)); [|now left].
    injection Hv as <-. right. intros t' Hf E. subst src.
    destruct Hsrc as [Hsrc|Hsrc]; [destruct t'; discriminate|].
    rewrite own_king_of in Hsrc. apply Bool.eqb_prop in Hsrc. subst t'.
    change (castling (if t then w1 else bl1) = true) in Hf.
    rewrite (Hking (king_of_is_king t)) in Hf. discriminate.
  - intros lx1 ly1 lx2 ly2 _. cbn [snd].
    rewrite ChangeToRealCoordinates_ToString by assumption.
    intros E. injection E as <- <- <- <-.
    rewrite sget_entry_4. intros E. injection E as ->.
    intros Hdy.
    assert (Hp : is_pawn (pawn_of t) = true) by (unfold t; now destruct (whites_turn c)).
    unfold t in *.
    destruct (Hpawn Hp) as [[_ H]|[(-> & Hy & Hy2' & Hmid)|(_ & H & _)]];
      try (exfalso; destruct (whites_turn c); lia).
    rewrite !rd_two by assumption.
    replace (3 + b2z (whites_turn c)) with y2
      by (destruct (whites_turn c); cbn [b2z] in *; lia).
    replace (y2 + (if whites_turn c then 1 else -1))
      with (y1 + (if whites_turn c then -1 else 1))
      by (destruct (whites_turn c); lia).
    assert (E1 : (y2 =? y1) && (x1 =? x1) = false)
      by (apply andb_false_iff; left; apply Z.eqb_neq;
          destruct (whites_turn c); lia).
    rewrite E1, !Z.eqb_refl. split; [reflexivity|].
    replace ((y1 + (if whites_turn c then -1 else 1) =? y1)) with false
      by (symmetry; apply Z.eqb_neq; destruct (whites_turn c); lia).
    replace ((y1 + (if whites_turn c then -1 else 1) =? y2)) with false
      by (symmetry; apply Z.eqb_neq; destruct (whites_turn c); lia).
    exact Hmid.
Qed.

Lemma pawn_is_no_king (src : Z) (t' : bool) : is_pawn src = true -> src <> king_of t'.
Proof.
  intros H ->. destruct t'; discriminate.
Qed.

Lemma promoted_is_no_king (t : bool) (mp : bool) (key : PromotionKey) (t' : bool) :
  promoted t mp key <> king_of t'.
Proof. destruct t, mp, key, t'; discriminate. Qed.

Lemma EMPTY_is_no_king (t' : bool) : EMPTY <> king_of t'.
Proof. destruct t'; discriminate. Qed.

(** A pawn reaching the last rank. *)
Lemma Inv_promoted (c : Chess) (x1 y1 x2 y2 src dst : Z) (mp : bool)
    (key : PromotionKey) (n : Z) :
  let t := whites_turn c in
  let pp := promoted t mp key in
  Inv c ->
  rd (board c) y1 x1 = Some src -> rd (board c) y2 x2 = Some dst ->
  Inv (mkChess (upd (upd (upd (board c) (cell y1 x1) pp) (cell y2 x2) pp)
                    (cell y1 x1) EMPTY)
               (white c) (black c)
               (all_game_moves c ++
                  [(PROMOTION, ToString x1 y1 x2 y2 ++
                               [src; dst; pp; b2z (castling (GetCurrentPlayerConst c))])])
               (negb t) n (white_bot_random c) (black_bot_random c)).
Proof.
  intros t pp HI Hs Hd.
  pose proof (inv_wf _ HI) as Hwf.
  destruct (rd_Some_bounds _ _ _ _ Hs) as [Hy1 Hx1].
  destruct (rd_Some_bounds _ _ _ _ Hd) as [Hy2 Hx2].
  apply (Inv_step c).
  - exact HI.
  - solve_wf.
  - reflexivity.
  - intros H. exact H.
  - unfold recorded. cbn [fst snd Moves_eqb].
    rewrite sget_entry_7, b2z_flag. now rewrite <- flag_of_current.
  - intros y x v Hv. rdu in Hv.
    destruct ((y =? y1) && (x =? x1)).
    { injection Hv as <-. right. intros t' _. apply EMPTY_is_no_king. }
    destruct ((y =? y2) && (x =? x2)); [|now left].
    injection Hv as <-. right. intros t' _. apply promoted_is_no_king.
  - intros lx1 ly1 lx2 ly2 H. discriminate H.
Qed.

(** A capture en passant. *)
Lemma Inv_en_passant (c : Chess) (x1 y1 x2 y2 src : Z) (n : Z) :
  let t := whites_turn c in
  Inv c ->
  rd (board c) y1 x1 = Some src -> rd (board c) y2 x2 = Some EMPTY ->
  is_pawn src = true ->
  Inv (mkChess (upd (upd (upd (board c) (cell y1 x2) EMPTY) (cell y2 x2) src)
                    (cell y1 x1) EMPTY)
               (white c) (black c)
               (all_game_moves c ++
                  [(EN_PASSANT, ToString x1 y1 x2 y2 ++
                                [src; EMPTY; b2z (castling (GetCurrentPlayerConst c))])])
               (negb t) n (white_bot_random c) (black_bot_random c)).
Proof.
  intros t HI Hs Hd Hp.
  pose proof (inv_wf _ HI) as Hwf.
  destruct (rd_Some_bounds _ _ _ _ Hs) as [Hy1 Hx1].
  destruct (rd_Some_bounds _ _ _ _ Hd) as [Hy2 Hx2].
  apply (Inv_step c).
  - exact HI.
  - solve_wf.
  - reflexivity.
  - intros H. exact H.
  - unfold recorded. cbn [fst snd Moves_eqb].
    rewrite sget_entry_6, b2z_flag. now rewrite <- flag_of_current.
  - intros y x v Hv. rdu in Hv.
    destruct ((y =? y1) && (x =? x1)).
    { injection Hv as <-. right. intros t' _. apply EMPTY_is_no_king. }
    destruct ((y =? y2) && (x =? x2)).
    { injection Hv as <-. right. intros t' _. now apply pawn_is_no_king. }
    destruct ((y =? y1) && (x =? x2)); [|now left].
    injection Hv as <-. right. intros t' _. apply EMPTY_is_no_king.
  - intros lx1 ly1 lx2 ly2 H. discriminate H.
Qed.

Lemma cleared_other (c : Chess) (b : Board) (l : list LogEntry) (t' : bool) (n : Z) :
  flag_of (mkChess b (white_cleared c) (black_cleared c) l t' n
                   (white_bot_random c) (black_bot_random c))
          (negb (whites_turn c))
  = flag_of c (negb (whites_turn c)).
Proof.
  unfold flag_of, white_cleared, black_cleared. cbn [white black].
  now destruct (whites_turn c).
Qed.

Lemma cleared_mover (c : Chess) (b : Board) (l : list LogEntry) (t' : bool) (n : Z) :
  flag_of (mkChess b (white_cleared c) (black_cleared c) l t' n
                   (white_bot_random c) (black_bot_random c))
          (whites_turn c)
  = false.
Proof.
  unfold flag_of, white_cleared, black_cleared. cbn [white black].
  now destruct (whites_turn c).
Qed.

(** Castling. *)
Lemma Inv_castled (c : Chess) (x2 xr xt r : Z) (n : Z) :
  let t := whites_turn c in
  let l := line_of t in
  Inv c -> 0 <= x2 < 8 -> 0 <= xr < 8 -> 0 <= xt < 8 ->
  (r = rook_of t \/ r = EMPTY) ->
  Inv (mkChess (upd (upd (upd (upd (board c) (cell l xt) r) (cell l xr) EMPTY)
                         (cell l x2) (king_of t))
                    (cell l 4) EMPTY)
               (white_cleared c) (black_cleared c)
               (all_game_moves c ++ [(CASTLING, [to_char x2])])
               (negb t) n (white_bot_random c) (black_bot_random c)).
Proof.
  intros t l HI Hx2 Hxr Hxt Hr.
  pose proof (inv_wf _ HI) as Hwf.
  pose proof (line_of_bounds t) as Hl. fold l in Hl.
  apply (Inv_step c).
  - exact HI.
  - solve_wf.
  - apply cleared_other.
  - intros H. rewrite cleared_mover in H. discriminate.
  - unfold recorded. cbn [fst Moves_eqb]. now rewrite cleared_mover.
  - intros y x v Hv. rdu in Hv.
    destruct ((y =? l) && (x =? 4)).
    { injection Hv as <-. right. intros t' _. apply EMPTY_is_no_king. }
    destruct ((y =? l) && (x =? x2)).
    { injection Hv as <-. right. intros t' Hf E.
      assert (t' = t) by (destruct t, t'; try reflexivity; discriminate).
      subst t'. unfold t in Hf. rewrite cleared_mover in Hf. discriminate. }
    destruct ((y =? l) && (x =? xr)).
    { injection Hv as <-. right. intros t' _. apply EMPTY_is_no_king. }
    destruct ((y =? l) && (x =? xt)); [|now left].
    injection Hv as <-. right. intros t' _.
    destruct Hr as [-> | ->]; [|apply EMPTY_is_no_king].
    destruct t, t'; discriminate.
  - intros lx1 ly1 lx2 ly2 H. discriminate H.
Qed.

Lemma cleared_current (c : Chess) :
  castling (if whites_turn c then white_cleared c else black_cleared c) = false.
Proof. unfold white_cleared, black_cleared. now destruct (whites_turn c). Qed.

Lemma cleared_opponent (c : Chess) :
  castling (if negb (whites_turn c) then white_cleared c else black_cleared c)
  = flag_of c (negb (whites_turn c)).
Proof.
  unfold white_cleared, black_cleared, flag_of. now destruct (whites_turn c).
Qed.

(** A rook or a king that moves: the flag of the side is cleared. *)
Lemma Inv_cleared (c : Chess) (x1 y1 x2 y2 src dst : Z) (n : Z) :
  Inv c ->
  rd (board c) y1 x1 = Some src -> rd (board c) y2 x2 = Some dst ->
  x1 <> x2 \/ y1 <> y2 -> own (whites_turn c) src = true ->
  is_pawn src = false ->
  Inv (mkChess (upd (upd (board c) (cell y2 x2) src) (cell y1 x1) EMPTY)
               (white_cleared c) (black_cleared c)
               (all_game_moves c ++
                  [(NORMAL, ToString x1 y1 x2 y2 ++ [src; dst; 0])])
               (negb (whites_turn c)) n
               (white_bot_random c) (black_bot_random c)).
Proof.
  intros HI Hs Hd Hne Hown Hp.
  change 0 with (b2z false). rewrite <- (cleared_current c).
  apply (Inv_moved c x1 y1 x2 y2 src dst); try assumption.
  - now right.
  - apply cleared_opponent.
  - rewrite cleared_current. discriminate.
  - intros _. apply cleared_current.
  - rewrite Hp. discriminate.
Qed.

(** A move that leaves the flags alone. *)
Lemma Inv_plain (c : Chess) (x1 y1 x2 y2 src dst : Z) (n : Z) :
  Inv c ->
  rd (board c) y1 x1 = Some src -> rd (board c) y2 x2 = Some dst ->
  x1 <> x2 \/ y1 <> y2 -> src = EMPTY \/ own (whites_turn c) src = true ->
  is_king src = false ->
  (is_pawn src = true -> pawn_shape c x1 y1 x2 y2 dst) ->
  Inv (mkChess (upd (upd (board c) (cell y2 x2) src) (cell y1 x1) EMPTY)
               (white c) (black c)
               (all_game_moves c ++
                  [(NORMAL, ToString x1 y1 x2 y2 ++
                            [src; dst; b2z (castling (GetCurrentPlayerConst c))])])
               (negb (whites_turn c)) n
               (white_bot_random c) (black_bot_random c)).
Proof.
  intros HI Hs Hd Hne Hsrc Hk Hp.
  apply (Inv_moved c x1 y1 x2 y2 src dst (white c) (black c)); try assumption.
  - reflexivity.
  - intros H. exact H.
  - rewrite Hk. discriminate.
Qed.

(** [MovePiece] returns on a plausible move, to a game object that has
    the invariant and the other side to move. *)
Lemma MovePiece_keeps (c : Chess) (x1 y1 x2 y2 : Z) (mp : bool)
    (key : PromotionKey) :
  Inv c -> plausible c (x1, y1, x2, y2) ->
  exists c1, MovePiece c x1 y1 x2 y2 mp key false = Some c1 /\ Inv c1 /\
             whites_turn c1 = negb (whites_turn c).
Proof.
  intros HI (Hne & src & dst & Hs & Hd & Hsrc & Hdst & Hpawn & Hrook & Hking).
  pose proof (inv_wf _ HI) as Hwf.
  destruct (rd_Some_bounds _ _ _ _ Hd) as [Hy2 Hx2].
  destruct (is_pawn src) eqn:Ep.
  { assert (Hown : own (whites_turn c) src = true).
    { destruct Hsrc as [->|H]; [discriminate Ep|exact H]. }
    destruct (Z.eq_dec y2 (last_rank c)) as [Hl|Hl].
    - assert (Hrnd : (if whites_turn c then white_bot_random c
                      else black_bot_random c) = false).
      { destruct (inv_settings _ HI) as [-> ->]. now destruct (whites_turn c). }
      rewrite (MovePiece_promotion c x1 y1 x2 y2 src dst mp key Hs Hd Ep Hl Hwf Hrnd).
      eexists. split; [reflexivity|]. split; [|reflexivity].
      now apply Inv_promoted.
    - specialize (Hpawn eq_refl).
      assert (Hcases : (x1 = x2 \/ dst <> EMPTY) \/
                       (x1 <> x2 /\ dst = EMPTY)).
      { destruct (Z.eq_dec x1 x2); [tauto|].
        destruct (Z.eq_dec dst EMPTY); tauto. }
      destruct Hcases as [Hc|(Hx & ->)].
      + rewrite (MovePiece_pawn_step c x1 y1 x2 y2 src dst mp key Hs Hd Ep Hl Hc).
        eexists. split; [reflexivity|]. split; [|reflexivity].
        apply Inv_plain; try assumption.
        * now destruct (pawn_not_king_rook _ Ep).
        * intros _. exact Hpawn.
      + rewrite (MovePiece_en_passant c x1 y1 x2 y2 src mp key Hs Hd Ep Hl Hx Hwf).
        eexists. split; [reflexivity|]. split; [|reflexivity].
        now apply Inv_en_passant. }
  destruct (is_king src) eqn:Ek.
  { assert (Hown : own (whites_turn c) src = true).
    { destruct Hsrc as [->|H]; [discriminate Ek|exact H]. }
    pose proof (own_king _ _ Ek Hown) as Esrc.
    destruct (castling (GetCurrentPlayerConst c)) eqn:Ef.
    - destruct (Z.eq_dec x2 2) as [E2|N2].
      + rewrite <- flag_of_current in Ef.
        destruct (Hking eq_refl Ef (or_introl E2)) as (-> & -> & -> & Hq & _).
        destruct (Hq E2) as (R0 & R1 & R2 & R3). subst x2 src.
        rewrite flag_of_current in Ef.
        rewrite (MovePiece_castle c 2 0 3 (rook_of (whites_turn c)) mp key Ef Hs
                   (or_introl (conj eq_refl (conj eq_refl eq_refl))) R0 Hwf).
        eexists. split; [reflexivity|]. split; [|reflexivity].
        apply Inv_castled; try assumption; try lia; auto.
      + destruct (Z.eq_dec x2 6) as [E6|N6].
        * rewrite <- flag_of_current in Ef.
          destruct (Hking eq_refl Ef (or_intror E6)) as (-> & -> & -> & _ & Hkk).
          destruct (Hkk E6) as (R7 & R5 & R6). subst x2 src.
          rewrite flag_of_current in Ef.
          destruct R7 as [R7|R7].
          -- rewrite (MovePiece_castle c 6 7 5 (rook_of (whites_turn c)) mp key Ef Hs
                        (or_intror (conj eq_refl (conj eq_refl eq_refl))) R7 Hwf).
             eexists. split; [reflexivity|]. split; [|reflexivity].
             apply Inv_castled; try assumption; try lia; auto.
          -- rewrite (MovePiece_castle c 6 7 5 EMPTY mp key Ef Hs
                        (or_intror (conj eq_refl (conj eq_refl eq_refl))) R7 Hwf).
             eexists. split; [reflexivity|]. split; [|reflexivity].
             apply Inv_castled; try assumption; try lia; auto.
        * rewrite (MovePiece_king_step c x1 y1 x2 y2 src dst mp key Hs Hd Ek)
            by tauto.
          eexists. split; [reflexivity|]. split; [|reflexivity].
          now apply Inv_cleared.
    - rewrite (MovePiece_king_step c x1 y1 x2 y2 src dst mp key Hs Hd Ek)
        by tauto.
      eexists. split; [reflexivity|]. split; [|reflexivity].
      now apply Inv_cleared. }
  destruct (is_rook src) eqn:Er.
  { assert (Hown : own (whites_turn c) src = true).
    { destruct Hsrc as [->|H]; [discriminate Er|exact H]. }
    rewrite (MovePiece_rook c x1 y1 x2 y2 src dst mp key Hs Hd Er).
    eexists. split; [reflexivity|]. split; [|reflexivity].
    now apply Inv_cleared. }
  rewrite (MovePiece_plain c x1 y1 x2 y2 src dst mp key Hs Hd Ep Ek Er).
  eexists. split; [reflexivity|]. split; [|reflexivity].
  apply Inv_plain; try assumption. rewrite Ep. discriminate.
Qed.

(** ** The game object without the mover's h-file rook *)

Lemma rd_erased (c : Chess) (y x : Z) :
  wf_board (board c) ->
  rd (board (erased c)) y x
  = if (y =? line_of (whites_turn c)) && (x =? 7) then Some EMPTY
    else rd (board c) y x.
Proof.
  intros Hwf. unfold erased. cbn [board set_board].
  pose proof (line_of_bounds (whites_turn c)).
  apply rd_upd; [assumption|assumption|lia].
Qed.

Lemma rd_erased_other (c : Chess) (y x : Z) :
  wf_board (board c) -> y <> line_of (whites_turn c) \/ x <> 7 ->
  rd (board (erased c)) y x = rd (board c) y x.
Proof.
  intros Hwf H. rewrite rd_erased by assumption.
  destruct H as [H|H]; apply Z.eqb_neq in H; rewrite H;
    [reflexivity|now rewrite andb_false_r].
Qed.

Lemma rd_erased_corner (c : Chess) :
  wf_board (board c) ->
  rd (board (erased c)) (line_of (whites_turn c)) 7 = Some EMPTY.
Proof. intros Hwf. rewrite rd_erased by assumption. now rewrite !Z.eqb_refl. Qed.

Lemma worn_erased (c : Chess) :
  wf_board (board c) -> loose c (whites_turn c) ->
  worn (eq (whites_turn c)) c (erased c).
Proof.
  intros Hwf Hl. split; try reflexivity.
  - split; reflexivity.
  - unfold erased. cbn [board set_board]. solve_wf.
  - intros y x Hy Hx. rewrite rd_erased by assumption.
    destruct (Z.eqb_spec y (line_of (whites_turn c))) as [->|]; [|now left].
    destruct (Z.eqb_spec x 7) as [->|]; [|now left].
    right. split; [reflexivity|]. split; [reflexivity|].
    exists (whites_turn c). auto.
Qed.

Lemma Chess_eq (a c : Chess) :
  board a = board c -> white a = white c -> black a = black c ->
  all_game_moves a = all_game_moves c -> whites_turn a = whites_turn c ->
  moves_after_last_pawn_move_or_capture a
    = moves_after_last_pawn_move_or_capture c ->
  white_bot_random a = white_bot_random c ->
  black_bot_random a = black_bot_random c -> a = c.
Proof.
  destruct a, c. cbn. intros. subst. reflexivity.
Qed.

(** A game object worn on the mover's side only is the object itself or
    the object without the mover's h-file rook. *)
Lemma worn_own_cases (c a : Chess) :
  wf_board (board c) -> worn (eq (whites_turn c)) c a ->
  a = c \/ (loose c (whites_turn c) /\ a = erased c).
Proof.
  intros Hwf Hw.
  pose proof (line_of_bounds (whites_turn c)) as HL.
  destruct (worn_random _ _ _ Hw) as [Hr1 Hr2].
  destruct (worn_board _ _ _ Hw (line_of (whites_turn c)) 7 HL ltac:(lia))
    as [E|(E & _ & t' & <- & _ & Hl)].
  - left. apply Chess_eq; try apply Hw; try assumption.
    apply board_ext; [apply (worn_wf _ _ _ Hw)|assumption|].
    intros y x Hy Hx.
    destruct (worn_board _ _ _ Hw y x Hy Hx) as [E'|(E' & -> & t' & <- & -> & Hl)];
      [exact E'|].
    destruct Hl as [_ Hl]. congruence.
  - right. split; [exact Hl|].
    apply Chess_eq; try apply Hw; try assumption.
    unfold erased. cbn [board set_board].
    apply board_ext; [apply (worn_wf _ _ _ Hw)|solve_wf|].
    intros y x Hy Hx. rewrite rd_upd by (assumption || lia).
    destruct (worn_board _ _ _ Hw y x Hy Hx) as [E'|(E' & -> & t' & <- & -> & _)].
    + destruct (Z.eqb_spec y (line_of (whites_turn c))) as [->|]; [|exact E'].
      destruct (Z.eqb_spec x 7) as [->|]; [|exact E']. exact E.
    + now rewrite !Z.eqb_refl.
Qed.

Lemma rook_quiet (t : bool) : quiet t (rook_of t).
Proof. right. now destruct t. Qed.

Lemma line_of_cases (t : bool) : line_of t = 0 \/ line_of t = 7.
Proof. destruct t; [now right|now left]. Qed.

Lemma not_at (y x y' x' : Z) : y <> y' \/ x <> x' -> (y =? y') && (x =? x') = false.
Proof.
  intros [H|H]; apply Z.eqb_neq in H; rewrite H;
    [reflexivity|apply andb_false_r].
Qed.

Section Erasure.

Variable c : Chess.
Hypothesis HI : Inv c.
Hypothesis Hloose : loose c (whites_turn c).

Let t := whites_turn c.
Let L := line_of t.
Let E := erased c.

Lemma erased_wf : wf_board (board E).
Proof. unfold E, erased. cbn [board set_board]. pose proof (inv_wf _ HI). solve_wf. Qed.

Lemma corner_rook : rd (board c) L 7 = Some (rook_of t).
Proof. apply Hloose. Qed.

(** A square of [c] that does not hold the mover's rook is not the
    corner. *)
Lemma off_corner (y x v : Z) :
  rd (board c) y x = Some v -> v <> rook_of t -> y <> L \/ x <> 7.
Proof.
  intros Hv Hne. destruct (Z.eq_dec y L) as [->|]; [|now left].
  destruct (Z.eq_dec x 7) as [->|]; [|now right].
  rewrite corner_rook in Hv. congruence.
Qed.

Lemma off_corner_b (y x : Z) :
  y <> L \/ x <> 7 -> (L =? y) && (7 =? x) = false.
Proof. intros H. apply not_at. destruct H; [left|right]; congruence. Qed.

(** The boards after the same writes, none of them to the corner. *)
Lemma corner_left (bc be : Board) :
  (forall y x, y <> L \/ x <> 7 -> rd be y x = rd bc y x) ->
  rd bc L 7 = Some (rook_of t) -> rd be L 7 = Some EMPTY ->
  IsCheck bc t = IsCheck be t.
Proof.
  intros Hag Hc He.
  apply (IsCheck_corner bc be t L (rook_of t)); try assumption.
  - apply line_of_cases.
  - apply rook_quiet.
  - apply rook_of_not_EMPTY.
Qed.

Lemma own_rook_self (t0 : bool) : own t0 (rook_of t0) = true.
Proof. now destruct t0. Qed.

Lemma target_off_corner (y x dst : Z) :
  rd (board c) y x = Some dst -> own t dst = false -> y <> L \/ x <> 7.
Proof.
  intros Hd Ho. apply (off_corner y x dst Hd). intros ->.
  rewrite own_rook_self in Ho. discriminate.
Qed.

Lemma no_rook_off_corner (y x src : Z) :
  rd (board c) y x = Some src -> is_rook src = false -> y <> L \/ x <> 7.
Proof.
  intros Hs Hr. apply (off_corner y x src Hs). intros ->.
  unfold t in Hr. destruct (whites_turn c); discriminate.
Qed.

Ltac corner_finish H1 H2 H3 H4 :=
  let HLb := fresh "HLb" in
  let F1 := fresh "F" in let F2 := fresh "F" in
  let F3 := fresh "F" in let F4 := fresh "F" in
  let Hcr := fresh "Hcr" in
  pose proof (line_of_bounds (whites_turn c)) as HLb;
  pose proof (off_corner_b _ _ H1) as F1; pose proof (off_corner_b _ _ H2) as F2;
  pose proof (off_corner_b _ _ H3) as F3; pose proof (off_corner_b _ _ H4) as F4;
  pose proof corner_rook as Hcr;
  cbn [board]; apply corner_left;
  [ let y := fresh "y" in let x := fresh "x" in let Hne := fresh "Hne" in
    intros y x Hne; unfold E, erased; cbn [board set_board];
    unfold L, t in *; rdu;
    rewrite (not_at _ _ _ _ Hne); reflexivity
  | unfold L, t in *; rdu; rewrite ?F1, ?F2, ?F3, ?F4; exact Hcr
  | unfold E, erased; cbn [board set_board]; unfold L, t in *; rdu;
    rewrite ?F1, ?F2, ?F3, ?F4, !Z.eqb_refl; reflexivity ].

Lemma rdE (y x : Z) :
  y <> L \/ x <> 7 -> rd (board E) y x = rd (board c) y x.
Proof. intros H. apply rd_erased_other; [apply (inv_wf _ HI)|exact H]. Qed.

(** A move of a piece that is neither pawn, king nor rook. *)
Lemma erased_plain (x1 y1 x2 y2 src dst : Z) (c1 e1 : Chess) :
  rd (board c) y1 x1 = Some src -> rd (board c) y2 x2 = Some dst ->
  own t dst = false ->
  is_pawn src = false -> is_king src = false -> is_rook src = false ->
  MovePiece c x1 y1 x2 y2 false key_q false = Some c1 ->
  MovePiece E x1 y1 x2 y2 false key_q false = Some e1 ->
  IsCheck (board c1) t = IsCheck (board e1) t.
Proof.
  intros Hs Hd Ho Ep Ek Er Hc He.
  pose proof (inv_wf _ HI) as Hwf. pose proof erased_wf as HwfE.
  destruct (rd_Some_bounds _ _ _ _ Hs) as [Hy1 Hx1].
  destruct (rd_Some_bounds _ _ _ _ Hd) as [Hy2 Hx2].
  pose proof (no_rook_off_corner _ _ _ Hs Er) as N1.
  pose proof (target_off_corner _ _ _ Hd Ho) as N2.
  assert (HsE : rd (board E) y1 x1 = Some src)
    by (unfold E; now rewrite rd_erased_other).
  assert (HdE : rd (board E) y2 x2 = Some dst)
    by (unfold E; now rewrite rd_erased_other).
  rewrite (MovePiece_plain c x1 y1 x2 y2 src dst false key_q Hs Hd Ep Ek Er) in Hc.
  rewrite (MovePiece_plain E x1 y1 x2 y2 src dst false key_q HsE HdE Ep Ek Er) in He.
  injection Hc as <-. injection He as <-.
  corner_finish N1 N2 N1 N2.
Qed.

(** A pawn that neither promotes nor takes en passant. *)
Lemma erased_pawn_step (x1 y1 x2 y2 src dst : Z) (c1 e1 : Chess) :
  rd (board c) y1 x1 = Some src -> rd (board c) y2 x2 = Some dst ->
  own t dst = false ->
  is_pawn src = true -> y2 <> last_rank c -> x1 = x2 \/ dst <> EMPTY ->
  MovePiece c x1 y1 x2 y2 false key_q false = Some c1 ->
  MovePiece E x1 y1 x2 y2 false key_q false = Some e1 ->
  IsCheck (board c1) t = IsCheck (board e1) t.
Proof.
  intros Hs Hd Ho Ep Hl Hcase Hc He.
  pose proof (inv_wf _ HI) as Hwf. pose proof erased_wf as HwfE.
  destruct (rd_Some_bounds _ _ _ _ Hs) as [Hy1 Hx1].
  destruct (rd_Some_bounds _ _ _ _ Hd) as [Hy2 Hx2].
  pose proof (no_rook_off_corner _ _ _ Hs (proj2 (pawn_not_king_rook _ Ep))) as N1.
  pose proof (target_off_corner _ _ _ Hd Ho) as N2.
  assert (HsE : rd (board E) y1 x1 = Some src) by (now rewrite rdE).
  assert (HdE : rd (board E) y2 x2 = Some dst) by (now rewrite rdE).
  rewrite (MovePiece_pawn_step c x1 y1 x2 y2 src dst false key_q Hs Hd Ep Hl Hcase)
    in Hc.
  rewrite (MovePiece_pawn_step E x1 y1 x2 y2 src dst false key_q HsE HdE Ep Hl Hcase)
    in He.
  injection Hc as <-. injection He as <-.
  corner_finish N1 N2 N1 N2.
Qed.

(** A pawn that promotes. *)
Lemma erased_promotion (x1 y1 x2 y2 src dst : Z) (c1 e1 : Chess) :
  rd (board c) y1 x1 = Some src -> rd (board c) y2 x2 = Some dst ->
  own t dst = false ->
  is_pawn src = true -> y2 = last_rank c ->
  MovePiece c x1 y1 x2 y2 false key_q false = Some c1 ->
  MovePiece E x1 y1 x2 y2 false key_q false = Some e1 ->
  IsCheck (board c1) t = IsCheck (board e1) t.
Proof.
  intros Hs Hd Ho Ep Hl Hc He.
  pose proof (inv_wf _ HI) as Hwf. pose proof erased_wf as HwfE.
  destruct (rd_Some_bounds _ _ _ _ Hs) as [Hy1 Hx1].
  destruct (rd_Some_bounds _ _ _ _ Hd) as [Hy2 Hx2].
  pose proof (no_rook_off_corner _ _ _ Hs (proj2 (pawn_not_king_rook _ Ep))) as N1.
  pose proof (target_off_corner _ _ _ Hd Ho) as N2.
  assert (HsE : rd (board E) y1 x1 = Some src) by (now rewrite rdE).
  assert (HdE : rd (board E) y2 x2 = Some dst) by (now rewrite rdE).
  assert (Hrnd : (if whites_turn c then white_bot_random c
                  else black_bot_random c) = false).
  { destruct (inv_settings _ HI) as [-> ->]. now destruct (whites_turn c). }
  rewrite (MovePiece_promotion c x1 y1 x2 y2 src dst false key_q Hs Hd Ep Hl Hwf Hrnd)
    in Hc.
  rewrite (MovePiece_promotion E x1 y1 x2 y2 src dst false key_q HsE HdE Ep Hl
             HwfE Hrnd) in He.
  injection Hc as <-. injection He as <-.
  corner_finish N1 N2 N1 N2.
Qed.

(** A capture en passant. *)
Lemma erased_en_passant (x1 y1 x2 y2 src : Z) (c1 e1 : Chess) :
  rd (board c) y1 x1 = Some src -> rd (board c) y2 x2 = Some EMPTY ->
  is_pawn src = true -> y2 <> last_rank c -> x1 <> x2 ->
  y1 <> L \/ x2 <> 7 ->
  MovePiece c x1 y1 x2 y2 false key_q false = Some c1 ->
  MovePiece E x1 y1 x2 y2 false key_q false = Some e1 ->
  IsCheck (board c1) t = IsCheck (board e1) t.
Proof.
  intros Hs Hd Ep Hl Hx N3 Hc He.
  pose proof (inv_wf _ HI) as Hwf. pose proof erased_wf as HwfE.
  destruct (rd_Some_bounds _ _ _ _ Hs) as [Hy1 Hx1].
  destruct (rd_Some_bounds _ _ _ _ Hd) as [Hy2 Hx2].
  pose proof (no_rook_off_corner _ _ _ Hs (proj2 (pawn_not_king_rook _ Ep))) as N1.
  pose proof (target_off_corner _ _ _ Hd (own_not_EMPTY t)) as N2.
  assert (HsE : rd (board E) y1 x1 = Some src) by (now rewrite rdE).
  assert (HdE : rd (board E) y2 x2 = Some EMPTY) by (now rewrite rdE).
  rewrite (MovePiece_en_passant c x1 y1 x2 y2 src false key_q Hs Hd Ep Hl Hx Hwf)
    in Hc.
  rewrite (MovePiece_en_passant E x1 y1 x2 y2 src false key_q HsE HdE Ep Hl Hx HwfE)
    in He.
  injection Hc as <-. injection He as <-.
  corner_finish N1 N2 N3 N3.
Qed.

(** A rook that leaves a square other than the corner, or a king that
    steps. *)
Lemma erased_cleared (x1 y1 x2 y2 src dst : Z) (c1 e1 : Chess) :
  rd (board c) y1 x1 = Some src -> rd (board c) y2 x2 = Some dst ->
  own t dst = false -> y1 <> L \/ x1 <> 7 ->
  (is_rook src = true \/
   (is_king src = true /\
    (castling (GetCurrentPlayerConst c) = false \/ (x2 <> 2 /\ x2 <> 6)))) ->
  MovePiece c x1 y1 x2 y2 false key_q false = Some c1 ->
  MovePiece E x1 y1 x2 y2 false key_q false = Some e1 ->
  IsCheck (board c1) t = IsCheck (board e1) t.
Proof.
  intros Hs Hd Ho N1 Hkind Hc He.
  pose proof (inv_wf _ HI) as Hwf. pose proof erased_wf as HwfE.
  destruct (rd_Some_bounds _ _ _ _ Hs) as [Hy1 Hx1].
  destruct (rd_Some_bounds _ _ _ _ Hd) as [Hy2 Hx2].
  pose proof (target_off_corner _ _ _ Hd Ho) as N2.
  assert (HsE : rd (board E) y1 x1 = Some src) by (now rewrite rdE).
  assert (HdE : rd (board E) y2 x2 = Some dst) by (now rewrite rdE).
  destruct Hkind as [Er|[Ek Hstep]].
  - rewrite (MovePiece_rook c x1 y1 x2 y2 src dst false key_q Hs Hd Er) in Hc.
    rewrite (MovePiece_rook E x1 y1 x2 y2 src dst false key_q HsE HdE Er) in He.
    injection Hc as <-. injection He as <-.
    corner_finish N1 N2 N1 N2.
  - rewrite (MovePiece_king_step c x1 y1 x2 y2 src dst false key_q Hs Hd Ek Hstep)
      in Hc.
    rewrite (MovePiece_king_step E x1 y1 x2 y2 src dst false key_q HsE HdE Ek Hstep)
      in He.
    injection Hc as <-. injection He as <-.
    corner_finish N1 N2 N1 N2.
Qed.

(** Castling on the queen's wing. *)
Lemma erased_castle_queenside (c1 e1 : Chess) :
  castling (GetCurrentPlayerConst c) = true ->
  rd (board c) L 4 = Some (king_of t) ->
  rd (board c) L 0 = Some (rook_of t) ->
  MovePiece c 4 L 2 L false key_q false = Some c1 ->
  MovePiece E 4 L 2 L false key_q false = Some e1 ->
  IsCheck (board c1) t = IsCheck (board e1) t.
Proof.
  intros Hf Hk Hr Hc He.
  pose proof (inv_wf _ HI) as Hwf. pose proof erased_wf as HwfE.
  pose proof (line_of_bounds t) as HL. fold L in HL.
  assert (N4 : L <> L \/ 4 <> 7) by (right; lia).
  assert (N2 : L <> L \/ 2 <> 7) by (right; lia).
  assert (N0 : L <> L \/ 0 <> 7) by (right; lia).
  assert (N3 : L <> L \/ 3 <> 7) by (right; lia).
  assert (HkE : rd (board E) L 4 = Some (king_of t)) by (now rewrite rdE).
  assert (HrE : rd (board E) L 0 = Some (rook_of t)) by (now rewrite rdE).
  unfold L, t in Hc, He.
  rewrite (MovePiece_castle c 2 0 3 (rook_of t) false key_q Hf Hk
             (or_introl (conj eq_refl (conj eq_refl eq_refl))) Hr Hwf) in Hc.
  change (MovePiece E 4 (line_of (whites_turn E)) 2 (line_of (whites_turn E))
            false key_q false = Some e1) in He.
  rewrite (MovePiece_castle E 2 0 3 (rook_of t) false key_q Hf HkE
             (or_introl (conj eq_refl (conj eq_refl eq_refl))) HrE HwfE) in He.
  injection Hc as <-. injection He as <-.
  change (line_of (whites_turn E)) with L. change (line_of (whites_turn c)) with L.
  corner_finish N4 N2 N0 N3.
Qed.

(** The king of the mover, if it is on the board, is on its first
    square: the rook is loose. *)
Lemma king_home (y x : Z) :
  rd (board c) y x = Some (king_of t) -> x = 4 /\ y = L.
Proof. intros H. apply (inv_kings _ HI t x y); [apply Hloose|exact H]. Qed.

(** The rook that leaves the corner. *)
Lemma erased_corner_rook (x2 y2 dst : Z) (c1 e1 : Chess) :
  rd (board c) y2 x2 = Some dst -> own t dst = false ->
  rook_shape c 7 L x2 y2 ->
  MovePiece c 7 L x2 y2 false key_q false = Some c1 ->
  MovePiece E 7 L x2 y2 false key_q false = Some e1 ->
  IsCheck (board c1) t = IsCheck (board e1) t.
Proof.
  intros Hd Ho Hshape Hc He.
  pose proof (inv_wf _ HI) as Hwf. pose proof erased_wf as HwfE.
  pose proof (line_of_bounds t) as HL. fold L in HL.
  destruct (rd_Some_bounds _ _ _ _ Hd) as [Hy2 Hx2].
  pose proof (target_off_corner _ _ _ Hd Ho) as N2.
  pose proof corner_rook as Hs.
  assert (HsE : rd (board E) L 7 = Some EMPTY)
    by (apply rd_erased_corner; exact Hwf).
  assert (HdE : rd (board E) y2 x2 = Some dst) by (now rewrite rdE).
  assert (Er : is_rook (rook_of t) = true) by (unfold t; now destruct (whites_turn c)).
  rewrite (MovePiece_rook c 7 L x2 y2 (rook_of t) dst false key_q Hs Hd Er) in Hc.
  rewrite (MovePiece_plain E 7 L x2 y2 EMPTY dst false key_q HsE HdE
             eq_refl eq_refl eq_refl) in He.
  injection Hc as <-. injection He as <-. cbn [board].
  assert (F2 : (y2 =? L) && (x2 =? 7) = false) by (now apply not_at).
  assert (Hbe : forall y x,
            rd (upd (upd (board E) (cell y2 x2) EMPTY) (cell L 7) EMPTY) y x
            = if (y =? L) && (x =? 7) then Some EMPTY
              else if (y =? y2) && (x =? x2) then Some EMPTY
              else rd (board c) y x).
  { intros y x. rdu. unfold E. rewrite rd_erased by exact Hwf.
    fold t. fold L. now destruct ((y =? L) && (x =? 7)). }
  assert (Hbc : forall y x,
            rd (upd (upd (board c) (cell y2 x2) (rook_of t)) (cell L 7) EMPTY) y x
            = if (y =? L) && (x =? 7) then Some EMPTY
              else if (y =? y2) && (x =? x2) then Some (rook_of t)
              else rd (board c) y x).
  { intros y x. now rdu. }
  apply (IsCheck_vacated _ _ t x2 y2 (rook_of t)).
  - intros y x Hne. rewrite Hbe, Hbc. now rewrite (not_at _ _ _ _ Hne).
  - rewrite Hbc, F2. now rewrite !Z.eqb_refl.
  - rewrite Hbe, F2. now rewrite !Z.eqb_refl.
  - apply rook_quiet.
  - apply rook_of_not_EMPTY.
  - intros x y di dj Hk Hdi Hdj Hdir.
    rewrite Hbc in Hk.
    destruct ((y =? L) && (x =? 7)); [now destruct t|].
    destruct ((y =? y2) && (x =? x2)); [now destruct t|].
    destruct (king_home _ _ Hk) as [-> ->].
    destruct Hshape as [->|[-> Hpath]].
    + (* along the h-file *)
      destruct (Z.eq_dec di 1) as [->|].
      * left. intros m _. apply ray_outside. reflexivity.
      * right. intros k. left. lia.
    + (* along the rank, towards the king *)
      assert (Hx : x2 = 5 \/ x2 = 6).
      { destruct N2 as [N|N]; [contradiction|].
        destruct (Z.eq_dec x2 4) as [->|].
        { rewrite Hk in Hd. injection Hd as <-. now destruct t. }
        destruct (Z_lt_le_dec x2 4) as [Hlt|Hge]; [|lia].
        rewrite (Hpath 4) in Hk by lia. now destruct t. }
      destruct (Z.eq_dec dj 0) as [->|]; [|right; intros k; right; nia].
      destruct (Z.eq_dec di 1) as [->|]; [|right; intros k; left; lia].
      left. intros m _.
      pose proof (slider_hostile t 1 0) as H1.
      pose proof (queen_hostile t) as H2.
      apply (hostile_not_EMPTY t) in H1, H2.
      assert (R7 : rd (upd (upd (board E) (cell L x2) EMPTY) (cell L 7) EMPTY) L 7
                   = Some EMPTY).
      { rewrite Hbe. now rewrite !Z.eqb_refl. }
      rewrite Z.add_0_r.
      destruct Hx as [-> | ->].
      * assert (R6 : rd (upd (upd (board E) (cell L 5) EMPTY) (cell L 7) EMPTY) L 6
                     = Some EMPTY).
        { rewrite Hbe. rewrite !Z.eqb_refl. cbn. apply Hpath. lia. }
        destruct m as [|m]; [reflexivity|].
        rewrite (ray_through _ _ _ _ _ _ _ _ R6 H1 H2).
        destruct m as [|m]; [reflexivity|].
        rewrite Z.add_0_r.
        rewrite (ray_through _ _ _ _ _ _ _ _ R7 H1 H2).
        apply ray_outside. reflexivity.
      * destruct m as [|m]; [reflexivity|].
        rewrite (ray_through _ _ _ _ _ _ _ _ R7 H1 H2).
        apply ray_outside. reflexivity.
Qed.

(** Castling on the king's wing: the rook is missing from f1 on the
    second board, and what lies beyond on the rank did not attack the
    king on e1. *)
Lemma erased_castle_kingside (c1 e1 : Chess) :
  castling (GetCurrentPlayerConst c) = true ->
  rd (board c) L 4 = Some (king_of t) ->
  IsCheck (board c) t = Some false ->
  MovePiece c 4 L 6 L false key_q false = Some c1 ->
  MovePiece E 4 L 6 L false key_q false = Some e1 ->
  IsCheck (board c1) t = IsCheck (board e1) t.
Proof.
  intros Hf Hk Hsafe Hc He.
  pose proof (inv_wf _ HI) as Hwf. pose proof erased_wf as HwfE.
  pose proof (line_of_bounds t) as HL. fold L in HL.
  pose proof corner_rook as Hr.
  assert (HkE : rd (board E) L 4 = Some (king_of t))
    by (rewrite rdE; [exact Hk|right; lia]).
  assert (HrE : rd (board E) L 7 = Some EMPTY)
    by (apply rd_erased_corner; exact Hwf).
  unfold L, t in Hc.
  rewrite (MovePiece_castle c 6 7 5 (rook_of t) false key_q Hf Hk
             (or_intror (conj eq_refl (conj eq_refl eq_refl))) Hr Hwf) in Hc.
  change (MovePiece E 4 (line_of (whites_turn E)) 6 (line_of (whites_turn E))
            false key_q false = Some e1) in He.
  rewrite (MovePiece_castle E 6 7 5 EMPTY false key_q Hf HkE
             (or_intror (conj eq_refl (conj eq_refl eq_refl))) HrE HwfE) in He.
  injection Hc as <-. injection He as <-. cbn [board].
  change (line_of (whites_turn E)) with L. change (line_of (whites_turn c)) with L.
  change (king_of (whites_turn E)) with (king_of t).
  change (king_of (whites_turn c)) with (king_of t).
  set (bc := upd (upd (upd (upd (board c) (cell L 5) (rook_of t)) (cell L 7) EMPTY)
                      (cell L 6) (king_of t)) (cell L 4) EMPTY).
  set (be := upd (upd (upd (upd (board E) (cell L 5) EMPTY) (cell L 7) EMPTY)
                      (cell L 6) (king_of t)) (cell L 4) EMPTY).
  assert (Hbc : forall y x,
            rd bc y x
            = if (y =? L) && (x =? 4) then Some EMPTY
              else if (y =? L) && (x =? 6) then Some (king_of t)
              else if (y =? L) && (x =? 7) then Some EMPTY
              else if (y =? L) && (x =? 5) then Some (rook_of t)
              else rd (board c) y x).
  { intros y x. unfold bc. now rdu. }
  assert (Hbe : forall y x,
            rd be y x
            = if (y =? L) && (x =? 4) then Some EMPTY
              else if (y =? L) && (x =? 6) then Some (king_of t)
              else if (y =? L) && (x =? 7) then Some EMPTY
              else if (y =? L) && (x =? 5) then Some EMPTY
              else rd (board c) y x).
  { intros y x. unfold be. rdu. unfold E. rewrite rd_erased by exact Hwf.
    fold t. fold L.
    destruct ((y =? L) && (x =? 4)); [reflexivity|].
    destruct ((y =? L) && (x =? 6)); [reflexivity|].
    now destruct ((y =? L) && (x =? 7)). }
  apply (IsCheck_vacated bc be t 5 L (rook_of t)).
  - intros y x Hne. rewrite Hbe, Hbc. now rewrite (not_at _ _ _ _ Hne).
  - rewrite Hbc. now rewrite !Z.eqb_refl.
  - rewrite Hbe. now rewrite !Z.eqb_refl.
  - apply rook_quiet.
  - apply rook_of_not_EMPTY.
  - intros x y di dj Hking Hdi Hdj Hdir.
    rewrite Hbc in Hking.
    destruct (Z.eqb_spec y L) as [->|Hy].
    2:{ cbn [andb] in Hking. destruct (king_home _ _ Hking) as [_ ->].
        contradiction. }
    cbn [andb] in Hking.
    destruct (Z.eqb_spec x 4) as [->|Hx4]; [now destruct t|].
    destruct (Z.eqb_spec x 6) as [->|Hx6].
    2:{ destruct (x =? 7); [now destruct t|].
        destruct (x =? 5); [now destruct t|].
        destruct (king_home _ _ Hking) as [-> _]. contradiction. }
    destruct (Z.eq_dec dj 0) as [->|]; [|right; intros k; right; nia].
    destruct (Z.eq_dec di (-1)) as [->|]; [|right; intros k; left; lia].
    left. intros m Hm.
    change (slider t (-1) 0) with (W_ROOK - 7 * b2z t).
    assert (H1 : W_ROOK - 7 * b2z t <> EMPTY) by (now destruct t).
    assert (H2 : W_QUEEN - 7 * b2z t <> EMPTY) by (now destruct t).
    assert (R4 : rd be L 4 = Some EMPTY).
    { rewrite Hbe. now rewrite !Z.eqb_refl. }
    rewrite Z.add_0_r. change (5 + -1) with 4.
    destruct m as [|m]; [reflexivity|].
    rewrite (ray_through _ _ _ _ _ _ _ _ R4 H1 H2).
    rewrite Z.add_0_r. change (4 + -1) with 3.
    destruct (IsCheck_false_west _ _ Hsafe) as (kx & ky & Hkc & Hwest).
    destruct (king_home _ _ Hkc) as [-> ->].
    change (4 - 1) with 3 in Hwest.
    rewrite <- (ray_agree (board c) be).
    + apply (ray_false_less _ _ _ _ _ 8%nat); [lia|exact Hwest].
    + intros k. rewrite Hbe. rewrite Z.mul_0_r, Z.add_0_r, Z.eqb_refl.
      cbn [andb].
      replace (3 + Z.of_nat k * -1 =? 4) with false by (symmetry; apply Z.eqb_neq; lia).
      replace (3 + Z.of_nat k * -1 =? 6) with false by (symmetry; apply Z.eqb_neq; lia).
      replace (3 + Z.of_nat k * -1 =? 7) with false by (symmetry; apply Z.eqb_neq; lia).
      replace (3 + Z.of_nat k * -1 =? 5) with false by (symmetry; apply Z.eqb_neq; lia).
      reflexivity.
Qed.

(** With or without the loose rook, the king is in check after the same
    moves. *)
Lemma erased_same_check (x1 y1 x2 y2 : Z) (c1 e1 : Chess) :
  plausible c (x1, y1, x2, y2) -> castles_safely c (x1, y1, x2, y2) ->
  MovePiece c x1 y1 x2 y2 false key_q false = Some c1 ->
  MovePiece E x1 y1 x2 y2 false key_q false = Some e1 ->
  IsCheck (board c1) t = IsCheck (board e1) t.
Proof.
  intros (Hne & src & dst & Hs & Hd & Hsrc & Hdst & Hpawn & Hrook & Hking)
         Hsafe Hc He.
  pose proof (inv_wf _ HI) as Hwf.
  destruct (rd_Some_bounds _ _ _ _ Hd) as [Hy2 Hx2].
  assert (Hflag : flag_of c t = true) by apply Hloose.
  destruct (is_pawn src) eqn:Ep.
  { assert (Hown : own (whites_turn c) src = true).
    { destruct Hsrc as [->|H]; [discriminate Ep|exact H]. }
    destruct (Z.eq_dec y2 (last_rank c)) as [Hl|Hl].
    - apply (erased_promotion x1 y1 x2 y2 src dst); assumption.
    - specialize (Hpawn eq_refl).
      assert (Hcases : (x1 = x2 \/ dst <> EMPTY) \/
                       (x1 <> x2 /\ dst = EMPTY /\
                        GetEnPassant c x1 y1 = Some x2)).
      { destruct Hpawn as [[-> _]|[[-> _]|(Ha & Hy & H3)]]; [tauto|tauto|].
        destruct (Z.eq_dec dst EMPTY) as [->|Hdd]; [|tauto].
        right. split; [lia|]. split; [reflexivity|].
        destruct H3 as [H3|[H3|H3]]; [contradiction|contradiction|exact H3]. }
      destruct Hcases as [Hcs|(Hx & -> & Hep)].
      + apply (erased_pawn_step x1 y1 x2 y2 src dst); assumption.
      + apply (erased_en_passant x1 y1 x2 y2 src); try assumption.
        apply (off_corner y1 x2 (pawn_of (negb t))).
        * apply (en_passant_victim c x1 y1 x2); [assumption|assumption|lia].
        * unfold t. destruct (whites_turn c); discriminate. }
  destruct (is_king src) eqn:Ek.
  { assert (Hown : own (whites_turn c) src = true).
    { destruct Hsrc as [->|H]; [discriminate Ek|exact H]. }
    pose proof (own_king _ _ Ek Hown) as Esrc. subst src.
    pose proof Hflag as Hf. unfold t in Hf. rewrite flag_of_current in Hf.
    destruct (king_home _ _ Hs) as [-> ->].
    destruct (Z.eq_dec x2 2) as [E2|N2'].
    - destruct (Hking eq_refl Hflag (or_introl E2)) as (_ & _ & -> & Hq & _).
      destruct (Hq E2) as (R0 & _). subst x2.
      apply erased_castle_queenside; assumption.
    - destruct (Z.eq_dec x2 6) as [E6|N6].
      + destruct (Hking eq_refl Hflag (or_intror E6)) as (_ & _ & -> & _).
        subst x2.
        apply erased_castle_kingside; try assumption.
        apply Hsafe; [exact Hs|exact Hflag|reflexivity].
      + apply (erased_cleared 4 L x2 y2 (king_of (whites_turn c)) dst);
          try assumption; [right; lia|].
        right. split; [assumption|]. right. now split. }
  destruct (is_rook src) eqn:Er.
  { assert (Hown : own (whites_turn c) src = true).
    { destruct Hsrc as [->|H]; [discriminate Er|exact H]. }
    destruct (Z.eq_dec y1 L) as [->|Ny].
    - destruct (Z.eq_dec x1 7) as [->|Nx].
      + apply (erased_corner_rook x2 y2 dst); try assumption.
        now apply Hrook.
      + apply (erased_cleared x1 L x2 y2 src dst); try assumption;
          [now right|now left].
    - apply (erased_cleared x1 y1 x2 y2 src dst); try assumption;
        [now left|now left]. }
  apply (erased_plain x1 y1 x2 y2 src dst); assumption.
Qed.

End Erasure.

(** ** The piece a pawn is promoted to *)

Lemma MovePiece_pawn_key_free (c : Chess) (x1 y1 x2 y2 : Z) (mp mp' : bool)
    (key key' : PromotionKey) (ub : bool) :
  y2 <> last_rank c ->
  MovePiece_pawn c x1 y1 x2 y2 mp key ub = MovePiece_pawn c x1 y1 x2 y2 mp' key' ub.
Proof.
  intros H. unfold MovePiece_pawn. fold (last_rank c).
  apply Z.eqb_neq in H. now rewrite H.
Qed.

(** Only a promotion looks at the key. *)
Lemma MovePiece_key_free (c : Chess) (x1 y1 x2 y2 : Z) (mp mp' : bool)
    (key key' : PromotionKey) (ub : bool) (src : Z) :
  rd (board c) y1 x1 = Some src ->
  (is_pawn src = true -> y2 <> last_rank c) ->
  MovePiece c x1 y1 x2 y2 mp key ub = MovePiece c x1 y1 x2 y2 mp' key' ub.
Proof.
  intros Hs Hp. rewrite !MovePiece_unfold.
  destruct (AppendToAllGameMoves c x1 y1 x2 y2) as [ca|] eqn:Ea; [|reflexivity].
  assert (Hca : board ca = board c /\ whites_turn ca = whites_turn c).
  { unfold AppendToAllGameMoves in Ea. rewrite Hs in Ea.
    destruct (castling (GetCurrentPlayerConst c) && _ && _).
    - injection Ea as <-. now split.
    - destruct (rd (board c) y2 x2); [|discriminate].
      injection Ea as <-. now split. }
  destruct Hca as [Hb Ht]. rewrite Hb, Hs. cbv beta iota.
  destruct (is_pawn src); [|reflexivity].
  rewrite (MovePiece_pawn_key_free ca x1 y1 x2 y2 mp mp' key key' ub);
    [reflexivity|].
  unfold last_rank. rewrite Ht. now apply Hp.
Qed.

Lemma promoted_quiet (t : bool) (mp : bool) (key : PromotionKey) :
  quiet t (promoted t mp key) /\ promoted t mp key <> EMPTY.
Proof. split; [right|]; destruct t, mp, key; (split || idtac); discriminate || reflexivity. Qed.

(** The king is in check or not whatever the pawn is promoted to. *)
Lemma promotion_same_check (c : Chess) (x1 y1 x2 y2 : Z) (mp : bool)
    (key : PromotionKey) (c1 c1' : Chess) :
  Inv c -> plausible c (x1, y1, x2, y2) ->
  MovePiece c x1 y1 x2 y2 mp key false = Some c1 ->
  MovePiece c x1 y1 x2 y2 false key_q false = Some c1' ->
  IsCheck (board c1) (whites_turn c) = IsCheck (board c1') (whites_turn c).
Proof.
  intros HI (Hne & src & dst & Hs & Hd & Hsrc & Hdst & Hpawn & Hrook & Hking)
         H1 H2.
  pose proof (inv_wf _ HI) as Hwf.
  destruct (rd_Some_bounds _ _ _ _ Hs) as [Hy1 Hx1].
  destruct (rd_Some_bounds _ _ _ _ Hd) as [Hy2 Hx2].
  destruct (is_pawn src) eqn:Ep.
  2:{ rewrite (MovePiece_key_free c x1 y1 x2 y2 mp false key key_q false src Hs)
        in H1 by (rewrite Ep; discriminate).
      congruence. }
  destruct (Z.eq_dec y2 (last_rank c)) as [Hl|Hl].
  2:{ rewrite (MovePiece_key_free c x1 y1 x2 y2 mp false key key_q false src Hs)
        in H1 by (intros _; exact Hl).
      congruence. }
  assert (Hrnd : (if whites_turn c then white_bot_random c
                  else black_bot_random c) = false).
  { destruct (inv_settings _ HI) as [-> ->]. now destruct (whites_turn c). }
  rewrite (MovePiece_promotion c x1 y1 x2 y2 src dst mp key Hs Hd Ep Hl Hwf Hrnd)
    in H1.
  rewrite (MovePiece_promotion c x1 y1 x2 y2 src dst false key_q Hs Hd Ep Hl Hwf Hrnd)
    in H2.
  injection H1 as <-. injection H2 as <-. cbn [board].
  assert (F : (y2 =? y1) && (x2 =? x1) = false)
    by (apply not_at; destruct Hne; [right|left]; congruence).
  apply (IsCheck_same_kind _ _ (whites_turn c) x2 y2
           (promoted (whites_turn c) mp key)
           (promoted (whites_turn c) false key_q)).
  - intros y x Hn. rdu. rewrite (not_at _ _ _ _ Hn).
    now destruct ((y =? y1) && (x =? x1)).
  - rdu. now rewrite F, !Z.eqb_refl.
  - rdu. now rewrite F, !Z.eqb_refl.
  - apply promoted_quiet.
  - apply promoted_quiet.
  - apply promoted_quiet.
  - apply promoted_quiet.
Qed.

(** ** The moves [AllMoves] keeps *)

(** The answer of [IsCheck] after a candidate move is the same on every
    game object the filtering loop goes through, and for every way of
    applying the move. *)
Lemma check_of_worn (c a b a1 : Chess) (x1 y1 x2 y2 : Z) (mp : bool)
    (key : PromotionKey) :
  let t := whites_turn c in
  Inv c -> plausible c (x1, y1, x2, y2) -> castles_safely c (x1, y1, x2, y2) ->
  worn (eq t) c a -> worn (eq t) c b ->
  MovePiece a x1 y1 x2 y2 false key_q false = Some a1 ->
  exists b1, MovePiece b x1 y1 x2 y2 mp key false = Some b1 /\
             IsCheck (board b1) t = IsCheck (board a1) t.
Proof.
  intros t HI Hpl Hsafe Ha Hb Hm.
  pose proof (inv_wf _ HI) as Hwf.
  pose proof (Inv_worn _ _ _ Hb HI) as HIb.
  pose proof (plausible_worn _ _ _ _ Hb Hpl) as Hplb.
  destruct (MovePiece_keeps b x1 y1 x2 y2 mp key HIb Hplb) as (b1 & Hb1 & _).
  destruct (MovePiece_keeps b x1 y1 x2 y2 false key_q HIb Hplb) as (b1' & Hb1' & _).
  exists b1. split; [exact Hb1|].
  pose proof (promotion_same_check b x1 y1 x2 y2 mp key b1 b1' HIb Hplb Hb1 Hb1')
    as Hsame.
  rewrite (worn_turn _ _ _ Hb) in Hsame. fold t in Hsame. rewrite Hsame.
  destruct (worn_own_cases c a Hwf Ha) as [->|[Hl ->]];
    destruct (worn_own_cases c b Hwf Hb) as [->|[Hl' ->]].
  - congruence.
  - symmetry. now apply (erased_same_check c HI Hl' x1 y1 x2 y2).
  - now apply (erased_same_check c HI Hl x1 y1 x2 y2).
  - congruence.
Qed.

Lemma plausible_bounds (c : Chess) (x1 y1 x2 y2 : Z) :
  plausible c (x1, y1, x2, y2) ->
  0 <= x1 < 8 /\ 0 <= y1 < 8 /\ 0 <= x2 < 8 /\ 0 <= y2 < 8.
Proof.
  intros (_ & src & dst & Hs & Hd & _).
  destruct (rd_Some_bounds _ _ _ _ Hs). destruct (rd_Some_bounds _ _ _ _ Hd).
  tauto.
Qed.

Lemma candidate_coordinates (c : Chess) (x1 y1 x2 y2 : Z) :
  plausible c (x1, y1, x2, y2) ->
  ChangeToRealCoordinates (ToString x1 y1 x2 y2) = Some (x1, y1, x2, y2).
Proof.
  intros H. destruct (plausible_bounds _ _ _ _ _ H) as (? & ? & ? & ?).
  rewrite <- (app_nil_r (ToString x1 y1 x2 y2)).
  now apply ChangeToRealCoordinates_ToString.
Qed.

(** One pass of the filtering loop. *)
Lemma IsCheck_move_worn (P : bool -> Prop) (a a' : Chess) (x1 y1 x2 y2 : Z)
    (chk : bool) :
  Inv a -> plausible a (x1, y1, x2, y2) -> P (whites_turn a) ->
  IsCheck_move a (ToString x1 y1 x2 y2) = Some (chk, a') ->
  worn P a a' /\
  exists a1, MovePiece a x1 y1 x2 y2 false key_q false = Some a1 /\
             IsCheck (board a1) (whites_turn a) = Some chk.
Proof.
  intros HI Hpl HP H. unfold IsCheck_move in H.
  rewrite (candidate_coordinates _ _ _ _ _ Hpl) in H.
  destruct (MovePiece_keeps a x1 y1 x2 y2 false key_q HI Hpl) as (a1 & Ha1 & HI1 & Ht).
  rewrite Ha1 in H. rewrite Ht, negb_involutive in H.
  destruct (IsCheck (board a1) (whites_turn a)) as [r|] eqn:Hr; [|discriminate].
  destruct (MovePieceBack a1 x1 y1 x2 y2) as [a2|] eqn:Hu; [|discriminate].
  injection H as <- <-. split.
  - apply (undo_after P a a1 a1 a2 x1 y1 x2 y2 key_q); try assumption.
    apply worn_refl. apply (inv_wf _ HI1).
  - exists a1. now split.
Qed.

(** A move the loop keeps was found not to leave the king in check, on
    one of the game objects the loop went through. *)
Lemma filter_moves_legal (c : Chess) (l : list str) :
  let t := whites_turn c in
  Inv c ->
  forall a l' a',
    worn (eq t) c a -> (forall m, In m l -> candidate c m) ->
    filter_moves a l = Some (l', a') ->
    worn (eq t) c a' /\
    forall m, In m l' ->
      exists x1 y1 x2 y2 a0 a1,
        m = ToString x1 y1 x2 y2 /\ plausible c (x1, y1, x2, y2) /\
        castles_safely c (x1, y1, x2, y2) /\ worn (eq t) c a0 /\
        MovePiece a0 x1 y1 x2 y2 false key_q false = Some a1 /\
        IsCheck (board a1) t = Some false.
Proof.
  intros t HI. induction l as [|m l IH]; intros a l' a' Hw Hc H.
  - injection H as <- <-. split; [exact Hw|]. intros m [].
  - cbn [filter_moves] in H.
    destruct (IsCheck_move a m) as [[chk a1]|] eqn:Em; [|discriminate].
    destruct (filter_moves a1 l) as [[t' a2]|] eqn:Ef; [|discriminate].
    injection H as <- <-.
    destruct (Hc m (or_introl eq_refl)) as (x1 & y1 & x2 & y2 & -> & Hpl & Hsafe).
    pose proof (Inv_worn _ _ _ Hw HI) as HIa.
    pose proof (plausible_worn _ _ _ _ Hw Hpl) as Hpla.
    assert (HP : t = whites_turn a) by (symmetry; apply (worn_turn _ _ _ Hw)).
    destruct (IsCheck_move_worn (eq t) a a1 x1 y1 x2 y2 chk HIa Hpla HP Em)
      as [Hw1 (a0 & Ha0 & Hchk)].
    pose proof (worn_trans _ _ _ _ Hw Hw1) as Hwc.
    destruct (IH a1 t' a2 Hwc (fun m' Hin => Hc m' (or_intror Hin)) Ef)
      as [Hw2 Hkept].
    split; [exact Hw2|].
    intros m' Hin. destruct chk; [now apply Hkept|].
    destruct Hin as [<-|Hin]; [|now apply Hkept].
    exists x1, y1, x2, y2, a, a0. rewrite <- HP in Hchk. tauto.
Qed.

Lemma MovePiece_any (c c0 : Chess) (x1 y1 x2 y2 : Z) (mp : bool)
    (key : PromotionKey) (ub : bool) :
  MovePiece c x1 y1 x2 y2 mp key false = Some c0 ->
  exists c1, MovePiece c x1 y1 x2 y2 mp key ub = Some c1 /\ same_game c0 c1.
Proof.
  intros H. destruct ub.
  - now apply MovePiece_shown.
  - exists c0. split; [exact H|apply same_game_refl].
Qed.

(** [AllMoves] on a game object that has the invariant: the object it
    leaves is the one it found or that one without the mover's h-file
    rook, and on either every move of the list can be applied and leaves
    the mover's king out of check. *)
Lemma AllMoves_sound (c c' : Chess) (l : list str) :
  let t := whites_turn c in
  Inv c -> AllMoves c = Some (l, c') ->
  worn (eq t) c c' /\
  forall m, In m l ->
    exists x1 y1 x2 y2,
      m = ToString x1 y1 x2 y2 /\ plausible c (x1, y1, x2, y2) /\
      forall b mp key ub,
        worn (eq t) c b ->
        exists c1, MovePiece b x1 y1 x2 y2 mp key ub = Some c1 /\
                   IsCheck (board c1) t = Some false.
Proof.
  intros t HI H. unfold AllMoves in H.
  destruct (pseudo_legal c) as [l0|] eqn:Ep; [|discriminate].
  destruct (filter_moves_legal c l0 HI c l c'
              (worn_refl _ _ (inv_wf _ HI))
              (fun m Hin => pseudo_legal_plausible c l0 m HI Ep Hin) H)
    as [Hw Hkept].
  split; [exact Hw|].
  intros m Hin.
  destruct (Hkept m Hin) as (x1 & y1 & x2 & y2 & a0 & a1 & -> & Hpl & Hsafe &
                             Hw0 & Hm & Hchk).
  exists x1, y1, x2, y2. split; [reflexivity|]. split; [exact Hpl|].
  intros b mp key ub Hb.
  destruct (check_of_worn c a0 b a1 x1 y1 x2 y2 mp key HI Hpl Hsafe Hw0 Hb Hm)
    as (b1 & Hb1 & Hsame).
  destruct (MovePiece_any b b1 x1 y1 x2 y2 mp key ub Hb1) as (c1 & Hc1 & Hg).
  exists c1. split; [exact Hc1|].
  destruct Hg as (Hbb & _). unfold t. rewrite Hbb, Hsame. exact Hchk.
Qed.

(** ** The search wears the game object and no more *)

Lemma worn_mono (P Q : bool -> Prop) (c c' : Chess) :
  (forall t, P t -> Q t) -> worn P c c' -> worn Q c c'.
Proof.
  intros HPQ H. split; try apply H.
  intros y x Hy Hx.
  destruct (worn_board _ _ _ H y x Hy Hx) as [E|(E & Hx7 & t & HP & Hl)].
  - now left.
  - right. split; [exact E|]. split; [exact Hx7|]. exists t. split; [auto|exact Hl].
Qed.

Lemma emplace_In (k k' : Key) (m : list Key) :
  In k (emplace k' m) -> k = k' \/ In k m.
Proof.
  induction m as [|h m IH]; cbn [emplace].
  - intros [<-|[]]. now left.
  - destruct (key_ltb k' h).
    + intros [<-|H]; [now left|now right].
    + destruct (key_ltb h k').
      * intros [<-|H]; [right; now left|].
        destruct (IH H) as [->|H']; [now left|right; now right].
      * intros H. now right.
Qed.

Lemma keys_of_moves (all_moves : list str) :
  forall (acc : option (list Key)) (keys : list Key),
    fold_left (fun acc move => m <- acc ;; k <- ChangeToRealCoordinates move ;;
                               Some (emplace k m))
              all_moves acc = Some keys ->
    exists acc0, acc = Some acc0 /\
      forall k, In k keys ->
        In k acc0 \/
        exists m, In m all_moves /\ ChangeToRealCoordinates m = Some k.
Proof.
  induction all_moves as [|m l IH]; intros acc keys H; cbn [fold_left] in H.
  - exists keys. split; [exact H|]. intros k Hk. now left.
  - destruct (IH _ _ H) as (acc1 & E1 & Hk1).
    destruct acc as [acc0|]; [|discriminate].
    destruct (ChangeToRealCoordinates m) as [k0|] eqn:Ek; [|discriminate].
    injection E1 as <-.
    exists acc0. split; [reflexivity|].
    intros k Hk. destruct (Hk1 k Hk) as [Hin|(m' & Hm' & Ec)].
    + apply emplace_In in Hin. destruct Hin as [->|Hin]; [|now left].
      right. exists m. split; [now left|exact Ek].
    + right. exists m'. split; [now right|exact Ec].
Qed.

Lemma CreateSubtree_sound (c c' : Chess) (keys : list Key) :
  Inv c -> CreateSubtree c = Some (keys, c') ->
  worn any_side c c' /\ forall k, In k keys -> plausible c' k.
Proof.
  intros HI H. unfold CreateSubtree in H.
  destruct (AllMoves c) as [[l c0]|] eqn:Ea; [|discriminate].
  match type of H with
  | match ?e with Some _ => _ | None => None end = Some _ =>
      destruct e as [ks|] eqn:Ek; [|discriminate]
  end.
  injection H as <- <-.
  destruct (AllMoves_sound c c0 l HI Ea) as [Hw Hl].
  apply (worn_mono _ any_side) in Hw; [|intros; exact I].
  split; [exact Hw|].
  intros k Hk.
  destruct (keys_of_moves _ _ _ Ek) as (acc0 & E0 & Hkeys).
  injection E0 as <-.
  destruct (Hkeys k Hk) as [[]|(m & Hm & Ec)].
  destruct (Hl m Hm) as (x1 & y1 & x2 & y2 & -> & Hpl & _).
  rewrite (candidate_coordinates _ _ _ _ _ Hpl) in Ec. injection Ec as <-.
  now apply (plausible_worn any_side c).
Qed.

(** One child of a node: apply, search below, undo. *)
Lemma child_worn (below : Chess -> option (Z * Chess)) (c c1 c1' c2 : Chess)
    (x1 y1 x2 y2 v : Z) :
  (forall d d' w, Inv d -> below d = Some (w, d') -> worn any_side d d') ->
  Inv c -> plausible c (x1, y1, x2, y2) ->
  MovePiece c x1 y1 x2 y2 false key_q false = Some c1 ->
  below c1 = Some (v, c1') ->
  MovePieceBack c1' x1 y1 x2 y2 = Some c2 ->
  worn any_side c c2.
Proof.
  intros Hbelow HI Hpl Hm Hb Hu.
  destruct (MovePiece_keeps c x1 y1 x2 y2 false key_q HI Hpl) as (c1'' & E & HI1 & _).
  rewrite Hm in E. injection E as <-.
  apply (undo_after any_side c c1 c1' c2 x1 y1 x2 y2 key_q); try assumption.
  - exact I.
  - now apply (Hbelow c1 c1' v).
Qed.

Lemma children_worn (below : Chess -> Z -> Z -> option (Z * Chess))
    (maximizing_player : bool) (nodes : list Key) :
  (forall d alpha beta d' w, Inv d -> below d alpha beta = Some (w, d') ->
                             worn any_side d d') ->
  forall c points alpha beta v c',
    Inv c -> (forall k, In k nodes -> plausible c k) ->
    children below maximizing_player nodes c points alpha beta = Some (v, c') ->
    worn any_side c c'.
Proof.
  intros Hbelow. induction nodes as [|[[[x1 y1] x2] y2] rest IH];
    intros c points alpha beta v c' HI Hpl H.
  - injection H as _ <-. apply worn_refl, (inv_wf _ HI).
  - cbn [children] in H.
    destruct (GetPiece c x2 y2) as [target|]; [|discriminate].
    destruct (target =? W_KING - 7 * b2z (GetTurn c)).
    { injection H as _ <-. apply worn_refl, (inv_wf _ HI). }
    destruct (MovePiece c x1 y1 x2 y2 false key_q false) as [c1|] eqn:Em;
      [|discriminate].
    destruct (below c1 alpha beta) as [[w c1']|] eqn:Eb; [|discriminate].
    destruct (MovePieceBack c1' x1 y1 x2 y2) as [c2|] eqn:Eu; [|discriminate].
    assert (Hw : worn any_side c c2).
    { apply (child_worn (fun d => below d alpha beta) c c1 c1' c2 x1 y1 x2 y2 w);
        try assumption.
      - intros d d' w' Hd Hbd. now apply (Hbelow d alpha beta d' w').
      - apply Hpl. now left. }
    match type of H with
    | (if ?cnd then _ else _) = _ => destruct cnd
    end.
    + injection H as _ <-. exact Hw.
    + apply (worn_trans any_side c c2 c'); [exact Hw|].
      refine (IH c2 _ _ _ v c' _ _ H).
      * now apply (Inv_worn any_side c).
      * intros k Hk. apply (plausible_worn any_side c); [exact Hw|].
        apply Hpl. now right.
Qed.

Lemma AlphaBeta_worn (depth : nat) :
  forall c alpha beta maximizing_player initial_turn v c',
    Inv c ->
    AlphaBeta depth c alpha beta maximizing_player initial_turn = Some (v, c') ->
    worn any_side c c'.
Proof.
  induction depth as [|depth IH];
    intros c alpha beta mx it v c' HI H; cbn [AlphaBeta] in H.
  - destruct (EvaluateBoard c it); [|discriminate].
    injection H as _ <-. apply worn_refl, (inv_wf _ HI).
  - destruct (CreateSubtree c) as [[keys c0]|] eqn:Ec; [|discriminate].
    destruct (CreateSubtree_sound c c0 keys HI Ec) as [Hw Hkeys].
    apply (worn_trans any_side c c0 c'); [exact Hw|].
    apply (children_worn
             (fun c alpha beta => AlphaBeta depth c alpha beta (negb mx) it)
             mx keys) with (4 := H).
    + intros d a b d' w Hd Hb. now apply (IH d a b (negb mx) it w d').
    + now apply (Inv_worn any_side c).
    + exact Hkeys.
Qed.

Lemma root_children_sound (difficulty : nat) (nodes : list Key) :
  forall c ideal_moves max_move_score r c',
    Inv c -> (forall k, In k nodes -> plausible c k) ->
    root_children difficulty nodes c ideal_moves max_move_score = Some (r, c') ->
    worn any_side c c' /\
    match r with
    | inl k => In k nodes
    | inr l => forall k, In k l -> In k ideal_moves \/ In k nodes
    end.
Proof.
  induction nodes as [|[[[x1 y1] x2] y2] rest IH];
    intros c ideal mx r c' HI Hpl H.
  - injection H as <- <-. split; [apply worn_refl, (inv_wf _ HI)|].
    intros k Hk. now left.
  - cbn [root_children] in H.
    destruct (GetPiece c x2 y2) as [target|]; [|discriminate].
    destruct (target =? W_KING - 7 * b2z (GetTurn c)).
    { injection H as <- <-. split; [apply worn_refl, (inv_wf _ HI)|now left]. }
    destruct (MovePiece c x1 y1 x2 y2 false key_q false) as [c1|] eqn:Em;
      [|discriminate].
    destruct (AlphaBeta difficulty c1 (2 * -10000) (2 * 10000) false
                        (negb (GetTurn c1))) as [[w c1']|] eqn:Eb;
      [|discriminate].
    destruct (MovePieceBack c1' x1 y1 x2 y2) as [c2|] eqn:Eu; [|discriminate].
    assert (Hw : worn any_side c c2).
    { apply (child_worn
               (fun d => AlphaBeta difficulty d (2 * -10000) (2 * 10000) false
                                   (negb (GetTurn c1)))
               c c1 c1' c2 x1 y1 x2 y2 w); try assumption.
      - intros d d' w' Hd Hbd. now apply AlphaBeta_worn in Hbd.
      - apply Hpl. now left. }
    assert (HI2 : Inv c2) by (now apply (Inv_worn any_side c)).
    assert (Hpl2 : forall k, In k rest -> plausible c2 k).
    { intros k Hk. apply (plausible_worn any_side c); [exact Hw|].
      apply Hpl. now right. }
    destruct (IH c2 _ _ r c' HI2 Hpl2 H) as [Hw2 Hr].
    split; [now apply (worn_trans any_side c c2 c')|].
    destruct r as [k|l].
    + now right.
    + intros k Hk. destruct (Hr k Hk) as [Hi|Hn]; [|right; now right].
      destruct (w >? mx).
      * destruct Hi as [<-|[]]. right. now left.
      * destruct (w =? mx); [|now left].
        apply in_app_or in Hi. destruct Hi as [Hi|[<-|[]]]; [now left|].
        right. now left.
Qed.

(** The move the search returns is one of the moves of the node, and the
    game object it leaves is the one it found, worn. *)
Lemma AlphaBetaRoot_sound (c c' : Chess) (difficulty draw : nat) (k : Key) :
  Inv c -> AlphaBetaRoot c difficulty draw = Some (k, c') ->
  worn any_side c c' /\ plausible c' k.
Proof.
  intros HI H. unfold AlphaBetaRoot in H.
  destruct (CreateSubtree c) as [[keys c0]|] eqn:Ec; [|discriminate].
  destruct (CreateSubtree_sound c c0 keys HI Ec) as [Hw Hkeys].
  destruct (root_children difficulty keys c0 [] (- INF)) as [[r c1]|] eqn:Er;
    [|discriminate].
  pose proof (Inv_worn any_side c c0 Hw HI) as HI0.
  destruct (root_children_sound difficulty keys c0 [] (- INF) r c1 HI0 Hkeys Er)
    as [Hw1 Hr].
  assert (Hk : In k keys /\ c' = c1).
  { destruct r as [k0|l].
    - injection H as <- <-. now split.
    - destruct (nth_error l draw) as [k0|] eqn:En; [|discriminate].
      injection H as <- <-. split; [|reflexivity].
      apply nth_error_In in En. destruct (Hr k0 En) as [[]|Hn]. exact Hn. }
  destruct Hk as [Hk ->].
  split; [now apply (worn_trans any_side c c0 c1)|].
  apply (plausible_worn any_side c0); [exact Hw1|now apply Hkeys].
Qed.

(** ** The game objects of a run *)

Lemma AllMoves_Inv (c c' : Chess) (l : list str) :
  Inv c -> AllMoves c = Some (l, c') -> Inv c'.
Proof.
  intros HI H. destruct (AllMoves_sound c c' l HI H) as [Hw _].
  exact (Inv_worn _ c c' Hw HI).
Qed.

Lemma same_game_set_counter (c : Chess) (n : Z) : same_game c (set_counter c n).
Proof. repeat split. Qed.

Lemma same_game_other_scored (c : Chess) (v : Z) :
  same_game c (set_other_player c (IncreaseScore (GetOtherPlayerConst c) v)).
Proof.
  unfold set_other_player, GetOtherPlayerConst. destruct (whites_turn c) eqn:E;
    repeat split; cbn; now rewrite ?E.
Qed.

Lemma CheckEndgame_Inv (c c' : Chess) (over : option Endgame) :
  Inv c -> CheckEndgame c = Some (over, c') -> Inv c'.
Proof.
  intros HI H. unfold CheckEndgame in H.
  destruct (AllMoves c) as [[l c0]|] eqn:Ea; [|discriminate].
  pose proof (AllMoves_Inv c c0 l HI Ea) as HI0.
  destruct l as [|m l].
  - injection H as _ <-.
    apply (same_game_Inv c0); [apply same_game_other_scored|exact HI0].
  - destruct (back (all_game_moves c0)) as [e|]; [|discriminate].
    match type of H with
    | match ?e with Some _ => _ | None => None end = Some _ =>
        destruct e as [[fifty c1]|] eqn:Ef; [|discriminate]
    end.
    assert (HI1 : Inv c1).
    { destruct (negb (Moves_eqb (fst e) CASTLING)).
      - destruct (sget (snd e) 4) as [piece|]; [|discriminate].
        destruct (piece =? W_PAWN - 7 * b2z (whites_turn c0)).
        + injection Ef as _ <-.
          apply (same_game_Inv c0); [apply same_game_set_counter|exact HI0].
        + destruct (sget (snd e) 5) as [captured|]; [|discriminate].
          destruct (negb (captured =? EMPTY)); injection Ef as _ <-;
            (apply (same_game_Inv c0); [apply same_game_set_counter|exact HI0]).
      - injection Ef as _ <-.
        apply (same_game_Inv c0); [apply same_game_set_counter|exact HI0]. }
    destruct fifty; [injection H as _ <-; exact HI1|].
    destruct (ThreefoldRepetition c1) as [rep|]; [|discriminate].
    destruct rep; injection H as _ <-; exact HI1.
Qed.

(** A plausible move applied with any promotion and with the display on
    or off. *)
Lemma MovePiece_Inv (c c1 : Chess) (x1 y1 x2 y2 : Z) (mp : bool)
    (key : PromotionKey) (ub : bool) :
  Inv c -> plausible c (x1, y1, x2, y2) ->
  MovePiece c x1 y1 x2 y2 mp key ub = Some c1 -> Inv c1.
Proof.
  intros HI Hpl H.
  destruct (MovePiece_keeps c x1 y1 x2 y2 mp key HI Hpl) as (c0 & E0 & HI0 & _).
  destruct (MovePiece_any c c0 x1 y1 x2 y2 mp key ub E0) as (c1' & E1 & Hg).
  rewrite H in E1. injection E1 as <-.
  now apply (same_game_Inv c0).
Qed.

Lemma str_eqb_eq (a : str) : forall b, str_eqb a b = true -> a = b.
Proof.
  induction a as [|x a IH]; intros [|y b] H; try discriminate; [reflexivity|].
  cbn [str_eqb] in H. apply andb_prop in H. destruct H as [Hx Hr].
  apply Z.eqb_eq in Hx. subst y. f_equal. now apply IH.
Qed.

Lemma CanMovePiece_In (x1 y1 x2 y2 : Z) (all_moves : list str) :
  CanMovePiece x1 y1 x2 y2 all_moves = true ->
  In (ToString x1 y1 x2 y2) all_moves.
Proof.
  unfold CanMovePiece. intros H. apply existsb_exists in H.
  destruct H as (m & Hin & E). apply str_eqb_eq in E. now subst m.
Qed.

Lemma below_eight (z : Z) :
  0 <= z < 8 -> z = 0 \/ z = 1 \/ z = 2 \/ z = 3 \/ z = 4 \/ z = 5 \/ z = 6 \/ z = 7.
Proof. lia. Qed.

Lemma Inv_new_game (difficulty1 difficulty2 : Z) :
  Inv (new_game difficulty1 difficulty2).
Proof.
  split.
  - reflexivity.
  - split; reflexivity.
  - intros t x y _ H. cbn [board new_game] in H.
    destruct (rd_Some_bounds _ _ _ _ H) as [Hy Hx].
    apply below_eight in Hy, Hx.
    destruct t;
      repeat (destruct Hy as [->|Hy]); try subst y;
      repeat (destruct Hx as [->|Hx]); try subst x;
      first [discriminate H | split; reflexivity].
  - intros e H. discriminate H.
  - intros e H. discriminate H.
  - intros e lx1 ly1 lx2 ly2 H. discriminate H.
Qed.

(** A turn leads from a game object of a run to a game object of a
    run. *)
Lemma reach_PlayersTurn (c : Chess) (x1 y1 x2 y2 : Z) (key : PromotionKey)
    (r : Turn) :
  reach c -> PlayersTurn c x1 y1 x2 y2 key = Some r ->
  match r with Refused c' => reach c' | Played _ c' => reach c' end.
Proof.
  intros Hr H. unfold PlayersTurn in H.
  destruct (AllMoves c) as [[l c0]|] eqn:Ea; [|discriminate].
  destruct (IsCheck (board c0) (whites_turn c0)); [|discriminate].
  fold (accepted x1 y1 x2 y2 l) in H.
  destruct (accepted x1 y1 x2 y2 l) eqn:Ec.
  2:{ injection H as <-. exact (reach_AllMoves c c0 l Hr Ea). }
  destruct (MovePiece c0 x1 y1 x2 y2 true key true) as [c1|] eqn:Em;
    [|discriminate].
  destruct (CheckEndgame c1) as [[o c2]|] eqn:Ee; [|discriminate].
  injection H as <-.
  apply (reach_CheckEndgame c1 c2 o); [|exact Ee].
  exact (reach_typed c c0 c1 l x1 y1 x2 y2 key Hr Ea Ec Em).
Qed.

Lemma reach_BotsTurn (c c' : Chess) (draw : nat) (over : option Endgame) :
  reach c -> BotsTurn c draw = Some (Played over c') -> reach c'.
Proof.
  intros Hr H. unfold BotsTurn in H.
  destruct (if whites_turn c then white_bot_random c else black_bot_random c);
    [discriminate|].
  destruct (AlphaBetaRoot c _ draw) as [[[[[x1 y1] x2] y2] c0]|] eqn:Er;
    [|discriminate].
  destruct (MovePiece c0 x1 y1 x2 y2 false key_q true) as [c1|] eqn:Em;
    [|discriminate].
  destruct (CheckEndgame c1) as [[o c2]|] eqn:Ec; [|discriminate].
  injection H as _ <-.
  apply (reach_CheckEndgame c1 c2 o); [|exact Ec].
  exact (reach_chosen c c0 c1 _ draw x1 y1 x2 y2 Hr Er Em).
Qed.

Lemma accepted_plausible (c c0 : Chess) (l : list str) (x1 y1 x2 y2 : Z) :
  Inv c -> AllMoves c = Some (l, c0) -> accepted x1 y1 x2 y2 l = true ->
  plausible c0 (x1, y1, x2, y2).
Proof.
  intros HI Ea Ec.
  destruct (AllMoves_sound c c0 l HI Ea) as [Hw Hl].
  unfold accepted in Ec.
  apply andb_prop in Ec. destruct Ec as [Ec Hcan].
  apply andb_prop in Ec. destruct Ec as [Ec B4].
  apply andb_prop in Ec. destruct Ec as [Ec B3].
  apply andb_prop in Ec. destruct Ec as [Ec B2].
  apply andb_prop in Ec. destruct Ec as [_ B1].
  apply WithinBounds_spec in B1, B2, B3, B4.
  apply CanMovePiece_In in Hcan.
  destruct (Hl _ Hcan) as (u1 & v1 & u2 & v2 & E & Hpl & _).
  pose proof (candidate_coordinates _ _ _ _ _ Hpl) as Ek.
  rewrite <- E in Ek.
  rewrite <- (app_nil_r (ToString x1 y1 x2 y2)) in Ek.
  rewrite ChangeToRealCoordinates_ToString in Ek by assumption.
  injection Ek as <- <- <- <-.
  exact (plausible_worn _ c c0 _ Hw Hpl).
Qed.

Lemma reach_Inv (c : Chess) : reach c -> Inv c.
Proof.
  induction 1 as [d1 d2
                 |c c' l _ IH H
                 |c c0 c1 l x1 y1 x2 y2 key _ IH Ha Hc Hm
                 |c c0 d draw k _ IH H
                 |c c0 c1 d draw x1 y1 x2 y2 _ IH Hs Hm
                 |c c' over _ IH H].
  - apply Inv_new_game.
  - exact (AllMoves_Inv c c' l IH H).
  - apply (MovePiece_Inv c0 c1 x1 y1 x2 y2 true key true); [| |exact Hm].
    + exact (AllMoves_Inv c c0 l IH Ha).
    + exact (accepted_plausible c c0 l x1 y1 x2 y2 IH Ha Hc).
  - destruct (AlphaBetaRoot_sound c c0 d draw k IH H) as [Hw _].
    exact (Inv_worn _ c c0 Hw IH).
  - destruct (AlphaBetaRoot_sound c c0 d draw _ IH Hs) as [Hw Hpl].
    apply (MovePiece_Inv c0 c1 x1 y1 x2 y2 false key_q true); [|exact Hpl|exact Hm].
    exact (Inv_worn _ c c0 Hw IH).
  - exact (CheckEndgame_Inv c c' over IH H).
Qed.

(** C2.  At every game object of a run, every move of the list [AllMoves]
    returns is legal: applied with [MovePiece] to the object [AllMoves]
    leaves (or to the one it found), with any promotion and with the
    display on or off, it gives a game object on whose board the king of
    the side that moved is not in check. *)
Theorem AllMoves_legal (c c' : Chess) (l : list str) (m : str)
    (x1 y1 x2 y2 : Z) (mp : bool) (key : PromotionKey) (ub : bool) :
  reach c -> AllMoves c = Some (l, c') -> In m l ->
  ChangeToRealCoordinates m = Some (x1, y1, x2, y2) ->
  (exists c1, MovePiece c' x1 y1 x2 y2 mp key ub = Some c1 /\
              IsCheck (board c1) (whites_turn c) = Some false) /\
  (exists c1, MovePiece c x1 y1 x2 y2 mp key ub = Some c1 /\
              IsCheck (board c1) (whites_turn c) = Some false).
Proof.
  intros Hr Ha Hin Hk.
  pose proof (reach_Inv c Hr) as HI.
  destruct (AllMoves_sound c c' l HI Ha) as [Hw Hl].
  destruct (Hl m Hin) as (u1 & v1 & u2 & v2 & -> & Hpl & Hlegal).
  rewrite (candidate_coordinates _ _ _ _ _ Hpl) in Hk.
  injection Hk as <- <- <- <-.
  split.
  - exact (Hlegal c' mp key ub Hw).
  - exact (Hlegal c mp key ub (worn_refl _ _ (inv_wf _ HI))).
Qed.

Lemma AllMoves_legal_witness :
  exists c1,
    MovePiece (new_game 1 1) 0 6 0 5 false key_q true = Some c1 /\
    IsCheck (board c1) true = Some false.
Proof.
  refine (proj1 (AllMoves_legal (new_game 1 1)
                   (snd (match AllMoves (new_game 1 1) with
                         | Some r => r | None => ([], new_game 1 1) end))
                   (fst (match AllMoves (new_game 1 1) with
                         | Some r => r | None => ([], new_game 1 1) end))
                   (ToString 0 6 0 5) 0 6 0 5 false key_q true
                   (reach_start 1 1) _ _ _)).
  - vm_compute. reflexivity.
  - vm_compute. auto 30.
  - reflexivity.
Defined.

(** ** The fifty-move counter from one move to the next *)

(** The counter as [MovePiece] leaves it, read off the entry it logged:
    set to 0 with the display on when the entry is not a castling and
    records a captured piece, else untouched.  A castling entry is
    logged only for the king of the side to move, with its flag set,
    going to the c- or the g-file. *)
Lemma MovePiece_counter_shown (c c' : Chess) (x1 y1 x2 y2 : Z) (mp : bool)
    (key : PromotionKey) (ub : bool) (src : Z) :
  rd (board c) y1 x1 = Some src ->
  MovePiece c x1 y1 x2 y2 mp key ub = Some c' ->
  exists e, back (all_game_moves c') = Some e /\
    (fst e = CASTLING ->
       castling (GetCurrentPlayerConst c) = true /\
       src = king_of (whites_turn c) /\ (x2 = 2 \/ x2 = 6)) /\
    moves_after_last_pawn_move_or_capture c'
    = if ub && negb (Moves_eqb (fst e) CASTLING)
      then match sget (snd e) 5 with
           | Some captured =>
               if captured =? EMPTY
               then moves_after_last_pawn_move_or_capture c else 0
           | None => moves_after_last_pawn_move_or_capture c
           end
      else moves_after_last_pawn_move_or_capture c.
Proof.
  intros Hsrc H. unfold MovePiece in H.
  destruct (AppendToAllGameMoves c x1 y1 x2 y2) as [ca|] eqn:Ea; [|discriminate].
  unfold AppendToAllGameMoves in Ea. rewrite Hsrc in Ea. cbv beta iota in Ea.
  assert (Ha : board ca = board c /\
    moves_after_last_pawn_move_or_capture ca
    = moves_after_last_pawn_move_or_capture c /\
    exists e0, all_game_moves ca = all_game_moves c ++ [e0] /\
      (fst e0 = CASTLING ->
         castling (GetCurrentPlayerConst c) = true /\
         src = king_of (whites_turn c) /\ (x2 = 2 \/ x2 = 6)) /\
      (fst e0 = CASTLING \/ fst e0 = NORMAL)).
  { match type of Ea with (if ?t then _ else _) = _ => destruct t eqn:Et end.
    - injection Ea as <-. cbn. repeat split. eexists. split; [reflexivity|].
      split; [|now left]. intros _.
      apply andb_true_iff in Et. destruct Et as [Et Hx].
      apply andb_true_iff in Et. destruct Et as [Hf Hk].
      apply Z.eqb_eq in Hk. apply orb_true_iff in Hx.
      rewrite !Z.eqb_eq in Hx. auto.
    - destruct (rd (board c) y2 x2) as [dst|]; [|discriminate].
      injection Ea as <-. cbn. repeat split. eexists. split; [reflexivity|].
      split; [discriminate|now right]. }
  destruct Ha as (Hb0 & Hn0 & e0 & Hl0 & Hcond & Hkind).
  rewrite Hb0, Hsrc in H. cbv beta iota in H.
  match type of H with
  | match ?e with Some _ => _ | None => None end = Some _ =>
      destruct e as [c1|] eqn:E1; [|discriminate H]
  end.
  assert (Hc1 : moves_after_last_pawn_move_or_capture c1
                = moves_after_last_pawn_move_or_capture c /\
    exists e1, all_game_moves c1 = all_game_moves c ++ [e1] /\
               (fst e1 = CASTLING -> e1 = e0)).
  { rewrite <- Hn0. destruct (is_pawn src) eqn:Ep.
    - split; [exact (MovePiece_pawn_counter _ _ _ _ _ _ _ _ _ E1)|].
      destruct (MovePiece_pawn_log _ _ _ _ _ _ _ _ _ _ _ Hl0 E1)
        as (_ & e1 & Hl1 & He1).
      exists e1. split; [assumption|].
      destruct He1 as [->|[[p ->]|[-> _]]]; [reflexivity|discriminate|discriminate].
    - destruct (is_king src).
      + bind_inv E1. injection E1 as <-.
        pose proof (MovePiece_king_counter _ _ _ E) as En.
        apply MovePiece_king_frame in E. destruct E as (El & _).
        unfold clear_castling. rewrite counter_set_current_player.
        split; [assumption|]. rewrite log_set_current_player, El. eauto.
      + destruct (is_rook src); injection E1 as <-;
          unfold clear_castling;
          rewrite ?counter_set_current_player, ?log_set_current_player; eauto. }
  destruct Hc1 as (Hn1 & e1 & Hl1 & He1).
  rewrite Hl1, back_snoc in H. cbv beta iota in H.
  match type of H with
  | match ?e with Some _ => _ | None => None end = Some _ =>
      destruct e as [c2|] eqn:E2; [|discriminate H]
  end.
  bind_inv H. rename E into Eshift.
  cbn [all_game_moves set_board] in H.
  assert (Hc2 : moves_after_last_pawn_move_or_capture c2
                = moves_after_last_pawn_move_or_capture c /\
    exists e2, all_game_moves c2 = all_game_moves c ++ [e2] /\ fst e2 = fst e1).
  { destruct (negb (Moves_eqb (fst e1) CASTLING)).
    - rewrite ?Hl1, modify_back_snoc in E2. injection E2 as <-. cbn.
      split; [assumption|]. eexists. split; reflexivity.
    - injection E2 as <-. split; [assumption|]. eexists. split; [eassumption|reflexivity]. }
  destruct Hc2 as (Hn2 & e2 & Hl2 & Hk2).
  rewrite Hl2, back_snoc in H. cbv beta iota in H.
  exists e2.
  assert (Hcastle : fst e2 = CASTLING ->
            castling (GetCurrentPlayerConst c) = true /\
            src = king_of (whites_turn c) /\ (x2 = 2 \/ x2 = 6)).
  { intros Hk. rewrite Hk2 in Hk. specialize (He1 Hk). subst e1. auto. }
  destruct (ub && negb (Moves_eqb (fst e2) CASTLING)).
  - destruct (sget (snd e2) 5) as [captured|]; [|discriminate].
    cbv beta iota in H.
    destruct (captured =? EMPTY); cbn [negb] in H; injection H as <-; cbn;
      rewrite ?log_set_current_player; cbn; rewrite Hl2, back_snoc;
      (split; [reflexivity|split; [assumption|]]);
      [assumption|reflexivity].
  - injection H as <-. cbn. rewrite Hl2, back_snoc.
    split; [reflexivity|split; assumption].
Qed.


Lemma MovePiece_turn (c c1 : Chess) (x1 y1 x2 y2 : Z) (mp : bool)
    (key : PromotionKey) (ub : bool) :
  Inv c -> plausible c (x1, y1, x2, y2) ->
  MovePiece c x1 y1 x2 y2 mp key ub = Some c1 ->
  whites_turn c1 = negb (whites_turn c).
Proof.
  intros HI Hpl Hm.
  destruct (MovePiece_keeps c x1 y1 x2 y2 mp key HI Hpl) as (c1f & Hf & _ & Ht).
  destruct (MovePiece_any c c1f x1 y1 x2 y2 mp key ub Hf) as (c1' & Hm' & Hs).
  rewrite Hm in Hm'. injection Hm' as <-.
  destruct Hs as (_ & _ & _ & _ & Hturn & _). now rewrite Hturn.
Qed.

Lemma own_pawn_of (t : bool) (src : Z) :
  src = EMPTY \/ own t src = true ->
  is_pawn src = true <-> src = (if negb t then B_PAWN else W_PAWN).
Proof.
  unfold is_pawn, own, EMPTY, W_PAWN, B_PAWN.
  intros [->|Ho]; destruct t; cbn [negb];
    (split; [intros H; apply orb_true_iff in H; rewrite !Z.eqb_eq in H
            |intros ->; try reflexivity; try discriminate]).
  all: try lia.
  all: try (apply Z.ltb_lt in Ho; lia).
Qed.

(** The counter after a move of the shape the generators produce was
    applied with the display on and [CheckEndgame] found a legal move
    for the other side. *)
Lemma counter_after_move (c0 c1 c2 c' : Chess) (x1 y1 x2 y2 : Z) (mp : bool)
    (key : PromotionKey) (src dst : Z) (l : list str) (over : option Endgame) :
  Inv c0 -> plausible c0 (x1, y1, x2, y2) ->
  rd (board c0) y1 x1 = Some src -> rd (board c0) y2 x2 = Some dst ->
  MovePiece c0 x1 y1 x2 y2 mp key true = Some c1 ->
  AllMoves c1 = Some (l, c2) -> l <> [] ->
  CheckEndgame c1 = Some (over, c') ->
  moves_after_last_pawn_move_or_capture c'
  = (if is_pawn src || negb (dst =? EMPTY) then 0
     else (moves_after_last_pawn_move_or_capture c0 + 1) mod 65536) /\
  (over = Some FIFTY_MOVES <-> moves_after_last_pawn_move_or_capture c' = 50).
Proof.
  intros HI Hpl Hsrc Hdst Hm Ha Hl He.
  destruct (MovePiece_counter_shown _ _ _ _ _ _ _ _ _ _ Hsrc Hm)
    as (e & Hback & Hcastle & Hn).
  destruct (MovePiece_log _ _ _ _ _ _ _ _ _ Hm) as (e' & Hlog & Hentry).
  rewrite Hlog, back_snoc in Hback. injection Hback as ->.
  pose proof (MovePiece_Inv _ _ _ _ _ _ _ _ _ HI Hpl Hm) as HI1.
  pose proof (MovePiece_turn _ _ _ _ _ _ _ _ _ HI Hpl Hm) as Ht1.
  destruct (AllMoves_sound c1 c2 l HI1 Ha) as [Hw _].
  assert (Hb2 : back (all_game_moves c2) = Some e).
  { rewrite (worn_log _ _ _ Hw), Hlog. apply back_snoc. }
  assert (Ht2 : whites_turn c2 = negb (whites_turn c0)).
  { rewrite (worn_turn _ _ _ Hw). exact Ht1. }
  destruct (CheckEndgame_counter c1 c2 c' l over e Ha Hl Hb2 He)
    as (Hreset & Hbump & Hfifty).
  split; [|exact Hfifty].
  destruct Hpl as (Hne & src' & dst' & Hs' & Hd' & Hown & Hfoe & _ & _ & Hking).
  rewrite Hsrc in Hs'. injection Hs' as <-.
  rewrite Hdst in Hd'. injection Hd' as <-.
  pose proof (own_pawn_of (whites_turn c0) src Hown) as Hpawn.
  unfold pawn_move_or_capture in Hreset, Hbump. rewrite Ht2 in Hreset, Hbump.
  destruct Hentry as (src' & Hs' & Hentry).
  rewrite Hsrc in Hs'. injection Hs' as <-.
  destruct Hentry as [[-> Hk]|(dst' & flag & Hd' & Hentry)].
  - (* castling *)
    destruct (Hcastle eq_refl) as (Hf & Hsk & Hx2).
    assert (Hflag : flag_of c0 (whites_turn c0) = true).
    { unfold flag_of. unfold GetCurrentPlayerConst in Hf. exact Hf. }
    destruct (Hking Hk Hflag Hx2) as (_ & _ & Hy2 & Hq & Hks).
    assert (Hde : dst = EMPTY).
    { destruct Hx2 as [->| ->]; subst y2.
      - destruct (Hq eq_refl) as (_ & _ & R2 & _). congruence.
      - destruct (Hks eq_refl) as (_ & _ & R6). congruence. }
    subst dst. rewrite (king_not_pawn _ Hk). cbn.
    rewrite Hbump by (intros [Hc _]; now apply Hc).
    cbn in Hn. now rewrite Hn.
  - rewrite Hdst in Hd'. injection Hd' as <-.
    assert (H45 : fst e <> CASTLING /\ sget (snd e) 4 = Some src /\
                  sget (snd e) 5 = Some dst).
    { destruct Hentry as [->|[(p & -> & _)|(-> & _)]]; cbn [fst snd];
        (split; [discriminate|split; [apply sget_entry_4|apply sget_entry_5]]). }
    destruct H45 as (Hnc & H4 & H5).
    destruct (is_pawn src) eqn:Ep; cbn [orb].
    + apply Hreset. split; [assumption|]. left. rewrite H4. f_equal.
      now apply Hpawn.
    + destruct (Z.eqb_spec dst EMPTY) as [->|Hne']; cbn [negb].
      * rewrite Hbump.
        { assert (Hk : Moves_eqb (fst e) CASTLING = false).
          { destruct (Moves_eqb (fst e) CASTLING) eqn:Ek; [|reflexivity].
            apply Moves_eqb_eq in Ek. contradiction. }
          rewrite Hk, H5 in Hn. cbn in Hn. now rewrite Hn. }
        intros [_ [Hp|(cap & Hc & Hcne)]].
        -- rewrite H4 in Hp. injection Hp as Hp. apply Hpawn in Hp. congruence.
        -- rewrite H5 in Hc. injection Hc as <-. now apply Hcne.
      * apply Hreset. split; [assumption|]. right. eauto.
Qed.

(** C5 (as the code has it).  When a turn of a run has committed a move
    and the side to move has a legal move, [CheckEndgame] leaves the
    fifty-move counter at 0 if the move was a pawn's or took a piece, and
    at the counter of the start of the turn plus one otherwise (the
    counter is an unsigned short); and it reports the fifty-move draw
    exactly when the counter it leaves is 50. *)
Theorem fifty_move_counter (c c0 c1 c2 c' : Chess) (x1 y1 x2 y2 : Z)
    (l : list str) (over : option Endgame) :
  reach c -> committed c c0 x1 y1 x2 y2 c1 ->
  AllMoves c1 = Some (l, c2) -> l <> [] ->
  CheckEndgame c1 = Some (over, c') ->
  exists src dst,
    rd (board c0) y1 x1 = Some src /\ rd (board c0) y2 x2 = Some dst /\
    moves_after_last_pawn_move_or_capture c'
    = (if is_pawn src || negb (dst =? EMPTY) then 0
       else (moves_after_last_pawn_move_or_capture c + 1) mod 65536) /\
    (over = Some FIFTY_MOVES <-> moves_after_last_pawn_move_or_capture c' = 50).
Proof.
  intros Hr Hc Ha Hl He.
  pose proof (reach_Inv c Hr) as HI.
  assert (H0 : Inv c0 /\ plausible c0 (x1, y1, x2, y2) /\
               moves_after_last_pawn_move_or_capture c0
               = moves_after_last_pawn_move_or_capture c /\
               exists mp key, MovePiece c0 x1 y1 x2 y2 mp key true = Some c1).
  { destruct Hc as [l0 key Ha0 Hacc Hm|difficulty draw Hs Hm].
    - split; [exact (AllMoves_Inv c c0 l0 HI Ha0)|].
      split; [exact (accepted_plausible c c0 l0 x1 y1 x2 y2 HI Ha0 Hacc)|].
      split; [exact (AllMoves_counter c c0 l0 Ha0)|eauto].
    - destruct (AlphaBetaRoot_sound c c0 difficulty draw _ HI Hs) as [Hw Hpl].
      split; [exact (Inv_worn _ c c0 Hw HI)|].
      split; [exact Hpl|].
      split; [exact (worn_counter _ _ _ Hw)|eauto]. }
  destruct H0 as (HI0 & Hpl & Hn & mp & key & Hm).
  pose proof Hpl as (_ & src & dst & Hsrc & Hdst & _).
  exists src, dst. split; [assumption|]. split; [assumption|].
  rewrite <- Hn.
  exact (counter_after_move c0 c1 c2 c' x1 y1 x2 y2 mp key src dst l over
           HI0 Hpl Hsrc Hdst Hm Ha Hl He).
Qed.

Lemma fifty_move_counter_witness :
  exists src dst,
    rd (board (new_game 1 1)) 7 6 = Some src /\
    rd (board (new_game 1 1)) 5 5 = Some dst /\
    moves_after_last_pawn_move_or_capture
      (match CheckEndgame after_Nf3 with
       | Some (_, c') => c'
       | None => after_Nf3
       end)
    = (if is_pawn src || negb (dst =? EMPTY) then 0
       else (moves_after_last_pawn_move_or_capture (new_game 1 1) + 1)
            mod 65536) /\
    (None = Some FIFTY_MOVES <->
     moves_after_last_pawn_move_or_capture
       (match CheckEndgame after_Nf3 with
        | Some (_, c') => c'
        | None => after_Nf3
        end) = 50).
Proof.
  refine (fifty_move_counter (new_game 1 1) (new_game 1 1) after_Nf3
            (match AllMoves after_Nf3 with
             | Some (_, c2) => c2
             | None => after_Nf3
             end)
            (match CheckEndgame after_Nf3 with
             | Some (_, c') => c'
             | None => after_Nf3
             end)
            6 7 5 5
            (match AllMoves after_Nf3 with
             | Some (l, _) => l
             | None => []
             end)
            None (reach_start 1 1)
            (committed_typed _ _ _ _ _ _ _
               (match AllMoves (new_game 1 1) with
                | Some (l, _) => l
                | None => []
                end) key_q _ _ _) _ _ _).
  - vm_compute. reflexivity.
  - vm_compute. reflexivity.
  - vm_compute. reflexivity.
  - vm_compute. reflexivity.
  - vm_compute. discriminate.
  - vm_compute. reflexivity.
Defined.

(** ** The two wings in [KingMoves], in a game *)



(** * Further properties of the code *)

(** ** Apply and undo, square by square *)

Ltac at_square y x E :=
  match goal with
  | |- context [(y =? ?a) && (x =? ?b)] =>
      destruct ((y =? a) && (x =? b)) eqn:E;
      [apply andb_true_iff in E;
       let E1 := fresh "E" in let E2 := fresh "E" in
       destruct E as [E1 E2]; apply Z.eqb_eq in E1, E2; subst y x|]
  end.

Lemma two_squares_back (b : Board) (y1 x1 y2 x2 src dst : Z) :
  wf_board b -> rd b y1 x1 = Some src -> rd b y2 x2 = Some dst ->
  upd (upd (upd (upd b (cell y2 x2) src) (cell y1 x1) EMPTY) (cell y1 x1) src)
      (cell y2 x2) dst = b.
Proof.
  intros Hwf Hs Hd.
  destruct (rd_Some_bounds _ _ _ _ Hs) as [Hy1 Hx1].
  destruct (rd_Some_bounds _ _ _ _ Hd) as [Hy2 Hx2].
  apply board_ext; [solve_wf|assumption|].
  intros y x Hy Hx. rdu.
  at_square y x E; [now rewrite Hd|].
  at_square y x E'; [now rewrite Hs|]. reflexivity.
Qed.

Lemma restore_castling_defined (d : Chess) (L : list LogEntry) (e e3 : LogEntry)
    (f : bool) :
  all_game_moves d = L ++ [e] -> prev_cend L 2 = Some e3 -> recorded e3 = Some f ->
  restore_castling d
  = Some (if f then set_current_player d (SetCastling (GetCurrentPlayerConst d) true)
          else d).
Proof.
  intros HL He3 Hrec. unfold restore_castling. rewrite HL, prev_cend_snoc, He3.
  unfold recorded in Hrec.
  destruct (Moves_eqb (fst e3) CASTLING); cbn [negb].
  - injection Hrec as <-. reflexivity.
  - destruct (sget (snd e3) (6 + (if Moves_eqb (fst e3) PROMOTION then 1 else 0)))
      as [v|]; [|discriminate].
    injection Hrec as <-. destruct (negb (v =? 0)); reflexivity.
Qed.

Lemma prev_cend_2_defined (L : list LogEntry) :
  (2 <= length L)%nat -> exists e3, prev_cend L 2 = Some e3.
Proof.
  intros H. unfold prev_cend.
  replace (2 <=? length L)%nat with true by (symmetry; apply Nat.leb_le; exact H).
  destruct (nth_error L (length L - 2)) as [e3|] eqn:E; [eauto|].
  apply nth_error_None in E. lia.
Qed.

Ltac undo_head p cap :=
  match goal with
  | |- MovePieceBack ?c1 ?x1 ?y1 ?x2 ?y2 = _ =>
      let L := eval cbn [all_game_moves] in (all_game_moves c1) in
      match L with
      | ?L0 ++ [?e] =>
          rewrite (MovePieceBack_head c1 x1 y1 x2 y2 p cap L0 e eq_refl)
      end
  end.

Lemma back_plain (c : Chess) (x1 y1 x2 y2 src dst : Z) (key : PromotionKey) :
  wf_board (board c) ->
  rd (board c) y1 x1 = Some src -> rd (board c) y2 x2 = Some dst ->
  x1 <> x2 \/ y1 <> y2 ->
  is_pawn src = false -> is_king src = false -> is_rook src = false ->
  exists c1, MovePiece c x1 y1 x2 y2 false key false = Some c1 /\
             MovePieceBack c1 x1 y1 x2 y2 = Some c.
Proof.
  intros Hwf Hs Hd Hne Hp Hk Hr.
  destruct (rd_Some_bounds _ _ _ _ Hs) as [Hy1 Hx1].
  destruct (rd_Some_bounds _ _ _ _ Hd) as [Hy2 Hx2].
  rewrite (MovePiece_plain c x1 y1 x2 y2 src dst false key Hs Hd Hp Hk Hr).
  eexists. split; [reflexivity|].
  undo_head src dst; proj_simpl;
    try assumption; try solve_wf; try reflexivity; [|now apply rd_landed].
  rewrite Hp, Hr, Hk.
  assert (Hsw : forall d : Chess,
            (if is_queen src then Some d else Some d) = Some d)
    by (intros; destruct (is_queen src); reflexivity).
  rewrite Hsw. f_equal. proj_simpl.
  apply Chess_eq; proj_simpl; try reflexivity.
  - now apply two_squares_back.
  - apply removelast_last.
  - apply negb_involutive.
Qed.

Lemma back_pawn_step (c : Chess) (x1 y1 x2 y2 src dst : Z) (key : PromotionKey) :
  wf_board (board c) ->
  rd (board c) y1 x1 = Some src -> rd (board c) y2 x2 = Some dst ->
  x1 <> x2 \/ y1 <> y2 ->
  is_pawn src = true -> y2 <> last_rank c -> x1 = x2 \/ dst <> EMPTY ->
  exists c1, MovePiece c x1 y1 x2 y2 false key false = Some c1 /\
             MovePieceBack c1 x1 y1 x2 y2 = Some c.
Proof.
  intros Hwf Hs Hd Hne Hp Hy Hx.
  destruct (rd_Some_bounds _ _ _ _ Hs) as [Hy1 Hx1].
  destruct (rd_Some_bounds _ _ _ _ Hd) as [Hy2 Hx2].
  rewrite (MovePiece_pawn_step c x1 y1 x2 y2 src dst false key Hs Hd Hp Hy Hx).
  eexists. split; [reflexivity|].
  undo_head src dst; proj_simpl;
    try assumption; try solve_wf; try reflexivity; [|now apply rd_landed].
  rewrite Hp.
  assert (Hsw : forall d d' : option Chess,
            (if negb (x1 =? x2) then if dst =? EMPTY then d' else d else d) = d).
  { intros d d'. destruct Hx as [Hx|Hx].
    - now rewrite (proj2 (Z.eqb_eq _ _) Hx).
    - rewrite (proj2 (Z.eqb_neq _ _) Hx). now destruct (negb (x1 =? x2)). }
  rewrite Hsw. f_equal. proj_simpl.
  apply Chess_eq; proj_simpl; try reflexivity.
  - now apply two_squares_back.
  - apply removelast_last.
  - apply negb_involutive.
Qed.

Lemma back_cleared (c : Chess) (x1 y1 x2 y2 src dst : Z) :
  Inv c -> (2 <= length (all_game_moves c))%nat ->
  rd (board c) y1 x1 = Some src -> rd (board c) y2 x2 = Some dst ->
  x1 <> x2 \/ y1 <> y2 -> own (whites_turn c) src = true ->
  is_rook src = true \/ is_king src = true ->
  MovePieceBack
    (mkChess
       (upd (upd (board c) (cell y2 x2) src) (cell y1 x1) EMPTY)
       (white_cleared c) (black_cleared c)
       (all_game_moves c ++ [(NORMAL, ToString x1 y1 x2 y2 ++ [src; dst; 0])])
       (negb (whites_turn c))
       (moves_after_last_pawn_move_or_capture c)
       (white_bot_random c) (black_bot_random c)) x1 y1 x2 y2 = Some c.
Proof.
  intros HI Hlen Hs Hd Hne Hown Hkind.
  pose proof (inv_wf _ HI) as Hwf.
  destruct (rd_Some_bounds _ _ _ _ Hs) as [Hy1 Hx1].
  destruct (rd_Some_bounds _ _ _ _ Hd) as [Hy2 Hx2].
  undo_head src dst; proj_simpl;
    try assumption; try solve_wf; try reflexivity; [|now apply rd_landed].
  match goal with |- context [restore_castling ?d0] => set (d := d0) end.
  destruct (prev_cend_2_defined _ Hlen) as [e3 He3].
  pose proof (inv_flag_mover _ HI e3 He3) as Hrec.
  assert (Hrest : restore_castling d
            = Some (if flag_of c (whites_turn c)
                    then set_current_player d
                           (SetCastling (GetCurrentPlayerConst d) true)
                    else d)).
  { apply (restore_castling_defined d (all_game_moves c)
             (NORMAL, ToString x1 y1 x2 y2 ++ [src; dst; 0]) e3);
      try assumption. reflexivity. }
  assert (Hsw : exists d', restore_castling d = Some d' /\
            d' = (if flag_of c (whites_turn c)
                  then set_current_player d
                         (SetCastling (GetCurrentPlayerConst d) true)
                  else d)) by eauto.
  destruct Hsw as (d' & Hrest' & Ed').
  destruct Hkind as [Hr|Hk].
  1: destruct (rook_not_pawn_king _ Hr) as [Hp Hk]; rewrite Hp, Hr.
  2: rewrite (king_not_pawn _ Hk), (king_not_rook _ Hk), Hk;
     replace (is_queen src) with false
       by (apply own_king in Hown; [|assumption]; subst src;
           now destruct (whites_turn c)).
  all: proj_simpl; rewrite Hrest'; cbn beta iota; f_equal; subst d'.
  all: assert (Ht : whites_turn d = whites_turn c)
         by (subst d; proj_simpl; apply negb_involutive).
  all: destruct (restored_players c d (flag_of c (whites_turn c)) Ht) as [Hw Hb];
         try reflexivity.
  all: apply Chess_eq; proj_simpl;
    [ destruct (flag_of c (whites_turn c)); rewrite ?board_set_current_player;
      subst d; proj_simpl; now apply two_squares_back
    | exact Hw
    | exact Hb
    | destruct (flag_of c (whites_turn c)); rewrite ?log_set_current_player;
      subst d; proj_simpl; apply removelast_last
    | destruct (flag_of c (whites_turn c)); rewrite ?turn_set_current_player;
      exact Ht
    | destruct (flag_of c (whites_turn c)); rewrite ?counter_set_current_player;
      reflexivity
    | destruct (flag_of c (whites_turn c)); [|reflexivity];
      unfold set_current_player; now destruct (whites_turn d)
    | destruct (flag_of c (whites_turn c)); [|reflexivity];
      unfold set_current_player; now destruct (whites_turn d) ].
Qed.

Lemma back_promotion (c : Chess) (x1 y1 x2 y2 src dst : Z) (key : PromotionKey) :
  Inv c ->
  rd (board c) y1 x1 = Some src -> rd (board c) y2 x2 = Some dst ->
  x1 <> x2 \/ y1 <> y2 -> own (whites_turn c) src = true ->
  is_pawn src = true -> y2 = last_rank c ->
  exists c1, MovePiece c x1 y1 x2 y2 false key false = Some c1 /\
             MovePieceBack c1 x1 y1 x2 y2 = Some c.
Proof.
  intros HI Hs Hd Hne Hown Hp Hy.
  pose proof (inv_wf _ HI) as Hwf.
  destruct (rd_Some_bounds _ _ _ _ Hs) as [Hy1 Hx1].
  destruct (rd_Some_bounds _ _ _ _ Hd) as [Hy2 Hx2].
  assert (Hrnd : (if whites_turn c then white_bot_random c
                  else black_bot_random c) = false).
  { destruct (inv_settings _ HI) as [-> ->]. now destruct (whites_turn c). }
  rewrite (MovePiece_promotion c x1 y1 x2 y2 src dst false key Hs Hd Hp Hy Hwf Hrnd).
  unfold promoted.
  eexists. split; [reflexivity|].
  set (Q := queen_of (whites_turn c)) in *.
  assert (HQ : is_pawn Q = false /\ is_rook Q = false /\ is_queen Q = true)
    by (subst Q; destruct (whites_turn c); repeat split; reflexivity).
  destruct HQ as (HQp & HQr & HQq).
  assert (Hne' : (y2 =? y1) && (x2 =? x1) = false).
  { apply squares_differ. destruct Hne as [H|H]; [left|right]; congruence. }
  undo_head Q dst; proj_simpl;
    try assumption; try solve_wf; try reflexivity.
  2: { rdu. rewrite Hne'. now rewrite !Z.eqb_refl. }
  rewrite HQp, HQr, HQq.
  rewrite (wr_defined _ _ _ _ Hy1 Hx1). cbn beta iota. f_equal. proj_simpl.
  apply Chess_eq; proj_simpl; try reflexivity.
  - rewrite negb_involutive.
    replace (if whites_turn c then W_PAWN else B_PAWN) with src
      by (rewrite (own_pawn _ _ Hp Hown); now destruct (whites_turn c)).
    apply board_ext; [solve_wf|assumption|].
    intros y x Hy' Hx'. rdu.
    at_square y x E; [now rewrite Hs|].
    at_square y x E'; [now rewrite Hd|]. reflexivity.
  - apply removelast_last.
  - apply negb_involutive.
Qed.

Lemma back_en_passant (c : Chess) (x1 y1 x2 y2 src : Z) (key : PromotionKey) :
  wf_board (board c) ->
  rd (board c) y1 x1 = Some src -> rd (board c) y2 x2 = Some EMPTY ->
  is_pawn src = true -> y2 <> last_rank c -> x1 <> x2 -> y1 <> y2 ->
  rd (board c) y1 x2 = Some (pawn_of (negb (whites_turn c))) ->
  exists c1, MovePiece c x1 y1 x2 y2 false key false = Some c1 /\
             MovePieceBack c1 x1 y1 x2 y2 = Some c.
Proof.
  intros Hwf Hs Hd Hp Hy Hx Hyy Hcap.
  destruct (rd_Some_bounds _ _ _ _ Hs) as [Hy1 Hx1].
  destruct (rd_Some_bounds _ _ _ _ Hd) as [Hy2 Hx2].
  rewrite (MovePiece_en_passant c x1 y1 x2 y2 src false key Hs Hd Hp Hy Hx Hwf).
  eexists. split; [reflexivity|].
  assert (N21 : (y2 =? y1) && (x2 =? x1) = false).
  { apply squares_differ. left. congruence. }
  undo_head src EMPTY; proj_simpl;
    try assumption; try solve_wf; try reflexivity; try (now left).
  2: { rdu. rewrite N21. now rewrite !Z.eqb_refl. }
  rewrite Hp. rewrite (proj2 (Z.eqb_neq _ _) Hx).
  cbn [negb]. rewrite Z.eqb_refl.
  rewrite (wr_defined _ _ _ _ Hy1 Hx2). cbn beta iota. f_equal. proj_simpl.
  apply Chess_eq; proj_simpl; try reflexivity.
  - rewrite negb_involutive.
    replace (if whites_turn c then B_PAWN else W_PAWN)
      with (pawn_of (negb (whites_turn c))) by (now destruct (whites_turn c)).
    apply board_ext; [solve_wf|assumption|].
    intros y x Hy' Hx'. rdu.
    at_square y x E; [now rewrite Hcap|].
    at_square y x E'; [now rewrite Hd|].
    at_square y x E''; [now rewrite Hs|].
    reflexivity.
  - apply removelast_last.
  - apply negb_involutive.
Qed.

(** Castling and its undo: on the queen's wing the rook comes back to its
    corner; on the king's wing the corner is left empty. *)
Lemma back_castle (c : Chess) (x2 xr xt r : Z) (key : PromotionKey) :
  let t := whites_turn c in
  let l := line_of t in
  wf_board (board c) ->
  castling (GetCurrentPlayerConst c) = true ->
  rd (board c) l 4 = Some (king_of t) ->
  (x2 = 2 /\ xr = 0 /\ xt = 3) \/ (x2 = 6 /\ xr = 7 /\ xt = 5) ->
  rd (board c) l xr = Some r ->
  rd (board c) l xt = Some EMPTY -> rd (board c) l x2 = Some EMPTY ->
  exists c1, MovePiece c 4 l x2 l false key false = Some c1 /\
             MovePieceBack c1 4 l x2 l
             = Some (if x2 =? 2 then c else erased c).
Proof.
  intros t l Hwf Hf Hk Hx Hr Ht He.
  pose proof (line_of_bounds t) as Hl. fold l in Hl.
  unfold l, t.
  rewrite (MovePiece_castle c x2 xr xt r false key Hf Hk Hx Hr Hwf).
  fold t. fold l.
  eexists. split; [reflexivity|].
  assert (Hb2 : 0 <= x2 < 7) by (destruct Hx as [(-> & _)|(-> & _)]; lia).
  assert (Hbr : 0 <= xr < 8) by (destruct Hx as [(_ & -> & _)|(_ & -> & _)]; lia).
  assert (Hbt : 0 <= xt < 7) by (destruct Hx as [(_ & _ & ->)|(_ & _ & ->)]; lia).
  assert (Hne : 4 <> x2 \/ l <> l)
    by (left; destruct Hx as [(-> & _)|(-> & _)]; lia).
  assert (H4 : 0 <= 4 < 8) by lia.
  undo_head (king_of t) EMPTY; proj_simpl;
    try assumption; try solve_wf; try reflexivity.
  2: { rdu. destruct Hx as [(-> & -> & ->)|(-> & -> & ->)];
         rewrite !Z.eqb_refl; reflexivity. }
  assert (HK : is_pawn (king_of t) = false /\ is_rook (king_of t) = false /\
               is_queen (king_of t) = false /\ is_king (king_of t) = true)
    by (destruct t; repeat split; reflexivity).
  destruct HK as (K1 & K2 & K3 & K4). rewrite K1, K2, K3, K4.
  match goal with |- context [set_current_player ?d0 _] => set (d := d0) end.
  assert (Htd : whites_turn d = t)
    by (subst d; proj_simpl; apply negb_involutive).
  rewrite turn_set_current_player, Htd. fold (line_of t). fold l.
  rewrite board_set_current_player.
  set (d1 := set_current_player d (SetCastling (GetCurrentPlayerConst d) true)).
  assert (Hpl : white d1 = white c /\ black d1 = black c).
  { apply (restored_players c d true Htd); subst d; proj_simpl; try reflexivity.
    rewrite flag_of_current. exact Hf. }
  destruct Hpl as [Hw Hb].
  assert (Hd1 : all_game_moves d1 = all_game_moves c ++ [(CASTLING, [to_char x2])] /\
                whites_turn d1 = t /\
                moves_after_last_pawn_move_or_capture d1
                  = moves_after_last_pawn_move_or_capture c /\
                white_bot_random d1 = white_bot_random c /\
                black_bot_random d1 = black_bot_random c).
  { subst d1. rewrite log_set_current_player, turn_set_current_player,
      counter_set_current_player.
    repeat split; try exact Htd; try reflexivity;
      unfold set_current_player; destruct (whites_turn d); reflexivity. }
  destruct Hd1 as (HL1 & Ht1 & Hc1 & Hr1 & Hr2).
  destruct Hx as [(E2 & Er & Et)|(E2 & Er & Et)]; subst x2 xr xt.
  - change (2 =? 2) with true. cbv iota.
    assert (Hv : rd (board d) l 3 = Some r).
    { subst d. proj_simpl. rdu. rewrite !Z.eqb_refl. reflexivity. }
    rewrite (shift_cell_defined _ l 0 l 3 EMPTY r Hl) by (lia || exact Hv).
    cbn beta iota. f_equal.
    apply Chess_eq; proj_simpl; try assumption.
    + subst d. proj_simpl.
      apply board_ext; [solve_wf|assumption|].
      intros y x Hy' Hx'. rdu.
      at_square y x A; [now rewrite Ht|].
      at_square y x B; [now rewrite Hr|].
      at_square y x C; [now rewrite He|].
      at_square y x D; [now rewrite Hk|].
      rewrite ?A, ?B, ?C, ?D. reflexivity.
    + rewrite HL1. apply removelast_last.
  - change (6 =? 2) with false. change (6 =? 6) with true. cbv iota.
    assert (Hv : rd (board d) l 7 = Some EMPTY).
    { subst d. proj_simpl. rdu. rewrite !Z.eqb_refl. reflexivity. }
    rewrite (shift_cell_defined _ l 5 l 7 EMPTY EMPTY Hl) by (lia || exact Hv).
    cbn beta iota. f_equal.
    apply Chess_eq; unfold erased; proj_simpl; try assumption.
    + subst d. proj_simpl. fold t. fold l.
      apply board_ext; [solve_wf|solve_wf|].
      intros y x Hy' Hx'. rdu.
      at_square y x A; [reflexivity|].
      at_square y x B; [now rewrite Ht|].
      at_square y x C; [now rewrite He|].
      at_square y x D; [now rewrite Hk|].
      rewrite ?A, ?B, ?C, ?D. reflexivity.
    + rewrite HL1. apply removelast_last.
Qed.

(** X1.  A move applied as the search and the legality filter apply it
    ([MovePiece] without manual promotion and without display) and undone
    with [MovePieceBack] gives back the game object exactly: board, log,
    turn, castling flags, scores and counter; castling on the king's wing
    is the one exception.  A rook or a king needs two earlier entries in
    the log, where the undo looks its castling flag up. *)
Theorem MovePieceBack_restores (c : Chess) (x1 y1 x2 y2 : Z) (key : PromotionKey) :
  Inv c -> plausible c (x1, y1, x2, y2) ->
  ~ castles_kingside c (x1, y1, x2, y2) ->
  (forall src, rd (board c) y1 x1 = Some src ->
     is_rook src = true \/ is_king src = true ->
     (2 <= length (all_game_moves c))%nat) ->
  exists c1, MovePiece c x1 y1 x2 y2 false key false = Some c1 /\
             MovePieceBack c1 x1 y1 x2 y2 = Some c.
Proof.
  intros HI (Hne & src & dst & Hs & Hd & Hsrc & Hdst & Hpawn & Hrook & Hking)
         Hnok Hlen.
  pose proof (inv_wf _ HI) as Hwf.
  specialize (Hlen src Hs).
  destruct (is_pawn src) eqn:Ep.
  { assert (Hown : own (whites_turn c) src = true).
    { destruct Hsrc as [->|H]; [discriminate Ep|exact H]. }
    destruct (Z.eq_dec y2 (last_rank c)) as [Hl|Hl].
    - now apply (back_promotion c x1 y1 x2 y2 src dst key).
    - specialize (Hpawn eq_refl).
      assert (Hcases : (x1 = x2 \/ dst <> EMPTY) \/
                       (x1 <> x2 /\ dst = EMPTY /\ y1 <> y2 /\
                        GetEnPassant c x1 y1 = Some x2)).
      { destruct Hpawn as [[-> _]|[[-> _]|(Ha & Hy & H3)]]; [tauto|tauto|].
        destruct (Z.eq_dec dst EMPTY) as [->|Hdd]; [|tauto].
        right. split; [lia|]. split; [reflexivity|].
        split; [destruct (whites_turn c); lia|].
        destruct H3 as [H3|[H3|H3]]; [contradiction|contradiction|exact H3]. }
      destruct Hcases as [Hc|(Hx & -> & Hyy & Hep)].
      + now apply (back_pawn_step c x1 y1 x2 y2 src dst key).
      + apply (back_en_passant c x1 y1 x2 y2 src key); try assumption.
        apply (en_passant_victim c x1 y1 x2); [assumption|assumption|].
        destruct (rd_Some_bounds _ _ _ _ Hd). lia. }
  destruct (is_king src) eqn:Ek.
  { assert (Hown : own (whites_turn c) src = true).
    { destruct Hsrc as [->|H]; [discriminate Ek|exact H]. }
    pose proof (own_king _ _ Ek Hown) as Esrc.
    destruct (castling (GetCurrentPlayerConst c)) eqn:Ef.
    - destruct (Z.eq_dec x2 2) as [E2|N2].
      + rewrite <- flag_of_current in Ef.
        destruct (Hking eq_refl Ef (or_introl E2)) as (-> & -> & -> & Hq & _).
        destruct (Hq E2) as (R0 & R1 & R2 & R3). subst x2 src.
        rewrite flag_of_current in Ef.
        apply (back_castle c 2 0 3 (rook_of (whites_turn c)) key);
          try assumption. left. tauto.
      + destruct (Z.eq_dec x2 6) as [E6|N6].
        * exfalso. apply Hnok. cbn. rewrite <- flag_of_current in Ef.
          subst src. tauto.
        * rewrite (MovePiece_king_step c x1 y1 x2 y2 src dst false key Hs Hd Ek)
            by tauto.
          eexists. split; [reflexivity|].
          apply (back_cleared c x1 y1 x2 y2 src dst); try assumption; tauto.
    - rewrite (MovePiece_king_step c x1 y1 x2 y2 src dst false key Hs Hd Ek)
        by tauto.
      eexists. split; [reflexivity|].
      apply (back_cleared c x1 y1 x2 y2 src dst); try assumption; tauto. }
  destruct (is_rook src) eqn:Er.
  { assert (Hown : own (whites_turn c) src = true).
    { destruct Hsrc as [->|H]; [discriminate Er|exact H]. }
    rewrite (MovePiece_rook c x1 y1 x2 y2 src dst false key Hs Hd Er).
    eexists. split; [reflexivity|].
    apply (back_cleared c x1 y1 x2 y2 src dst); try assumption; tauto. }
  now apply (back_plain c x1 y1 x2 y2 src dst key).
Qed.

Lemma MovePieceBack_restores_witness :
  exists c1, MovePiece (new_game 1 1) 4 6 4 4 false key_q false = Some c1 /\
             MovePieceBack c1 4 6 4 4 = Some (new_game 1 1).
Proof.
  apply (MovePieceBack_restores (new_game 1 1) 4 6 4 4 key_q).
  - apply Inv_new_game.
  - split; [right; lia|]. exists W_PAWN, EMPTY.
    repeat split; try reflexivity; try (right; reflexivity); try discriminate.
    intros _. right. left. repeat split; reflexivity.
  - intros (H & _). discriminate H.
  - intros src H. injection H as <-. intros [H|H]; discriminate H.
Defined.

(** X2.  Castling on the king's wing applied and undone leaves the game
    object with the h-file corner of the side to move empty, and
    everything else as it was. *)
Theorem MovePieceBack_erases_kingside_rook (c : Chess) (x1 y1 x2 y2 : Z)
    (key : PromotionKey) :
  Inv c -> plausible c (x1, y1, x2, y2) -> castles_kingside c (x1, y1, x2, y2) ->
  exists c1, MovePiece c x1 y1 x2 y2 false key false = Some c1 /\
             MovePieceBack c1 x1 y1 x2 y2 = Some (erased c).
Proof.
  intros HI (Hne & src & dst & Hs & Hd & Hsrc & Hdst & Hpawn & Hrook & Hking)
         (Hk & Hf & E6).
  pose proof (inv_wf _ HI) as Hwf.
  rewrite Hk in Hs. injection Hs as <-.
  destruct (Hking (king_of_is_king _) Hf (or_intror E6)) as (-> & -> & -> & _ & Hkk).
  destruct (Hkk E6) as (R7 & R5 & R6). subst x2.
  rewrite flag_of_current in Hf.
  destruct R7 as [R7|R7].
  - apply (back_castle c 6 7 5 (rook_of (whites_turn c)) key); try assumption.
    right. tauto.
  - apply (back_castle c 6 7 5 EMPTY key); try assumption. right. tauto.
Qed.

Lemma Inv_open_wings : Inv open_wings.
Proof.
  split.
  - reflexivity.
  - split; reflexivity.
  - intros t x y _ H. cbn [board open_wings] in H.
    destruct (rd_Some_bounds _ _ _ _ H) as [Hy Hx].
    apply below_eight in Hy, Hx.
    destruct t;
      repeat (destruct Hy as [->|Hy]); try subst y;
      repeat (destruct Hx as [->|Hx]); try subst x;
      first [discriminate H | split; reflexivity].
  - intros e H. discriminate H.
  - intros e H. discriminate H.
  - intros e lx1 ly1 lx2 ly2 H. discriminate H.
Qed.

Lemma MovePieceBack_erases_kingside_rook_witness :
  exists c1, MovePiece open_wings 4 7 6 7 false key_q false = Some c1 /\
             MovePieceBack c1 4 7 6 7 = Some (erased open_wings).
Proof.
  apply (MovePieceBack_erases_kingside_rook open_wings 4 7 6 7 key_q).
  - apply Inv_open_wings.
  - split; [left; lia|]. exists W_KING, EMPTY.
    repeat split; try reflexivity; try (right; reflexivity);
      try discriminate; try (left; reflexivity).
  - repeat split; reflexivity.
Defined.

(** ** What [IsCheck] answers *)

Lemma rd_in_bounds (b : Board) (y x : Z) :
  wf_board b -> WithinBounds y && WithinBounds x = true ->
  exists v, rd b y x = Some v.
Proof.
  intros Hwf H. apply andb_true_iff in H. destruct H as [Hy Hx].
  apply WithinBounds_spec in Hy, Hx. now apply rd_defined.
Qed.

(** A ray loop answers [true] exactly when one of its two attackers is
    the first piece it meets. *)
Lemma ray_meets (b : Board) (a1 a2 di dj : Z) :
  wf_board b -> a1 <> EMPTY -> a2 <> EMPTY ->
  forall n i j,
    exists r, ray b a1 a2 i j di dj n = Some r /\
      (r = true <->
       exists k : nat, (k < n)%nat /\
         (forall m : nat, (m < k)%nat ->
            rd b (j + Z.of_nat m * dj) (i + Z.of_nat m * di) = Some EMPTY) /\
         (rd b (j + Z.of_nat k * dj) (i + Z.of_nat k * di) = Some a1 \/
          rd b (j + Z.of_nat k * dj) (i + Z.of_nat k * di) = Some a2)).
Proof.
  intros Hwf H1 H2. induction n as [|n IH]; intros i j.
  - exists false. split; [reflexivity|]. split; [discriminate|].
    intros (k & Hk & _). lia.
  - cbn [ray].
    assert (Hz : forall z : Z, z + Z.of_nat 0 * dj = z /\ z + Z.of_nat 0 * di = z)
      by (intros; split; lia).
    destruct (WithinBounds i && WithinBounds j) eqn:Hin.
    + rewrite andb_comm in Hin.
      destruct (rd_in_bounds b j i Hwf Hin) as [v Hv]. rewrite Hv.
      destruct (Z.eqb_spec v a1) as [->|N1].
      { exists true. split; [reflexivity|]. split; [|reflexivity]. intros _.
        exists 0%nat. split; [lia|]. split; [intros m Hm; lia|].
        left. now rewrite (proj1 (Hz j)), (proj2 (Hz i)). }
      destruct (Z.eqb_spec v a2) as [->|N2].
      { exists true. split; [reflexivity|]. split; [|reflexivity]. intros _.
        exists 0%nat. split; [lia|]. split; [intros m Hm; lia|].
        right. now rewrite (proj1 (Hz j)), (proj2 (Hz i)). }
      destruct (Z.eqb_spec v EMPTY) as [->|N0]; cbn [negb].
      * destruct (IH (i + di) (j + dj)) as (r & Hr & Hiff).
        exists r. split; [exact Hr|]. rewrite Hiff. split.
        -- intros (k & Hk & He & Ha). exists (S k). split; [lia|]. split.
           ++ intros [|m] Hm.
              ** now rewrite (proj1 (Hz j)), (proj2 (Hz i)).
              ** specialize (He m ltac:(lia)).
                 replace (j + Z.of_nat (S m) * dj) with (j + dj + Z.of_nat m * dj) by lia.
                 replace (i + Z.of_nat (S m) * di) with (i + di + Z.of_nat m * di) by lia.
                 exact He.
           ++ replace (j + Z.of_nat (S k) * dj) with (j + dj + Z.of_nat k * dj) by lia.
              replace (i + Z.of_nat (S k) * di) with (i + di + Z.of_nat k * di) by lia.
              exact Ha.
        -- intros (k & Hk & He & Ha). destruct k as [|k].
           ++ rewrite (proj1 (Hz j)), (proj2 (Hz i)), Hv in Ha.
              destruct Ha as [Ha|Ha]; injection Ha as Ha; congruence.
           ++ exists k. split; [lia|]. split.
              ** intros m Hm. specialize (He (S m) ltac:(lia)).
                 replace (j + Z.of_nat (S m) * dj) with (j + dj + Z.of_nat m * dj)
                   in He by lia.
                 replace (i + Z.of_nat (S m) * di) with (i + di + Z.of_nat m * di)
                   in He by lia.
                 exact He.
              ** replace (j + Z.of_nat (S k) * dj) with (j + dj + Z.of_nat k * dj)
                   in Ha by lia.
                 replace (i + Z.of_nat (S k) * di) with (i + di + Z.of_nat k * di)
                   in Ha by lia.
                 exact Ha.
      * exists false. split; [reflexivity|]. split; [discriminate|].
        intros (k & Hk & He & Ha). exfalso. destruct k as [|k].
        -- rewrite (proj1 (Hz j)), (proj2 (Hz i)), Hv in Ha.
           destruct Ha as [Ha|Ha]; injection Ha as Ha; congruence.
        -- specialize (He 0%nat ltac:(lia)).
           rewrite (proj1 (Hz j)), (proj2 (Hz i)), Hv in He.
           injection He as He. contradiction.
    + exists false. split; [reflexivity|]. split; [discriminate|].
      intros (k & Hk & He & Ha). exfalso.
      assert (H0 : exists v, rd b j i = Some v).
      { destruct k as [|k].
        - rewrite (proj1 (Hz j)), (proj2 (Hz i)) in Ha. destruct Ha; eauto.
        - specialize (He 0%nat ltac:(lia)).
          rewrite (proj1 (Hz j)), (proj2 (Hz i)) in He. eauto. }
      destruct H0 as [v Hv]. destruct (rd_Some_bounds _ _ _ _ Hv) as [Hj Hi].
      apply WithinBounds_spec in Hj, Hi. rewrite Hj, Hi in Hin. discriminate.
Qed.

(** The ray loops of [IsCheck] start next to the king and have fuel for
    the whole board. *)
Lemma ray_in_sight (b : Board) (a1 a2 x y di dj : Z) :
  wf_board b -> a1 <> EMPTY -> a2 <> EMPTY ->
  0 <= x < 8 -> 0 <= y < 8 ->
  -1 <= di <= 1 -> -1 <= dj <= 1 -> di <> 0 \/ dj <> 0 ->
  exists r, ray b a1 a2 (x + di) (y + dj) di dj 8 = Some r /\
            (r = true <-> in_sight b a1 a2 x y di dj).
Proof.
  intros Hwf H1 H2 Hx Hy Hdi Hdj Hd.
  destruct (ray_meets b a1 a2 di dj Hwf H1 H2 8 (x + di) (y + dj))
    as (r & Hr & Hiff).
  exists r. split; [exact Hr|]. rewrite Hiff. unfold in_sight. split.
  - intros (k & Hk & He & Ha). exists (S k). split; [lia|]. split.
    + intros m Hm. destruct m as [|m]; [lia|].
      specialize (He m ltac:(lia)).
      replace (y + Z.of_nat (S m) * dj) with (y + dj + Z.of_nat m * dj) by lia.
      replace (x + Z.of_nat (S m) * di) with (x + di + Z.of_nat m * di) by lia.
      exact He.
    + replace (y + Z.of_nat (S k) * dj) with (y + dj + Z.of_nat k * dj) by lia.
      replace (x + Z.of_nat (S k) * di) with (x + di + Z.of_nat k * di) by lia.
      exact Ha.
  - intros (k & Hk & He & Ha). destruct k as [|k]; [lia|].
    exists k. split.
    + assert (Hb : exists v, rd b (y + Z.of_nat (S k) * dj) (x + Z.of_nat (S k) * di)
                             = Some v) by (destruct Ha; eauto).
      destruct Hb as [v Hv]. destruct (rd_Some_bounds _ _ _ _ Hv) as [Hj Hi].
      destruct Hd as [Hd|Hd]; nia.
    + split.
      * intros m Hm. specialize (He (S m) ltac:(lia)).
        replace (y + Z.of_nat (S m) * dj) with (y + dj + Z.of_nat m * dj) in He by lia.
        replace (x + Z.of_nat (S m) * di) with (x + di + Z.of_nat m * di) in He by lia.
        exact He.
      * replace (y + Z.of_nat (S k) * dj) with (y + dj + Z.of_nat k * dj) in Ha by lia.
        replace (x + Z.of_nat (S k) * di) with (x + di + Z.of_nat k * di) in Ha by lia.
        exact Ha.
Qed.

(** A run of guarded reads answers [true] exactly when one of them, with
    its guard true, finds the piece. *)
Lemma probes_found (b : Board) (target : Z) (l : list (Z * Z * bool)) (r : bool) :
  probes false b target l = Some r ->
  (r = true <->
   exists j i, In (j, i, true) l /\ rd b j i = Some target).
Proof.
  revert r. induction l as [|[[j i] g] l IH]; intros r H.
  - injection H as <-. split; [discriminate|]. intros (j & i & [] & _).
  - cbn [probes] in H. unfold probe in H. cbn [orb] in H.
    destruct (rd b j i) as [v|] eqn:Hv.
    + destruct (Z.eqb_spec target v) as [<-|Nv]; cbn [andb] in H.
      * destruct g.
        -- injection H as <-. split; [|reflexivity]. intros _.
           exists j, i. split; [now left|exact Hv].
        -- rewrite (IH r H). split.
           ++ intros (j' & i' & Hin & Hr). exists j', i'. split; [now right|exact Hr].
           ++ intros (j' & i' & [Hin|Hin] & Hr); [discriminate Hin|eauto].
      * rewrite (IH r H). split.
        -- intros (j' & i' & Hin & Hr). exists j', i'. split; [now right|exact Hr].
        -- intros (j' & i' & [Hin|Hin] & Hr); [|eauto].
           injection Hin as -> -> _. rewrite Hv in Hr. injection Hr as Hr.
           congruence.
    + destruct g; [discriminate H|].
      rewrite (IH r H). split.
      * intros (j' & i' & Hin & Hr). exists j', i'. split; [now right|exact Hr].
      * intros (j' & i' & [Hin|Hin] & Hr); [discriminate Hin|eauto].
Qed.

(** A run of guarded reads has an answer when every read whose guard is
    true is a read of the board. *)
Lemma probes_defined (b : Board) (target : Z) (l : list (Z * Z * bool)) :
  wf_board b ->
  (forall j i, In (j, i, true) l -> 0 <= j < 8 /\ 0 <= i < 8) ->
  exists r, probes false b target l = Some r.
Proof.
  intros Hwf. induction l as [|[[j i] g] l IH]; intros Hg.
  - now exists false.
  - cbn [probes].
    destruct (probe_lenient_defined b (Z.eqb target) j i g Hwf) as [r Hr].
    { intros ->. apply Hg. now left. }
    rewrite Hr. destruct r; [now exists true|].
    apply IH. intros j' i' Hin. apply Hg. now right.
Qed.

Lemma orelse_iff (a k : option bool) (A K : Prop) (r : bool) :
  (forall ra, a = Some ra -> (ra = true <-> A)) ->
  (forall rk, k = Some rk -> (rk = true <-> K)) ->
  match a with
  | Some true => Some true
  | Some false => k
  | None => None
  end = Some r -> (r = true <-> A \/ K).
Proof.
  intros HA HK H. destruct a as [[|]|].
  - injection H as <-. specialize (HA true eq_refl). tauto.
  - specialize (HA false eq_refl). specialize (HK r H).
    assert (~ A) by (intros HA'; apply HA in HA'; discriminate). tauto.
  - discriminate H.
Qed.

Lemma orelse_defined (a k : option bool) :
  (exists ra, a = Some ra) -> (exists rk, k = Some rk) ->
  exists r, match a with
            | Some true => Some true
            | Some false => k
            | None => None
            end = Some r.
Proof.
  intros [[|] ->] [rk ->]; eauto.
Qed.

(** The first loops of [IsCheck] find the king when it is the only one
    on the board. *)
Lemma column_scan_none (b : Board) (k i : Z) :
  wf_board b -> 0 <= i < 8 ->
  forall n j, 0 <= j -> j + Z.of_nat n <= 8 ->
    (forall y, j <= y < j + Z.of_nat n -> rd b y i <> Some k) ->
    column_scan b k i j n = Some None.
Proof.
  intros Hwf Hi. induction n as [|n IH]; intros j Hj Hn Hno; [reflexivity|].
  cbn [column_scan].
  destruct (rd_defined b j i Hwf ltac:(lia) Hi) as [v Hv]. rewrite Hv.
  destruct (Z.eqb_spec v k) as [->|Nk].
  - exfalso. apply (Hno j); [lia|exact Hv].
  - apply IH; [lia|lia|]. intros y Hy. apply Hno. lia.
Qed.

Lemma column_scan_first (b : Board) (k i y : Z) :
  wf_board b -> 0 <= i < 8 -> rd b y i = Some k ->
  forall n j, 0 <= j <= y -> y < j + Z.of_nat n -> j + Z.of_nat n <= 8 ->
    (forall y', j <= y' < y -> rd b y' i <> Some k) ->
    column_scan b k i j n = Some (Some y).
Proof.
  intros Hwf Hi Hk. induction n as [|n IH]; intros j Hj Hn Hn8 Hno; [lia|].
  cbn [column_scan].
  destruct (rd_defined b j i Hwf ltac:(lia) Hi) as [v Hv]. rewrite Hv.
  destruct (Z.eqb_spec v k) as [->|Nk].
  - destruct (Z.eq_dec j y) as [->|Ny]; [reflexivity|].
    exfalso. apply (Hno j); [lia|exact Hv].
  - assert (j <> y) by (intros ->; congruence).
    apply IH; [lia|lia|lia|]. intros y' Hy'. apply Hno. lia.
Qed.

Lemma king_scan_only (b : Board) (k x y : Z) :
  wf_board b -> rd b y x = Some k ->
  (forall y' x', rd b y' x' = Some k -> y' = y /\ x' = x) ->
  king_scan b k 0 8 = Some (x, y).
Proof.
  intros Hwf Hk Huniq.
  destruct (rd_Some_bounds _ _ _ _ Hk) as [Hy Hx].
  assert (Hgen : forall n i, 0 <= i <= x -> x < i + Z.of_nat n -> i + Z.of_nat n <= 8 ->
                   king_scan b k i n = Some (x, y)).
  { induction n as [|n IH]; intros i Hi Hn Hn8; [lia|].
    cbn [king_scan].
    destruct (Z.eq_dec i x) as [->|Ni].
    - rewrite (column_scan_first b k x y Hwf Hx Hk 8 0) by
        (try lia; intros y' Hy' Hc; apply Huniq in Hc; lia).
      reflexivity.
    - rewrite (column_scan_none b k i Hwf ltac:(lia) 8 0) by
        (try lia; intros y' Hy' Hc; apply Huniq in Hc; lia).
      apply IH; lia. }
  apply Hgen; lia.
Qed.

Lemma ray_in_sight_at (b : Board) (a1 a2 x y di dj i j : Z) :
  wf_board b -> a1 <> EMPTY -> a2 <> EMPTY ->
  0 <= x < 8 -> 0 <= y < 8 ->
  -1 <= di <= 1 -> -1 <= dj <= 1 -> di <> 0 \/ dj <> 0 ->
  i = x + di -> j = y + dj ->
  exists r, ray b a1 a2 i j di dj 8 = Some r /\
            (r = true <-> in_sight b a1 a2 x y di dj).
Proof. intros; subst i j. now apply ray_in_sight. Qed.

Lemma answer_of (a : option bool) (A : Prop) :
  (exists r, a = Some r /\ (r = true <-> A)) ->
  forall ra, a = Some ra -> (ra = true <-> A).
Proof. intros (r & -> & H) ra E. injection E as <-. exact H. Qed.

Lemma enemy_not_EMPTY (t : bool) (p : Z) : 1 <= p <= 6 -> p - 7 * b2z t <> EMPTY.
Proof. unfold EMPTY. destruct t; cbn [b2z]; lia. Qed.

Ltac ray_fact Hwf Hx Hy :=
  apply answer_of;
  match type of Hx with 0 <= ?x < 8 =>
    match type of Hy with 0 <= ?y < 8 =>
      apply (fun b a1 a2 => ray_in_sight_at b a1 a2 x y)
    end
  end;
  first [exact Hwf | exact Hx | exact Hy
        | apply enemy_not_EMPTY; unfold W_ROOK, W_QUEEN, W_BISHOP; lia
        | lia | (left; lia) | (right; lia)].

Ltac check_chain Hwf Hx Hy H :=
  first
    [ eapply orelse_iff; [ | | exact H];
      [ first [ ray_fact Hwf Hx Hy
              | let ra := fresh "ra" in let Hra := fresh "Hra" in
                intros ra Hra; exact (probes_found _ _ _ _ Hra) ]
      | let rk := fresh "rk" in let Hk := fresh "Hk" in
        intros rk Hk; check_chain Hwf Hx Hy Hk ]
    | exact (probes_found _ _ _ _ H) ].

Lemma in_ring (l : list (Z * Z * bool)) (j i : Z) (g : bool) :
  In (j, i, g) l -> g = true -> In (j, i, true) l.
Proof. now intros H ->. Qed.

(** X3.  On a board with one king of side [t], [IsCheck] answers [true]
    exactly when a piece of the other side attacks the king's square; and
    it has an answer whenever the rank from which a pawn would attack is
    a rank of the board. *)
Theorem IsCheck_attacked (b : Board) (t : bool) (x y : Z) :
  wf_board b -> rd b y x = Some (king_of t) ->
  (forall y' x', rd b y' x' = Some (king_of t) -> y' = y /\ x' = x) ->
  (forall r, IsCheck b t = Some r -> (r = true <-> attacked b t x y)) /\
  (0 <= y + (if t then -1 else 1) < 8 -> exists r, IsCheck b t = Some r).
Proof.
  intros Hwf Hk Huniq.
  destruct (rd_Some_bounds _ _ _ _ Hk) as [Hy Hx].
  pose proof (king_scan_only b (king_of t) x y Hwf Hk Huniq) as Hscan.
  unfold IsCheck, IsCheck_gen. unfold king_of in Hscan. rewrite Hscan.
  cbv zeta. split.
  - intros r H.
    evar (Q : Prop).
    assert (Hiff : r = true <-> Q) by (subst Q; check_chain Hwf Hx Hy H).
    subst Q.
    rewrite Hiff. clear Hiff H. unfold attacked. split.
    + intros [S|[S|[S|[S|[S|[S|[S|[S|[K|[N|P]]]]]]]]]].
      * left. exists 1, 0. repeat split; try lia. exact S.
      * left. exists (-1), 0. repeat split; try lia. exact S.
      * left. exists 0, 1. repeat split; try lia. exact S.
      * left. exists 0, (-1). repeat split; try lia. exact S.
      * left. exists (-1), (-1). repeat split; try lia. exact S.
      * left. exists (-1), 1. repeat split; try lia. exact S.
      * left. exists 1, (-1). repeat split; try lia. exact S.
      * left. exists 1, 1. repeat split; try lia. exact S.
      * right. left. destruct K as (j & i & Hin & Hr). exists i, j.
        split; [|split; [|exact Hr]];
          cbn in Hin; repeat (destruct Hin as [Hin|Hin];
                               [injection Hin as <- <- _; lia|]);
          contradiction.
      * right. right. left. destruct N as (j & i & Hin & Hr). exists i, j.
        split; [|exact Hr].
        cbn in Hin; repeat (destruct Hin as [Hin|Hin];
                             [injection Hin as <- <- _; lia|]);
          contradiction.
      * right. right. right. destruct P as (j & i & Hin & Hr). exists i.
        cbn in Hin.
        destruct Hin as [Hin|[Hin|[]]]; injection Hin as <- <- _;
          (split; [lia|exact Hr]).
    + intros [(di & dj & Hdi & Hdj & Hd & S)|[(i & j & Hi & Hj & Hr)|
              [(i & j & Hij & Hr)|(i & Hi & Hr)]]].
      * assert (Ei : di = -1 \/ di = 0 \/ di = 1) by lia.
        assert (Ej : dj = -1 \/ dj = 0 \/ dj = 1) by lia.
        destruct Ei as [->|[->| ->]]; destruct Ej as [->|[->| ->]];
          try (exfalso; lia); tauto.
      * do 8 right. left. exists j, i. split; [|exact Hr].
        destruct (rd_Some_bounds _ _ _ _ Hr) as [Bj Bi].
        assert (G : WithinBounds i && WithinBounds j = true)
          by (apply andb_true_iff; split; now apply WithinBounds_spec).
        assert (Ei : i = x - 1 \/ i = x \/ i = x + 1) by lia.
        assert (Ej : j = y - 1 \/ j = y \/ j = y + 1) by lia.
        destruct Ei as [->|[->| ->]]; destruct Ej as [->|[->| ->]];
          (eapply in_ring; [|exact G]); cbn; tauto.
      * do 9 right. left. exists j, i. split; [|exact Hr].
        destruct (rd_Some_bounds _ _ _ _ Hr) as [Bj Bi].
        unfold knight_ring, BOARD_SIZE.
        assert (E : (i = x - 2 /\ j = y - 1) \/ (i = x + 2 /\ j = y - 1) \/
                    (i = x - 2 /\ j = y + 1) \/ (i = x + 2 /\ j = y + 1) \/
                    (i = x - 1 /\ j = y - 2) \/ (i = x + 1 /\ j = y - 2) \/
                    (i = x - 1 /\ j = y + 2) \/ (i = x + 1 /\ j = y + 2)) by lia.
        repeat (destruct E as [[-> ->]|E]); try destruct E as [-> ->];
          match goal with
          | |- In (?j0, ?i0, true) ?l =>
              match l with
              | context [(j0, i0, ?g)] =>
                  apply (in_ring l j0 i0 g); [cbn; tauto|];
                  apply andb_true_iff; split; lia
              end
          end.
      * do 10 right. exists (y + (if t then -1 else 1)), i. split; [|exact Hr].
        destruct (rd_Some_bounds _ _ _ _ Hr) as [Bj Bi].
        unfold pawn_ring, BOARD_SIZE.
        assert (E : i = x + 1 \/ i = x - 1) by lia.
        destruct E as [->| ->];
          match goal with
          | |- In (?j0, ?i0, true) ?l =>
              match l with
              | context [(j0, i0, ?g)] =>
                  apply (in_ring l j0 i0 g); [cbn; tauto|]; lia
              end
          end.
  - intros Hrow.
    repeat (apply orelse_defined;
            [ first [ match goal with
                      | |- exists ra, ray _ _ _ _ _ _ _ _ = Some ra =>
                          edestruct (fun a1 a2 => ray_in_sight_at b a1 a2 x y)
                            as (r0 & Hr0 & _);
                          [exact Hwf| | |exact Hx|exact Hy| | | | | |
                           exists r0; exact Hr0];
                          first [ apply enemy_not_EMPTY;
                                  unfold W_ROOK, W_QUEEN, W_BISHOP; lia
                                | lia | (left; lia) | (right; lia) ]
                      end
                    | apply probes_defined; [exact Hwf|];
                      intros j i Hin; cbn in Hin;
                      unfold BOARD_SIZE in Hin;
                      repeat (destruct Hin as [Hin|Hin];
                              [injection Hin as <- <- Hg;
                               try (apply andb_true_iff in Hg; destruct Hg as [G1 G2];
                                    try apply WithinBounds_spec in G1;
                                    try apply WithinBounds_spec in G2);
                               lia|]);
                      contradiction ] | ]).
    apply probes_defined; [exact Hwf|].
    intros j i Hin. cbn in Hin. unfold BOARD_SIZE in Hin.
    destruct Hin as [Hin|[Hin|[]]]; injection Hin as <- <- Hg; lia.
Qed.

Lemma IsCheck_attacked_witness :
  (forall r, IsCheck STARTING_BOARD true = Some r ->
             (r = true <-> attacked STARTING_BOARD true 4 7)) /\
  (0 <= 7 + -1 < 8 -> exists r, IsCheck STARTING_BOARD true = Some r).
Proof.
  apply (IsCheck_attacked STARTING_BOARD true 4 7).
  - reflexivity.
  - reflexivity.
  - intros y' x' H. destruct (rd_Some_bounds _ _ _ _ H) as [Hy Hx].
    apply below_eight in Hy, Hx.
    repeat (destruct Hy as [->|Hy]); try subst y';
      repeat (destruct Hx as [->|Hx]); try subst x';
      first [discriminate H | split; reflexivity].
Defined.

(** ** What the generators list, exactly *)

Lemma own_false_cases (t : bool) (v : Z) :
  own t v = false <-> v = EMPTY \/ capture t v = true.
Proof.
  unfold own, capture, EMPTY. destruct t.
  - rewrite Z.ltb_ge, Z.ltb_lt. lia.
  - rewrite Z.ltb_ge, Z.gtb_lt. lia.
Qed.

Lemma own_false_landing (t : bool) (v : Z) :
  own t v = false <-> landing t v = true.
Proof.
  unfold own, landing. destruct t.
  - rewrite Z.ltb_ge, Z.leb_le. lia.
  - rewrite Z.ltb_ge, Z.geb_le. lia.
Qed.

(** One sliding loop: the moves it adds. *)
Lemma slide_exact (b : Board) (t : bool) (x y di dj : Z) :
  wf_board b ->
  forall n i j acc,
    exists res, slide b t x y i j di dj acc n = Some res /\
      forall m, In m res <->
        In m acc \/
        exists k : nat, (k < n)%nat /\
          m = ToString x y (i + Z.of_nat k * di) (j + Z.of_nat k * dj) /\
          (forall k' : nat, (k' < k)%nat ->
             rd b (j + Z.of_nat k' * dj) (i + Z.of_nat k' * di) = Some EMPTY) /\
          exists v, rd b (j + Z.of_nat k * dj) (i + Z.of_nat k * di) = Some v /\
                    own t v = false.
Proof.
  intros Hwf. induction n as [|n IH]; intros i j acc.
  - exists acc. split; [reflexivity|]. intros m. split; [tauto|].
    intros [H|(k & Hk & _)]; [exact H|lia].
  - cbn [slide].
    assert (Hz : forall z d : Z, z + Z.of_nat 0 * d = z) by (intros; lia).
    assert (Hs : forall (z d : Z) (k : nat),
               z + Z.of_nat (S k) * d = z + d + Z.of_nat k * d) by (intros; lia).
    destruct (WithinBounds i && WithinBounds j) eqn:Hin.
    + assert (Hin' : WithinBounds j && WithinBounds i = true)
        by (now rewrite andb_comm).
      apply andb_true_iff in Hin'. destruct Hin' as [Bj Bi].
      apply WithinBounds_spec in Bj, Bi.
      destruct (rd_defined b j i Hwf Bj Bi) as [v Hv]. rewrite Hv.
      destruct (Z.eqb_spec v EMPTY) as [->|Nv].
      * destruct (IH (i + di) (j + dj) (ToString x y i j :: acc)) as (res & Hr & Hiff).
        exists res. split; [exact Hr|]. intros m. rewrite Hiff. split.
        -- intros [[<-|Ha]|(k & Hk & -> & Hp & Ht)].
           ++ right. exists 0%nat. rewrite !Hz. split; [lia|].
              split; [reflexivity|]. split; [intros k' Hk'; lia|].
              exists EMPTY. split; [exact Hv|apply own_not_EMPTY].
           ++ now left.
           ++ right. exists (S k). rewrite !Hs. split; [lia|].
              split; [reflexivity|]. split; [|exact Ht].
              intros [|k'] Hk'; [now rewrite !Hz|].
              rewrite !Hs. apply Hp. lia.
        -- intros [Ha|(k & Hk & -> & Hp & Ht)]; [left; now right|].
           destruct k as [|k].
           ++ left. left. now rewrite !Hz.
           ++ right. exists k. rewrite !Hs in Ht. rewrite !Hs.
              split; [lia|]. split; [reflexivity|]. split; [|exact Ht].
              intros k' Hk'. specialize (Hp (S k') ltac:(lia)).
              now rewrite !Hs in Hp.
      * eexists. split; [reflexivity|]. intros m. rewrite In_emplace_if. split.
        -- intros [[Hc <-]|Ha]; [|now left].
           right. exists 0%nat. rewrite !Hz. split; [lia|].
           split; [reflexivity|]. split; [intros k' Hk'; lia|].
           exists v. split; [exact Hv|now apply capture_not_own].
        -- intros [Ha|(k & Hk & -> & Hp & v' & Hv' & Ho)]; [now right|].
           destruct k as [|k].
           ++ rewrite !Hz in *. left. split; [|reflexivity].
              rewrite Hv in Hv'. injection Hv' as <-.
              apply own_false_cases in Ho. destruct Ho; [contradiction|assumption].
           ++ specialize (Hp 0%nat ltac:(lia)). rewrite !Hz, Hv in Hp.
              injection Hp as Hp. contradiction.
    + exists acc. split; [reflexivity|]. intros m. split; [tauto|].
      intros [Ha|(k & Hk & -> & Hp & v' & Hv' & Ho)]; [exact Ha|]. exfalso.
      assert (H0 : exists v, rd b j i = Some v).
      { destruct k as [|k].
        - rewrite !Hz in Hv'. eauto.
        - specialize (Hp 0%nat ltac:(lia)). rewrite !Hz in Hp. eauto. }
      destruct H0 as [v Hv]. destruct (rd_Some_bounds _ _ _ _ Hv) as [Bj Bi].
      apply WithinBounds_spec in Bj, Bi. rewrite Bj, Bi in Hin. discriminate.
Qed.

(** The loops of [RookMoves] and [BishopMoves] start next to the piece
    and have fuel for the whole board. *)
Lemma slide_reach (b : Board) (t : bool) (x y di dj i j : Z) (acc : list str) :
  wf_board b -> 0 <= x < 8 -> 0 <= y < 8 ->
  -1 <= di <= 1 -> -1 <= dj <= 1 -> di <> 0 \/ dj <> 0 ->
  i = x + di -> j = y + dj ->
  exists res, slide b t x y i j di dj acc 8 = Some res /\
    forall m, In m res <->
      In m acc \/
      exists x2 y2, m = ToString x y x2 y2 /\ line_reach b t x y di dj x2 y2.
Proof.
  intros Hwf Hx Hy Hdi Hdj Hd -> ->.
  destruct (slide_exact b t x y di dj Hwf 8 (x + di) (y + dj) acc)
    as (res & Hr & Hiff).
  exists res. split; [exact Hr|]. intros m. rewrite Hiff.
  assert (Hs : forall (z d : Z) (k : nat),
             z + Z.of_nat (S k) * d = z + d + Z.of_nat k * d) by (intros; lia).
  split; (intros [Ha|H]; [now left|right]).
  - destruct H as (k & Hk & -> & Hp & Ht).
    exists (x + di + Z.of_nat k * di), (y + dj + Z.of_nat k * dj).
    split; [reflexivity|]. exists (S k). rewrite !Hs.
    split; [lia|]. split; [reflexivity|]. split; [reflexivity|]. split; [|exact Ht].
    intros [|m'] Hm; [lia|]. rewrite !Hs. apply Hp. lia.
  - destruct H as (x2 & y2 & -> & k & Hk & -> & -> & Hp & Ht).
    destruct k as [|k]; [lia|]. exists k. rewrite !Hs in Ht. rewrite !Hs.
    split.
    + destruct Ht as (v & Hv & _). destruct (rd_Some_bounds _ _ _ _ Hv) as [Bj Bi].
      destruct Hd as [Hd|Hd]; nia.
    + split; [reflexivity|]. split; [|exact Ht].
      intros k' Hk'. specialize (Hp (S k') ltac:(lia)). now rewrite !Hs in Hp.
Qed.

Ltac slide_next Hwf Hx Hy l Hl Hiff :=
  match goal with
  | |- context [slide ?b ?t ?x ?y ?i ?j ?di ?dj ?acc 8] =>
      destruct (slide_reach b t x y di dj i j acc Hwf Hx Hy
                  ltac:(lia) ltac:(lia) ltac:(lia) ltac:(lia) ltac:(lia))
        as (l & Hl & Hiff);
      rewrite Hl
  end.

(** X4.  [RookMoves] on a square of the board returns, and lists exactly
    the moves along the rank and the file of the square over empty
    squares to a square that is empty or holds a piece of the other
    side. *)
Theorem RookMoves_exact (c : Chess) (x y : Z) :
  wf_board (board c) -> 0 <= x < 8 -> 0 <= y < 8 ->
  exists l, RookMoves c x y = Some l /\
    forall m, In m l <->
      exists di dj x2 y2,
        straight di dj /\ m = ToString x y x2 y2 /\
        line_reach (board c) (whites_turn c) x y di dj x2 y2.
Proof.
  intros Hwf Hx Hy. unfold RookMoves. cbv zeta.
  slide_next Hwf Hx Hy l1 H1 I1.
  slide_next Hwf Hx Hy l2 H2 I2.
  slide_next Hwf Hx Hy l3 H3 I3.
  slide_next Hwf Hx Hy l4 H4 I4.
  exists l4. split; [reflexivity|]. intros m.
  rewrite I4, I3, I2, I1. unfold straight. split.
  - intros [[[[[]|H]|H]|H]|H]; destruct H as (x2 & y2 & -> & H).
    + exists 1, 0, x2, y2. split; [lia|]. now split.
    + exists (-1), 0, x2, y2. split; [lia|]. now split.
    + exists 0, 1, x2, y2. split; [lia|]. now split.
    + exists 0, (-1), x2, y2. split; [lia|]. now split.
  - intros (di & dj & x2 & y2 & Hd & -> & H).
    assert (E : (di = 1 /\ dj = 0) \/ (di = -1 /\ dj = 0) \/
                (di = 0 /\ dj = 1) \/ (di = 0 /\ dj = -1)) by lia.
    destruct E as [[-> ->]|[[-> ->]|[[-> ->]|[-> ->]]]]; eauto 8.
Qed.

(** X5.  [BishopMoves] on a square of the board returns, and lists exactly
    the moves along the two diagonals of the square over empty squares to
    a square that is empty or holds a piece of the other side. *)
Theorem BishopMoves_exact (c : Chess) (x y : Z) :
  wf_board (board c) -> 0 <= x < 8 -> 0 <= y < 8 ->
  exists l, BishopMoves c x y = Some l /\
    forall m, In m l <->
      exists di dj x2 y2,
        diagonal di dj /\ m = ToString x y x2 y2 /\
        line_reach (board c) (whites_turn c) x y di dj x2 y2.
Proof.
  intros Hwf Hx Hy. unfold BishopMoves. cbv zeta.
  slide_next Hwf Hx Hy l1 H1 I1.
  slide_next Hwf Hx Hy l2 H2 I2.
  slide_next Hwf Hx Hy l3 H3 I3.
  slide_next Hwf Hx Hy l4 H4 I4.
  exists l4. split; [reflexivity|]. intros m.
  rewrite I4, I3, I2, I1. unfold diagonal. split.
  - intros [[[[[]|H]|H]|H]|H]; destruct H as (x2 & y2 & -> & H).
    + exists (-1), (-1), x2, y2. split; [lia|]. now split.
    + exists (-1), 1, x2, y2. split; [lia|]. now split.
    + exists 1, (-1), x2, y2. split; [lia|]. now split.
    + exists 1, 1, x2, y2. split; [lia|]. now split.
  - intros (di & dj & x2 & y2 & Hd & -> & H).
    assert (E : (di = -1 /\ dj = -1) \/ (di = -1 /\ dj = 1) \/
                (di = 1 /\ dj = -1) \/ (di = 1 /\ dj = 1)) by lia.
    destruct E as [[-> ->]|[[-> ->]|[[-> ->]|[-> ->]]]]; eauto 8.
Qed.

(** X6.  [QueenMoves] on a square of the board returns, and lists exactly
    the moves of a rook and the moves of a bishop from that square. *)
Theorem QueenMoves_exact (c : Chess) (x y : Z) :
  wf_board (board c) -> 0 <= x < 8 -> 0 <= y < 8 ->
  exists l, QueenMoves c x y = Some l /\
    forall m, In m l <->
      exists di dj x2 y2,
        (straight di dj \/ diagonal di dj) /\ m = ToString x y x2 y2 /\
        line_reach (board c) (whites_turn c) x y di dj x2 y2.
Proof.
  intros Hwf Hx Hy. unfold QueenMoves, RookMoves, BishopMoves. cbv zeta.
  slide_next Hwf Hx Hy l1 H1 I1.
  slide_next Hwf Hx Hy l2 H2 I2.
  slide_next Hwf Hx Hy l3 H3 I3.
  slide_next Hwf Hx Hy l4 H4 I4.
  slide_next Hwf Hx Hy d1 G1 J1.
  slide_next Hwf Hx Hy d2 G2 J2.
  slide_next Hwf Hx Hy d3 G3 J3.
  slide_next Hwf Hx Hy d4 G4 J4.
  eexists. split; [reflexivity|]. intros m.
  rewrite merge_In, I4, I3, I2, I1, J4, J3, J2, J1.
  unfold straight, diagonal. split.
  - intros [[[[[[]|H]|H]|H]|H]|[[[[[]|H]|H]|H]|H]];
      destruct H as (x2 & y2 & -> & H).
    + exists 1, 0, x2, y2. split; [lia|]. now split.
    + exists (-1), 0, x2, y2. split; [lia|]. now split.
    + exists 0, 1, x2, y2. split; [lia|]. now split.
    + exists 0, (-1), x2, y2. split; [lia|]. now split.
    + exists (-1), (-1), x2, y2. split; [lia|]. now split.
    + exists (-1), 1, x2, y2. split; [lia|]. now split.
    + exists 1, (-1), x2, y2. split; [lia|]. now split.
    + exists 1, 1, x2, y2. split; [lia|]. now split.
  - intros (di & dj & x2 & y2 & Hd & -> & H).
    assert (E : (di = 1 /\ dj = 0) \/ (di = -1 /\ dj = 0) \/
                (di = 0 /\ dj = 1) \/ (di = 0 /\ dj = -1) \/
                (di = -1 /\ dj = -1) \/ (di = -1 /\ dj = 1) \/
                (di = 1 /\ dj = -1) \/ (di = 1 /\ dj = 1)) by lia.
    destruct E as [[-> ->]|[[-> ->]|[[-> ->]|[[-> ->]|
                   [[-> ->]|[[-> ->]|[[-> ->]|[-> ->]]]]]]]]; eauto 10.
Qed.

(** A run of guarded landings: the moves it adds. *)
Lemma jumps_exact (b : Board) (t : bool) (x y : Z) (ring : list (Z * Z * bool)) :
  wf_board b ->
  (forall j i, In (j, i, true) ring -> 0 <= j < 8 /\ 0 <= i < 8) ->
  forall acc,
    exists res, jumps b t x y ring acc = Some res /\
      forall m, In m res <->
        In m acc \/
        exists j i v, In (j, i, true) ring /\ m = ToString x y i j /\
                      rd b j i = Some v /\ own t v = false.
Proof.
  intros Hwf. induction ring as [|[[j i] g] ring IH]; intros Hg acc.
  - exists acc. split; [reflexivity|]. intros m. split; [tauto|].
    intros [H|(j & i & v & [] & _)]. exact H.
  - cbn [jumps].
    destruct (probe_lenient_defined b (landing t) j i g Hwf) as [ok Hok].
    { intros ->. apply Hg. now left. }
    rewrite Hok.
    destruct (IH (fun j' i' H => Hg j' i' (or_intror H))
                 (emplace_if ok (ToString x y i j) acc)) as (res & Hr & Hiff).
    exists res. split; [exact Hr|]. intros m. rewrite Hiff, In_emplace_if. split.
    + intros [[[-> <-]|Ha]|(j' & i' & v & Hin & -> & Hv & Ho)].
      * apply probe_true in Hok. destruct Hok as (v & Hv & Hl & ->).
        right. exists j, i, v. split; [now left|]. split; [reflexivity|].
        split; [exact Hv|now apply landing_not_own].
      * now left.
      * right. exists j', i', v. split; [now right|]. tauto.
    + intros [Ha|(j' & i' & v & [Hin|Hin] & -> & Hv & Ho)].
      * left. now right.
      * injection Hin as -> -> ->. left. left. split; [|reflexivity].
        unfold probe in Hok. rewrite Hv in Hok.
        apply own_false_landing in Ho. rewrite Ho in Hok.
        now injection Hok as <-.
      * right. exists j', i', v. tauto.
Qed.

(** X7.  [KnightMoves] on a square of the board returns, and lists exactly
    the knight's jumps to a square of the board that is empty or holds a
    piece of the other side. *)
Theorem KnightMoves_exact (c : Chess) (x y : Z) :
  wf_board (board c) -> 0 <= x < 8 -> 0 <= y < 8 ->
  exists l, KnightMoves c x y = Some l /\
    forall m, In m l <->
      exists x2 y2 v,
        knight_jump x y x2 y2 /\ m = ToString x y x2 y2 /\
        rd (board c) y2 x2 = Some v /\ own (whites_turn c) v = false.
Proof.
  intros Hwf Hx Hy. unfold KnightMoves.
  destruct (jumps_exact (board c) (whites_turn c) x y (knight_ring x y) Hwf)
    with (acc := @nil str) as (l & Hl & Hiff).
  { intros j i Hin. cbn in Hin. unfold BOARD_SIZE in Hin.
    repeat (destruct Hin as [Hin|Hin];
            [injection Hin as <- <- Hg; apply andb_true_iff in Hg; lia|]).
    contradiction. }
  exists l. split; [exact Hl|]. intros m. rewrite Hiff. unfold knight_jump. split.
  - intros [[]|(j & i & v & Hin & -> & Hv & Ho)].
    exists i, j, v. split; [|tauto].
    cbn in Hin.
    repeat (destruct Hin as [Hin|Hin]; [injection Hin as <- <- _; lia|]).
    contradiction.
  - intros (x2 & y2 & v & Hj & -> & Hv & Ho). right. exists y2, x2, v.
    split; [|tauto].
    destruct (rd_Some_bounds _ _ _ _ Hv) as [Bj Bi].
    unfold knight_ring, BOARD_SIZE.
    assert (E : (x2 = x - 2 /\ y2 = y - 1) \/ (x2 = x + 2 /\ y2 = y - 1) \/
                (x2 = x - 2 /\ y2 = y + 1) \/ (x2 = x + 2 /\ y2 = y + 1) \/
                (x2 = x - 1 /\ y2 = y - 2) \/ (x2 = x + 1 /\ y2 = y - 2) \/
                (x2 = x - 1 /\ y2 = y + 2) \/ (x2 = x + 1 /\ y2 = y + 2)) by lia.
    repeat (destruct E as [[-> ->]|E]); try destruct E as [-> ->];
      match goal with
      | |- In (?j0, ?i0, true) ?l =>
          match l with
          | context [(j0, i0, ?g)] =>
              replace true with g; [cbn; tauto|];
              apply andb_true_iff; split; lia
          end
      end.
Qed.

Lemma ToString_inj_rank (x1 y1 x2 y2 x1' y1' x2' y2' : Z) :
  -64 <= y1 < 64 -> -64 <= y2 < 64 ->
  0 <= y1' < 8 -> 0 <= y2' < 8 ->
  ToString x1 y1 x2 y2 = ToString x1' y1' x2' y2' -> y1 = y1' /\ y2 = y2'.
Proof.
  intros H1 H2 H1' H2' E. unfold ToString in E.
  injection E as _ E2 _ E4.
  rewrite !to_char_small in E2, E4 by lia. lia.
Qed.

(** The list of [KingMoves] is the list of the king's steps, with at most
    the two castling moves in front. *)
Lemma KingMoves_shape (c : Chess) (x y : Z) :
  wf_board (board c) ->
  (castling (GetCurrentPlayerConst c) = true ->
   exists r, IsCheck (board c) (whites_turn c) = Some r) ->
  forall l0,
    jumps (board c) (whites_turn c) x y (king_ring x y) [] = Some l0 ->
    exists l, KingMoves c x y = Some l /\
      forall m, In m l <->
        In m l0 \/ (In m l /\ (m = castle_queenside c \/ m = castle_kingside c)).
Proof.
  intros Hwf Hchk l0 Hj. unfold KingMoves. rewrite Hj. cbv zeta.
  destruct (castling (GetCurrentPlayerConst c)).
  2: { exists l0. split; [reflexivity|]. intros m. tauto. }
  destruct (Hchk eq_refl) as [r ->].
  destruct r; cbn [negb].
  { exists l0. split; [reflexivity|]. intros m. tauto. }
  fold (home_line c).
  assert (Hl : 0 <= home_line c < 8)
    by (unfold home_line, BOARD_SIZE; destruct (whites_turn c); cbn [b2z]; lia).
  assert (Hrd : forall k, 0 <= k < 8 -> exists v, rd (board c) (home_line c) k = Some v)
    by (intros k Hk; now apply rd_defined).
  destruct (Hrd 0 ltac:(lia)) as [r0 ->].
  destruct (Hrd 1 ltac:(lia)) as [s1 ->].
  destruct (Hrd 2 ltac:(lia)) as [s2 ->].
  destruct (Hrd 3 ltac:(lia)) as [s3 ->].
  destruct (Hrd 5 ltac:(lia)) as [s5 ->].
  destruct (Hrd 6 ltac:(lia)) as [s6 ->].
  destruct (Hrd 7 ltac:(lia)) as [r7 ->].
  fold (castle_queenside c). fold (castle_kingside c).
  destruct (r0 =? B_ROOK + 7 * b2z (whites_turn c));
    destruct (s1 =? EMPTY); destruct (s2 =? EMPTY); destruct (s3 =? EMPTY);
    destruct (r7 =? B_ROOK + 7 * b2z (whites_turn c));
    destruct (s5 =? EMPTY); destruct (s6 =? EMPTY);
    cbn [emplace_if]; eexists; (split; [reflexivity|]);
    intros m; cbn [In]; intuition.
Qed.

(** X8.  [KingMoves] returns whenever the check test it makes for castling
    has an answer, and it lists a step to a neighbouring square exactly
    when that square is on the board and is empty or holds a piece of the
    other side. *)
Theorem KingMoves_steps (c : Chess) (x y : Z) :
  wf_board (board c) -> 0 <= x < 8 -> 0 <= y < 8 ->
  (castling (GetCurrentPlayerConst c) = true ->
   exists r, IsCheck (board c) (whites_turn c) = Some r) ->
  exists l, KingMoves c x y = Some l /\
    forall x2 y2, Z.abs (x2 - x) <= 1 -> Z.abs (y2 - y) <= 1 ->
      (In (ToString x y x2 y2) l <->
       exists v, rd (board c) y2 x2 = Some v /\ own (whites_turn c) v = false).
Proof.
  intros Hwf Hx Hy Hchk.
  destruct (jumps_exact (board c) (whites_turn c) x y (king_ring x y) Hwf)
    with (acc := @nil str) as (l0 & Hl0 & Hiff).
  { intros j i Hin. cbn in Hin.
    repeat (destruct Hin as [Hin|Hin];
            [injection Hin as <- <- Hg; apply andb_true_iff in Hg;
             destruct Hg as [G1 G2];
             apply WithinBounds_spec in G1, G2; lia|]).
    contradiction. }
  destruct (KingMoves_shape c x y Hwf Hchk l0 Hl0) as (l & Hl & Hshape).
  exists l. split; [exact Hl|]. intros x2 y2 Hnx Hny.
  assert (Hl_line : 0 <= home_line c < 8)
    by (unfold home_line, BOARD_SIZE; destruct (whites_turn c); cbn [b2z]; lia).
  rewrite Hshape, Hiff. split.
  - intros [[[]|(j & i & v & Hin & E & Hv & Ho)]|[_ [E|E]]].
    + destruct (rd_Some_bounds _ _ _ _ Hv) as [Bj Bi].
      destruct (ToString_inj x y x2 y2 x y i j ltac:(lia) ltac:(lia) Hx Bi E)
        as [_ Ex].
      destruct (ToString_inj_rank x y x2 y2 x y i j ltac:(lia) ltac:(lia) Hy Bj E)
        as [_ Ey].
      subst x2 y2. eauto.
    + exfalso. unfold castle_queenside in E.
      destruct (ToString_inj x y x2 y2 4 (home_line c) 2 (home_line c)
                  ltac:(lia) ltac:(lia) ltac:(lia) ltac:(lia) E). lia.
    + exfalso. unfold castle_kingside in E.
      destruct (ToString_inj x y x2 y2 4 (home_line c) 6 (home_line c)
                  ltac:(lia) ltac:(lia) ltac:(lia) ltac:(lia) E). lia.
  - intros (v & Hv & Ho). left. right. exists y2, x2, v.
    split; [|tauto].
    destruct (rd_Some_bounds _ _ _ _ Hv) as [Bj Bi].
    assert (G : WithinBounds x2 && WithinBounds y2 = true)
      by (apply andb_true_iff; split; now apply WithinBounds_spec).
    assert (Ei : x2 = x - 1 \/ x2 = x \/ x2 = x + 1) by lia.
    assert (Ej : y2 = y - 1 \/ y2 = y \/ y2 = y + 1) by lia.
    destruct Ei as [->|[->| ->]]; destruct Ej as [->|[->| ->]];
      rewrite <- G; cbn; tauto.
Qed.



Lemma probe_iff (b : Board) (test : Z -> bool) (j i : Z) (g r : bool) :
  probe false b test j i g = Some r ->
  (r = true <-> exists v, rd b j i = Some v /\ test v = true /\ g = true).
Proof.
  unfold probe. destruct (rd b j i) as [v|].
  - intros H. injection H as <-. rewrite andb_true_iff. split.
    + intros [H1 H2]. eauto.
    + intros (v' & E & H1 & H2). injection E as <-. tauto.
  - cbn [orb]. destruct g; [discriminate|]. intros H. injection H as <-.
    split; [discriminate|]. intros (v & E & _). discriminate.
Qed.

Lemma sget_defined (s : str) (k n : nat) (v : Z) :
  sget s n = Some v -> (k <= n)%nat -> exists w, sget s k = Some w.
Proof.
  unfold sget. intros H Hk.
  assert (Hn : (n < length s)%nat) by (apply nth_error_Some; congruence).
  destruct (nth_error s k) as [w|] eqn:E; [eauto|].
  apply nth_error_None in E. lia.
Qed.

Lemma GetEnPassant_defined (c : Chess) (x y : Z) :
  Inv c -> exists ep, GetEnPassant c x y = Some ep.
Proof.
  intros HI. unfold GetEnPassant.
  destruct (back (all_game_moves c)) as [e|] eqn:Eb; [|eauto].
  pose proof (inv_flag_other _ HI e Eb) as Hrec. unfold recorded in Hrec.
  destruct e as [[| | |] s]; cbn [fst snd Moves_eqb negb] in *; eauto.
  destruct (sget s (6 + 0)) as [f|] eqn:E6; [|discriminate].
  unfold ChangeToRealCoordinates.
  destruct (sget_defined s 0 _ f E6 ltac:(lia)) as [c0 ->].
  destruct (sget_defined s 1 _ f E6 ltac:(lia)) as [c1 ->].
  destruct (sget_defined s 2 _ f E6 ltac:(lia)) as [c2 ->].
  destruct (sget_defined s 3 _ f E6 ltac:(lia)) as [c3 ->].
  destruct (sget_defined s 4 _ f E6 ltac:(lia)) as [c4 ->].
  cbv beta iota.
  match goal with |- context [if ?t then _ else _] => destruct t end; eauto.
Qed.

(** X9.  [PawnMoves] for a pawn that is not on the last rank of its march
    returns, and lists exactly the advance of one rank onto an empty
    square, the advance of two ranks from the first rank over empty
    squares, the captures one file aside, and the capture en passant
    [GetEnPassant] allows. *)
Theorem PawnMoves_exact (c : Chess) (x y : Z) :
  reach c -> 0 <= x < 8 -> 0 <= y < 8 ->
  0 <= y + (if whites_turn c then -1 else 1) < 8 ->
  exists l, PawnMoves c x y = Some l /\
    forall m, In m l <->
      exists x2 y2, m = ToString x y x2 y2 /\ pawn_target c x y x2 y2.
Proof.
  intros Hreach Hx Hy Hrow. pose proof (reach_Inv c Hreach) as HI.
  pose proof (inv_wf _ HI) as Hwf.
  unfold PawnMoves. cbv zeta.
  set (inc := if whites_turn c then -1 else 1) in *.
  set (t := whites_turn c) in *.
  set (target := pawn_target c x y).
  destruct (rd_defined (board c) (y + inc) x Hwf Hrow Hx) as [ahead Ha].
  rewrite Ha.
  assert (Hl : exists l,
    (if ahead =? EMPTY
     then
      if y =? 1 + 5 * b2z t
      then ahead2 <- rd (board c) (y + 2 * inc) x ;;
           Some (emplace_if (ahead2 =? EMPTY) (ToString x y x (y + 2 * inc))
                   [ToString x y x (y + inc)])
      else Some [ToString x y x (y + inc)]
     else Some []) = Some l /\
    forall m, In m l <->
      (m = ToString x y x (y + inc) /\ ahead = EMPTY) \/
      (m = ToString x y x (y + 2 * inc) /\ y = 1 + 5 * b2z t /\
       rd (board c) (y + inc) x = Some EMPTY /\
       rd (board c) (y + 2 * inc) x = Some EMPTY)).
  { destruct (Z.eqb_spec ahead EMPTY) as [->|Na].
    - destruct (Z.eqb_spec y (1 + 5 * b2z t)) as [Ey|Ny].
      + assert (Hrow2 : 0 <= y + 2 * inc < 8)
          by (subst inc t; destruct (whites_turn c); cbn [b2z] in Ey; lia).
        destruct (rd_defined (board c) (y + 2 * inc) x Hwf Hrow2 Hx) as [a2 Ha2].
        rewrite Ha2. eexists. split; [reflexivity|]. intros m.
        rewrite In_emplace_if. cbn [In].
        destruct (Z.eqb_spec a2 EMPTY) as [->|N2].
        * intuition.
        * split.
          -- intros [[H _]|[<-|[]]]; [discriminate|]. now left.
          -- intros [[-> _]|(-> & _ & _ & H)]; [right; now left|].
             injection H as H. contradiction.
      + eexists. split; [reflexivity|]. intros m. cbn [In]. intuition.
    - exists []. split; [reflexivity|]. intros m. cbn [In]. split; [tauto|].
      intros [[_ H]|(_ & _ & H & _)]; [contradiction|].
      rewrite Ha in H. injection H as H. contradiction. }
  destruct Hl as (l & -> & Hl).
  destruct (GetEnPassant_defined c x y HI) as [ep Hep]. rewrite Hep.
  destruct (probe_lenient_defined (board c) (capture t) (y + inc) (x + 1)
              (x <? BOARD_SIZE - 1) Hwf) as [right Hr].
  { unfold BOARD_SIZE. intros H. apply Z.ltb_lt in H. lia. }
  destruct (probe_lenient_defined (board c) (capture t) (y + inc) (x - 1)
              (x >? 0) Hwf) as [left Hlf].
  { intros H. apply Z.gtb_lt in H. lia. }
  rewrite Hr, Hlf. eexists. split; [reflexivity|]. intros m.
  subst target. unfold pawn_target. cbv zeta. fold t. fold inc.
  rewrite !In_emplace_if, Hl.
  rewrite (probe_iff _ _ _ _ _ _ Hr), (probe_iff _ _ _ _ _ _ Hlf).
  split.
  - intros [[(v & Hv & Hc & _) <-]|[[(v & Hv & Hc & _) <-]|[[Hne <-]|[[-> ->]|H]]]].
    + exists (x - 1), (y + inc). split; [reflexivity|]. right. right. left.
      split; [lia|]. split; [reflexivity|]. eauto.
    + exists (x + 1), (y + inc). split; [reflexivity|]. right. right. left.
      split; [lia|]. split; [reflexivity|]. eauto.
    + exists ep, (y + inc). split; [reflexivity|]. right. right. right.
      split; [reflexivity|]. split; [|exact Hep].
      intros ->. discriminate Hne.
    + exists x, (y + inc). split; [reflexivity|]. left.
      repeat split; try reflexivity; assumption.
    + destruct H as (-> & Ey & H1 & H2).
      exists x, (y + 2 * inc). split; [reflexivity|]. right. left.
      repeat split; try reflexivity; assumption.
  - intros (x2 & y2 & -> & [(-> & -> & H)|[(-> & -> & H)|
            [(Hab & -> & v & Hv & Hc)|(-> & Hne & H)]]]).
    + right. right. right. left. rewrite Ha in H. injection H as ->. tauto.
    + right. right. right. right. tauto.
    + destruct (rd_Some_bounds _ _ _ _ Hv) as [_ Bx].
      assert (E : x2 = x + 1 \/ x2 = x - 1) by lia.
      destruct E as [-> | ->].
      * right. left. split; [|reflexivity]. exists v.
        split; [exact Hv|]. split; [exact Hc|].
        unfold BOARD_SIZE. apply Z.ltb_lt. lia.
      * left. split; [|reflexivity]. exists v.
        split; [exact Hv|]. split; [exact Hc|]. apply Z.gtb_lt. lia.
    + right. right. left. rewrite Hep in H. injection H as ->.
      split; [|reflexivity]. now apply Bool.negb_true_iff, Z.eqb_neq.
Qed.

Lemma RookMoves_exact_witness :
  exists l, RookMoves (new_game 1 1) 0 7 = Some l /\
    forall m, In m l <->
      exists di dj x2 y2,
        straight di dj /\ m = ToString 0 7 x2 y2 /\
        line_reach (board (new_game 1 1)) (whites_turn (new_game 1 1))
                   0 7 di dj x2 y2.
Proof.
  apply (RookMoves_exact (new_game 1 1) 0 7); [reflexivity|lia|lia].
Defined.

Lemma BishopMoves_exact_witness :
  exists l, BishopMoves (new_game 1 1) 2 7 = Some l /\
    forall m, In m l <->
      exists di dj x2 y2,
        diagonal di dj /\ m = ToString 2 7 x2 y2 /\
        line_reach (board (new_game 1 1)) (whites_turn (new_game 1 1))
                   2 7 di dj x2 y2.
Proof.
  apply (BishopMoves_exact (new_game 1 1) 2 7); [reflexivity|lia|lia].
Defined.

Lemma QueenMoves_exact_witness :
  exists l, QueenMoves (new_game 1 1) 3 7 = Some l /\
    forall m, In m l <->
      exists di dj x2 y2,
        (straight di dj \/ diagonal di dj) /\ m = ToString 3 7 x2 y2 /\
        line_reach (board (new_game 1 1)) (whites_turn (new_game 1 1))
                   3 7 di dj x2 y2.
Proof.
  apply (QueenMoves_exact (new_game 1 1) 3 7); [reflexivity|lia|lia].
Defined.

Lemma KnightMoves_exact_witness :
  exists l, KnightMoves (new_game 1 1) 1 7 = Some l /\
    forall m, In m l <->
      exists x2 y2 v,
        knight_jump 1 7 x2 y2 /\ m = ToString 1 7 x2 y2 /\
        rd (board (new_game 1 1)) y2 x2 = Some v /\
        own (whites_turn (new_game 1 1)) v = false.
Proof.
  apply (KnightMoves_exact (new_game 1 1) 1 7); [reflexivity|lia|lia].
Defined.

Lemma KingMoves_steps_witness :
  exists l, KingMoves (new_game 1 1) 4 7 = Some l /\
    forall x2 y2, Z.abs (x2 - 4) <= 1 -> Z.abs (y2 - 7) <= 1 ->
      (In (ToString 4 7 x2 y2) l <->
       exists v, rd (board (new_game 1 1)) y2 x2 = Some v /\
                 own (whites_turn (new_game 1 1)) v = false).
Proof.
  apply (KingMoves_steps (new_game 1 1) 4 7); [reflexivity|lia|lia|].
  intros _. exists false. reflexivity.
Defined.

Lemma PawnMoves_exact_witness :
  exists l, PawnMoves (new_game 1 1) 4 6 = Some l /\
    forall m, In m l <->
      exists x2 y2, m = ToString 4 6 x2 y2 /\ pawn_target (new_game 1 1) 4 6 x2 y2.
Proof.
  apply (PawnMoves_exact (new_game 1 1) 4 6);
    [apply reach_start|lia|lia|cbn; lia].
Defined.

(** ** The list of [AllMoves], exactly *)

Lemma filter_moves_incl (l : list str) :
  forall a l' a', filter_moves a l = Some (l', a') -> incl l' l.
Proof.
  induction l as [|m l IH]; intros a l' a' H.
  - injection H as <- _. intros m [].
  - cbn [filter_moves] in H.
    destruct (IsCheck_move a m) as [[chk a1]|]; [|discriminate].
    destruct (filter_moves a1 l) as [[t' a2]|] eqn:Ef; [|discriminate].
    injection H as <- _. specialize (IH _ _ _ Ef).
    destruct chk; intros m' Hin.
    + right. now apply IH.
    + destruct Hin as [<-|Hin]; [now left|right; now apply IH].
Qed.

(** The loop keeps every candidate after which the king of the mover is
    not in check. *)
Lemma filter_moves_complete (c : Chess) (l : list str) :
  let t := whites_turn c in
  Inv c ->
  forall a l' a',
    worn (eq t) c a -> (forall m, In m l -> candidate c m) ->
    filter_moves a l = Some (l', a') ->
    forall m x1 y1 x2 y2 c1,
      In m l -> ChangeToRealCoordinates m = Some (x1, y1, x2, y2) ->
      MovePiece c x1 y1 x2 y2 false key_q false = Some c1 ->
      IsCheck (board c1) t = Some false ->
      In m l'.
Proof.
  intros t HI. induction l as [|m l IH]; intros a l' a' Hw Hc H m0 x1 y1 x2 y2 c1 Hin Hco Hm Hsafe.
  - destruct Hin.
  - cbn [filter_moves] in H.
    destruct (IsCheck_move a m) as [[chk a1]|] eqn:Em; [|discriminate].
    destruct (filter_moves a1 l) as [[t' a2]|] eqn:Ef; [|discriminate].
    injection H as <- <-.
    destruct (Hc m (or_introl eq_refl)) as (u1 & v1 & u2 & v2 & -> & Hpl & Hcs).
    pose proof (Inv_worn _ _ _ Hw HI) as HIa.
    pose proof (plausible_worn _ _ _ _ Hw Hpl) as Hpla.
    assert (HP : t = whites_turn a) by (symmetry; apply (worn_turn _ _ _ Hw)).
    destruct (IsCheck_move_worn (eq t) a a1 u1 v1 u2 v2 chk HIa Hpla HP Em)
      as [Hw1 (a0 & Ha0 & Hchk)].
    pose proof (worn_trans _ _ _ _ Hw Hw1) as Hwc.
    destruct Hin as [<-|Hin].
    + rewrite (candidate_coordinates _ _ _ _ _ Hpl) in Hco.
      injection Hco as <- <- <- <-.
      destruct (check_of_worn c a c a0 u1 v1 u2 v2 false key_q HI Hpl Hcs Hw
                  (worn_refl _ _ (inv_wf _ HI)) Ha0) as (b1 & Hb1 & Hsame).
      rewrite Hm in Hb1. injection Hb1 as <-.
      fold t in Hsame. rewrite <- HP in Hchk. rewrite Hsame, Hchk in Hsafe.
      injection Hsafe as ->. now left.
    + assert (Hk : In m0 t').
      { apply (IH a1 t' a2 Hwc (fun m' Hi => Hc m' (or_intror Hi)) Ef
                  m0 x1 y1 x2 y2 c1); assumption. }
      destruct chk; [exact Hk|now right].
Qed.

(** X10.  At a game object of a run, the list [AllMoves] returns holds
    exactly the moves of the list gathered from the generators after
    which, applied with [MovePiece], the king of the side that moved is
    not in check. *)
Theorem AllMoves_exact (c c' : Chess) (l : list str) :
  reach c -> AllMoves c = Some (l, c') ->
  exists pl, pseudo_legal c = Some pl /\
    forall m, In m l <->
      In m pl /\
      exists x1 y1 x2 y2 c1,
        ChangeToRealCoordinates m = Some (x1, y1, x2, y2) /\
        MovePiece c x1 y1 x2 y2 false key_q false = Some c1 /\
        IsCheck (board c1) (whites_turn c) = Some false.
Proof.
  intros Hreach H. pose proof (reach_Inv c Hreach) as HI.
  pose proof (inv_wf _ HI) as Hwf.
  destruct (AllMoves_sound c c' l HI H) as [Hw Hl].
  unfold AllMoves in H.
  destruct (pseudo_legal c) as [pl|] eqn:Ep; [|discriminate].
  exists pl. split; [reflexivity|]. intros m. split.
  - intros Hin. split; [now apply (filter_moves_incl pl c l c' H)|].
    destruct (Hl m Hin) as (x1 & y1 & x2 & y2 & -> & Hpl & Hall).
    destruct (Hall c false key_q false (worn_refl _ _ Hwf)) as (c1 & Hc1 & Hs).
    exists x1, y1, x2, y2, c1.
    split; [now apply (candidate_coordinates c)|]. now split.
  - intros (Hin & x1 & y1 & x2 & y2 & c1 & Hco & Hm & Hs).
    apply (filter_moves_complete c pl HI c l c' (worn_refl _ _ Hwf)
             (fun m' Hi => pseudo_legal_plausible c pl m' HI Ep Hi) H
             m x1 y1 x2 y2 c1); assumption.
Qed.

Lemma AllMoves_exact_witness :
  exists pl, pseudo_legal (new_game 1 1) = Some pl /\
    forall m,
      In m (fst (match AllMoves (new_game 1 1) with
                 | Some r => r
                 | None => ([], new_game 1 1)
                 end)) <->
      In m pl /\
      exists x1 y1 x2 y2 c1,
        ChangeToRealCoordinates m = Some (x1, y1, x2, y2) /\
        MovePiece (new_game 1 1) x1 y1 x2 y2 false key_q false = Some c1 /\
        IsCheck (board c1) (whites_turn (new_game 1 1)) = Some false.
Proof.
  refine (AllMoves_exact (new_game 1 1)
            (snd (match AllMoves (new_game 1 1) with
                  | Some r => r
                  | None => ([], new_game 1 1)
                  end))
            (fst (match AllMoves (new_game 1 1) with
                  | Some r => r
                  | None => ([], new_game 1 1)
                  end)) (reach_start 1 1) _).
  vm_compute. reflexivity.
Defined.

(** X11.  [AllMoves] leaves the game object as it found it, except that the
    h-file corner of the side to move may have been emptied, which
    happens only when that side may still castle and has its rook
    there. *)
Theorem AllMoves_leaves (c c' : Chess) (l : list str) :
  reach c -> AllMoves c = Some (l, c') ->
  c' = c \/ (loose c (whites_turn c) /\ c' = erased c).
Proof.
  intros Hreach H. pose proof (reach_Inv c Hreach) as HI.
  destruct (AllMoves_sound c c' l HI H) as [Hw _].
  apply worn_own_cases; [apply (inv_wf _ HI)|exact Hw].
Qed.

Lemma AllMoves_leaves_witness :
  snd (match AllMoves (new_game 1 1) with
       | Some r => r
       | None => ([], new_game 1 1)
       end) = new_game 1 1 \/
  (loose (new_game 1 1) (whites_turn (new_game 1 1)) /\
   snd (match AllMoves (new_game 1 1) with
        | Some r => r
        | None => ([], new_game 1 1)
        end) = erased (new_game 1 1)).
Proof.
  refine (AllMoves_leaves (new_game 1 1) _
            (fst (match AllMoves (new_game 1 1) with
                  | Some r => r
                  | None => ([], new_game 1 1)
                  end)) (reach_start 1 1) _).
  vm_compute. reflexivity.
Defined.

(** ** Coordinates and their characters *)

Lemma to_char_range (z : Z) : -128 <= to_char z < 128.
Proof. unfold to_char. pose proof (Z.mod_pos_bound (z + 128) 256). lia. Qed.

Lemma to_char_shift (z k : Z) : -128 <= z < 128 -> to_char (to_char (z - k) + k) = z.
Proof.
  intros H. unfold to_char.
  replace ((z - k + 128) mod 256 - 128 + k + 128) with ((z - k + 128) mod 256 + k) by lia.
  rewrite Zplus_mod_idemp_l.
  replace (z - k + 128 + k) with (z + 128) by lia.
  rewrite Z.mod_small by lia. lia.
Qed.

Lemma to_char_flip (z k : Z) : -128 <= z < 128 -> to_char (k - to_char (k - z)) = z.
Proof.
  intros H. unfold to_char.
  replace (k - ((k - z + 128) mod 256 - 128) + 128)
    with (k + 256 - (k - z + 128) mod 256) by lia.
  rewrite Zminus_mod_idemp_r.
  replace (k + 256 - (k - z + 128)) with (z + 128) by lia.
  rewrite Z.mod_small by lia. lia.
Qed.

(** X12.  [ChangeToString] undoes [ChangeToRealCoordinates] on any four
    characters, as [IsCheck(move)] relies on to give the caller its
    string back; and [ChangeToRealCoordinates] reads back the coordinates
    [ToString] wrote, for every coordinate that fits a [char]. *)
Theorem coordinates_round_trip (c0 c1 c2 c3 : Z) (rest : str) :
  -128 <= c0 < 128 -> -128 <= c1 < 128 -> -128 <= c2 < 128 -> -128 <= c3 < 128 ->
  (exists x1 y1 x2 y2,
     ChangeToRealCoordinates (c0 :: c1 :: c2 :: c3 :: rest) = Some (x1, y1, x2, y2) /\
     ChangeToString x1 y1 x2 y2 = (c0, c1, c2, c3)) /\
  ChangeToRealCoordinates (ToString c0 c1 c2 c3 ++ rest) = Some (c0, c1, c2, c3).
Proof.
  intros H0 H1 H2 H3. split.
  - eexists _, _, _, _. split; [reflexivity|]. unfold ChangeToString.
    now rewrite !to_char_shift, !to_char_flip by assumption.
  - unfold ChangeToRealCoordinates, ToString. cbn [app].
    change (sget (?a :: _) 0) with (Some a).
    change (sget (_ :: ?a :: _) 1) with (Some a).
    change (sget (_ :: _ :: ?a :: _) 2) with (Some a).
    change (sget (_ :: _ :: _ :: ?a :: _) 3) with (Some a).
    cbv beta iota.
    pose proof (to_char_shift c0 (-97) H0) as E0.
    pose proof (to_char_shift c2 (-97) H2) as E2.
    replace (c0 - -97) with (c0 + 97) in E0 by lia.
    replace (c2 - -97) with (c2 + 97) in E2 by lia.
    replace (to_char (c0 + 97) + -97) with (to_char (c0 + 97) - 97) in E0 by lia.
    replace (to_char (c2 + 97) + -97) with (to_char (c2 + 97) - 97) in E2 by lia.
    now rewrite E0, E2, !to_char_flip by assumption.
Qed.

Lemma coordinates_round_trip_witness :
  (exists x1 y1 x2 y2,
     ChangeToRealCoordinates (101 :: 50 :: 101 :: 52 :: []) = Some (x1, y1, x2, y2) /\
     ChangeToString x1 y1 x2 y2 = (101, 50, 101, 52)) /\
  ChangeToRealCoordinates (ToString 101 50 101 52 ++ []) = Some (101, 50, 101, 52).
Proof.
  apply (coordinates_round_trip 101 50 101 52 []); lia.
Defined.

(** ** The display of a square *)

(** X13.  The text written into the box of a square is [BOX_WIDTH]
    characters wide whatever the square holds, so that the columns of the
    board stay aligned. *)
Theorem box_text_width (piece : Z) :
  Z.of_nat (length (box_text piece)) = BOX_WIDTH.
Proof.
  unfold box_text, PieceNameToString.
  repeat match goal with
         | |- context [piece =? ?k] => destruct (piece =? k)
         end; reflexivity.
Qed.

(** ** A turn of play *)

Lemma flag_of_set_current_player (c : Chess) (p : Bot) (t : bool) :
  castling p = false \/ castling p = castling (GetCurrentPlayerConst c) ->
  flag_of (set_current_player c p) t = true -> flag_of c t = true.
Proof.
  unfold flag_of, set_current_player, GetCurrentPlayerConst.
  destruct (whites_turn c), t; cbn; intros [H|H]; congruence.
Qed.

Lemma MovePiece_pawn_flags (c c' : Chess) (x1 y1 x2 y2 : Z) (mp : bool)
    (key : PromotionKey) (ub : bool) (t : bool) :
  MovePiece_pawn c x1 y1 x2 y2 mp key ub = Some c' -> flag_of c' t = flag_of c t.
Proof.
  unfold MovePiece_pawn. intros H.
  destruct (y2 =? (BOARD_SIZE - 1) * b2z (negb (whites_turn c))).
  - do 3 bind_inv H. injection H as <-.
    destruct mp.
    + unfold ManuallyPromotePawn in E. bind_inv E. now injection E as <-.
    + destruct (if whites_turn c then white_bot_random c else black_bot_random c);
        [discriminate|].
      bind_inv E. now injection E as <-.
  - destruct (negb (x1 =? x2)); [|now injection H as <-].
    bind_inv H. destruct (z =? EMPTY); [|now injection H as <-].
    do 2 bind_inv H. injection H as <-.
    destruct ub; [|reflexivity].
    unfold flag_of, set_current_player, GetCurrentPlayerConst. cbn.
    destruct (whites_turn c), t; reflexivity.
Qed.

Lemma MovePiece_king_flags (c c' : Chess) (x2 : Z) (t : bool) :
  MovePiece_king c x2 = Some c' -> flag_of c' t = flag_of c t.
Proof.
  unfold MovePiece_king. intros H.
  destruct (castling (GetCurrentPlayerConst c)); [|now injection H as <-].
  destruct (x2 =? 2); [bind_inv H; now injection H as <-|].
  destruct (x2 =? 6); [bind_inv H; now injection H as <-|].
  now injection H as <-.
Qed.

Lemma flag_of_clear_castling (c : Chess) (t : bool) :
  flag_of (clear_castling c) t = true -> flag_of c t = true.
Proof.
  unfold clear_castling. apply flag_of_set_current_player. now left.
Qed.

(** [MovePiece] takes castling rights away and gives none. *)
Lemma MovePiece_flags (c c' : Chess) (x1 y1 x2 y2 : Z) (mp : bool)
    (key : PromotionKey) (ub : bool) (t : bool) :
  MovePiece c x1 y1 x2 y2 mp key ub = Some c' ->
  flag_of c' t = true -> flag_of c t = true.
Proof.
  unfold MovePiece. intros H.
  bind_inv H. rename c0 into ca, E into Ea.
  assert (Ha : flag_of ca t = flag_of c t).
  { unfold AppendToAllGameMoves in Ea. bind_inv Ea.
    match type of Ea with (if ?t then _ else _) = _ => destruct t end.
    - now injection Ea as <-.
    - bind_inv Ea. now injection Ea as <-. }
  bind_inv H. bind_inv H. rename c0 into cb, E0 into Eb.
  assert (Hb : flag_of cb t = true -> flag_of ca t = true).
  { destruct (is_pawn z).
    - now rewrite (MovePiece_pawn_flags _ _ _ _ _ _ _ _ _ t Eb).
    - destruct (is_king z).
      + bind_inv Eb. injection Eb as <-. intros Hf.
        apply flag_of_clear_castling in Hf.
        now rewrite (MovePiece_king_flags _ _ _ t E0) in Hf.
      + destruct (is_rook z); injection Eb as <-; [|tauto].
        apply flag_of_clear_castling. }
  bind_inv H. bind_inv H. rename c0 into cc, E1 into Ec.
  assert (Hc : flag_of cc t = flag_of cb t).
  { destruct (negb (Moves_eqb (fst l) CASTLING)); [|now injection Ec as <-].
    bind_inv Ec. now injection Ec as <-. }
  bind_inv H. bind_inv H. bind_inv H. injection H as <-.
  intros Hf. rewrite <- Ha. apply Hb. rewrite <- Hc.
  assert (Hd : flag_of c0 t = flag_of cc t).
  { match type of E3 with (if ?t then _ else _) = _ => destruct t end;
      [|now injection E3 as <-].
    bind_inv E3. destruct (negb (z0 =? EMPTY)); injection E3 as <-; [|reflexivity].
    unfold flag_of, set_current_player, GetCurrentPlayerConst. cbn.
    destruct (whites_turn cc), t; reflexivity. }
  rewrite <- Hd. exact Hf.
Qed.

Lemma same_game_flags (c0 c1 : Chess) (t : bool) :
  same_game c0 c1 -> flag_of c1 t = flag_of c0 t.
Proof. intros (_ & Hw & Hb & _). unfold flag_of. now destruct t. Qed.

(** [CheckEndgame] changes scores and the counter, and what [AllMoves]
    changes. *)
Lemma CheckEndgame_frame (c c' : Chess) (over : option Endgame) :
  Inv c -> CheckEndgame c = Some (over, c') ->
  exists c0, worn (eq (whites_turn c)) c c0 /\ same_game c0 c'.
Proof.
  intros HI H. unfold CheckEndgame in H.
  destruct (AllMoves c) as [[l c0]|] eqn:Ea; [|discriminate].
  destruct (AllMoves_sound c c0 l HI Ea) as [Hw _].
  exists c0. split; [exact Hw|].
  destruct l as [|m l].
  - injection H as _ <-. apply same_game_other_scored.
  - destruct (back (all_game_moves c0)) as [e|]; [|discriminate].
    match type of H with
    | match ?e with Some _ => _ | None => None end = Some _ =>
        destruct e as [[fifty c1]|] eqn:Ef; [|discriminate]
    end.
    assert (H1 : same_game c0 c1).
    { destruct (negb (Moves_eqb (fst e) CASTLING)).
      - destruct (sget (snd e) 4) as [piece|]; [|discriminate].
        destruct (piece =? W_PAWN - 7 * b2z (whites_turn c0)).
        + injection Ef as _ <-. apply same_game_set_counter.
        + destruct (sget (snd e) 5) as [captured|]; [|discriminate].
          destruct (negb (captured =? EMPTY)); injection Ef as _ <-;
            apply same_game_set_counter.
      - injection Ef as _ <-. apply same_game_set_counter. }
    destruct fifty; [injection H as _ <-; exact H1|].
    destruct (ThreefoldRepetition c1) as [rep|]; [|discriminate].
    destruct rep; injection H as _ <-; exact H1.
Qed.

Lemma turn_taken_by (c c0 c1 c2 : Chess) (P : bool -> Prop) (x1 y1 x2 y2 : Z)
    (mp : bool) (key : PromotionKey) (over : option Endgame) :
  Inv c -> worn P c c0 -> plausible c0 (x1, y1, x2, y2) ->
  MovePiece c0 x1 y1 x2 y2 mp key true = Some c1 ->
  CheckEndgame c1 = Some (over, c2) ->
  turn_taken c c2.
Proof.
  intros HI Hw Hpl Hm He.
  pose proof (Inv_worn _ _ _ Hw HI) as HI0.
  pose proof (MovePiece_Inv c0 c1 x1 y1 x2 y2 mp key true HI0 Hpl Hm) as HI1.
  destruct (CheckEndgame_frame c1 c2 over HI1 He) as (c1' & Hw1 & Hs).
  destruct (MovePiece_keeps c0 x1 y1 x2 y2 mp key HI0 Hpl) as (d & Hd & _ & Htd).
  destruct (MovePiece_any c0 d x1 y1 x2 y2 mp key true Hd) as (d' & Hd' & Hsd).
  rewrite Hm in Hd'. injection Hd' as <-.
  destruct (MovePiece_log _ _ _ _ _ _ _ _ _ Hm) as (e & Hlog & _).
  destruct Hs as (_ & Hsw & Hsb & Hsl & Hst & _).
  destruct Hsd as (_ & _ & _ & _ & Hdt & _).
  split; [|split].
  - rewrite Hst, (worn_turn _ _ _ Hw1), Hdt, Htd, (worn_turn _ _ _ Hw). reflexivity.
  - exists e. rewrite Hsl, (worn_log _ _ _ Hw1), Hlog, (worn_log _ _ _ Hw).
    reflexivity.
  - intros t Hf.
    rewrite <- (flag_of_worn P c c0 t Hw).
    apply (MovePiece_flags c0 c1 x1 y1 x2 y2 mp key true t Hm).
    rewrite <- (flag_of_worn _ c1 c1' t Hw1).
    unfold flag_of in *. destruct t; congruence.
Qed.

(** X14.  [PlayersTurn] applies the typed move only when [AllMoves] lists
    it, and the move it applies leaves the king of the side that moved
    out of check; any other input is refused, with the game object as
    [AllMoves] left it. *)
Theorem PlayersTurn_plays_legal_moves (c : Chess) (x1 y1 x2 y2 : Z)
    (key : PromotionKey) (r : Turn) :
  reach c -> PlayersTurn c x1 y1 x2 y2 key = Some r ->
  exists l c0,
    AllMoves c = Some (l, c0) /\
    match r with
    | Refused c' => c' = c0 /\ accepted x1 y1 x2 y2 l = false
    | Played over c2 =>
        In (ToString x1 y1 x2 y2) l /\
        exists c1, MovePiece c0 x1 y1 x2 y2 true key true = Some c1 /\
                   IsCheck (board c1) (whites_turn c) = Some false /\
                   CheckEndgame c1 = Some (over, c2)
    end.
Proof.
  intros Hr H. pose proof (reach_Inv c Hr) as HI. unfold PlayersTurn in H.
  destruct (AllMoves c) as [[l c0]|] eqn:Ea; [|discriminate].
  exists l, c0. split; [reflexivity|].
  destruct (IsCheck (board c0) (whites_turn c0)); [|discriminate].
  fold (accepted x1 y1 x2 y2 l) in H.
  destruct (accepted x1 y1 x2 y2 l) eqn:Ec.
  2:{ injection H as <-. now split. }
  destruct (MovePiece c0 x1 y1 x2 y2 true key true) as [c1|] eqn:Em;
    [|discriminate].
  destruct (CheckEndgame c1) as [[o c2]|] eqn:Ee; [|discriminate].
  injection H as <-.
  assert (Hin : In (ToString x1 y1 x2 y2) l).
  { unfold accepted in Ec. apply andb_prop in Ec. destruct Ec as [_ Hcan].
    now apply CanMovePiece_In. }
  split; [exact Hin|]. exists c1.
  split; [first [reflexivity|assumption]|].
  split; [|first [reflexivity|assumption]].
  destruct (AllMoves_sound c c0 l HI Ea) as [Hw Hl].
  destruct (Hl _ Hin) as (u1 & v1 & u2 & v2 & E & Hpl & Hlegal).
  pose proof (accepted_plausible c c0 l x1 y1 x2 y2 HI Ea Ec) as Hpl0.
  assert (Ek : (u1, v1, u2, v2) = (x1, y1, x2, y2)).
  { pose proof (candidate_coordinates _ _ _ _ _ Hpl) as Ek. rewrite <- E in Ek.
    destruct (plausible_bounds _ _ _ _ _ Hpl0) as (? & ? & ? & ?).
    rewrite <- (app_nil_r (ToString x1 y1 x2 y2)) in Ek.
    rewrite ChangeToRealCoordinates_ToString in Ek by assumption.
    now injection Ek as <- <- <- <-. }
  injection Ek as -> -> -> ->.
  destruct (Hlegal c0 true key true Hw) as (c1' & Hc1 & Hsafe).
  rewrite Em in Hc1. injection Hc1 as <-. exact Hsafe.
Qed.

Lemma PlayersTurn_plays_legal_moves_witness :
  exists l c0,
    AllMoves (new_game 1 1) = Some (l, c0) /\
    match match PlayersTurn (new_game 1 1) 4 6 4 4 key_q with
          | Some r => r
          | None => Refused (new_game 1 1)
          end with
    | Refused c' => c' = c0 /\ accepted 4 6 4 4 l = false
    | Played over c2 =>
        In (ToString 4 6 4 4) l /\
        exists c1, MovePiece c0 4 6 4 4 true key_q true = Some c1 /\
                   IsCheck (board c1) (whites_turn (new_game 1 1)) = Some false /\
                   CheckEndgame c1 = Some (over, c2)
    end.
Proof.
  refine (PlayersTurn_plays_legal_moves (new_game 1 1) 4 6 4 4 key_q
            (match PlayersTurn (new_game 1 1) 4 6 4 4 key_q with
             | Some r => r
             | None => Refused (new_game 1 1)
             end)
            (reach_start 1 1) _).
  vm_compute. reflexivity.
Defined.

(** X15.  A move played from the keyboard passes the turn, adds one entry
    to the log and gives no side a castling right back. *)
Theorem PlayersTurn_bookkeeping (c c2 : Chess) (x1 y1 x2 y2 : Z)
    (key : PromotionKey) (over : option Endgame) :
  reach c -> PlayersTurn c x1 y1 x2 y2 key = Some (Played over c2) ->
  turn_taken c c2.
Proof.
  intros Hr H. pose proof (reach_Inv c Hr) as HI. unfold PlayersTurn in H.
  destruct (AllMoves c) as [[l c0]|] eqn:Ea; [|discriminate].
  destruct (IsCheck (board c0) (whites_turn c0)); [|discriminate].
  fold (accepted x1 y1 x2 y2 l) in H.
  destruct (accepted x1 y1 x2 y2 l) eqn:Ec; [|discriminate].
  destruct (MovePiece c0 x1 y1 x2 y2 true key true) as [c1|] eqn:Em;
    [|discriminate].
  destruct (CheckEndgame c1) as [[o c2']|] eqn:Ee; [|discriminate].
  injection H as <- <-.
  destruct (AllMoves_sound c c0 l HI Ea) as [Hw _].
  apply (turn_taken_by c c0 c1 c2' _ x1 y1 x2 y2 true key o HI Hw); try assumption.
  exact (accepted_plausible c c0 l x1 y1 x2 y2 HI Ea Ec).
Qed.

Lemma PlayersTurn_bookkeeping_witness :
  turn_taken (new_game 1 1)
    (match PlayersTurn (new_game 1 1) 4 6 4 4 key_q with
     | Some (Played _ c2) => c2
     | _ => new_game 1 1
     end).
Proof.
  refine (PlayersTurn_bookkeeping (new_game 1 1)
            (match PlayersTurn (new_game 1 1) 4 6 4 4 key_q with
             | Some (Played _ c2) => c2
             | _ => new_game 1 1
             end) 4 6 4 4 key_q None
            (reach_start 1 1) _).
  vm_compute. reflexivity.
Defined.

(** X16.  A move played by the searching bot passes the turn, adds one
    entry to the log and gives no side a castling right back. *)
Theorem BotsTurn_bookkeeping (c c2 : Chess) (draw : nat) (over : option Endgame) :
  reach c -> BotsTurn c draw = Some (Played over c2) -> turn_taken c c2.
Proof.
  intros Hr H. pose proof (reach_Inv c Hr) as HI. unfold BotsTurn in H.
  destruct (if whites_turn c then white_bot_random c else black_bot_random c);
    [discriminate|].
  destruct (AlphaBetaRoot c _ draw) as [[[[[x1 y1] x2] y2] c0]|] eqn:Er;
    [|discriminate].
  destruct (MovePiece c0 x1 y1 x2 y2 false key_q true) as [c1|] eqn:Em;
    [|discriminate].
  destruct (CheckEndgame c1) as [[o c2']|] eqn:Ec; [|discriminate].
  injection H as <- <-.
  destruct (AlphaBetaRoot_sound c c0 _ draw _ HI Er) as [Hw Hpl].
  exact (turn_taken_by c c0 c1 c2' _ x1 y1 x2 y2 false key_q o HI Hw Hpl Em Ec).
Qed.

Lemma reach_bot_to_reply : reach bot_to_reply.
Proof.
  refine (reach_PlayersTurn (new_game 1 1) 6 7 5 5 key_q (Played None bot_to_reply)
            (reach_start 1 1) _).
  vm_compute. reflexivity.
Qed.

Lemma BotsTurn_bookkeeping_witness :
  turn_taken bot_to_reply
    (match BotsTurn bot_to_reply 0 with
     | Some (Played _ c2) => c2
     | _ => bot_to_reply
     end).
Proof.
  refine (BotsTurn_bookkeeping bot_to_reply
            (match BotsTurn bot_to_reply 0 with
             | Some (Played _ c2) => c2
             | _ => bot_to_reply
             end) 0 None reach_bot_to_reply _).
  vm_compute. reflexivity.
Defined.

(** ** An emptied corner gives no check *)

Lemma not_within (z : Z) : ~ 0 <= z < 8 -> WithinBounds z = false.
Proof.
  intros H. destruct (WithinBounds z) eqn:E; [|reflexivity].
  apply WithinBounds_spec in E. contradiction.
Qed.

Lemma orelse_false (a k a' k' : option bool) :
  (a = Some false -> a' = Some false) ->
  (k = Some false -> k' = Some false) ->
  match a with
  | Some true => Some true
  | Some false => k
  | None => None
  end = Some false ->
  match a' with
  | Some true => Some true
  | Some false => k'
  | None => None
  end = Some false.
Proof.
  intros Ha Hk H. destruct a as [[|]|]; try discriminate H.
  rewrite (Ha eq_refl). now apply Hk.
Qed.

(** A ray loop that starts next to a square of the board and found no
    attacker finds none when a corner has been emptied: no ray goes on
    behind a corner. *)
Lemma ray_corner_false (b b' : Board) (L a1 a2 di dj : Z) :
  L = 0 \/ L = 7 ->
  (forall y x, y <> L \/ x <> 7 -> rd b' y x = rd b y x) ->
  rd b' L 7 = Some EMPTY ->
  a1 <> EMPTY -> a2 <> EMPTY ->
  -1 <= di <= 1 -> -1 <= dj <= 1 -> (di = 0 -> dj <> 0) ->
  forall n i j,
    (di = -1 -> i <= 6) -> (di = 0 -> dj = 1 -> 1 <= j) ->
    (di = 0 -> dj = -1 -> j <= 6) ->
    ray b a1 a2 i j di dj n = Some false ->
    ray b' a1 a2 i j di dj n = Some false.
Proof.
  intros HL Hag Hc H1 H2 Hdi Hdj Hd.
  induction n as [|n IH]; intros i j Ia Ib Ic H; [reflexivity|].
  destruct (Z.eq_dec j L) as [EL|NL]; [destruct (Z.eq_dec i 7) as [E7|N7]|].
  - subst i j. rewrite (ray_through b' a1 a2 7 L di dj n Hc H1 H2).
    apply ray_outside.
    assert (Hout : ~ 0 <= 7 + di < 8 \/ ~ 0 <= L + dj < 8) by lia.
    destruct Hout as [Ho|Ho]; rewrite (not_within _ Ho);
      [reflexivity|apply andb_false_r].
  - cbn [ray] in *. rewrite (Hag j i) by (right; exact N7).
    destruct (WithinBounds i && WithinBounds j); [|reflexivity].
    destruct (rd b j i) as [v|]; [|discriminate H]. cbv beta iota in *.
    destruct (v =? a1); [discriminate H|].
    destruct (v =? a2); [discriminate H|].
    destruct (negb (v =? EMPTY)); [reflexivity|].
    apply IH; [lia|lia|lia|exact H].
  - cbn [ray] in *. rewrite (Hag j i) by (left; exact NL).
    destruct (WithinBounds i && WithinBounds j); [|reflexivity].
    destruct (rd b j i) as [v|]; [|discriminate H]. cbv beta iota in *.
    destruct (v =? a1); [discriminate H|].
    destruct (v =? a2); [discriminate H|].
    destruct (negb (v =? EMPTY)); [reflexivity|].
    apply IH; [lia|lia|lia|exact H].
Qed.

Lemma probes_corner_false (b b' : Board) (L target : Z) :
  (forall y x, y <> L \/ x <> 7 -> rd b' y x = rd b y x) ->
  rd b' L 7 = Some EMPTY -> target <> EMPTY ->
  forall l, probes false b target l = Some false ->
            probes false b' target l = Some false.
Proof.
  intros Hag Hc Ht. induction l as [|[[j i] g] l IH]; intros H; [reflexivity|].
  cbn [probes] in *.
  apply (orelse_false (probe false b (Z.eqb target) j i g)
                      (probes false b target l)); [|exact IH|exact H].
  unfold probe. intros Hp.
  destruct (Z.eq_dec j L) as [EL|NL]; [destruct (Z.eq_dec i 7) as [E7|N7]|].
  - subst i j. rewrite Hc.
    destruct (Z.eqb_spec target EMPTY); [contradiction|reflexivity].
  - now rewrite (Hag j i) by (right; exact N7).
  - now rewrite (Hag j i) by (left; exact NL).
Qed.

Ltac corner_chain HL Hag Hc H :=
  first
    [ eapply orelse_false; [ | | exact H];
      [ first
          [ apply (ray_corner_false _ _ _ _ _ _ _ HL Hag Hc);
            first [ apply enemy_not_EMPTY; unfold W_ROOK, W_QUEEN, W_BISHOP; lia
                  | lia ]
          | apply (probes_corner_false _ _ _ _ Hag Hc);
            apply enemy_not_EMPTY; unfold W_KING, W_KNIGHT, W_PAWN; lia ]
      | let Hk := fresh "Hk" in intros Hk; corner_chain HL Hag Hc Hk ]
    | apply (probes_corner_false _ _ _ _ Hag Hc);
      [ apply enemy_not_EMPTY; unfold W_KING, W_KNIGHT, W_PAWN; lia | exact H ] ].

(** When [IsCheck] answers [false], it answers [false] on the board with
    an h-file corner emptied, whatever stood there but the king itself. *)
Lemma IsCheck_corner_cleared (b b' : Board) (t : bool) (L v : Z) :
  L = 0 \/ L = 7 ->
  (forall y x, y <> L \/ x <> 7 -> rd b' y x = rd b y x) ->
  rd b L 7 = Some v -> rd b' L 7 = Some EMPTY -> v <> king_of t ->
  IsCheck b t = Some false -> IsCheck b' t = Some false.
Proof.
  intros HL Hag Hv Hc Hk H. unfold IsCheck, IsCheck_gen in *.
  fold (king_of t) in *.
  assert (He : EMPTY <> king_of t) by (destruct t; discriminate).
  rewrite <- (king_scan_agree b b' 7 L Hag (king_of t) v EMPTY Hv Hc Hk He).
  destruct (king_scan b (king_of t) 0 8) as [[x y]|] eqn:Ek; [|discriminate H].
  apply king_scan_found in Ek.
  destruct (rd_Some_bounds _ _ _ _ Ek) as [Hy Hx].
  cbv zeta in *.
  corner_chain HL Hag Hc H.
Qed.

(** ** A move on a board with the other side's corner emptied *)

Lemma corner_cleared_upd (L r : Z) (b b' : Board) (y x v : Z) :
  0 <= y < 8 -> 0 <= x < 8 -> corner_cleared L r b b' ->
  corner_cleared L r (upd b (cell y x) v) (upd b' (cell y x) v).
Proof.
  intros Hy Hx (Hwf & Hwf' & Hoff & Hat).
  split; [unfold wf_board; rewrite length_upd; exact Hwf|].
  split; [unfold wf_board; rewrite length_upd; exact Hwf'|].
  split.
  - intros y' x' Hne. rewrite !rd_upd by assumption.
    destruct ((y' =? y) && (x' =? x)); [reflexivity|now apply Hoff].
  - rewrite !rd_upd by assumption.
    destruct ((L =? y) && (7 =? x)); [now left|exact Hat].
Qed.

Lemma corner_cleared_refl (L r : Z) (b : Board) :
  wf_board b -> corner_cleared L r b b.
Proof. intros H. split; [exact H|]. split; [exact H|]. split; [reflexivity|now left]. Qed.

Lemma foreign_rook (t : bool) (p : Z) :
  p = EMPTY \/ own t p = true -> p <> rook_of (negb t).
Proof. intros [E|H] Er; subst p; destruct t; discriminate. Qed.

Lemma corner_cleared_rd (L r : Z) (b b' : Board) (y x v : Z) :
  corner_cleared L r b b' -> rd b y x = Some v -> v <> r \/ y <> L \/ x <> 7 ->
  rd b' y x = Some v.
Proof.
  intros (_ & _ & Hoff & Hat) Hv Hn.
  destruct (Z.eq_dec y L) as [->|NL]; [|now rewrite Hoff by now left].
  destruct (Z.eq_dec x 7) as [->|N7]; [|now rewrite Hoff by now right].
  destruct Hat as [E|[E _]]; [now rewrite E|].
  rewrite E in Hv. injection Hv as <-. destruct Hn as [Hn|[Hn|Hn]]; contradiction.
Qed.

Ltac frame_done H0 H1 Hcc :=
  injection H0 as <-; injection H1 as <-; cbn [board set_board];
  repeat (apply corner_cleared_upd; [lia|lia|]); exact Hcc.

(** The same move applied to a game object and to the game object with
    the h-file corner of the side that does not move emptied: the two
    boards it leaves are again the same but for that corner. *)
Lemma MovePiece_corner_cleared (c : Chess) (B' : Board) (x1 y1 x2 y2 : Z)
    (c1 c1' : Chess) :
  let t := whites_turn c in
  Inv c -> plausible c (x1, y1, x2, y2) ->
  corner_cleared (line_of (negb t)) (rook_of (negb t)) (board c) B' ->
  MovePiece c x1 y1 x2 y2 false key_q false = Some c1 ->
  MovePiece (set_board c B') x1 y1 x2 y2 false key_q false = Some c1' ->
  corner_cleared (line_of (negb t)) (rook_of (negb t)) (board c1) (board c1').
Proof.
  intros t HI (Hne & src & dst & Hs & Hd & Hsrc & Hdst & Hpawn & Hrook & Hking)
         Hcc H0 H1.
  pose proof (inv_wf _ HI) as Hwf.
  pose proof Hcc as (_ & Hwf' & Hoff & Hat).
  destruct (rd_Some_bounds _ _ _ _ Hs) as [Hy1 Hx1].
  destruct (rd_Some_bounds _ _ _ _ Hd) as [Hy2 Hx2].
  pose proof (line_of_bounds t) as Hl.
  set (b := set_board c B') in *.
  assert (Hs' : rd (board b) y1 x1 = Some src).
  { apply (corner_cleared_rd _ _ _ _ _ _ _ Hcc Hs). left.
    now apply foreign_rook. }
  assert (Hd' : exists dst', rd (board b) y2 x2 = Some dst' /\
                  (dst' = dst \/ y2 = line_of (negb t))).
  { destruct (rd_defined B' y2 x2 Hwf' Hy2 Hx2) as [dst' Hd'].
    exists dst'. split; [exact Hd'|].
    destruct (Z.eq_dec y2 (line_of (negb t))) as [E|N]; [now right|left].
    cbn [board b set_board] in Hd'. rewrite Hoff in Hd' by now left. congruence. }
  destruct Hd' as (dst' & Hd' & Hdd).
  assert (Hlast : last_rank c = line_of (negb t)) by reflexivity.
  destruct (is_pawn src) eqn:Ep.
  { destruct (Z.eq_dec y2 (last_rank c)) as [Hlr|Hlr].
    - assert (Hrnd : (if whites_turn c then white_bot_random c
                      else black_bot_random c) = false).
      { destruct (inv_settings _ HI) as [-> ->]. now destruct (whites_turn c). }
      rewrite (MovePiece_promotion c x1 y1 x2 y2 src dst false key_q
                 Hs Hd Ep Hlr Hwf Hrnd) in H0.
      rewrite (MovePiece_promotion b x1 y1 x2 y2 src dst' false key_q
                 Hs' Hd' Ep Hlr Hwf' Hrnd) in H1.
      frame_done H0 H1 Hcc.
    - destruct Hdd as [->|E]; [|congruence].
      destruct (Z.eq_dec x1 x2) as [Ex|Nx].
      + rewrite (MovePiece_pawn_step c x1 y1 x2 y2 src dst false key_q
                   Hs Hd Ep Hlr (or_introl Ex)) in H0.
        rewrite (MovePiece_pawn_step b x1 y1 x2 y2 src dst false key_q
                   Hs' Hd' Ep Hlr (or_introl Ex)) in H1.
        frame_done H0 H1 Hcc.
      + destruct (Z.eq_dec dst EMPTY) as [->|Nd].
        * rewrite (MovePiece_en_passant c x1 y1 x2 y2 src false key_q
                     Hs Hd Ep Hlr Nx Hwf) in H0.
          rewrite (MovePiece_en_passant b x1 y1 x2 y2 src false key_q
                     Hs' Hd' Ep Hlr Nx Hwf') in H1.
          frame_done H0 H1 Hcc.
        * rewrite (MovePiece_pawn_step c x1 y1 x2 y2 src dst false key_q
                     Hs Hd Ep Hlr (or_intror Nd)) in H0.
          rewrite (MovePiece_pawn_step b x1 y1 x2 y2 src dst false key_q
                     Hs' Hd' Ep Hlr (or_intror Nd)) in H1.
          frame_done H0 H1 Hcc. }
  destruct (is_king src) eqn:Ek.
  { assert (Hown : own (whites_turn c) src = true).
    { destruct Hsrc as [->|H]; [discriminate Ek|exact H]. }
    pose proof (own_king _ _ Ek Hown) as Esrc.
    assert (Hstep : castling (GetCurrentPlayerConst c) = false \/ (x2 <> 2 /\ x2 <> 6) ->
                    corner_cleared (line_of (negb t)) (rook_of (negb t))
                                   (board c1) (board c1')).
    { intros Hno.
      rewrite (MovePiece_king_step c x1 y1 x2 y2 src dst false key_q
                 Hs Hd Ek Hno) in H0.
      rewrite (MovePiece_king_step b x1 y1 x2 y2 src dst' false key_q
                 Hs' Hd' Ek Hno) in H1.
      frame_done H0 H1 Hcc. }
    destruct (castling (GetCurrentPlayerConst c)) eqn:Ef; [|now apply Hstep; left].
    assert (Hline : line_of t <> line_of (negb t)) by (destruct t; discriminate).
    destruct (Z.eq_dec x2 2) as [E2|N2].
    - rewrite <- flag_of_current in Ef.
      destruct (Hking eq_refl Ef (or_introl E2)) as (-> & -> & -> & Hq & _).
      destruct (Hq E2) as (R0 & R1 & R2 & R3). subst x2 src.
      rewrite flag_of_current in Ef. fold t in R0, Hs, Hs'.
      assert (R0' : rd (board b) (line_of t) 0 = Some (rook_of t)).
      { apply (corner_cleared_rd _ _ _ _ _ _ _ Hcc R0). right. now left. }
      rewrite (MovePiece_castle c 2 0 3 (rook_of t) false key_q Ef Hs
                 (or_introl (conj eq_refl (conj eq_refl eq_refl))) R0 Hwf) in H0.
      pose proof (MovePiece_castle b 2 0 3 (rook_of t) false key_q Ef Hs'
                    (or_introl (conj eq_refl (conj eq_refl eq_refl))) R0' Hwf') as Hb.
      cbv zeta in Hb. change (whites_turn b) with t in Hb.
      fold t in H0, H1. rewrite Hb in H1.
      frame_done H0 H1 Hcc.
    - destruct (Z.eq_dec x2 6) as [E6|N6]; [|now apply Hstep; right].
      rewrite <- flag_of_current in Ef.
      destruct (Hking eq_refl Ef (or_intror E6)) as (-> & -> & -> & _ & Hkk).
      destruct (Hkk E6) as (R7 & R5 & R6). subst x2 src.
      rewrite flag_of_current in Ef. fold t in R7, Hs, Hs'.
      assert (R7c : exists r7, rd (board c) (line_of t) 7 = Some r7)
        by (destruct R7 as [R7|R7]; eauto).
      destruct R7c as [r7 R7c].
      assert (R7' : rd (board b) (line_of t) 7 = Some r7).
      { apply (corner_cleared_rd _ _ _ _ _ _ _ Hcc R7c). right. now left. }
      rewrite (MovePiece_castle c 6 7 5 r7 false key_q Ef Hs
                 (or_intror (conj eq_refl (conj eq_refl eq_refl))) R7c Hwf) in H0.
      pose proof (MovePiece_castle b 6 7 5 r7 false key_q Ef Hs'
                    (or_intror (conj eq_refl (conj eq_refl eq_refl))) R7' Hwf') as Hb.
      cbv zeta in Hb. change (whites_turn b) with t in Hb.
      fold t in H0, H1. rewrite Hb in H1.
      frame_done H0 H1 Hcc. }
  destruct (is_rook src) eqn:Er.
  { rewrite (MovePiece_rook c x1 y1 x2 y2 src dst false key_q Hs Hd Er) in H0.
    rewrite (MovePiece_rook b x1 y1 x2 y2 src dst' false key_q Hs' Hd' Er) in H1.
    frame_done H0 H1 Hcc. }
  rewrite (MovePiece_plain c x1 y1 x2 y2 src dst false key_q Hs Hd Ep Ek Er) in H0.
  rewrite (MovePiece_plain b x1 y1 x2 y2 src dst' false key_q Hs' Hd' Ep Ek Er) in H1.
  frame_done H0 H1 Hcc.
Qed.

(** ** The move the search returns *)

(** A game object the search has worn is a game object worn on the
    mover's side only, with the other side's corner emptied or not. *)
Lemma worn_split (c b : Chess) :
  let t := whites_turn c in
  worn any_side c b ->
  exists B0, worn (eq t) c (set_board b B0) /\
             corner_cleared (line_of (negb t)) (rook_of (negb t)) B0 (board b).
Proof.
  intros t Hw.
  pose proof (line_of_bounds (negb t)) as HL.
  pose proof (worn_wf _ _ _ Hw) as Hwf.
  assert (Hkeep : forall B0, wf_board B0 ->
            rd B0 (line_of (negb t)) 7 = rd (board c) (line_of (negb t)) 7 ->
            (forall y x, y <> line_of (negb t) \/ x <> 7 ->
                         rd B0 y x = rd (board b) y x) ->
            worn (eq t) c (set_board b B0)).
  { intros B0 Hwf0 Hat Hoff. split; try apply Hw; [exact Hwf0|].
    cbn [board set_board]. intros y x Hy Hx.
    destruct (Z.eq_dec y (line_of (negb t))) as [->|NL];
      [destruct (Z.eq_dec x 7) as [->|N7]|].
    - now left.
    - rewrite Hoff by now right.
      destruct (worn_board _ _ _ Hw _ x Hy Hx) as [E|(_ & E7 & _)];
        [now left|contradiction].
    - rewrite Hoff by now left.
      destruct (worn_board _ _ _ Hw y x Hy Hx) as [E|(E & E7 & t' & _ & El & Hl)];
        [now left|].
      right. split; [exact E|]. split; [exact E7|]. exists t'.
      split; [|now split].
      destruct t, t'; try reflexivity; exfalso; apply NL; exact El. }
  destruct (worn_board _ _ _ Hw (line_of (negb t)) 7 HL ltac:(lia))
    as [E|(E & _ & t' & _ & El & Hf & Hr)].
  - exists (board b). split.
    + apply Hkeep; [exact Hwf|exact E|reflexivity].
    + now apply corner_cleared_refl.
  - assert (t' = negb t) by (destruct t, t'; try reflexivity; discriminate El).
    subst t'.
    exists (upd (board b) (cell (line_of (negb t)) 7) (rook_of (negb t))).
    assert (Hwf0 : wf_board (upd (board b) (cell (line_of (negb t)) 7)
                                 (rook_of (negb t))))
      by (unfold wf_board; rewrite length_upd; exact Hwf).
    split.
    + apply Hkeep; [exact Hwf0| |].
      * rewrite rd_upd by (assumption || lia). rewrite !Z.eqb_refl. now rewrite Hr.
      * intros y x Hne. rewrite rd_upd by (assumption || lia).
        now rewrite not_at by exact Hne.
    + split; [exact Hwf0|]. split; [exact Hwf|]. split.
      * intros y x Hne. rewrite rd_upd by (assumption || lia).
        now rewrite not_at by exact Hne.
      * right. split; [|exact E].
        rewrite rd_upd by (assumption || lia). now rewrite !Z.eqb_refl.
Qed.

Lemma set_board_board (b : Chess) (B0 : Board) :
  set_board (set_board b B0) (board b) = b.
Proof. now destruct b. Qed.

(** A move that is safe for the mover's king on every game object worn
    on the mover's side is safe on every game object the search leaves. *)
Lemma worn_move_safe (c b b1 : Chess) (x1 y1 x2 y2 : Z) :
  let t := whites_turn c in
  Inv c -> plausible c (x1, y1, x2, y2) -> worn any_side c b ->
  (forall b0, worn (eq t) c b0 ->
     exists c1, MovePiece b0 x1 y1 x2 y2 false key_q false = Some c1 /\
                IsCheck (board c1) t = Some false) ->
  MovePiece b x1 y1 x2 y2 false key_q true = Some b1 ->
  IsCheck (board b1) t = Some false.
Proof.
  intros t HI Hpl Hw Hlegal Hm.
  destruct (worn_split c b Hw) as (B0 & Hw0 & Hcc). fold t in Hw0, Hcc.
  destruct (Hlegal _ Hw0) as (c01 & Hm0 & Hsafe).
  pose proof (Inv_worn _ _ _ Hw0 HI) as HI0.
  pose proof (plausible_worn _ _ _ _ Hw0 Hpl) as Hpl0.
  pose proof (Inv_worn _ _ _ Hw HI) as HIb.
  pose proof (plausible_worn _ _ _ _ Hw Hpl) as Hplb.
  destruct (MovePiece_keeps b x1 y1 x2 y2 false key_q HIb Hplb) as (b1' & Hm' & _).
  destruct (MovePiece_shown b b1' x1 y1 x2 y2 false key_q Hm') as (b1'' & Hm'' & Hg).
  rewrite Hm in Hm''. injection Hm'' as <-.
  destruct Hg as (Hb & _). rewrite Hb.
  rewrite <- (set_board_board b B0) in Hm'.
  pose proof (MovePiece_corner_cleared (set_board b B0) (board b) x1 y1 x2 y2
                c01 b1' HI0 Hpl0) as Hframe.
  cbv zeta in Hframe. cbn [whites_turn set_board board] in Hframe.
  rewrite (worn_turn _ _ _ Hw) in Hframe. fold t in Hframe.
  specialize (Hframe Hcc Hm0 Hm').
  destruct Hframe as (Hwf1 & Hwf1' & Hoff & [Hat|[Hr He]]).
  - assert (E : board b1' = board c01); [|now rewrite E].
    apply board_ext; [exact Hwf1'|exact Hwf1|].
    intros y x _ _.
    destruct (Z.eq_dec y (line_of (negb t))) as [->|NL];
      [destruct (Z.eq_dec x 7) as [->|N7]|].
    + exact Hat.
    + apply Hoff. now right.
    + apply Hoff. now left.
  - apply (IsCheck_corner_cleared (board c01) (board b1') t (line_of (negb t))
             (rook_of (negb t))); try assumption.
    + apply line_of_cases.
    + destruct t; discriminate.
Qed.

(** The move the search returns is one of the list [AllMoves] gives at
    the node, and the game object it leaves is the one it found, worn. *)
Lemma AlphaBetaRoot_chooses (c c' : Chess) (difficulty draw : nat) (k : Key) :
  Inv c -> AlphaBetaRoot c difficulty draw = Some (k, c') ->
  worn any_side c c' /\
  exists l c0, AllMoves c = Some (l, c0) /\
    exists m, In m l /\ ChangeToRealCoordinates m = Some k.
Proof.
  intros HI H.
  split; [exact (proj1 (AlphaBetaRoot_sound c c' difficulty draw k HI H))|].
  unfold AlphaBetaRoot in H.
  destruct (CreateSubtree c) as [[keys c0]|] eqn:Ec; [|discriminate].
  destruct (CreateSubtree_sound c c0 keys HI Ec) as [Hw Hkeys].
  destruct (root_children difficulty keys c0 [] (- INF)) as [[r c1]|] eqn:Er;
    [|discriminate].
  pose proof (Inv_worn any_side c c0 Hw HI) as HI0.
  destruct (root_children_sound difficulty keys c0 [] (- INF) r c1 HI0 Hkeys Er)
    as [_ Hr].
  assert (Hk : In k keys).
  { destruct r as [k0|l].
    - injection H as <- _. exact Hr.
    - destruct (nth_error l draw) as [k0|] eqn:En; [|discriminate].
      injection H as <- _.
      apply nth_error_In in En. destruct (Hr k0 En) as [[]|Hn]. exact Hn. }
  unfold CreateSubtree in Ec.
  destruct (AllMoves c) as [[l a]|] eqn:Ea; [|discriminate].
  match type of Ec with
  | match ?e with Some _ => _ | None => None end = Some _ =>
      destruct e as [ks|] eqn:Ek; [|discriminate]
  end.
  injection Ec as <- _.
  exists l, a. split; [reflexivity|].
  destruct (keys_of_moves l _ _ Ek) as (acc0 & E0 & Hin).
  injection E0 as <-.
  destruct (Hin k Hk) as [[]|Hm]. exact Hm.
Qed.

Lemma listed_move (c c0 : Chess) (l : list str) (m : str) (x1 y1 x2 y2 : Z) :
  let t := whites_turn c in
  Inv c -> AllMoves c = Some (l, c0) -> In m l ->
  ChangeToRealCoordinates m = Some (x1, y1, x2, y2) ->
  m = ToString x1 y1 x2 y2 /\ plausible c (x1, y1, x2, y2) /\
  forall b0, worn (eq t) c b0 ->
    exists c1, MovePiece b0 x1 y1 x2 y2 false key_q false = Some c1 /\
               IsCheck (board c1) t = Some false.
Proof.
  intros t HI Ea Hin Hk.
  destruct (AllMoves_sound c c0 l HI Ea) as [_ Hl].
  destruct (Hl m Hin) as (u1 & v1 & u2 & v2 & -> & Hpl & Hlegal).
  rewrite (candidate_coordinates _ _ _ _ _ Hpl) in Hk.
  injection Hk as <- <- <- <-.
  split; [reflexivity|]. split; [exact Hpl|].
  intros b0 Hw0. exact (Hlegal b0 false key_q false Hw0).
Qed.

Lemma worn_trace (c c' : Chess) : worn any_side c c' -> search_trace c c'.
Proof.
  intros Hw.
  split; [apply Hw|]. split; [apply Hw|]. split; [apply Hw|].
  split; [apply Hw|]. split; [apply Hw|].
  intros y x Hy Hx.
  destruct (worn_board _ _ _ Hw y x Hy Hx) as [E|(E & E7 & t & _ & El & Hl)];
    [now left|].
  right. split; [exact E7|]. split; [exact E|]. now exists t.
Qed.

(** X17.  [AlphaBeta], at any depth and with any window, returns the game
    object it was given as far as players, log, turn and counter go, and
    the board with every square as it was, except that an h-file corner
    may have been emptied where a side that may still castle had its
    rook. *)
Theorem AlphaBeta_leaves_trace (depth : nat) (c c' : Chess) (alpha beta v : Z)
    (maximizing_player initial_turn : bool) :
  Inv c ->
  AlphaBeta depth c alpha beta maximizing_player initial_turn = Some (v, c') ->
  search_trace c c'.
Proof.
  intros HI H. apply worn_trace.
  exact (AlphaBeta_worn depth c alpha beta maximizing_player initial_turn v c' HI H).
Qed.

Lemma AlphaBeta_leaves_trace_witness :
  search_trace (new_game 1 1)
    (match AlphaBeta 2 (new_game 1 1) (2 * -10000) (2 * 10000) true true with
     | Some (_, c') => c'
     | None => new_game 1 1
     end).
Proof.
  refine (AlphaBeta_leaves_trace 2 (new_game 1 1)
            (match AlphaBeta 2 (new_game 1 1) (2 * -10000) (2 * 10000) true true with
             | Some (_, c') => c'
             | None => new_game 1 1
             end)
            (2 * -10000) (2 * 10000)
            (match AlphaBeta 2 (new_game 1 1) (2 * -10000) (2 * 10000) true true with
             | Some (v, _) => v
             | None => 0
             end) true true (Inv_new_game 1 1) _).
  vm_compute. reflexivity.
Defined.

(** X18.  At a game object of a run, the move [AlphaBetaRoot] returns is
    one of the list [AllMoves] gives there, and the search leaves the
    players, the log, the turn and the counter as they were, and every
    square of the board as it was, except that an h-file corner may have
    been emptied where a side that may still castle had its rook. *)
Theorem AlphaBetaRoot_returns_listed_move (c c' : Chess) (difficulty draw : nat)
    (x1 y1 x2 y2 : Z) :
  reach c -> AlphaBetaRoot c difficulty draw = Some ((x1, y1, x2, y2), c') ->
  (exists l c0, AllMoves c = Some (l, c0) /\ In (ToString x1 y1 x2 y2) l) /\
  search_trace c c'.
Proof.
  intros Hr H. pose proof (reach_Inv c Hr) as HI.
  destruct (AlphaBetaRoot_chooses c c' difficulty draw _ HI H)
    as (Hw & l & c0 & Ea & m & Hin & Hk).
  split; [|now apply worn_trace].
  exists l, c0. split; [exact Ea|].
  destruct (listed_move c c0 l m x1 y1 x2 y2 HI Ea Hin Hk) as (<- & _).
  exact Hin.
Qed.

Lemma AlphaBetaRoot_returns_listed_move_witness :
  (exists l c0, AllMoves bot_to_reply = Some (l, c0) /\ In (ToString 1 0 2 2) l) /\
  search_trace bot_to_reply bot_to_reply.
Proof.
  refine (AlphaBetaRoot_returns_listed_move bot_to_reply bot_to_reply 1 0 1 0 2 2
            reach_bot_to_reply _).
  vm_compute. reflexivity.
Defined.

(** X19.  At a game object of a run, the move the searching bot plays in
    [BotsTurn] is one of the list [AllMoves] gives there, and after it is
    applied to the game object the search left, the king of the bot's
    side is not in check. *)
Theorem BotsTurn_plays_legal_moves (c c2 : Chess) (draw : nat)
    (over : option Endgame) :
  reach c -> BotsTurn c draw = Some (Played over c2) ->
  exists l c0 x1 y1 x2 y2 c' c1,
    AllMoves c = Some (l, c0) /\ In (ToString x1 y1 x2 y2) l /\
    AlphaBetaRoot c (Z.to_nat (difficulty (GetCurrentPlayerConst c))) draw
    = Some ((x1, y1, x2, y2), c') /\
    MovePiece c' x1 y1 x2 y2 false key_q true = Some c1 /\
    IsCheck (board c1) (whites_turn c) = Some false /\
    CheckEndgame c1 = Some (over, c2).
Proof.
  intros Hr H. pose proof (reach_Inv c Hr) as HI. unfold BotsTurn in H.
  destruct (if whites_turn c then white_bot_random c else black_bot_random c);
    [discriminate|].
  destruct (AlphaBetaRoot c _ draw) as [[[[[x1 y1] x2] y2] c']|] eqn:Er;
    [|discriminate].
  destruct (MovePiece c' x1 y1 x2 y2 false key_q true) as [c1|] eqn:Em;
    [|discriminate].
  destruct (CheckEndgame c1) as [[o c2']|] eqn:Ec; [|discriminate].
  injection H as <- <-.
  destruct (AlphaBetaRoot_chooses c c' _ draw _ HI Er)
    as (Hw & l & c0 & Ea & m & Hin & Hk).
  destruct (listed_move c c0 l m x1 y1 x2 y2 HI Ea Hin Hk) as (-> & Hpl & Hlegal).
  exists l, c0, x1, y1, x2, y2, c', c1.
  split; [exact Ea|]. split; [exact Hin|].
  split; [first [reflexivity|assumption]|].
  split; [exact Em|]. split; [|first [reflexivity|assumption]].
  exact (worn_move_safe c c' c1 x1 y1 x2 y2 HI Hpl Hw Hlegal Em).
Qed.

Lemma BotsTurn_plays_legal_moves_witness :
  exists l c0 x1 y1 x2 y2 c' c1,
    AllMoves bot_to_reply = Some (l, c0) /\ In (ToString x1 y1 x2 y2) l /\
    AlphaBetaRoot bot_to_reply
      (Z.to_nat (difficulty (GetCurrentPlayerConst bot_to_reply))) 0
    = Some ((x1, y1, x2, y2), c') /\
    MovePiece c' x1 y1 x2 y2 false key_q true = Some c1 /\
    IsCheck (board c1) (whites_turn bot_to_reply) = Some false /\
    CheckEndgame c1
    = Some (None, match BotsTurn bot_to_reply 0 with
                  | Some (Played _ c2) => c2
                  | _ => bot_to_reply
                  end).
Proof.
  refine (BotsTurn_plays_legal_moves bot_to_reply
            (match BotsTurn bot_to_reply 0 with
             | Some (Played _ c2) => c2
             | _ => bot_to_reply
             end) 0 None reach_bot_to_reply _).
  vm_compute. reflexivity.
Defined.

(** ** The evaluation of a position and of its mirror image *)

Lemma table_defined (k : Z) :
  0 <= k <= 5 ->
  exists table, nth_error PIECE_POS_POINTS (Z.to_nat k) = Some table /\
                length table = 64%nat.
Proof.
  intros H.
  assert (E : k = 0 \/ k = 1 \/ k = 2 \/ k = 3 \/ k = 4 \/ k = 5) by lia.
  destruct E as [->|[->|[->|[->|[->| ->]]]]];
    (eexists; split; [reflexivity|reflexivity]).
Qed.

Lemma bonus_defined (table : list Z) (y x : Z) :
  length table = 64%nat -> 0 <= y < 8 -> 0 <= x < 8 ->
  exists bonus, nth_error table (cell y x) = Some bonus.
Proof.
  intros Hl Hy Hx. destruct (nth_error table (cell y x)) as [v|] eqn:E; [eauto|].
  apply nth_error_None in E. unfold cell, BOARD_SIZE in E. lia.
Qed.

Lemma EvaluatePiece_swap (p : Z) :
  -6 <= p <= 6 -> EvaluatePiece (swap_colour p) = EvaluatePiece p.
Proof.
  intros H.
  assert (E : p = -6 \/ p = -5 \/ p = -4 \/ p = -3 \/ p = -2 \/ p = -1 \/ p = 0 \/
              p = 1 \/ p = 2 \/ p = 3 \/ p = 4 \/ p = 5 \/ p = 6) by lia.
  repeat (destruct E as [->|E]; [reflexivity|]). now subst p.
Qed.

(** What [EvaluatePosition] returns on a square that holds the piece
    [p]: the table is the one of the kind of [p], read on the row as the
    side of [p] sees it. *)
Lemma EvaluatePosition_piece (c : Chess) (x y p : Z) :
  rd (board c) y x = Some p -> -6 <= p <= 6 -> p <> EMPTY ->
  exists table bonus,
    nth_error PIECE_POS_POINTS (Z.to_nat (p + 7 * b2z (p <? 0) - 1)) = Some table /\
    nth_error table (cell (if p <? 0 then 7 - y else y) x) = Some bonus /\
    EvaluatePosition c x y
    = Some ((if p <? 0 then -1 else 1) * (2 * EvaluatePiece p + bonus)).
Proof.
  intros Hp Hr He. destruct (rd_Some_bounds _ _ _ _ Hp) as [Hy Hx].
  unfold EMPTY in He.
  assert (Hb : 0 <= p + 7 * b2z (p <? 0) - 1 <= 5)
    by (destruct (Z.ltb_spec p 0); cbn [b2z]; lia).
  destruct (table_defined _ Hb) as (table & Ht & Hl).
  assert (Hrow : 0 <= (if p <? 0 then 7 - y else y) < 8)
    by (destruct (p <? 0); lia).
  destruct (bonus_defined table _ x Hl Hrow Hx) as [bonus Hbonus].
  exists table, bonus. split; [exact Ht|]. split; [exact Hbonus|].
  unfold EvaluatePosition. rewrite Hp. cbv beta iota.
  unfold EMPTY. rewrite (proj2 (Z.eqb_neq p 0) He).
  cbv zeta. rewrite Ht. cbv beta iota.
  replace (if p <? 0 then BOARD_SIZE - y - 1 else y)
    with (if p <? 0 then 7 - y else y)
    by (unfold BOARD_SIZE; destruct (p <? 0); lia).
  rewrite Hbonus. cbv beta iota.
  now rewrite (proj2 (Z.ltb_ge _ _) (proj1 Hb)).
Qed.

Lemma swap_colour_spec (p : Z) :
  -6 <= p <= 6 -> p <> EMPTY ->
  -6 <= swap_colour p <= 6 /\ swap_colour p <> EMPTY /\
  (swap_colour p <? 0) = negb (p <? 0) /\
  swap_colour p + 7 * b2z (swap_colour p <? 0) - 1 = p + 7 * b2z (p <? 0) - 1.
Proof.
  unfold swap_colour, EMPTY. intros Hr He.
  destruct (Z.eqb_spec p 0); [contradiction|].
  destruct (Z.ltb_spec p 0).
  - destruct (Z.ltb_spec (p + 7) 0); [lia|]. cbn [negb b2z]. repeat split; lia.
  - destruct (Z.ltb_spec (p - 7) 0); [|lia]. cbn [negb b2z]. repeat split; lia.
Qed.

(** The value of a square of the mirror image is the opposite of the
    value of the square it mirrors. *)
Lemma EvaluatePosition_mirrored (c c' : Chess) (x y : Z) :
  mirrored (board c) (board c') -> 0 <= y < 8 -> 0 <= x < 8 ->
  exists e, EvaluatePosition c x y = Some e /\
            EvaluatePosition c' x (7 - y) = Some (- e).
Proof.
  intros Hm Hy Hx. destruct (Hm y x Hy Hx) as (p & Hp & Hr & Hp').
  destruct (Z.eq_dec p EMPTY) as [->|He].
  { exists 0. unfold EvaluatePosition. rewrite Hp, Hp'. split; reflexivity. }
  destruct (swap_colour_spec p Hr He) as (Hr' & He' & Hneg & Hidx).
  destruct (EvaluatePosition_piece c x y p Hp Hr He) as (t1 & b1 & Ht1 & Hb1 & E1).
  destruct (EvaluatePosition_piece c' x (7 - y) _ Hp' Hr' He')
    as (t2 & b2 & Ht2 & Hb2 & E2).
  rewrite Hidx, Ht1 in Ht2. injection Ht2 as <-.
  rewrite Hneg in Hb2, E2.
  replace (if negb (p <? 0) then 7 - (7 - y) else 7 - y)
    with (if p <? 0 then 7 - y else y) in Hb2
    by (destruct (p <? 0); cbn [negb]; lia).
  rewrite Hb1 in Hb2. injection Hb2 as <-.
  rewrite (EvaluatePiece_swap p Hr) in E2.
  eexists. split; [exact E1|]. rewrite E2. f_equal.
  destruct (p <? 0); cbn [negb]; lia.
Qed.

Lemma fold_positions (c : Chess) (f : Z -> Z -> Z) (l : list (Z * Z)) :
  (forall sq, In sq l -> EvaluatePosition c (fst sq) (snd sq)
                         = Some (f (fst sq) (snd sq))) ->
  forall a,
    fold_left (fun acc sq => a <- acc ;; v <- EvaluatePosition c (fst sq) (snd sq) ;;
                             Some (a + v)) l (Some a)
    = Some (a + total f l).
Proof.
  induction l as [|sq l IH]; intros H a; cbn [fold_left total fold_right].
  - f_equal. lia.
  - rewrite (H sq (or_introl eq_refl)). cbv beta iota.
    rewrite IH by (intros sq' Hin; apply H; now right).
    f_equal. fold (total f l). lia.
Qed.

Lemma squares_bounds (sq : Z * Z) :
  In sq squares -> 0 <= fst sq < 8 /\ 0 <= snd sq < 8.
Proof.
  unfold squares, coords. intros H. apply in_flat_map in H.
  destruct H as (y & Hy & H). apply in_map_iff in H.
  destruct H as (x & <- & Hx). cbn [fst snd].
  cbn [In] in Hx, Hy. lia.
Qed.

(** Summing over the squares rank by rank from either end gives the same
    total. *)
Lemma total_flipped (f : Z -> Z -> Z) :
  total (fun x y => f x (7 - y)) squares = total f squares.
Proof.
  unfold total, squares, coords.
  cbn [flat_map map app fold_right fst snd].
  change (7 - 0) with 7. change (7 - 1) with 6. change (7 - 2) with 5.
  change (7 - 3) with 4. change (7 - 4) with 3. change (7 - 5) with 2.
  change (7 - 6) with 1. change (7 - 7) with 0.
  lia.
Qed.

Lemma total_opp (f : Z -> Z -> Z) (l : list (Z * Z)) :
  total (fun x y => - f x y) l = - total f l.
Proof.
  induction l as [|sq l IH]; cbn [total fold_right]; [reflexivity|].
  fold (total (fun x y => - f x y) l). fold (total f l). lia.
Qed.

(** X20.  A position and its mirror image (the ranks in reverse order and
    the colours exchanged) are worth the same to the two sides: on a
    board of pieces and on its mirror image [EvaluateBoard] has a value,
    and its value for one side on the board is its value for the other
    side on the mirror image. *)
Theorem EvaluateBoard_mirrored (c c' : Chess) (turn : bool) :
  mirrored (board c) (board c') ->
  exists v, EvaluateBoard c turn = Some v /\
            EvaluateBoard c' (negb turn) = Some v.
Proof.
  intros Hm.
  set (f := fun x y => match EvaluatePosition c x y with
                       | Some e => e
                       | None => 0
                       end).
  assert (Hf : forall sq, In sq squares ->
            EvaluatePosition c (fst sq) (snd sq) = Some (f (fst sq) (snd sq))).
  { intros sq Hin. destruct (squares_bounds sq Hin) as [Hx Hy].
    destruct (EvaluatePosition_mirrored c c' _ _ Hm Hy Hx) as (e & E & _).
    unfold f. now rewrite E. }
  assert (Hf' : forall sq, In sq squares ->
            EvaluatePosition c' (fst sq) (snd sq)
            = Some (- f (fst sq) (7 - snd sq))).
  { intros sq Hin. destruct (squares_bounds sq Hin) as [Hx Hy].
    assert (Hy' : 0 <= 7 - snd sq < 8) by lia.
    destruct (EvaluatePosition_mirrored c c' _ _ Hm Hy' Hx) as (e & E & E').
    replace (7 - (7 - snd sq)) with (snd sq) in E' by lia.
    unfold f. now rewrite E, E'. }
  exists ((if turn then 1 else -1) * total f squares).
  unfold EvaluateBoard.
  rewrite (fold_positions c f squares Hf 0).
  rewrite (fold_positions c' (fun x y => - f x (7 - y)) squares Hf' 0).
  cbv beta iota. split; [f_equal; lia|]. f_equal.
  rewrite (total_opp (fun x y => f x (7 - y))), total_flipped.
  destruct turn; cbn [negb]; lia.
Qed.

Lemma EvaluateBoard_mirrored_witness :
  exists v, EvaluateBoard (new_game 1 1) true = Some v /\
            EvaluateBoard (new_game 1 1) (negb true) = Some v.
Proof.
  apply (EvaluateBoard_mirrored (new_game 1 1) (new_game 1 1) true).
  intros y x Hy Hx.
  destruct (below_eight y Hy) as [->|[->|[->|[->|[->|[->|[->| ->]]]]]]];
    destruct (below_eight x Hx) as [->|[->|[->|[->|[->|[->|[->| ->]]]]]]];
    (eexists; split; [reflexivity|split; [vm_compute; split; discriminate|reflexivity]]).
Defined.

(** ** What a move does to the board *)








(** ** The list [AllMoves] gathers *)

Lemma gather_complete (c : Chess) (sq : list (Z * Z)) :
  forall acc l m,
    gather c sq acc = Some l ->
    In m acc \/
    (exists x y lp, In (x, y) sq /\ piece_moves c x y = Some lp /\ In m lp) ->
    In m l.
Proof.
  induction sq as [|[x y] sq IH]; intros acc l m H Hin; cbn [gather] in H.
  - injection H as <-. destruct Hin as [Hin|(? & ? & ? & [] & _)]. exact Hin.
  - destruct (piece_moves c x y) as [lp|] eqn:Hp; [|discriminate].
    cbv beta iota in H. apply (IH _ _ _ H).
    destruct Hin as [Hin|(x' & y' & lp' & [E|Hs] & Hp' & Hm)].
    + left. apply merge_In. now left.
    + injection E as <- <-. rewrite Hp in Hp'. injection Hp' as <-.
      left. apply merge_In. now right.
    + right. exists x', y', lp'. now split.
Qed.

Lemma In_squares (x y : Z) : In (x, y) squares <-> 0 <= x < 8 /\ 0 <= y < 8.
Proof.
  unfold squares, coords. rewrite in_flat_map. split.
  - intros (y' & Hy & H). apply in_map_iff in H. destruct H as (x' & E & Hx).
    injection E as <- <-. cbn [In] in Hx, Hy. lia.
  - intros [Hx Hy]. exists y. split.
    + cbn [In]. lia.
    + apply in_map_iff. exists x. split; [reflexivity|].
      cbn [In]. lia.
Qed.

(** X22.  The double loop of [AllMoves] gathers, before the filtering,
    exactly the moves its body produces for the 64 squares: those of the
    generator of the piece on each square that holds a piece of the side
    to move; merging loses none and adds none. *)
Theorem pseudo_legal_gathers (c : Chess) (pl : list str) :
  pseudo_legal c = Some pl ->
  forall m, In m pl <->
    exists x y lp, 0 <= x < 8 /\ 0 <= y < 8 /\
                   piece_moves c x y = Some lp /\ In m lp.
Proof.
  intros H m. unfold pseudo_legal in H. split.
  - intros Hin. destruct (gather_In _ _ _ _ _ H Hin) as [[]|(x & y & lp & Hs & Hp & Hm)].
    apply In_squares in Hs. exists x, y, lp. tauto.
  - intros (x & y & lp & Hx & Hy & Hp & Hm).
    apply (gather_complete c squares [] pl m H). right.
    exists x, y, lp. split; [|now split]. apply In_squares. now split.
Qed.

Lemma pseudo_legal_gathers_witness :
  In (ToString 4 6 4 4)
     (match pseudo_legal (new_game 1 1) with Some pl => pl | None => [] end) <->
  exists x y lp, 0 <= x < 8 /\ 0 <= y < 8 /\
                 piece_moves (new_game 1 1) x y = Some lp /\ In (ToString 4 6 4 4) lp.
Proof.
  refine (pseudo_legal_gathers (new_game 1 1)
            (match pseudo_legal (new_game 1 1) with Some pl => pl | None => [] end)
            _ (ToString 4 6 4 4)).
  vm_compute. reflexivity.
Defined.

(** ** Castling rights after a move *)

Lemma clear_castling_flag (c : Chess) (t : bool) :
  flag_of (clear_castling c) t
  = if Bool.eqb t (whites_turn c) then false else flag_of c t.
Proof.
  unfold clear_castling, set_current_player, flag_of, GetCurrentPlayerConst.
  destruct (whites_turn c), t; reflexivity.
Qed.

Lemma MovePiece_king_turn (c c' : Chess) (x2 : Z) :
  MovePiece_king c x2 = Some c' -> whites_turn c' = whites_turn c.
Proof.
  unfold MovePiece_king. intros H.
  destruct (castling (GetCurrentPlayerConst c)); [|now injection H as <-].
  destruct (x2 =? 2); [bind_inv H; now injection H as <-|].
  destruct (x2 =? 6); [bind_inv H; now injection H as <-|].
  now injection H as <-.
Qed.

(** X23.  [MovePiece] takes the castling right of the side that moves
    exactly when the piece that moves is its king or one of its rooks
    (either rook: the right is one flag for both wings); the right of the
    other side is never changed, also when its rook is taken. *)
Theorem MovePiece_castling_rights (c c' : Chess) (x1 y1 x2 y2 src : Z) (mp : bool)
    (key : PromotionKey) (ub : bool) (t : bool) :
  rd (board c) y1 x1 = Some src ->
  MovePiece c x1 y1 x2 y2 mp key ub = Some c' ->
  flag_of c' t
  = if Bool.eqb t (whites_turn c) && (is_king src || is_rook src) then false
    else flag_of c t.
Proof.
  intros Hs H. unfold MovePiece in H.
  destruct (AppendToAllGameMoves c x1 y1 x2 y2) as [ca|] eqn:Ea; [|discriminate].
  assert (Ha : board ca = board c /\ whites_turn ca = whites_turn c /\
               flag_of ca t = flag_of c t).
  { unfold AppendToAllGameMoves in Ea. rewrite Hs in Ea. cbv beta iota in Ea.
    match type of Ea with (if ?b then _ else _) = _ => destruct b end.
    - injection Ea as <-. repeat split.
    - destruct (rd (board c) y2 x2); [|discriminate].
      injection Ea as <-. repeat split. }
  destruct Ha as (Hb & Ht & Ha). rewrite Hb, Hs in H. cbv beta iota in H.
  match type of H with
  | match ?e with Some _ => _ | None => None end = Some _ =>
      destruct e as [cb|] eqn:Eb; [|discriminate]
  end.
  assert (Hcb : flag_of cb t
                = if Bool.eqb t (whites_turn c) && (is_king src || is_rook src)
                  then false else flag_of c t).
  { rewrite <- Ha, <- Ht. destruct (is_pawn src) eqn:Ep.
    - destruct (pawn_not_king_rook _ Ep) as [-> ->]. rewrite andb_false_r.
      exact (MovePiece_pawn_flags _ _ _ _ _ _ _ _ _ t Eb).
    - destruct (is_king src).
      + match type of Eb with
        | match ?e with Some _ => _ | None => None end = Some _ =>
            destruct e as [ck|] eqn:Ek; [|discriminate]
        end.
        injection Eb as <-. rewrite clear_castling_flag.
        rewrite (MovePiece_king_turn _ _ _ Ek), (MovePiece_king_flags _ _ _ t Ek).
        cbn [orb]. now rewrite andb_true_r.
      + destruct (is_rook src); injection Eb as <-.
        * rewrite clear_castling_flag. cbn [orb]. now rewrite andb_true_r.
        * cbn [orb]. now rewrite andb_false_r. }
  rewrite <- Hcb. clear Hcb Eb Ea.
  destruct (back (all_game_moves cb)) as [e|]; [|discriminate].
  cbv beta iota in H.
  match type of H with
  | match ?e with Some _ => _ | None => None end = Some _ =>
      destruct e as [cc|] eqn:Ec; [|discriminate]
  end.
  assert (Hc : flag_of cc t = flag_of cb t).
  { destruct (negb (Moves_eqb (fst e) CASTLING)); [|now injection Ec as <-].
    bind_inv Ec. now injection Ec as <-. }
  rewrite <- Hc. clear Hc Ec.
  destruct (shift_cell (board cc) y2 x2 y1 x1 EMPTY) as [b|]; [|discriminate].
  cbv beta iota zeta in H.
  destruct (back (all_game_moves (set_board cc b))) as [e'|]; [|discriminate].
  cbv beta iota in H.
  match type of H with
  | match ?e with Some _ => _ | None => None end = Some _ =>
      destruct e as [cd|] eqn:Ed; [|discriminate]
  end.
  injection H as <-.
  match type of Ed with (if ?b then _ else _) = _ => destruct b end;
    [|now injection Ed as <-].
  bind_inv Ed. destruct (negb (_ =? EMPTY)); injection Ed as <-; [|reflexivity].
  unfold flag_of, set_current_player, GetCurrentPlayerConst. cbn.
  destruct (whites_turn cc), t; reflexivity.
Qed.

Lemma MovePiece_castling_rights_witness :
  flag_of (match MovePiece (new_game 1 1) 7 7 7 5 false key_q true with
           | Some c' => c'
           | None => new_game 1 1
           end) true
  = if Bool.eqb true (whites_turn (new_game 1 1))
       && (is_king W_ROOK || is_rook W_ROOK)
    then false else flag_of (new_game 1 1) true.
Proof.
  refine (MovePiece_castling_rights (new_game 1 1) _ 7 7 7 5 W_ROOK false key_q
            true true _ _).
  - reflexivity.
  - vm_compute. reflexivity.
Defined.

(** ** The choice of [AlphaBetaRoot] *)

Lemma fold_max_ge (l : list Z) :
  forall a, a <= fold_left Z.max l a /\
            forall s, In s l -> s <= fold_left Z.max l a.
Proof.
  induction l as [|x l IH]; intros a; cbn [fold_left].
  - split; [lia|]. intros s [].
  - destruct (IH (Z.max a x)) as [H1 H2]. split; [lia|].
    intros s [<-|Hin]; [lia|now apply H2].
Qed.

(** The loop of [AlphaBetaRoot] keeps the moves whose score is the
    greatest seen, in the order it met them. *)
Lemma root_children_scores (difficulty : nat) (nodes : list Key) :
  forall c ideal_moves max_move_score r c' scores,
    root_children difficulty nodes c ideal_moves max_move_score = Some (r, c') ->
    root_scores difficulty nodes c = Some scores ->
    let best := fold_left Z.max (map snd scores) max_move_score in
    r = inr ((if max_move_score =? best then ideal_moves else [])
             ++ scored best scores).
Proof.
  induction nodes as [|[[[x1 y1] x2] y2] rest IH];
    intros c ideal mx r c' scores H Hs best.
  - injection H as <- _. injection Hs as <-. subst best. cbn [map fold_left].
    rewrite Z.eqb_refl. unfold scored. cbn [filter map]. now rewrite app_nil_r.
  - cbn [root_children root_scores] in H, Hs.
    destruct (GetPiece c x2 y2) as [target|]; [|discriminate].
    cbv beta iota in H, Hs.
    destruct (target =? W_KING - 7 * b2z (GetTurn c)); [discriminate Hs|].
    destruct (MovePiece c x1 y1 x2 y2 false key_q false) as [c1|]; [|discriminate].
    cbv beta iota in H, Hs.
    destruct (AlphaBeta difficulty c1 (2 * -10000) (2 * 10000) false
                        (negb (GetTurn c1))) as [[ms c1']|]; [|discriminate].
    cbv beta iota zeta in H, Hs.
    destruct (MovePieceBack c1' x1 y1 x2 y2) as [c2|]; [|discriminate].
    cbv beta iota in H, Hs.
    destruct (root_scores difficulty rest c2) as [scores'|] eqn:Es; [|discriminate].
    injection Hs as <-.
    rewrite (IH _ _ _ _ _ scores' H Es). f_equal.
    subst best. cbn [map fold_left snd].
    set (M := fold_left Z.max (map snd scores') (Z.max mx ms)).
    destruct (fold_max_ge (map snd scores') (Z.max mx ms)) as [HM _]. fold M in HM.
    unfold scored. cbn [filter snd].
    destruct (Z.gtb_spec ms mx) as [Hgt|Hle].
    + rewrite (proj2 (Z.eqb_neq mx M)) by lia. cbn [app].
      replace (Z.max mx ms) with ms by lia.
      destruct (ms =? M); reflexivity.
    + destruct (Z.eqb_spec ms mx) as [->|Hne].
      * replace (Z.max mx mx) with mx by lia.
        destruct (mx =? M); cbn [map fst app]; [|reflexivity].
        now rewrite <- app_assoc.
      * replace (Z.max mx ms) with mx by lia.
        rewrite (proj2 (Z.eqb_neq ms M)) by lia. reflexivity.
Qed.

(** X24.  When the loop of [AlphaBetaRoot] searches every move (it does not
    return early on a move that takes the king), the move returned is one
    of the moves with the highest score: the one the random draw picks
    among them, taken in the order they were searched. *)
Theorem AlphaBetaRoot_picks_best (c c' c0 : Chess) (difficulty draw : nat)
    (k : Key) (keys : list Key) (scores : list (Key * Z)) :
  AlphaBetaRoot c difficulty draw = Some (k, c') ->
  CreateSubtree c = Some (keys, c0) ->
  root_scores difficulty keys c0 = Some scores ->
  exists s, (forall k' s', In (k', s') scores -> s' <= s) /\
            nth_error (scored s scores) draw = Some k.
Proof.
  intros H Hc Hs. unfold AlphaBetaRoot in H. rewrite Hc in H. cbv beta iota in H.
  destruct (root_children difficulty keys c0 [] (- INF)) as [[r c1]|] eqn:Er;
    [|discriminate].
  pose proof (root_children_scores difficulty keys c0 [] (- INF) r c1 scores Er Hs)
    as Hr.
  cbv zeta in Hr. subst r. cbv beta iota in H.
  set (M := fold_left Z.max (map snd scores) (- INF)) in *.
  assert (Hnil : (if - INF =? M then @nil Key else []) = [])
    by (destruct (- INF =? M); reflexivity).
  rewrite Hnil in H. cbn [app] in H.
  destruct (nth_error (scored M scores) draw) as [k0|] eqn:En; [|discriminate].
  injection H as <- _.
  exists M. split; [|exact En].
  intros k' s' Hin.
  apply (proj2 (fold_max_ge (map snd scores) (- INF))).
  apply in_map_iff. exists (k', s'). now split.
Qed.

Lemma AlphaBetaRoot_picks_best_witness :
  exists s,
    (forall k' s', In (k', s') reply_scores -> s' <= s) /\
    nth_error (scored s reply_scores) 0 = Some (1, 0, 2, 2).
Proof.
  refine (AlphaBetaRoot_picks_best bot_to_reply bot_to_reply bot_to_reply 1 0
            (1, 0, 2, 2) reply_keys reply_scores _ _ _).
  - vm_compute. reflexivity.
  - vm_compute. reflexivity.
  - vm_compute. reflexivity.
Defined.

(** ** The scores after a move *)

Lemma score_set_current_player (c : Chess) (p : Bot) (t : bool) :
  score_of (set_current_player c p) t
  = if Bool.eqb t (whites_turn c) then score p else score_of c t.
Proof.
  unfold set_current_player, score_of.
  destruct (whites_turn c), t; reflexivity.
Qed.

Lemma score_current (c : Chess) :
  score (GetCurrentPlayerConst c) = score_of c (whites_turn c).
Proof. unfold GetCurrentPlayerConst, score_of. now destruct (whites_turn c). Qed.

Lemma score_clear_castling (c : Chess) (t : bool) :
  score_of (clear_castling c) t = score_of c t.
Proof.
  unfold clear_castling, set_current_player, score_of, GetCurrentPlayerConst.
  destruct (whites_turn c), t; reflexivity.
Qed.

(** The pawn's case of the switch: the score changes in the capture en
    passant only, and only with the display on. *)
Lemma MovePiece_pawn_scores (c c' : Chess) (x1 y1 x2 y2 : Z) (mp : bool)
    (key : PromotionKey) (ub : bool) (l : list LogEntry) (e0 : LogEntry)
    (t : bool) :
  all_game_moves c = l ++ [e0] -> fst e0 = NORMAL ->
  MovePiece_pawn c x1 y1 x2 y2 mp key ub = Some c' ->
  exists e1, all_game_moves c' = l ++ [e1] /\
    (exists rest, snd e1 = snd e0 ++ rest) /\
    whites_turn c' = whites_turn c /\
    (fst e1 = EN_PASSANT -> rd (board c) y2 x2 = Some EMPTY) /\
    score_of c' t
    = if ub && Moves_eqb (fst e1) EN_PASSANT && Bool.eqb t (whites_turn c)
      then (score_of c t + EvaluatePiece W_PAWN) mod 65536
      else score_of c t.
Proof.
  intros Hl Hn H. unfold MovePiece_pawn in H.
  destruct (y2 =? (BOARD_SIZE - 1) * b2z (negb (whites_turn c))).
  - bind_inv H. bind_inv H. bind_inv H. injection H as <-.
    assert (Hc0 : all_game_moves c0 = l ++ [e0] /\ whites_turn c0 = whites_turn c /\
                  score_of c0 t = score_of c t).
    { destruct mp.
      - unfold ManuallyPromotePawn in E. bind_inv E. injection E as <-. now cbn.
      - destruct (if whites_turn c then white_bot_random c else black_bot_random c);
          [discriminate|].
        bind_inv E. injection E as <-. now cbn. }
    destruct Hc0 as (Hc0 & Ht & Hsc). rewrite Hc0, modify_back_snoc in E1.
    injection E1 as <-. cbn [all_game_moves set_log whites_turn].
    eexists. split; [reflexivity|]. cbn [fst snd set_kind push_char Moves_eqb].
    split; [eexists; reflexivity|]. split; [exact Ht|].
    split; [discriminate|].
    rewrite andb_false_r. exact Hsc.
  - destruct (negb (x1 =? x2)).
    + bind_inv H. destruct (Z.eqb_spec z EMPTY) as [Ez|Ez].
      * subst z. bind_inv H. bind_inv H. injection H as <-.
        set (c1 := set_board c b) in *.
        assert (Hlog : all_game_moves
                  (if ub then set_current_player c1
                       (IncreaseScore (GetCurrentPlayerConst c1)
                          (EvaluatePiece W_PAWN))
                   else c1) = l ++ [e0]).
        { destruct ub; rewrite ?log_set_current_player; exact Hl. }
        rewrite Hlog, modify_back_snoc in E1. injection E1 as <-.
        cbn [all_game_moves set_log whites_turn].
        eexists. split; [reflexivity|]. cbn [fst snd set_kind Moves_eqb].
        split; [exists []; now rewrite app_nil_r|].
        split; [destruct ub; rewrite ?turn_set_current_player; reflexivity|].
        split; [intros _; first [assumption|reflexivity]|].
        rewrite andb_true_r.
        destruct ub; cbn [andb].
        -- change (score_of (set_log ?d ?k) t) with (score_of d t).
           rewrite score_set_current_player.
           change (whites_turn c1) with (whites_turn c).
           destruct (Bool.eqb t (whites_turn c)) eqn:Et; [|reflexivity].
           apply eqb_prop in Et. subst t.
           unfold IncreaseScore. cbn [score]. now rewrite score_current.
        -- reflexivity.
      * injection H as <-. exists e0. split; [exact Hl|].
        split; [exists []; now rewrite app_nil_r|]. split; [reflexivity|].
        rewrite Hn. split; [discriminate|].
        cbn [Moves_eqb]. now rewrite andb_false_r.
    + injection H as <-. exists e0. split; [exact Hl|].
      split; [exists []; now rewrite app_nil_r|]. split; [reflexivity|].
      rewrite Hn. split; [discriminate|].
      cbn [Moves_eqb]. now rewrite andb_false_r.
Qed.

(** X25.  With the display on, [MovePiece] adds to the score of the side
    that moves the value of the piece that stood on the target square,
    when the move is recorded as [NORMAL] or [PROMOTION] and the square
    was not empty, and the value of a pawn when it is recorded as
    [EN_PASSANT]; a castling scores nothing.  Scores are [unsigned
    short]: they wrap at 65536.  Without display, and for the other side,
    no score changes. *)
Theorem MovePiece_scores (c c' : Chess) (x1 y1 x2 y2 src dst : Z) (mp : bool)
    (key : PromotionKey) (ub : bool) :
  rd (board c) y1 x1 = Some src -> rd (board c) y2 x2 = Some dst ->
  MovePiece c x1 y1 x2 y2 mp key ub = Some c' ->
  exists e, back (all_game_moves c') = Some e /\
    score_of c' (negb (whites_turn c)) = score_of c (negb (whites_turn c)) /\
    score_of c' (whites_turn c)
    = if ub then
        match fst e with
        | CASTLING => score_of c (whites_turn c)
        | EN_PASSANT =>
            (score_of c (whites_turn c) + EvaluatePiece W_PAWN) mod 65536
        | _ =>
            if dst =? EMPTY then score_of c (whites_turn c)
            else (score_of c (whites_turn c) + EvaluatePiece dst) mod 65536
        end
      else score_of c (whites_turn c).
Proof.
  intros Hs Hd H.
  assert (Hall : exists e, back (all_game_moves c') = Some e /\
    forall t, score_of c' t
      = if ub && Bool.eqb t (whites_turn c) then
          match fst e with
          | CASTLING => score_of c t
          | EN_PASSANT => (score_of c t + EvaluatePiece W_PAWN) mod 65536
          | _ => if dst =? EMPTY then score_of c t
                 else (score_of c t + EvaluatePiece dst) mod 65536
          end
        else score_of c t).
  2:{ destruct Hall as (e & He & Hsc). exists e. split; [exact He|]. split.
      - rewrite Hsc. destruct (whites_turn c); cbn [negb Bool.eqb];
          now rewrite andb_false_r.
      - rewrite Hsc, eqb_reflx, andb_true_r. reflexivity. }
  unfold MovePiece in H.
  destruct (AppendToAllGameMoves c x1 y1 x2 y2) as [ca|] eqn:Ea; [|discriminate].
  assert (Ha : board ca = board c /\ whites_turn ca = whites_turn c /\
               (forall t, score_of ca t = score_of c t) /\
               exists e0, all_game_moves ca = all_game_moves c ++ [e0] /\
                 ((e0 = (CASTLING, [to_char x2]) /\ is_king src = true) \/
                  e0 = (NORMAL, ToString x1 y1 x2 y2 ++ [src; dst]))).
  { unfold AppendToAllGameMoves in Ea. rewrite Hs in Ea. cbv beta iota in Ea.
    match type of Ea with (if ?b then _ else _) = _ => destruct b eqn:Et end.
    - injection Ea as <-. repeat split. eexists. split; [reflexivity|]. left.
      split; [reflexivity|].
      apply andb_true_iff in Et. destruct Et as [Et _].
      apply andb_true_iff in Et. destruct Et as [_ Et].
      apply Z.eqb_eq in Et. subst src. unfold is_king.
      destruct (whites_turn c); reflexivity.
    - rewrite Hd in Ea. injection Ea as <-. repeat split.
      eexists. split; [reflexivity|]. now right. }
  destruct Ha as (Hb & Ht & Hsa & e0 & Hl0 & He0).
  rewrite Hb, Hs in H. cbv beta iota in H.
  match type of H with
  | match ?e with Some _ => _ | None => None end = Some _ =>
      destruct e as [cb|] eqn:Eb; [|discriminate]
  end.
  assert (HB : exists e1, all_game_moves cb = all_game_moves c ++ [e1] /\
    whites_turn cb = whites_turn c /\
    (fst e1 = CASTLING \/
     (exists rest, snd e1 = (ToString x1 y1 x2 y2 ++ [src; dst]) ++ rest) /\
     (fst e1 = EN_PASSANT -> dst = EMPTY)) /\
    forall t, score_of cb t
      = if ub && Moves_eqb (fst e1) EN_PASSANT && Bool.eqb t (whites_turn c)
        then (score_of c t + EvaluatePiece W_PAWN) mod 65536
        else score_of c t).
  { assert (Hsame : (forall t, score_of cb t = score_of ca t) ->
                    all_game_moves cb = all_game_moves ca ->
                    whites_turn cb = whites_turn ca ->
                    exists e1, all_game_moves cb = all_game_moves c ++ [e1] /\
      whites_turn cb = whites_turn c /\
      (fst e1 = CASTLING \/
       (exists rest, snd e1 = (ToString x1 y1 x2 y2 ++ [src; dst]) ++ rest) /\
       (fst e1 = EN_PASSANT -> dst = EMPTY)) /\
      forall t, score_of cb t
        = if ub && Moves_eqb (fst e1) EN_PASSANT && Bool.eqb t (whites_turn c)
          then (score_of c t + EvaluatePiece W_PAWN) mod 65536
          else score_of c t).
    { intros Hsc Hlg Htn. exists e0. split; [now rewrite Hlg|].
      split; [now rewrite Htn|]. split.
      - destruct He0 as [[-> _]| ->]; [now left|right].
        split; [exists []; now rewrite app_nil_r|discriminate].
      - intros t. rewrite Hsc, Hsa.
        destruct He0 as [[-> _]| ->]; cbn [fst Moves_eqb];
          now rewrite andb_false_r. }
    destruct (is_pawn src) eqn:Ep.
    - assert (Hn : fst e0 = NORMAL).
      { destruct He0 as [[_ Hk]| ->]; [|reflexivity].
        apply king_not_pawn in Hk. congruence. }
      assert (E0 : e0 = (NORMAL, ToString x1 y1 x2 y2 ++ [src; dst])).
      { destruct He0 as [[-> _]| ->]; [discriminate Hn|reflexivity]. }
      assert (Hex : forall t, exists e1,
                all_game_moves cb = all_game_moves c ++ [e1] /\
                (exists rest, snd e1 = snd e0 ++ rest) /\
                whites_turn cb = whites_turn ca /\
                (fst e1 = EN_PASSANT -> rd (board ca) y2 x2 = Some EMPTY) /\
                score_of cb t
                = if ub && Moves_eqb (fst e1) EN_PASSANT && Bool.eqb t (whites_turn ca)
                  then (score_of ca t + EvaluatePiece W_PAWN) mod 65536
                  else score_of ca t).
      { intros t. exact (MovePiece_pawn_scores ca cb x1 y1 x2 y2 mp key ub _ e0 t
                           Hl0 Hn Eb). }
      destruct (Hex true) as (e1 & Hl1 & Hrest & Htn & Hep & _).
      exists e1. split; [exact Hl1|]. split; [now rewrite Htn|]. split.
      + right. rewrite E0 in Hrest. split; [exact Hrest|].
        intros Hk. specialize (Hep Hk). rewrite Hb, Hd in Hep. now injection Hep.
      + intros t. destruct (Hex t) as (e1' & Hl1' & _ & _ & _ & Hsc).
        rewrite Hl1 in Hl1'. apply app_inv_head in Hl1'. injection Hl1' as <-.
        rewrite Hsc, Ht, Hsa. reflexivity.
    - destruct (is_king src).
      + match type of Eb with
        | match ?e with Some _ => _ | None => None end = Some _ =>
            destruct e as [ck|] eqn:Ek; [|discriminate]
        end.
        injection Eb as <-.
        destruct (MovePiece_king_frame _ _ _ Ek) as (Hkl & Hkt & Hkw & Hkb).
        apply Hsame.
        * intros t. rewrite score_clear_castling. unfold score_of.
          now rewrite Hkw, Hkb.
        * now rewrite log_clear_castling.
        * unfold clear_castling. now rewrite turn_set_current_player.
      + destruct (is_rook src); injection Eb as <-.
        * apply Hsame.
          -- intros t. apply score_clear_castling.
          -- apply log_clear_castling.
          -- unfold clear_castling. now rewrite turn_set_current_player.
        * apply Hsame; reflexivity. }
  destruct HB as (e1 & Hl1 & Htb & Hkind & Hsb). clear Eb Ea.
  rewrite Hl1, back_snoc in H. cbv beta iota in H.
  match type of H with
  | match ?e with Some _ => _ | None => None end = Some _ =>
      destruct e as [cc|] eqn:Ec; [|discriminate]
  end.
  set (e2 := if negb (Moves_eqb (fst e1) CASTLING)
             then push_char (b2z (castling (GetCurrentPlayerConst cb))) e1
             else e1).
  assert (HC : all_game_moves cc = all_game_moves c ++ [e2] /\
               whites_turn cc = whites_turn c /\
               forall t, score_of cc t = score_of cb t).
  { subst e2. destruct (negb (Moves_eqb (fst e1) CASTLING)).
    - rewrite ?Hl1, modify_back_snoc in Ec. injection Ec as <-.
      cbn [all_game_moves set_log whites_turn]. repeat split; assumption.
    - injection Ec as <-. repeat split; assumption. }
  destruct HC as (Hl2 & Htc & Hsc2). clear Ec.
  destruct (shift_cell (board cc) y2 x2 y1 x1 EMPTY) as [b|]; [|discriminate].
  cbv beta iota zeta in H.
  change (all_game_moves (set_board cc b)) with (all_game_moves cc) in H.
  rewrite Hl2, back_snoc in H. cbv beta iota in H.
  match type of H with
  | match ?e with Some _ => _ | None => None end = Some _ =>
      destruct e as [cd|] eqn:Ed; [|discriminate]
  end.
  injection H as <-.
  assert (Hf2 : fst e2 = fst e1)
    by (subst e2; destruct (negb (Moves_eqb (fst e1) CASTLING)); reflexivity).
  assert (Hcap : fst e1 <> CASTLING -> sget (snd e2) 5 = Some dst).
  { intros Hn. destruct Hkind as [Hk|[(rest & Hr) _]]; [contradiction|].
    subst e2. destruct (negb (Moves_eqb (fst e1) CASTLING)); cbn [push_char snd];
      rewrite Hr, <- ?app_assoc; cbn [app]; apply sget_entry_5. }
  assert (HD : all_game_moves cd = all_game_moves c ++ [e2] /\
    forall t, score_of cd t
      = if ub && negb (Moves_eqb (fst e1) CASTLING) && negb (dst =? EMPTY)
           && Bool.eqb t (whites_turn c)
        then (score_of cb t + EvaluatePiece dst) mod 65536
        else score_of cb t).
  { rewrite Hf2 in Ed.
    destruct (ub && negb (Moves_eqb (fst e1) CASTLING)) eqn:Eu.
    - apply andb_true_iff in Eu. destruct Eu as [-> Eu]. cbn [andb].
      assert (Hn : fst e1 <> CASTLING).
      { intros E. rewrite E in Eu. discriminate Eu. }
      rewrite (Hcap Hn) in Ed. cbv beta iota in Ed.
      destruct (negb (dst =? EMPTY)); injection Ed as <-; cbn [andb].
      + split; [cbn [all_game_moves set_counter];
                now rewrite log_set_current_player|].
        intros t.
        change (score_of (set_counter ?d 0) t) with (score_of d t).
        rewrite score_set_current_player.
        change (whites_turn (set_board cc b)) with (whites_turn cc). rewrite Htc.
        destruct (Bool.eqb t (whites_turn c)) eqn:Et.
        * apply eqb_prop in Et. subst t. unfold IncreaseScore. cbn [score].
          rewrite score_current.
          change (whites_turn (set_board cc b)) with (whites_turn cc).
          rewrite Htc.
          change (score_of (set_board cc b) (whites_turn c))
            with (score_of cc (whites_turn c)).
          now rewrite Hsc2.
        * change (score_of (set_board cc b) t) with (score_of cc t). apply Hsc2.
      + split; [exact Hl2|]. intros t.
        change (score_of (set_board cc b) t) with (score_of cc t). apply Hsc2.
    - injection Ed as <-. split; [exact Hl2|]. intros t.
      change (score_of (set_board cc b) t) with (score_of cc t).
      rewrite Hsc2. reflexivity. }
  destruct HD as (Hl3 & Hsd).
  exists e2. split.
  { change (all_game_moves (ChangeTurn cd)) with (all_game_moves cd).
    now rewrite Hl3, back_snoc. }
  intros t. change (score_of (ChangeTurn cd) t) with (score_of cd t).
  rewrite Hsd, Hsb, Hf2.
  destruct ub; cbn [andb]; [|reflexivity].
  destruct (Bool.eqb t (whites_turn c)); [|now rewrite !andb_false_r].
  rewrite !andb_true_r.
  destruct Hkind as [Hk|[_ Hep]].
  - rewrite Hk. reflexivity.
  - destruct (fst e1) eqn:Ek; cbn [Moves_eqb negb andb];
      try (destruct (dst =? EMPTY); reflexivity).
    rewrite (Hep eq_refl). reflexivity.
Qed.

Lemma MovePiece_scores_witness :
  exists e,
    back (all_game_moves
            (match MovePiece after_d7d5 4 3 3 2 false key_q true with
             | Some c' => c'
             | None => after_d7d5
             end)) = Some e /\
    score_of (match MovePiece after_d7d5 4 3 3 2 false key_q true with
              | Some c' => c'
              | None => after_d7d5
              end) (negb (whites_turn after_d7d5))
    = score_of after_d7d5 (negb (whites_turn after_d7d5)) /\
    score_of (match MovePiece after_d7d5 4 3 3 2 false key_q true with
              | Some c' => c'
              | None => after_d7d5
              end) (whites_turn after_d7d5)
    = if true then
        match fst e with
        | CASTLING => score_of after_d7d5 (whites_turn after_d7d5)
        | EN_PASSANT =>
            (score_of after_d7d5 (whites_turn after_d7d5) + EvaluatePiece W_PAWN)
            mod 65536
        | _ =>
            if EMPTY =? EMPTY then score_of after_d7d5 (whites_turn after_d7d5)
            else (score_of after_d7d5 (whites_turn after_d7d5)
                  + EvaluatePiece EMPTY) mod 65536
        end
      else score_of after_d7d5 (whites_turn after_d7d5).
Proof.
  refine (MovePiece_scores after_d7d5
            (match MovePiece after_d7d5 4 3 3 2 false key_q true with
             | Some c' => c'
             | None => after_d7d5
             end) 4 3 3 2 W_PAWN EMPTY false key_q true _ _ _).
  - reflexivity.
  - reflexivity.
  - vm_compute. reflexivity.
Defined.
